(* ===== verification/_CoqProject ===== *)
-Q . S2P
Prelude.v
PyStr.v
PyFloat.v
FloatOrder.v
PyTime.v
Sha256.v
Json.v
PyRepr.v
Auth.v
Tools.v
Banking.v
BankingTools.v
HitlStore.v
GrantRepo.v
IdempotencyStore.v
Sql.v
Migrations.v
SqlStmt.v
GrantSql.v
IdempotencySql.v
HitlSql.v
Checkpoints.v
CheckpointSql.v
EventStore.v
EventSql.v
AuditTrail.v
DataProtection.v
Memory.v
Retrieval.v
Oidc.v
Governance.v
Reliability.v
Connections.v
Effects.v
Approval.v
SqlWorld.v
Graph.v
Provider.v
Routing.v
Orchestration.v
Security.v
Records.v
Runtime.v
Config.v
Bootstrap.v
Conversation.v
Api.v
Sandbox.v
Upstream.v
Observability.v
Runs.v
Evaluation.v
Clients.v
EndToEnd.v
Server.v
Benchmark.v
