(* ===== verification/Prelude.v ===== *)
(** * The FxFill banking agent: models and proofs

    A library about the Python program under src/src/fxfill_banking_agent (paths below are
    relative to it): an agent that answers banking requests with a language model, calls
    banking tools, and asks a human before it moves money.  Definitions are translations of
    the source, executable, named as in the source; theorems are about them.

    ** The program and how its parts interact

    A request enters the API (api.py), gets an identity (auth_middleware.py,
    security/context.py) and a conversation thread, passes a rate limiter, and is handed to
    the agent runtime (agent.py).  The runtime asks the router (routing/) for an intent and a
    route: one tool called directly, a plan validated and executed step by step
    (orchestration/), retrieved documents (rag/), the transfer workflow, or the agent graph
    (graph.py).  The graph alternates between the model (providers/) and a tool node, which
    validates each call against the registry (tools/), authorizes it (auth.py), interrupts
    when a human must decide, and dispatches it to the banking server (banking/) under an
    idempotency key (idempotency_store.py).  An interrupt leaves an approval session
    (hitl_store.py) and a grant (grant_repo.py); the approval endpoint runs the executor
    (approval_executor.py), which claims the grant, dispatches the operation and resumes the
    graph from its checkpoint (checkpoint_store.py).  Durable state lives in SQLite, whose
    schema db.py creates and migrates.  bootstrap.py puts the parts together.  Beside this
    path stand reliability.py, lifecycle.py, agentops.py, audit/, governance/,
    prompt_registry.py, memory/, redaction (data_security.py, redacted_logger.py),
    security/oidc.py, tracing and metrics, the offline evaluation of the agent, and a sandbox
    behind the core-banking ports (adapters/, next to the package).

    ** The language

    - Prelude: results and exceptions, dictionaries in insertion order, slices, stable
      sorting, reachability by a step relation, tasks interleaved over a shared state; the
      tactics and the hint database [fxfill].
    - PyStr, PyRepr: texts as UTF-8 bytes, their methods, [repr] and [str].
    - PyFloat: binary64 arithmetic, bit for bit, and the shortest decimal text.
    - PyTime: UTC datetimes as microseconds, [isoformat], [fromisoformat].
    - Json: values, [dumps] on one line and indented, [loads] and their round trips.
      Sha256: the digest.
    - Sql: the statements of SQLite that the migrations use, constraints and implicit
      transactions included.  SqlStmt: those the stores use, ORDER BY as the set of orders it
      allows, the class [Stored] of records kept in a table, against which a table is related
      to a map once for all stores, and tables related to lists.
    - Effects: programs over the durable stores, run alone or interleaved one statement at a
      time, where any statement may also fail or read an older state.

    ** The components

    - Auth: auth.py.  Policies are instances of the class [AuthorizationPolicy], against
      which the gateway and the graph are proved.
    - Tools: tools/.  Banking, BankingTools: banking/.
    - HitlStore, GrantRepo, IdempotencyStore, EventStore (persistence.py), Checkpoints:
      the durable stores, one definition per statement.  Migrations: db.py.  GrantSql,
      IdempotencySql, HitlSql, CheckpointSql, EventSql: the stores once more, as the SQL they
      send to the migrated tables.  Connections: who opens and closes the database (db.py, the handles of the
      stores, lifecycle.py and the opening phase of bootstrap.py).
    - Approval: approval_executor.py and actor_resolver.py, as [Effects] programs.
      SqlWorld: the operations of such programs as SQL on the one file the stores share.
    - Graph: graph.py.   Provider: providers/ and llm.py.   Routing: routing/ and
      model_router.py.   Orchestration: orchestration/.   Runtime: agent.py and
      resume_service.py.
    - Security: security/context.py, security/authorization.py, auth_middleware.py, iam.py.
      Oidc: security/oidc.py.
    - Config, Bootstrap (bootstrap.py, server.py, mcp/client.py), Conversation, Api (the
      endpoints of api.py).  Server: the application [create_app] assembles from them, its
      middleware stack and routes, serving requests; the web framework is a class.
    - AuditTrail (audit/), Governance (governance/, prompt_registry.py), Reliability (reliability.py,
      lifecycle.py, agentops.py), DataProtection, Memory, Retrieval (rag/).
    - Observability: observability.py, metrics.py, errors.py, telemetry.py.   Runs: the
      constructor of the runtime, what it hands to the graph, and its runs interleaved on
      the metrics collector they share (agent.py, graph.py, metrics.py).   Evaluation:
      eval_runner.py, evaluation.py, ai_security.py, evidence.py, and the harness run against
      the agent.   Clients: mcp/client.py over a transport class, mcp_client.py, storage.py,
      postgres_backend.py, runtime_factory.py.   Sandbox: adapters/, with the ports as classes
      that carry a contract.   Upstream: upstream.py.   Benchmark: scripts/run_benchmark.py.
      Records: the data declared for operations that do not exist.
    - EndToEnd: the graph with the provider as its model, the runtime with the retriever as
      its documents.

    State is explicit: a store is a map or a list of rows, a service a record, an operation a
    function to its result and the new state.  What Python raises is a [Raise]; conditions,
    early returns and the order of effects follow the source.  Clock readings, fresh
    identifiers, the answers of models and servers, and the iteration order of sets are
    arguments.

    ** What the theorems show

    - Approval: over every interleaving of requests an approved operation is dispatched at
      most once, by an APPROVED grant that matches it; the outcome of each branch of the
      executor; the state machines of grants, sessions and keys; what the endpoint leaves
      for an interrupted run is exactly what the executor demands.  And that the endpoint
      nevertheless dispatches a successful operation again ([approved_operation_runs_twice]).
    - Authorization: what the graph and the runtime dispatch was validated and approved, on
      every route, and which route asks no gateway; a grant authorizes exactly its operation;
      tenant and role policies; bearer tokens are accepted only with a verified key.
    - Money: balances are the replay of the ledger and never negative; each key completes at
      most one transfer; a tool touches only the accounts of its caller; of the calls that
      conform to their schema just the drafts of an amount no float can hold raise.
    - Termination and bounds: the agent loop, the retry loop, the plan validator and its
      depth-first search; the rate limiter's exact bound in any window; the memory bound.
    - Durability: every version of the database upgrades to the schema of a fresh start with
      all its rows, no crash loses a row, and exactly which crashes of the first start leave
      a database that never starts again; checkpoints and approval sessions are read back.
    - Reference behaviour: plan validation, tool-call validation, ranking and tenant
      isolation of retrieval, registries, redaction, the hash chain of the audit trail, the
      circuit breaker's recovery, memory as the end of the full history.
    - The composed application: what [bootstrap] builds never writes and never asks for an
      approval, and why; every dispatched call is one the endpoint asked for, an endpoint in
      trouble looks like an empty answer, no other tenant's document reaches the model, and a
      refused request touches nothing; what the offline evaluation can and cannot see.
    - Stand-ins: the sandbox keeps the contract its ports promise to any client, the client
      over the in-process bank is the call the application is proved with, the stub replays,
      a lock file is read back.
    - The service: what each request amounts to through the whole stack; that no sequence of
      requests writes to the bank, or gets an approval through when the resolver knows no actor
      but the request's; that the limiter does not hold
      a caller who names new tenants; that of overlapping runs all but one fail.
    - The database underneath: the SQL of the grants, sessions and idempotency stores refines
      their maps, call by call, and that of the checkpoint saver and the event store their
      lists, with exactly the answers that rows of equal time leave open.  On the file the
      stores share, requests do what they do on the maps until a constraint refuses an INSERT:
      that leaves a transaction open and the file locked for the other stores, so that an
      approval can be granted and then fail ([approval_after_first_event_is_locked_out]).
      Interleaved, with whatever fails for the lock, each operation is still dispatched at most
      once.  Which connections are lost, and that every one opened through db.py can still be
      closed.
    - The benchmark's report is read back as it was written, and the model of a
      profile is never used.

    ** Fuel

    [Json.loads] has twice the length of the text plus one, which [loads_dumps] shows enough
    for all that [dumps] writes within the limits of [loads], 4300 digits of an integer and
    [nesting_limit] levels; the decimal functions of PyStr and PyFloat have the
    logarithm of the number; [replace_str] the length of the text; [Sha256] the number of
    bytes.  The agent loop runs as many passes as its step limit leaves ([agent_loop_bounded]
    shows that it ends before they are spent), the depth-first search of a plan has the
    number of steps, the planner its three attempts, the retry loop its configured retries.

    ** What is not modelled

    Third-party code and pure input and output: LangGraph's own scheduling and the loading of
    a suspended state (an argument of the approval endpoint), pydantic's messages, the inside of
    FastAPI and Starlette (a class with the laws the program relies on), SQLite's pragmas and files,
    asyncpg, HTTP transports, PyJWT, structlog's rendering, argparse and what is printed.  The
    requests of Server are served one after the other; what happens when they overlap is
    shown where they share state: the durable stores (Effects, Approval), the connections
    (Connections) and the metrics (Runs).  Latencies are left out.  Protocols without any implementation
    (health checks, migration managers, the AML and sanctions ports) and re-exports have no
    definitions.  [Json.dumps] is total, where Python raises on an integer of more than 4300
    digits.  The clock of the rate limiter is read in integers, where the code has a float of
    seconds; that of the circuit breaker in floats.  A statement that finds the database locked
    fails at once, where Python waits five seconds first.  Texts are bytes: case mapping and slicing by characters are Python's on ASCII.  Datetimes
    with another offset than UTC and the rarer ISO layouts count as malformed. *)
From stdpp Require Export base option list strings gmap pretty.
From Stdlib Require Export ZArith Lia Sorting.Sorted.
From Stdlib Require Ascii.
Export Ascii.AsciiSyntax.
#[global] Delimit Scope char_scope with char.

Declare Scope py_scope.
Delimit Scope py_scope with py.
#[global] Open Scope string_scope.
#[global] Open Scope Z_scope.
#[global] Open Scope list_scope.

Create HintDb fxfill.

(** ** Python exceptions and fallible results *)

(** The exception classes the source raises or lets escape.  [HTTPException]
    carries the status code the endpoint answers with. *)
Inductive exn : Type :=
  | RuntimeError (msg : string)
  | ValueError (msg : string)
  | KeyError (key : string)
  | TypeError (msg : string)
  | AttributeError (msg : string)
  | IndexError (msg : string)
  | IntegrityError (constraint : string)
  | OperationalError (msg : string)
  | JSONDecodeError
  | RecursionError (msg : string)
  | OverflowError (msg : string)
  | HITLConfigurationError (msg : string)
  | FileNotFoundError (msg : string)
  | HTTPException (status_code : Z) (detail : string).

#[export] Instance exn_eq_dec : EqDecision exn.
Proof. solve_decision. Defined.

(** The outcome of a Python call: a value, or an escaping exception. *)
Inductive result (A : Type) : Type :=
  | Ok (a : A)
  | Raise (e : exn).
Arguments Ok {A} a.
Arguments Raise {A} e.

#[export] Instance result_eq_dec {A} `{EqDecision A} : EqDecision (result A).
Proof. solve_decision. Defined.

Definition res_bind {A B} (m : result A) (k : A -> result B) : result B :=
  match m with Ok a => k a | Raise e => Raise e end.

Definition res_map {A B} (f : A -> B) (m : result A) : result B :=
  res_bind m (fun a => Ok (f a)).

(** [try: m  except Exception: h]. *)
Definition res_catch {A} (m : result A) (h : exn -> result A) : result A :=
  match m with Ok a => Ok a | Raise e => h e end.

Definition is_ok {A} (m : result A) : bool :=
  match m with Ok _ => true | Raise _ => false end.

Notation "'let*' x ':=' m 'in' k" := (res_bind m (fun x => k))
  (at level 200, x pattern, m at level 100, k at level 200, right associativity) : py_scope.
#[global] Open Scope py_scope.

Lemma res_bind_ok {A B} (m : result A) (k : A -> result B) b :
  res_bind m k = Ok b <-> exists a, m = Ok a /\ k a = Ok b.
Proof. destruct m; naive_solver. Qed.

Lemma res_bind_raise {A B} (m : result A) (k : A -> result B) e :
  res_bind m k = Raise e <-> m = Raise e \/ exists a, m = Ok a /\ k a = Raise e.
Proof. destruct m; naive_solver. Qed.

Lemma res_bind_assoc {A B C} (m : result A) (f : A -> result B) (g : B -> result C) :
  res_bind (res_bind m f) g = res_bind m (fun a => res_bind (f a) g).
Proof. by destruct m. Qed.

(** Sequencing a list of fallible calls, stopping at the first exception. *)
Fixpoint res_mapM {A B} (f : A -> result B) (l : list A) : result (list B) :=
  match l with
  | [] => Ok []
  | x :: l' => let* y := f x in let* ys := res_mapM f l' in Ok (y :: ys)
  end.

Lemma res_mapM_ok {A B} (f : A -> result B) l ys :
  res_mapM f l = Ok ys <-> Forall2 (fun x y => f x = Ok y) l ys.
Proof.
  revert ys; induction l as [|x l IH]; intros ys; cbn.
  - split; [intros [= <-]; constructor|]. intros H; by inversion H.
  - rewrite res_bind_ok. split.
    + intros (y & Hy & (ys' & Hys & [= <-])%res_bind_ok).
      constructor; [done|]. by apply IH.
    + intros (y & ys' & Hy & Hl & ->)%Forall2_cons_inv_l.
      exists y. split; [done|]. apply res_bind_ok. exists ys'. split; [by apply IH|done].
Qed.

(** ** Python truthiness of the values the source tests with [if x:] *)

Definition str_true (s : string) : bool := negb (String.eqb s "").
Definition list_true {A} (l : list A) : bool := match l with [] => false | _ => true end.
Definition opt_str_true (o : option string) : bool :=
  match o with Some s => str_true s | None => false end.
Definition is_none {A} (o : option A) : bool := match o with None => true | _ => false end.
Definition is_some {A} (o : option A) : bool := match o with None => false | _ => true end.

(** [a or b] on strings, and on an optional string with a default. *)
Definition str_or (a b : string) : string := if str_true a then a else b.
Definition opt_or (a : option string) (b : string) : string :=
  match a with Some s => str_or s b | None => b end.

Lemma str_true_spec s : str_true s = true <-> s <> "".
Proof. unfold str_true. rewrite negb_true_iff, String.eqb_neq. done. Qed.

Lemma str_true_false s : str_true s = false <-> s = "".
Proof. unfold str_true. rewrite negb_false_iff, String.eqb_eq. done. Qed.

(** ** Decidable string tests as booleans *)

Definition str_in (s : string) (l : list string) : bool := existsb (String.eqb s) l.

Lemma str_in_spec s l : str_in s l = true <-> s ∈ l.
Proof.
  unfold str_in. rewrite existsb_exists. setoid_rewrite String.eqb_eq.
  rewrite list_elem_of_In. naive_solver.
Qed.

Lemma str_in_false s l : str_in s l = false <-> s ∉ l.
Proof. rewrite <-not_true_iff_false, str_in_spec. done. Qed.

#[global] Arguments str_in : simpl never.

(** A set built from a list, as [set(xs)]: its size is that of the list when
    the list has no duplicates. *)
Lemma size_list_to_set_NoDup (l : list string) :
  size (list_to_set l : gset string) = length l <-> NoDup l.
Proof.
  induction l as [|x l IH]; cbn.
  - split; [constructor|]. intros _. by rewrite size_empty.
  - destruct (decide (x ∈ l)) as [Hin|Hnin].
    + replace ({[x]} ∪ list_to_set l : gset string) with (list_to_set l : gset string) by set_solver.
      assert (size (list_to_set l : gset string) <= length l)%nat.
      { clear. induction l as [|y l IH]; cbn; [by rewrite size_empty|].
        pose proof (size_union_alt {[y]} (list_to_set l : gset string)) as ->.
        rewrite size_singleton.
        assert (size ((list_to_set l : gset string) ∖ {[y]}) <= size (list_to_set l : gset string))%nat
          by (apply subseteq_size; set_solver). lia. }
      split; [lia|]. intros Hnd. by inversion Hnd.
    + rewrite size_union by set_solver. rewrite size_singleton.
      rewrite NoDup_cons, <-IH. split; [intros; split; [done|lia]|intros [_ H]; lia].
Qed.

(** Counting the elements of a list that satisfy a boolean predicate. *)
Definition countb {A} (p : A -> bool) (l : list A) : nat := length (List.filter p l).

Lemma countb_app {A} (p : A -> bool) l k : countb p (l ++ k) = (countb p l + countb p k)%nat.
Proof. unfold countb. by rewrite List.filter_app, length_app. Qed.

Lemma countb_cons {A} (p : A -> bool) x l :
  countb p (x :: l) = ((if p x then 1 else 0) + countb p l)%nat.
Proof. unfold countb; cbn. by destruct (p x). Qed.

Lemma countb_0 {A} (p : A -> bool) l : countb p l = 0%nat <-> (forall x, x ∈ l -> p x = false).
Proof.
  induction l as [|x l IH].
  - split; [intros _ y Hy; by apply not_elem_of_nil in Hy|done].
  - rewrite countb_cons. destruct (p x) eqn:E.
    + split; [lia|]. intros H. specialize (H x ltac:(by left)). congruence.
    + rewrite Nat.add_0_l, IH. split.
      * intros H y [->|Hy]%elem_of_cons; auto.
      * intros H y Hy. apply H. by right.
Qed.

Lemma countb_perm {A} (p : A -> bool) l k : l ≡ₚ k -> countb p l = countb p k.
Proof. unfold countb. induction 1; cbn; repeat case_match; cbn; congruence. Qed.

Lemma find_app {A} (p : A -> bool) l1 l2 :
  List.find p (l1 ++ l2) = match List.find p l1 with Some x => Some x | None => List.find p l2 end.
Proof. induction l1 as [|x l1 IH]; [done|]. cbn. by destruct (p x). Qed.

(** Python's [xs\[-n:\]] for a non-negative [n]: the whole list when [n] is 0. *)
Definition last_n {A} (n : nat) (l : list A) : list A :=
  match n with O => l | _ => drop (length l - n) l end.

Lemma last_n_length {A} n (l : list A) : (0 < n)%nat -> (length (last_n n l) <= n)%nat.
Proof. destruct n; [lia|]. intros _. cbn. rewrite length_drop. lia. Qed.

Lemma last_n_sublist {A} n (l : list A) x : x ∈ last_n n l -> x ∈ l.
Proof.
  destruct n; [done|]. unfold last_n. intros H.
  rewrite <-(take_drop (length l - S n) l). set_solver.
Qed.

(** [xs\[i:\]] for any index: a negative one counts from the end. *)
Definition slice_from {A} (i : Z) (l : list A) : list A :=
  drop (Z.to_nat (if i <? 0 then Z.max 0 (Z.of_nat (length l) + i) else i)) l.

Lemma slice_from_elem {A} i (l : list A) x : x ∈ slice_from i l -> x ∈ l.
Proof.
  unfold slice_from. generalize (Z.to_nat (if i <? 0 then Z.max 0 (Z.of_nat (length l) + i) else i)).
  intros n H. rewrite <-(take_drop n l). apply elem_of_app. by right.
Qed.

Lemma slice_from_neg_length {A} n (l : list A) :
  0 < n -> length (slice_from (- n) l) = Nat.min (Z.to_nat n) (length l).
Proof.
  intros Hn. unfold slice_from. rewrite length_drop.
  destruct (Z.ltb_spec (- n) 0); lia.
Qed.

(** ** Python dictionaries with string keys, in insertion order *)
Section odict.
Context {A : Type}.
Implicit Types d : list (string * A).

Fixpoint oget (d : list (string * A)) (k : string) : option A :=
  match d with
  | [] => None
  | (k', v) :: d' => if String.eqb k k' then Some v else oget d' k
  end.

(** [d\[k\] = v]: an existing key keeps its position. *)
Fixpoint oset (d : list (string * A)) (k : string) (v : A) : list (string * A) :=
  match d with
  | [] => [(k, v)]
  | (k', v') :: d' => if String.eqb k k' then (k', v) :: d' else (k', v') :: oset d' k v
  end.

Definition ohas d k : bool := is_some (oget d k).
Definition okeys d : list string := map fst d.
Definition ovalues d : list A := map snd d.

Lemma oget_oset d k v k' : oget (oset d k v) k' = if String.eqb k' k then Some v else oget d k'.
Proof.
  induction d as [|[k0 v0] d IH]; cbn; [done|].
  destruct (String.eqb_spec k k0) as [->|Hk]; cbn.
  - by destruct (String.eqb_spec k' k0).
  - rewrite IH. destruct (String.eqb_spec k' k0) as [->|]; [|done].
    destruct (String.eqb_spec k0 k); [by subst|done].
Qed.

Lemma oget_oset_eq d k v : oget (oset d k v) k = Some v.
Proof. by rewrite oget_oset, String.eqb_refl. Qed.

Lemma oget_oset_ne d k v k' : k <> k' -> oget (oset d k v) k' = oget d k'.
Proof. intros H. rewrite oget_oset. by destruct (String.eqb_spec k' k). Qed.

Lemma oget_elem d k v : oget d k = Some v -> (k, v) ∈ d.
Proof.
  induction d as [|[k0 v0] d IH]; cbn; [done|].
  destruct (String.eqb_spec k k0) as [->|]; intros H; [simplify_eq; by left|right; auto].
Qed.

Lemma oget_app d d' k :
  oget (d ++ d') k = match oget d k with Some v => Some v | None => oget d' k end.
Proof. induction d as [|[k' v] d IH]; [done|]. cbn. by destruct (String.eqb k k'). Qed.

Lemma oget_None d k : oget d k = None <-> k ∉ okeys d.
Proof.
  induction d as [|[k0 v0] d IH]; cbn; [split; [intros _ H; by apply elem_of_nil in H|done]|].
  rewrite not_elem_of_cons. destruct (String.eqb_spec k k0); naive_solver.
Qed.

Lemma ohas_false d k : ohas d k = false <-> k ∉ okeys d.
Proof. unfold ohas. rewrite <-oget_None. by destruct (oget d k). Qed.

Lemma ohas_true d k : ohas d k = true <-> k ∈ okeys d.
Proof.
  destruct (ohas d k) eqn:E; [|apply ohas_false in E; naive_solver].
  split; [|done]. intros _. destruct (decide (k ∈ okeys d)) as [|H]; [done|].
  apply ohas_false in H. congruence.
Qed.

Lemma oset_fresh d k v : k ∉ okeys d -> oset d k v = d ++ [(k, v)].
Proof.
  induction d as [|[k0 v0] d IH]; cbn; [done|]. rewrite not_elem_of_cons. intros [Hk Hd].
  destruct (String.eqb_spec k k0); [done|]. by rewrite IH.
Qed.

Lemma okeys_oset d k v : okeys (oset d k v) = if ohas d k then okeys d else okeys d ++ [k].
Proof.
  unfold ohas, okeys. induction d as [|[k0 v0] d IH]; cbn; [done|].
  destruct (String.eqb_spec k k0) as [->|]; [done|]. cbn. rewrite IH.
  by destruct (oget d k).
Qed.

Lemma NoDup_okeys_oset d k v : NoDup (okeys d) -> NoDup (okeys (oset d k v)).
Proof.
  intros H. rewrite okeys_oset. destruct (ohas d k) eqn:E; [done|].
  apply ohas_false in E. apply NoDup_app. split; [done|]. split; [|apply NoDup_singleton].
  intros x Hx ->%list_elem_of_singleton. done.
Qed.

Lemma oget_NoDup d k v : NoDup (okeys d) -> (k, v) ∈ d -> oget d k = Some v.
Proof.
  induction d as [|[k0 v0] d IH]; cbn; intros Hnd Hin; [by apply elem_of_nil in Hin|].
  apply NoDup_cons in Hnd as [Hk Hnd]. apply elem_of_cons in Hin as [[= -> ->]|Hin].
  - by rewrite String.eqb_refl.
  - destruct (String.eqb_spec k k0) as [->|]; [|auto].
    exfalso. apply Hk. apply list_elem_of_fmap. by exists (k0, v).
Qed.
End odict.

(** ** Reflexive-transitive reachability of a step relation *)
Section reach.
Context {S : Type} (step : S -> S -> Prop).

Inductive reach : S -> S -> Prop :=
  | reach_refl s : reach s s
  | reach_step s1 s2 s3 : step s1 s2 -> reach s2 s3 -> reach s1 s3.

Lemma reach_one s1 s2 : step s1 s2 -> reach s1 s2.
Proof. intros. eapply reach_step; [done|]. constructor. Qed.

Lemma reach_trans s1 s2 s3 : reach s1 s2 -> reach s2 s3 -> reach s1 s3.
Proof. induction 1; eauto using reach_step. Qed.

(** Rule induction for invariants: a step-preserved predicate holds at every
    state reachable from one where it holds. *)
Lemma reach_invariant (I : S -> Prop) :
  (forall s1 s2, I s1 -> step s1 s2 -> I s2) ->
  forall s1 s2, I s1 -> reach s1 s2 -> I s2.
Proof. intros Hstep s1 s2 H1 Hr. induction Hr; eauto. Qed.
End reach.
#[export] Hint Constructors reach : fxfill.
#[export] Hint Resolve reach_one : fxfill.

(** ** Tasks interleaved over a shared state: one takes a step, or a new one arrives *)
Section interleave.
Context {T S : Type} (step : T -> S -> T -> S -> Prop) (arrives : T -> Prop).

Inductive interleave : list T * S -> list T * S -> Prop :=
  | task_steps ts1 ts2 t t' s s' : step t s t' s' -> interleave (ts1 ++ t :: ts2, s) (ts1 ++ t' :: ts2, s')
  | task_arrives ts t s : arrives t -> interleave (ts, s) (ts ++ [t], s).

(** A task takes a step while the others wait. *)
Lemma step_in ts1 t ts2 s t' s' :
  step t s t' s' -> reach interleave (ts1 ++ t :: ts2, s) (ts1 ++ t' :: ts2, s').
Proof. intros H. apply reach_one. by constructor. Qed.

(** A predicate on the state alone that the steps preserve. *)
Lemma interleave_invariant (I : S -> Prop) :
  (forall t s t' s', I s -> step t s t' s' -> I s') ->
  forall ts s ts' s', I s -> reach interleave (ts, s) (ts', s') -> I s'.
Proof.
  intros Hstep ts s ts' s' HI Hr.
  apply (reach_invariant interleave (fun p => I (snd p))) in Hr; [exact Hr| |exact HI].
  intros p p' Hp Hs. inversion Hs; subst; [by eapply Hstep|done].
Qed.
End interleave.

(** ** Stable sorting *)

Lemma Sorted_weaken {A} (R R' : A -> A -> Prop) l :
  (forall a b, R a b -> R' a b) -> Sorted R l -> Sorted R' l.
Proof.
  intros HR. induction 1 as [|x l Hl IH Hx]; constructor; [done|]. destruct Hx; constructor. auto.
Qed.

Section stable_sort.
Context {A : Type} (le : A -> A -> bool).

(** Insertion before the elements that do not come first: equal keys keep their order. *)
Fixpoint insert_by (x : A) (l : list A) : list A :=
  match l with
  | [] => [x]
  | y :: l' => if le x y then x :: l else y :: insert_by x l'
  end.

(** [sorted(l)], and SQL's ORDER BY on a list of rows. *)
Definition order_by (l : list A) : list A := fold_right insert_by [] l.

Lemma insert_by_perm x l : insert_by x l ≡ₚ x :: l.
Proof.
  induction l as [|y l IH]; cbn; [done|]. case_match; [done|]. rewrite IH. apply Permutation_swap.
Qed.

Lemma order_by_perm l : order_by l ≡ₚ l.
Proof. induction l as [|x l IH]; cbn; [done|]. unfold order_by in IH. by rewrite insert_by_perm, IH. Qed.

Lemma elem_of_order_by x l : x ∈ order_by l <-> x ∈ l.
Proof. by rewrite order_by_perm. Qed.

Hypothesis le_total : forall a b, le a b = true \/ le b a = true.

Lemma insert_by_sorted x l :
  Sorted (fun a b => le a b = true) l -> Sorted (fun a b => le a b = true) (insert_by x l).
Proof.
  induction 1 as [|y l Hl IH Hy]; cbn; [by repeat constructor|].
  destruct (le x y) eqn:E; [by repeat constructor|].
  assert (le y x = true) by (destruct (le_total x y); congruence).
  constructor; [done|]. destruct Hy as [|z l Hz]; cbn; [by constructor|].
  destruct (le x z); by constructor.
Qed.

Lemma order_by_sorted l : Sorted (fun a b => le a b = true) (order_by l).
Proof. induction l; cbn; [constructor|]. by apply insert_by_sorted. Qed.
End stable_sort.

(** ** Tactics of the development *)

(** Split every boolean conjunction/negation hypothesis. *)
Ltac bool_hyps :=
  repeat match goal with
  | H : _ && _ = true |- _ => apply andb_true_iff in H as [? ?]
  | H : _ || _ = false |- _ => apply orb_false_iff in H as [? ?]
  | H : negb _ = true |- _ => apply negb_true_iff in H
  | H : negb _ = false |- _ => apply negb_false_iff in H
  | H : String.eqb _ _ = true |- _ => apply String.eqb_eq in H
  | H : String.eqb _ _ = false |- _ => apply String.eqb_neq in H
  | H : Z.eqb _ _ = true |- _ => apply Z.eqb_eq in H
  | H : Z.eqb _ _ = false |- _ => apply Z.eqb_neq in H
  | H : Z.leb _ _ = true |- _ => apply Z.leb_le in H
  | H : Z.leb _ _ = false |- _ => apply Z.leb_gt in H
  | H : Z.ltb _ _ = true |- _ => apply Z.ltb_lt in H
  | H : Z.ltb _ _ = false |- _ => apply Z.ltb_ge in H
  end.

(** Destruct the scrutinee of the innermost [if]/[match] on display, keeping the
    equation, and discharge the impossible branches. *)
Ltac case_step :=
  match goal with
  | H : context [match ?x with _ => _ end] |- _ =>
      lazymatch x with context [match _ with _ => _ end] => fail | _ => destruct x eqn:? end
  | |- context [match ?x with _ => _ end] =>
      lazymatch x with context [match _ with _ => _ end] => fail | _ => destruct x eqn:? end
  end; try discriminate; simplify_eq.

Ltac case_all := repeat (case_step; cbn in *).
