(* ===== verification/PyStr.v ===== *)
(** Python [str] operations the source uses.

    A Python string is represented by its UTF-8 encoding as a [string]: equality,
    concatenation, ordering and substring search agree with Python's on the code
    points.  [lower], [strip] and the word tests follow Python exactly on ASCII
    text; bytes of non-ASCII characters are kept as they are and count as word
    characters. *)
From S2P Require Import Prelude.

(** ** Characters *)

Definition code (c : Ascii.ascii) : Z := Z.of_nat (Ascii.nat_of_ascii c).

Definition is_upper (c : Ascii.ascii) : bool := (65 <=? code c) && (code c <=? 90).
Definition is_lower (c : Ascii.ascii) : bool := (97 <=? code c) && (code c <=? 122).
Definition is_digit (c : Ascii.ascii) : bool := (48 <=? code c) && (code c <=? 57).

(** The ASCII white space [str.strip] and [str.split] remove: tab to carriage
    return, the four separators, space. *)
Definition is_space (c : Ascii.ascii) : bool :=
  ((9 <=? code c) && (code c <=? 13)) || ((28 <=? code c) && (code c <=? 31)) || (code c =? 32).

(** [\w] of the [re] module. *)
Definition is_word (c : Ascii.ascii) : bool :=
  is_upper c || is_lower c || is_digit c || (code c =? 95) || (128 <=? code c).

Definition lower_char (c : Ascii.ascii) : Ascii.ascii :=
  if is_upper c then Ascii.ascii_of_nat (Ascii.nat_of_ascii c + 32) else c.

(** ** Strings *)

(** [s.lower()] *)
Fixpoint lower (s : string) : string :=
  match s with
  | EmptyString => EmptyString
  | String c s' => String (lower_char c) (lower s')
  end.

(** [t.startswith(p)] *)
Definition startswith (t p : string) : bool := String.prefix p t.

(** [sub in t] *)
Fixpoint contains (sub t : string) : bool :=
  String.prefix sub t ||
  match t with EmptyString => false | String _ t' => contains sub t' end.

(** The text before and after the first occurrence of [sub]. *)
Fixpoint split_sub (sub t : string) : option (string * string) :=
  if String.prefix sub t
  then Some ("", String.substring (String.length sub) (String.length t - String.length sub) t)
  else match t with
       | EmptyString => None
       | String c t' =>
           match split_sub sub t' with
           | Some (a, b) => Some (String c a, b)
           | None => None
           end
       end.

(** [s.replace(old, new)] for a non-empty [old]: each of its occurrences takes at least a
    character of [s], so the fuel is enough. *)
Fixpoint replace_fuel (fuel : nat) (old new s : string) : string :=
  match fuel with
  | 0%nat => s
  | S fuel' =>
      match split_sub old s with
      | Some (a, b) => a +:+ new +:+ replace_fuel fuel' old new b
      | None => s
      end
  end.

Definition replace_str (old new s : string) : string := replace_fuel (String.length s) old new s.

(** [any(w in t for w in ws)] *)
Definition any_in (ws : list string) (t : string) : bool := existsb (fun w => contains w t) ws.

Fixpoint lstrip (s : string) : string :=
  match s with
  | String c s' => if is_space c then lstrip s' else s
  | EmptyString => EmptyString
  end.

Fixpoint rstrip (s : string) : string :=
  match s with
  | EmptyString => EmptyString
  | String c s' =>
      match rstrip s' with
      | EmptyString => if is_space c then EmptyString else String c EmptyString
      | r => String c r
      end
  end.

(** [s.strip()] *)
Definition strip (s : string) : string := rstrip (lstrip s).

(** [sep.join(parts)] *)
Fixpoint join (sep : string) (parts : list string) : string :=
  match parts with
  | [] => ""
  | [p] => p
  | p :: ps => p +:+ sep +:+ join sep ps
  end.

(** [s.split(c)] for a one-character separator. *)
Fixpoint split_char (c : Ascii.ascii) (s : string) : list string :=
  match s with
  | EmptyString => [""]
  | String a s' =>
      if Ascii.eqb a c then "" :: split_char c s'
      else match split_char c s' with
           | w :: ws => String a w :: ws
           | [] => [String a ""]
           end
  end.

(** [s.split()]: the maximal runs of characters satisfying [p]. *)
Fixpoint runs (p : Ascii.ascii -> bool) (cur : string) (s : string) : list string :=
  match s with
  | EmptyString => if str_true cur then [cur] else []
  | String c s' =>
      if p c then runs p (cur +:+ String c "") s'
      else if str_true cur then cur :: runs p "" s' else runs p "" s'
  end.

Definition split_ws (s : string) : list string := runs (fun c => negb (is_space c)) "" s.

(** The maximal runs of word characters: [\b(w)\b] matches exactly when the
    word [w] is one of them. *)
Definition words (s : string) : list string := runs is_word "" s.

(** [s\[:n\]] *)
Definition take_str (n : nat) (s : string) : string := String.substring 0 n s.

(** [s\[-n:\]] for [n > 0]. *)
Definition last_str (n : nat) (s : string) : string :=
  String.substring (String.length s - n) n s.

(** [str(n)] of an integer: decimal digits, most significant first. *)
Definition digit_char (d : Z) : Ascii.ascii := Ascii.ascii_of_nat (Z.to_nat (48 + d)).

Fixpoint dec_digits (fuel : nat) (n : Z) (acc : string) : string :=
  let acc' := String (digit_char (n mod 10)) acc in
  match fuel with
  | O => acc'
  | S fuel => if n / 10 =? 0 then acc' else dec_digits fuel (n / 10) acc'
  end.

Definition str_of_nonneg (n : Z) : string := dec_digits (Z.to_nat (Z.log2 n)) n "".

Definition str_of_Z (n : Z) : string :=
  if n <? 0 then "-" +:+ str_of_nonneg (- n) else str_of_nonneg n.

(** The value of a digit string read left to right, and the longest digit prefix. *)
Definition digit_val (c : Ascii.ascii) : Z := code c - 48.

Fixpoint digits_val (acc : Z) (s : string) : Z :=
  match s with EmptyString => acc | String c s' => digits_val (10 * acc + digit_val c) s' end.

Fixpoint span_digits (s : string) : string * string :=
  match s with
  | String c s' =>
      if is_digit c then let '(d, r) := span_digits s' in (String c d, r) else ("", s)
  | EmptyString => ("", "")
  end.

(** ** Word-boundary search, [re.search(r"\b" + re.escape(kw) + r"\b", text)] *)

Definition word_opt (c : option Ascii.ascii) : bool :=
  match c with Some a => is_word a | None => false end.

Definition head_char (s : string) : option Ascii.ascii :=
  match s with EmptyString => None | String c _ => Some c end.

Fixpoint last_char (prev : option Ascii.ascii) (s : string) : option Ascii.ascii :=
  match s with EmptyString => prev | String c s' => last_char (Some c) s' end.

Definition boundary (before after : option Ascii.ascii) : bool :=
  xorb (word_opt before) (word_opt after).

Fixpoint word_search (prev : option Ascii.ascii) (kw text : string) : bool :=
  (String.prefix kw text
   && boundary prev (head_char text)
   && boundary (last_char prev kw)
        (head_char (String.substring (String.length kw) (String.length text) text)))
  || match text with
     | EmptyString => false
     | String c text' => word_search (Some c) kw text'
     end.

(** ** Facts *)

Lemma app_cons c s t : String c s +:+ t = String c (s +:+ t).
Proof. done. Qed.

Lemma app_nil t : "" +:+ t = t.
Proof. done. Qed.

#[export] Hint Rewrite app_cons app_nil : fxfill.

(** Normalise string appends, after [simpl] has exposed the constructors. *)
Ltac str_simpl := simpl; rewrite ?app_cons, ?app_nil in *.

Lemma lower_app s t : lower (s +:+ t) = lower s +:+ lower t.
Proof. induction s as [|c s IH]; [done|]. str_simpl. by rewrite IH. Qed.

Lemma lower_char_not_upper c : is_upper (lower_char c) = false.
Proof.
  unfold lower_char. destruct (is_upper c) eqn:E; [|done].
  unfold is_upper, code in *. apply andb_true_iff in E as [H1%Z.leb_le H2%Z.leb_le].
  rewrite Ascii.nat_ascii_embedding by lia. apply andb_false_iff. right. apply Z.leb_gt. lia.
Qed.

Lemma lower_char_idemp c : lower_char (lower_char c) = lower_char c.
Proof. unfold lower_char at 1. by rewrite lower_char_not_upper. Qed.

Lemma lower_idemp s : lower (lower s) = lower s.
Proof. induction s as [|c s IH]; simpl; [done|]. by rewrite lower_char_idemp, IH. Qed.

Lemma prefix_app p s : String.prefix p s = true <-> exists t, s = p +:+ t.
Proof.
  revert s; induction p as [|a p IH]; intros s.
  - split; [|by destruct s]. intros _. by exists s.
  - destruct s as [|b s].
    + split; [done|]. intros [t [=]].
    + setoid_rewrite app_cons. cbn [String.prefix].
      destruct (Ascii.ascii_dec a b) as [->|Hne].
      * rewrite IH. split; intros [t Ht]; exists t; simplify_eq; done.
      * split; [done|]. intros [t Ht]. by simplify_eq.
Qed.

Lemma contains_unfold sub t :
  contains sub t = String.prefix sub t ||
    match t with EmptyString => false | String _ t' => contains sub t' end.
Proof. by destruct t. Qed.

Lemma contains_spec sub t :
  contains sub t = true <-> exists a b, t = a +:+ sub +:+ b.
Proof.
  induction t as [|c t IH]; rewrite contains_unfold.
  - rewrite orb_true_iff, prefix_app. split.
    + intros [[b Hb]|]; [|done]. exists "", b. done.
    + intros (a & b & H). left. destruct a; [eauto|done].
  - rewrite orb_true_iff, prefix_app, IH. split.
    + intros [[b Hb]|(a & b & Hb)]; [by exists "", b|]. exists (String c a), b. by rewrite Hb.
    + intros (a & b & H). destruct a as [|c' a]; [left; by exists b|].
      rewrite app_cons in H. right. simplify_eq. eauto.
Qed.

(** The characters of a string. *)
Fixpoint has_char (p : Ascii.ascii -> bool) (s : string) : bool :=
  match s with EmptyString => false | String c s' => p c || has_char p s' end.

Lemma has_char_app p s t : has_char p (s +:+ t) = has_char p s || has_char p t.
Proof. induction s as [|c s IH]; [done|]. str_simpl. by rewrite IH, orb_assoc. Qed.

Lemma lower_no_upper s : has_char is_upper (lower s) = false.
Proof. induction s as [|c s IH]; simpl; [done|]. by rewrite lower_char_not_upper. Qed.

Lemma lstrip_suffix s : exists a, s = a +:+ lstrip s.
Proof.
  induction s as [|c s [a Ha]]; simpl; [by exists ""|].
  destruct (is_space c); [|by exists ""]. exists (String c a).
  by rewrite app_cons, <-Ha.
Qed.

Lemma rstrip_prefix s : exists b, s = rstrip s +:+ b.
Proof.
  induction s as [|c s [b Hb]]; simpl; [by exists ""|].
  destruct (rstrip s) as [|r rs] eqn:E; [destruct (is_space c)|].
  - by exists (String c s).
  - exists s. done.
  - exists b. rewrite app_cons. by f_equal.
Qed.

(** Stripping introduces no character. *)
Lemma strip_no_char p s : has_char p s = false -> has_char p (strip s) = false.
Proof.
  intros H. unfold strip. destruct (lstrip_suffix s) as [a Ha].
  destruct (rstrip_prefix (lstrip s)) as [b Hb].
  rewrite Ha, has_char_app in H. apply orb_false_iff in H as [_ H].
  rewrite Hb, has_char_app in H. by apply orb_false_iff in H as [H _].
Qed.

(** A text without a character has no substring with that character. *)
Lemma contains_has_char p sub t :
  contains sub t = true -> has_char p sub = true -> has_char p t = true.
Proof.
  intros (a & b & ->)%contains_spec H.
  rewrite !has_char_app, H. by rewrite orb_true_r.
Qed.

Lemma app_empty_r s : s +:+ "" = s.
Proof. induction s as [|c s IH]; [done|]. str_simpl. by rewrite IH. Qed.

Lemma app_assoc_str (a b c : string) : (a +:+ b) +:+ c = a +:+ b +:+ c.
Proof. induction a as [|x a IH]; [done|]. str_simpl. by rewrite IH. Qed.

Lemma length_app_str a b : String.length (a +:+ b) = (String.length a + String.length b)%nat.
Proof. induction a as [|x a IH]; [done|]. rewrite app_cons. cbn [String.length]. lia. Qed.

Lemma app_inv_tail_str a b c : a +:+ c = b +:+ c -> a = b.
Proof.
  revert b; induction a as [|x a IH]; intros [|y b]; intros H; [done|..].
  - apply (f_equal String.length) in H. rewrite !length_app_str in H. cbn in H. lia.
  - apply (f_equal String.length) in H. rewrite !length_app_str in H. cbn in H. lia.
  - injection H as -> H. f_equal. by apply IH.
Qed.

Lemma app_inv_head_str (a b c : string) : a +:+ b = a +:+ c -> b = c.
Proof. induction a as [|x a IH]; [done|]. rewrite !app_cons. intros [= H]. by apply IH. Qed.

#[export] Hint Rewrite lower_app lower_idemp app_empty_r app_assoc_str : fxfill.

(** ** Decimal digits *)

Lemma code_bounds c : 0 <= code c < 256.
Proof. unfold code. pose proof (Ascii.nat_ascii_bounded c). lia. Qed.

Lemma digit_char_code d : 0 <= d < 10 -> code (digit_char d) = 48 + d.
Proof.
  intros H. unfold code, digit_char. rewrite Ascii.nat_ascii_embedding; lia.
Qed.

Lemma is_digit_char d : 0 <= d < 10 -> is_digit (digit_char d) = true.
Proof.
  intros H. unfold is_digit. rewrite digit_char_code by done.
  apply andb_true_iff. split; apply Z.leb_le; lia.
Qed.

Lemma digit_val_char d : 0 <= d < 10 -> digit_val (digit_char d) = d.
Proof. intros H. unfold digit_val. rewrite digit_char_code by done. lia. Qed.

Fixpoint all_digits (s : string) : bool :=
  match s with EmptyString => true | String c s' => is_digit c && all_digits s' end.

(** The digits written in front of [acc] are digits, there is at least one, and
    they denote [n]. *)
Lemma dec_digits_spec fuel n acc :
  0 <= n -> n < 2 ^ Z.of_nat (S fuel) ->
  exists ds, dec_digits fuel n acc = ds +:+ acc /\ all_digits ds = true /\ ds <> "" /\
    (forall k, digits_val k ds = k * 10 ^ Z.of_nat (String.length ds) + n) /\
    (head_char ds = Some (digit_char 0) -> n = 0).
Proof.
  revert n acc; induction fuel as [|fuel IH]; intros n acc Hn Hf.
  - assert (n < 2) by (cbn in Hf; lia). exists (String (digit_char (n mod 10)) "").
    cbn [dec_digits]. rewrite Z.mod_small by lia. split_and!; [done| |done|..].
    + simpl. by rewrite is_digit_char by lia.
    + intros k. cbn [digits_val String.length]. rewrite digit_val_char by lia. lia.
    + intros [= Heq%(f_equal code)]. rewrite !digit_char_code in Heq by lia. lia.
  - cbn [dec_digits]. pose proof (Z.mod_pos_bound n 10 ltac:(lia)).
    pose proof (Z.div_mod n 10 ltac:(lia)).
    destruct (Z.eqb_spec (n / 10) 0) as [Hz|Hnz].
    + exists (String (digit_char (n mod 10)) ""). split_and!; [done| |done|..].
      * simpl. by rewrite is_digit_char by lia.
      * intros k. cbn [digits_val String.length]. rewrite digit_val_char by lia. lia.
      * intros [= Heq%(f_equal code)]. rewrite !digit_char_code in Heq by lia. lia.
    + assert (0 <= n / 10) by (apply Z.div_pos; lia).
      destruct (IH (n / 10) (String (digit_char (n mod 10)) acc)) as (ds & -> & Hd & Hne & Hv & Hh).
      { done. }
      { apply Z.div_lt_upper_bound; [lia|]. rewrite (Nat2Z.inj_succ (S fuel)), Z.pow_succ_r in Hf; lia. }
      exists (ds +:+ String (digit_char (n mod 10)) ""). split_and!.
      * rewrite app_assoc_str. done.
      * clear -Hd H. induction ds as [|c ds IH]; str_simpl; [by rewrite is_digit_char by lia|].
        simpl in Hd. bool_hyps. rewrite H0. by rewrite IH.
      * by destruct ds.
      * intros k.
        assert (Happ : forall a b j, digits_val j (a +:+ b) = digits_val (digits_val j a) b).
        { clear. induction a as [|c a IHa]; intros b j; [done|]. str_simpl. apply IHa. }
        rewrite Happ, Hv. cbn [digits_val]. rewrite digit_val_char by lia.
        assert (String.length (ds +:+ String (digit_char (n mod 10)) "") = S (String.length ds)) as ->.
        { clear. induction ds as [|c ds IHd]; str_simpl; [done|]. by rewrite IHd. }
        rewrite Nat2Z.inj_succ, Z.pow_succ_r by lia. lia.
      * destruct ds as [|c ds]; [done|]. rewrite app_cons. intros Heq. specialize (Hh Heq). lia.
Qed.

Lemma str_of_nonneg_spec n :
  0 <= n -> all_digits (str_of_nonneg n) = true /\ str_of_nonneg n <> "" /\
    digits_val 0 (str_of_nonneg n) = n /\
    (head_char (str_of_nonneg n) = Some (digit_char 0) -> n = 0).
Proof.
  intros Hn. unfold str_of_nonneg.
  destruct (dec_digits_spec (Z.to_nat (Z.log2 n)) n "") as (ds & -> & Hd & Hne & Hv & Hh); [done|..].
  - destruct (decide (n = 0)) as [->|]; [done|].
    pose proof (Z.log2_spec n ltac:(lia)). pose proof (Z.log2_nonneg n).
    rewrite Nat2Z.inj_succ, Z2Nat.id by lia. lia.
  - rewrite app_empty_r. split_and!; [done|done| |done]. rewrite Hv. lia.
Qed.

Lemma span_digits_app ds r :
  all_digits ds = true ->
  match head_char r with Some c => is_digit c = false | None => True end ->
  span_digits (ds +:+ r) = (ds, r).
Proof.
  intros Hd Hr. induction ds as [|c ds IH]; str_simpl.
  - destruct r as [|c r]; [done|]. simpl in *. by rewrite Hr.
  - simpl in Hd. bool_hyps. rewrite H. by rewrite IH.
Qed.

Example str_of_Z_ex : map str_of_Z [0; 7; 100000; -42] = ["0"; "7"; "100000"; "-42"].
Proof. by vm_compute. Qed.
Example lower_ex : lower "What DID I spend?" = "what did i spend?". Proof. reflexivity. Qed.
Example strip_ex : strip "  a b  " = "a b". Proof. reflexivity. Qed.
Example words_ex : words "send $500, pay me" = ["send"; "500"; "pay"; "me"]. Proof. reflexivity. Qed.
Example word_search_ex :
  word_search None "rate" "what rate?" = true /\ word_search None "rate" "corporate" = false.
Proof. by vm_compute. Qed.

(** ** Order of texts *)

Lemma ascii_compare_lt_trans a b c :
  Ascii.compare a b = Lt -> Ascii.compare b c = Lt -> Ascii.compare a c = Lt.
Proof. unfold Ascii.compare. rewrite !N.compare_lt_iff. lia. Qed.

Lemma leb_total a b : String.leb a b = true \/ String.leb b a = true.
Proof. destruct (String.leb_total a b); auto. Qed.

Lemma leb_trans a b c : String.leb a b = true -> String.leb b c = true -> String.leb a c = true.
Proof.
  unfold String.leb. revert b c. induction a as [|x a IH]; intros [|y b] [|z c]; cbn; try done.
  destruct (Ascii.compare x y) eqn:E1; [apply Ascii.compare_eq_iff in E1 as ->|..|done].
  - destruct (Ascii.compare y z) eqn:E2; [|done..]. apply IH.
  - intros _. destruct (Ascii.compare y z) eqn:E2; [apply Ascii.compare_eq_iff in E2 as ->; by rewrite E1|..|done].
    by rewrite (ascii_compare_lt_trans _ _ _ E1 E2).
Qed.

(** ** Splitting a text at a separator *)

Definition lacks (sep : Ascii.ascii) (s : string) : bool := negb (has_char (fun c => Ascii.eqb c sep) s).

Section separators.
Context (sep : Ascii.ascii).

Lemma lacks_cons c s : lacks sep (String c s) = negb (Ascii.eqb c sep) && lacks sep s.
Proof. unfold lacks. cbn. by rewrite negb_orb. Qed.

Lemma lacks_app a b : lacks sep (a +:+ b) = lacks sep a && lacks sep b.
Proof. unfold lacks. by rewrite has_char_app, negb_orb. Qed.

Lemma lacks_sep a b : lacks sep (a +:+ String sep b) = false.
Proof. rewrite lacks_app, lacks_cons, Ascii.eqb_refl. by rewrite andb_false_r. Qed.

(** A text without a separator ends at the first one. *)
Lemma split_first a a' s s' :
  lacks sep a = true -> lacks sep a' = true -> a +:+ String sep s = a' +:+ String sep s' -> a = a' /\ s = s'.
Proof.
  revert a'. induction a as [|c a IH]; intros [|c' a'] Ha Ha'; rewrite ?lacks_cons in *; str_simpl.
  - by intros [= ->].
  - intros [= <- _]. by rewrite Ascii.eqb_refl in Ha'.
  - intros [= -> _]. by rewrite Ascii.eqb_refl in Ha.
  - intros [= -> H]. apply andb_true_iff in Ha as [_ Ha], Ha' as [_ Ha']. destruct (IH a' Ha Ha' H) as [-> ->]. done.
Qed.

(** A text without a separator starts after the last one. *)
Lemma split_last s s' b b' :
  lacks sep b = true -> lacks sep b' = true -> s +:+ String sep b = s' +:+ String sep b' -> s = s' /\ b = b'.
Proof.
  revert s'. induction s as [|c s IH]; intros [|c' s'] Hb Hb'; str_simpl.
  - by intros [= ->].
  - intros [= _ H]. subst b. by rewrite lacks_sep in Hb.
  - intros [= _ H]. subst b'. by rewrite lacks_sep in Hb'.
  - intros [= -> H]. destruct (IH s' Hb Hb' H) as [-> ->]. done.
Qed.
End separators.
