(* ===== verification/PyFloat.v ===== *)
(** Python [float]: IEEE 754 binary64 with round to nearest, ties to even.

    Values are [spec_float] of the Standard Library at precision 53 and maximal
    exponent 1024, so every operation below computes the bits the interpreter
    computes (infinities, signed zeros and NaN included).  The file proves what
    the banking code relies on: results stay well formed, and a subtraction that
    passes the balance test never goes below zero. *)
From Stdlib Require Export SpecFloat.
From S2P Require Import Prelude PyStr.

Notation f64 := spec_float.
Notation f64_prec := 53.
Notation f64_emax := 1024.

#[export] Instance f64_eq_dec : EqDecision f64.
Proof. solve_decision. Defined.

Definition f_lt (x y : f64) : bool := SFltb x y.
Definition f_le (x y : f64) : bool := SFleb x y.
Definition f_gt (x y : f64) : bool := SFltb y x.
Definition f_ge (x y : f64) : bool := SFleb y x.
Definition f_eq (x y : f64) : bool := SFeqb x y.
Definition f_neg (x : f64) : f64 := SFopp x.
Definition f_add (x y : f64) : f64 := SFadd f64_prec f64_emax x y.
Definition f_sub (x y : f64) : f64 := SFsub f64_prec f64_emax x y.
Definition f_div (x y : f64) : f64 := SFdiv f64_prec f64_emax x y.
Definition f_abs (x : f64) : f64 := SFabs x.
Definition f_mul (x y : f64) : f64 := SFmul f64_prec f64_emax x y.

Definition f_zero : f64 := S754_zero false.

(** [float(n)] of an integer. *)
Definition f_of_Z (n : Z) : f64 := binary_normalize f64_prec f64_emax n 0 false.

Definition f_valid (x : f64) : bool := valid_binary f64_prec f64_emax x.
Definition f_is_nan (x : f64) : bool := match x with S754_nan => true | _ => false end.

(** Zero or more: false on NaN. *)
Definition f_nonneg (x : f64) : bool := f_le f_zero x.

(** ** Digits, shifts and rounding *)

Lemma Zdigits2_log2 m : 0 < m -> Zdigits2 m = Z.log2 m + 1.
Proof.
  intros Hm. destruct m as [|p|p]; [lia| |lia]. clear Hm. cbn [Zdigits2].
  induction p as [p IH|p IH|]; cbn [digits2_pos].
  - rewrite Pos2Z.inj_succ, IH, (Pos2Z.inj_xI p), Z.log2_succ_double by lia. lia.
  - rewrite Pos2Z.inj_succ, IH, (Pos2Z.inj_xO p), Z.log2_double by lia. lia.
  - done.
Qed.

Lemma Zdigits2_nonneg m : 0 <= m -> 0 <= Zdigits2 m.
Proof. destruct m; cbn; lia. Qed.

Lemma Zdigits2_mono m n : 0 <= m <= n -> Zdigits2 m <= Zdigits2 n.
Proof.
  intros [Hm Hn]. destruct (decide (m = 0)) as [->|]; [apply (Zdigits2_nonneg n); lia|].
  rewrite !Zdigits2_log2 by lia. pose proof (Z.log2_le_mono m n). lia.
Qed.

Lemma Zdigits2_shiftl m k : 0 < m -> 0 <= k -> Zdigits2 (m * 2 ^ k) = Zdigits2 m + k.
Proof.
  intros Hm Hk. assert (0 < 2 ^ k) by (apply Z.pow_pos_nonneg; lia).
  rewrite !Zdigits2_log2 by nia. rewrite <-Z.shiftl_mul_pow2, Z.log2_shiftl by lia. lia.
Qed.

Lemma Zdigits2_shiftr m k :
  0 < m -> 0 <= k -> 0 < m / 2 ^ k -> Zdigits2 (m / 2 ^ k) = Zdigits2 m - k.
Proof.
  intros Hm Hk Hq. rewrite !Zdigits2_log2 by lia.
  rewrite <-Z.shiftr_div_pow2 in * by lia. rewrite Z.log2_shiftr by lia.
  rewrite Z.shiftr_div_pow2 in Hq by lia.
  enough (k <= Z.log2 m) by lia.
  destruct (Z.le_gt_cases k (Z.log2 m)); [done|].
  rewrite Z.div_small in Hq; [lia|]. split; [lia|].
  apply Z.log2_lt_pow2; lia.
Qed.

Lemma shr_1_m mrs : 0 <= shr_m mrs -> shr_m (shr_1 mrs) = shr_m mrs / 2.
Proof.
  destruct mrs as [m r s]; intros Hm; destruct m as [|p|p]; cbn [shr_m] in Hm; [done| |lia].
  destruct p as [p|p|]; cbn [shr_1 shr_m]; [| |done].
  - rewrite (Pos2Z.inj_xI p). apply Z.div_unique with 1; lia.
  - rewrite (Pos2Z.inj_xO p). apply Z.div_unique with 0; lia.
Qed.

Lemma iter_shr_m p mrs :
  0 <= shr_m mrs -> shr_m (SpecFloat.iter_pos shr_1 p mrs) = shr_m mrs / 2 ^ Z.pos p.
Proof.
  assert (Hpos : forall m k, 0 <= m -> 0 <= m / 2 ^ Z.pos k)
    by (intros; apply Z.div_pos; [done|apply Z.pow_pos_nonneg; lia]).
  assert (Hdd : forall m j k, 0 <= j -> 0 <= k -> m / 2 ^ j / 2 ^ k = m / 2 ^ (j + k)).
  { intros. rewrite Z.pow_add_r, Z.div_div by (try apply Z.pow_nonzero; try apply Z.pow_pos_nonneg; lia).
    done. }
  revert mrs; induction p as [p IH|p IH|]; intros mrs H; cbn [SpecFloat.iter_pos].
  - pose proof (shr_1_m mrs H) as E.
    assert (0 <= shr_m (shr_1 mrs)) by (rewrite E; apply Z.div_pos; lia).
    assert (E2 : shr_m (SpecFloat.iter_pos shr_1 p (shr_1 mrs)) = shr_m mrs / 2 / 2 ^ Z.pos p)
      by (rewrite IH, E; done).
    rewrite IH, E2 by (rewrite IH by done; by apply Hpos).
    change (shr_m mrs / 2) with (shr_m mrs / 2 ^ Z.pos 1). rewrite !Hdd by lia. f_equal. f_equal. lia.
  - rewrite IH, IH by (rewrite ?IH by done; auto). rewrite Hdd by lia. f_equal. f_equal. lia.
  - by rewrite shr_1_m.
Qed.

Notation fexp64 := (fexp f64_prec f64_emax).

Lemma fexp64_mono a b : a <= b -> fexp64 a <= fexp64 b.
Proof. unfold fexp. lia. Qed.

Lemma fexp64_emin a : emin f64_prec f64_emax <= fexp64 a.
Proof. unfold fexp. lia. Qed.

Lemma shr_record_of_loc_m m l : shr_m (shr_record_of_loc m l) = m.
Proof. by destruct l as [|[]]. Qed.

(** One alignment step: a non-negative mantissa is divided by the power of two
    the exponent grows by. *)
Lemma shr_fexp_spec m e l :
  0 <= m ->
  let r := shr_fexp f64_prec f64_emax m e l in
  let n := Z.max 0 (fexp64 (Zdigits2 m + e) - e) in
  shr_m r.1 = m / 2 ^ n /\ r.2 = e + n.
Proof.
  intros Hm. unfold shr_fexp, shr. cbv zeta.
  destruct (fexp64 (Zdigits2 m + e) - e) as [|p|p]; cbn [fst snd].
  - rewrite shr_record_of_loc_m, Z.div_1_r. split; [done|lia].
  - rewrite iter_shr_m; rewrite shr_record_of_loc_m; [|done]. split; [done|lia].
  - rewrite shr_record_of_loc_m, Z.div_1_r. split; [done|lia].
Qed.

Lemma round_nearest_even_bounds m l : m <= round_nearest_even m l <= m + 1.
Proof. destruct l as [|[]]; cbn; try destruct (Z.even m); lia. Qed.

(** Rounding an aligned mantissa yields a canonical value of the given sign, an
    infinity or a zero: never a NaN. *)
Lemma binary_round_aux_spec s m e :
  0 < m -> e <= fexp64 (Zdigits2 m + e) ->
  let r := binary_round_aux f64_prec f64_emax s m e loc_Exact in
  f_valid r = true /\
  match r with
  | S754_zero s' | S754_infinity s' | S754_finite s' _ _ => s' = s
  | S754_nan => False
  end.
Proof.
  intros Hm He. unfold binary_round_aux. cbv zeta.
  pose proof (shr_fexp_spec m e loc_Exact ltac:(lia)) as H1. cbv zeta in H1.
  destruct (shr_fexp f64_prec f64_emax m e loc_Exact) as [mrs1 e1]. cbn [fst snd] in H1.
  destruct H1 as [Hm1 He1]. rewrite Z.max_r in Hm1, He1 by lia.
  set (n := fexp64 (Zdigits2 m + e) - e) in *.
  assert (Hm1' : 0 <= shr_m mrs1)
    by (rewrite Hm1; apply Z.div_pos; [lia|apply Z.pow_pos_nonneg; lia]).
  pose proof (round_nearest_even_bounds (shr_m mrs1) (loc_of_shr_record mrs1)) as Hr.
  set (m2 := round_nearest_even _ _) in *.
  (* the exponent is at most the one the rounded mantissa asks for *)
  assert (He2 : e1 <= fexp64 (Zdigits2 m2 + e1)).
  { destruct (decide (shr_m mrs1 = 0)) as [Hz|Hnz].
    - transitivity (emin f64_prec f64_emax); [|apply fexp64_emin].
      assert (Zdigits2 m <= n).
      { rewrite Hz in Hm1. symmetry in Hm1. apply Z.div_small_iff in Hm1; [|apply Z.pow_nonzero; lia].
        rewrite Zdigits2_log2 by lia. destruct Hm1 as [[_ Hlt]|]; [|lia].
        apply Z.log2_lt_pow2 in Hlt; lia. }
      subst n. unfold fexp in *. lia.
    - pose proof (Zdigits2_mono (shr_m mrs1) m2 ltac:(lia)) as Hd.
      assert (Zdigits2 (shr_m mrs1) = Zdigits2 m - n) as Hd1
        by (rewrite Hm1 in *; apply Zdigits2_shiftr; lia).
      transitivity (fexp64 (Zdigits2 (shr_m mrs1) + e1)); [|apply fexp64_mono; lia].
      rewrite Hd1, He1. replace (Zdigits2 m - n + (e + n)) with (Zdigits2 m + e) by lia.
      subst n. lia. }
  pose proof (shr_fexp_spec m2 e1 loc_Exact ltac:(lia)) as H2. cbv zeta in H2.
  destruct (shr_fexp f64_prec f64_emax m2 e1 loc_Exact) as [mrs2 e2]. cbn [fst snd] in H2.
  destruct H2 as [Hm3 He3]. rewrite Z.max_r in Hm3, He3 by lia.
  set (k := fexp64 (Zdigits2 m2 + e1) - e1) in *.
  assert (0 <= shr_m mrs2)
    by (rewrite Hm3; apply Z.div_pos; [lia|apply Z.pow_pos_nonneg; lia]).
  destruct (shr_m mrs2) as [|p|p] eqn:E; [done| |lia].
  case_match eqn:Hov; [|done]. split; [|done].
  cbn [f_valid valid_binary]. unfold bounded, canonical_mantissa.
  rewrite Hov, andb_true_r. apply Z.eqb_eq.
  change (Z.pos (digits2_pos p)) with (Zdigits2 (Z.pos p)). rewrite Hm3.
  assert (0 < m2) by (destruct (decide (m2 = 0)) as [Hz|]; [rewrite Hz, Z.div_0_l in Hm3 by (apply Z.pow_nonzero; lia); lia|lia]).
  rewrite Zdigits2_shiftr by (try lia; rewrite <-Hm3; lia).
  rewrite He3. replace (Zdigits2 m2 - k + (e1 + k)) with (Zdigits2 m2 + e1) by lia. subst k. lia.
Qed.

Lemma iter_xO m d : Z.pos (Pos.iter xO m d) = Z.pos m * 2 ^ Z.pos d.
Proof.
  induction d as [|d IH] using Pos.peano_ind; [cbn; lia|].
  rewrite Pos.iter_succ, Pos2Z.inj_succ, Z.pow_succ_r, Pos2Z.inj_xO, IH by lia. lia.
Qed.

Lemma binary_round_spec s m e :
  let r := binary_round f64_prec f64_emax s m e in
  f_valid r = true /\
  match r with
  | S754_zero s' | S754_infinity s' | S754_finite s' _ _ => s' = s
  | S754_nan => False
  end.
Proof.
  unfold binary_round, shl_align. cbv zeta.
  change (Z.pos (digits2_pos m)) with (Zdigits2 (Z.pos m)).
  destruct (fexp64 (Zdigits2 (Z.pos m) + e) - e) as [|d|d] eqn:E;
    apply binary_round_aux_spec; try lia.
  rewrite iter_xO, Zdigits2_shiftl by lia.
  replace (Zdigits2 (Z.pos m) + Z.pos d + fexp64 (Zdigits2 (Z.pos m) + e))
    with (Zdigits2 (Z.pos m) + e) by lia. lia.
Qed.

Lemma f_valid_of_Z n : f_valid (f_of_Z n) = true.
Proof. destruct n; [done|..]; apply binary_round_spec. Qed.

(** ** Subtraction *)

(** [x - y] is [x + (-y)], bit for bit. *)
Lemma f_sub_add_neg x y : f_sub x y = f_add x (f_neg y).
Proof.
  destruct x as [[]|[]| |sx mx ex], y as [[]|[]| |sy my ey]; try done.
  unfold f_sub, f_add, f_neg, SFsub, SFadd, SFopp. cbv zeta. f_equal.
  destruct sy; cbn [negb cond_Zopp]; lia.
Qed.

Lemma f_valid_sub x y : f_valid x = true -> f_valid y = true -> f_valid (f_sub x y) = true.
Proof.
  intros Hx Hy. destruct x as [[]|[]| |sx mx ex], y as [[]|[]| |sy my ey]; try done.
  unfold f_sub, SFsub. cbv zeta. set (d := _ - _).
  destruct d; [done|apply binary_round_spec..].
Qed.

Lemma f_valid_neg x : f_valid (f_neg x) = f_valid x.
Proof. by destruct x. Qed.

Lemma Zdigits2_bounds m : 0 < m -> 2 ^ (Zdigits2 m - 1) <= m < 2 ^ Zdigits2 m.
Proof.
  intros Hm. rewrite Zdigits2_log2 by done. rewrite Z.add_simpl_r.
  pose proof (Z.log2_spec m Hm) as H. by rewrite <-Z.add_1_r in H.
Qed.

(** On canonical mantissas the comparison of exponents decides the values. *)
Lemma canonical_exp_lt m1 e1 m2 e2 :
  canonical_mantissa f64_prec f64_emax m1 e1 = true ->
  canonical_mantissa f64_prec f64_emax m2 e2 = true ->
  e1 < e2 -> Z.pos m1 <= Z.pos m2 * 2 ^ (e2 - e1).
Proof.
  unfold canonical_mantissa. intros H1%Z.eqb_eq H2%Z.eqb_eq Hlt.
  change (Z.pos (digits2_pos m1)) with (Zdigits2 (Z.pos m1)) in H1.
  change (Z.pos (digits2_pos m2)) with (Zdigits2 (Z.pos m2)) in H2.
  pose proof (Zdigits2_bounds (Z.pos m1) ltac:(lia)) as [_ Hb1].
  pose proof (Zdigits2_bounds (Z.pos m2) ltac:(lia)) as [Hb2 _].
  assert (Zdigits2 (Z.pos m1) <= 53) by (unfold fexp in *; lia).
  assert (Zdigits2 (Z.pos m2) = 53) as Hd2 by (unfold fexp in *; lia).
  rewrite Hd2 in Hb2.
  assert (2 ^ Zdigits2 (Z.pos m1) <= 2 ^ 53) by (apply Z.pow_le_mono_r; lia).
  assert (2 ^ 53 = 2 ^ (53 - 1) * 2) by done.
  assert (2 <= 2 ^ (e2 - e1)) by (change 2 with (2 ^ 1) at 1; apply Z.pow_le_mono_r; lia).
  nia.
Qed.

Lemma shl_align_same m e : shl_align m e e = (m, e).
Proof. unfold shl_align. by rewrite Z.sub_diag. Qed.

Lemma shl_align_lt m e e' : e' < e -> Z.pos (shl_align m e e').1 = Z.pos m * 2 ^ (e - e').
Proof.
  intros H. unfold shl_align. destruct (e' - e) as [|d|d] eqn:E; try lia.
  cbn [fst]. rewrite iter_xO. f_equal. f_equal. lia.
Qed.

Lemma f_nonneg_normalize d e : 0 <= d -> f_nonneg (binary_normalize f64_prec f64_emax d e false) = true.
Proof.
  intros Hd. destruct d as [|p|p]; [done| |lia].
  cbn [binary_normalize]. pose proof (binary_round_spec false p e) as [_ H]. cbv zeta in H.
  destruct binary_round; subst; done.
Qed.

(** A subtraction guarded by the negated comparison [x < y] does not go below
    zero: what the transfer code tests before it debits an account. *)
Lemma f_sub_nonneg x y :
  f_valid x = true -> f_valid y = true ->
  f_nonneg x = true -> f_nonneg y = true ->
  y <> S754_infinity false -> f_lt x y = false ->
  f_nonneg (f_sub x y) = true.
Proof.
  intros Hx Hy Hxn Hyn Hinf Hlt.
  destruct x as [[]|[]| |[] mx ex], y as [[]|[]| |[] my ey]; try done.
  unfold f_sub, SFsub. cbv zeta. cbn [cond_Zopp].
  apply f_nonneg_normalize.
  cbn in Hx, Hy. unfold bounded in *. apply andb_true_iff in Hx as [Hx _], Hy as [Hy _].
  unfold f_lt, SFltb in Hlt. cbn [SFcompare] in Hlt.
  destruct (Z.compare_spec ex ey) as [->|Hlt'|Hgt]; [..|done|].
  - rewrite Z.min_id, !shl_align_same. cbn [fst].
    change (Pos.compare_cont Eq mx my) with (mx ?= my)%positive in Hlt.
    destruct (Pos.compare_spec mx my); simplify_eq; lia.
  - rewrite Z.min_r by lia. rewrite shl_align_same, shl_align_lt by lia. cbn [fst].
    pose proof (canonical_exp_lt my ey mx ex Hy Hx Hgt). lia.
Qed.

Lemma SFcompare_antisym x y : SFcompare y x = (CompOpp <$> SFcompare x y).
Proof.
  destruct x as [[]|[]| |[] m1 e1], y as [[]|[]| |[] m2 e2]; try reflexivity; cbn;
    rewrite (Z.compare_antisym e1 e2); destruct (e1 ?= e2)%Z; cbn; try reflexivity;
    change (Pos.compare_cont Eq ?a ?b) with (Pos.compare a b); rewrite (Pos.compare_antisym m1 m2); by destruct (m1 ?= m2)%positive.
Qed.

Lemma f_le_finite x c :
  f_le x c = true -> c <> S754_infinity false -> x <> S754_infinity false.
Proof. intros H Hc ->. destruct c as [|[]| |]; done. Qed.

(** ** Decimal text *)

(** The value of the decimal [d * 10^p], correctly rounded: what [float()] of a
    decimal literal returns.  A quotient is taken to at least 64 bits with a
    sticky bit, which rounding to 53 bits cannot tell from the exact value. *)
Definition dec_to_f64 (d p : Z) : f64 :=
  if 0 <=? p then binary_normalize f64_prec f64_emax (d * 10 ^ p) 0 false
  else
    let den := 10 ^ (- p) in
    let s := Z.max 0 (Z.log2 den - Z.log2 d + 66) in
    let q := (d * 2 ^ s) / den in
    let r := (d * 2 ^ s) mod den in
    binary_normalize f64_prec f64_emax (2 * q + (if r =? 0 then 0 else 1)) (- s - 1) false.

(** [k] with [10^(k-1) <= num/den < 10^k], by correcting an estimate. *)
Fixpoint dec_exponent (fuel : nat) (num den k : Z) : Z :=
  match fuel with
  | O => k
  | S fuel =>
      if (if 0 <=? k then den * 10 ^ k <=? num else den <=? num * 10 ^ (- k))
      then dec_exponent fuel num den (k + 1) else k
  end.

(** The shortest decimal digits that read back as [x], the nearest to [x] among
    those of that length: (digits, k) for [0.digits * 10^k]. *)
Fixpoint shortest (n fuel : nat) (num den k : Z) (x : f64) : Z * Z * Z :=
  let p := Z.of_nat n - k in
  let a := if 0 <=? p then num * 10 ^ p else num in
  let b := if 0 <=? p then den else den * 10 ^ (- p) in
  let q := a / b in
  let r := a mod b in
  let lo := bool_decide (dec_to_f64 q (- p) = x) in
  let hi := bool_decide (dec_to_f64 (q + 1) (- p) = x) in
  let up := if 2 * r =? b then Z.odd q else b <? 2 * r in
  match fuel with
  | O => (if up then q + 1 else q, - p, Z.of_nat n)
  | S fuel =>
      if lo && hi then (if up then q + 1 else q, - p, Z.of_nat n)
      else if lo then (q, - p, Z.of_nat n)
      else if hi then (q + 1, - p, Z.of_nat n)
      else shortest (S n) fuel num den k x
  end.

Fixpoint strip_zeros (fuel : nat) (d p : Z) : Z * Z :=
  match fuel with
  | O => (d, p)
  | S fuel => if (d mod 10 =? 0) && (0 <? d) then strip_zeros fuel (d / 10) (p + 1) else (d, p)
  end.

(** Digits and exponent of a positive finite value [m * 2^e]: [d * 10^p]. *)
Definition decimal (m : positive) (e : Z) : Z * Z :=
  let num := if 0 <=? e then Z.pos m * 2 ^ e else Z.pos m in
  let den := if 0 <=? e then 1 else 2 ^ (- e) in
  let est := (Z.log2 num - Z.log2 den) * 30103 / 100000 - 1 in
  let k := dec_exponent 5 num den est in
  let '(d, p, _) := shortest 1 16 num den k (S754_finite false m e) in
  strip_zeros 20 d p.

Fixpoint repeat_str (n : nat) (s : string) : string :=
  match n with O => "" | S n => s +:+ repeat_str n s end.

(** [repr(x)] of a float, in the interpreter's layout: positional between
    [1e-4] and [1e16], exponent notation outside. *)
Definition float_repr (x : f64) : string :=
  match x with
  | S754_nan => "nan"
  | S754_infinity s => if s then "-inf" else "inf"
  | S754_zero s => if s then "-0.0" else "0.0"
  | S754_finite s m e =>
      let '(d, p) := decimal m e in
      let ds := str_of_Z d in
      let nd := Z.of_nat (String.length ds) in
      let decpt := nd + p in
      let body :=
        if (-4 <? decpt) && (decpt <=? 16) then
          if decpt <=? 0 then "0." +:+ repeat_str (Z.to_nat (- decpt)) "0" +:+ ds
          else if nd <=? decpt then ds +:+ repeat_str (Z.to_nat (decpt - nd)) "0" +:+ ".0"
          else take_str (Z.to_nat decpt) ds +:+ "." +:+
               String.substring (Z.to_nat decpt) (String.length ds) ds
        else
          let ex := decpt - 1 in
          let es := str_of_Z (Z.abs ex) in
          take_str 1 ds
            +:+ (if nd =? 1 then "" else "." +:+ String.substring 1 (String.length ds) ds)
            +:+ "e" +:+ (if ex <? 0 then "-" else "+")
            +:+ (if Z.of_nat (String.length es) <? 2 then "0" +:+ es else es) in
      if s then "-" +:+ body else body
  end.

Example float_repr_ex :
  map float_repr
    [f_of_Z 15000; dec_to_f64 1 (-1); dec_to_f64 1 16; f_of_Z 100000; dec_to_f64 314 (-2);
     f_neg (dec_to_f64 25 (-6)); f_sub (dec_to_f64 3 (-1)) (dec_to_f64 1 (-1)); S754_nan;
     dec_to_f64 5 (-324); S754_finite false 4503599627370496 (-96)]
  = ["15000.0"; "0.1"; "1e+16"; "100000.0"; "3.14"; "-2.5e-05"; "0.19999999999999998"; "nan";
     "5e-324"; "5.684341886080802e-14"].
Proof. by vm_compute. Qed.
