(* ===== verification/FloatOrder.v ===== *)
(** The order of binary64 numbers, and that rounding keeps it: a later clock reading less an
    earlier one is never smaller than an earlier reading less the same.  What code that measures
    spans on a monotonic clock relies on. *)
From S2P Require Import Prelude PyFloat.

(** ** Round to nearest, ties to even, on integers *)

(** [v] in units of [2 ^ n]. *)
Definition nearest_even (v n : Z) : Z :=
  let q := v / 2 ^ n in
  let r := v mod 2 ^ n in
  if 2 * r <? 2 ^ n then q else if 2 ^ n <? 2 * r then q + 1 else if Z.even q then q else q + 1.

Lemma nearest_even_bounds v n : v / 2 ^ n <= nearest_even v n <= v / 2 ^ n + 1.
Proof. unfold nearest_even. repeat case_match; lia. Qed.

Lemma nearest_even_mono v1 v2 n : 0 <= n -> v1 <= v2 -> nearest_even v1 n <= nearest_even v2 n.
Proof.
  intros Hn Hv. assert (0 < 2 ^ n) as Hp by (apply Z.pow_pos_nonneg; lia).
  pose proof (Z.div_le_mono v1 v2 (2 ^ n) Hp Hv) as Hq.
  pose proof (nearest_even_bounds v1 n). pose proof (nearest_even_bounds v2 n).
  destruct (decide (v1 / 2 ^ n = v2 / 2 ^ n)) as [E|]; [|lia].
  pose proof (Z.div_mod v1 (2 ^ n) ltac:(lia)). pose proof (Z.div_mod v2 (2 ^ n) ltac:(lia)).
  unfold nearest_even. rewrite E in *. assert (v1 mod 2 ^ n <= v2 mod 2 ^ n) by lia.
  destruct (Z.ltb_spec (2 * (v1 mod 2 ^ n)) (2 ^ n)), (Z.ltb_spec (2 * (v2 mod 2 ^ n)) (2 ^ n)),
    (Z.ltb_spec (2 ^ n) (2 * (v1 mod 2 ^ n))), (Z.ltb_spec (2 ^ n) (2 * (v2 mod 2 ^ n))); try lia; destruct (Z.even _); lia.
Qed.

Lemma nearest_even_scale v n j : 0 <= n -> 0 <= j -> nearest_even (v * 2 ^ j) (n + j) = nearest_even v n.
Proof.
  intros Hn Hj. assert (0 < 2 ^ j) by (apply Z.pow_pos_nonneg; lia).
  assert (0 < 2 ^ n) by (apply Z.pow_pos_nonneg; lia).
  unfold nearest_even. rewrite Z.pow_add_r by lia. rewrite Z.div_mul_cancel_r, Z.mul_mod_distr_r by lia.
  replace (2 * (v mod 2 ^ n * 2 ^ j)) with (2 * (v mod 2 ^ n) * 2 ^ j) by lia.
  assert (forall a b, (a * 2 ^ j <? b * 2 ^ j) = (a <? b)) as Hlt.
  { intros a b. destruct (Z.ltb_spec a b), (Z.ltb_spec (a * 2 ^ j) (b * 2 ^ j)); nia. }
  by rewrite !Hlt.
Qed.

Lemma nearest_even_0 v : nearest_even v 0 = v.
Proof. unfold nearest_even. change (2 ^ 0) with 1. by rewrite Z.mod_1_r, Z.div_1_r. Qed.

(** Shifting bit by bit, with the rounding and the sticky bit, is division with its remainder. *)
Record shifted (m n : Z) (s : shr_record) : Prop := {
  sh_m : shr_m s = m / 2 ^ n;
  sh_r : shr_r s = (2 ^ n <=? 2 * (m mod 2 ^ n));
  sh_s : shr_s s = negb (2 * (m mod 2 ^ n) mod 2 ^ n =? 0);
}.

Lemma shr_1_eq s : 0 <= shr_m s ->
  shr_1 s = {| shr_m := shr_m s / 2; shr_r := Z.odd (shr_m s); shr_s := shr_r s || shr_s s |}.
Proof.
  intros Hm. pose proof (shr_1_m s Hm) as E. destruct s as [[|[p|p|]|p] r t]; cbn in *; try done; by rewrite <-E.
Qed.

Lemma shifted_step m n s : 0 <= m -> 0 <= n -> shifted m n s -> shifted m (n + 1) (shr_1 s).
Proof.
  intros Hm Hn [H1 H2 H3]. assert (0 < 2 ^ n) by (apply Z.pow_pos_nonneg; lia).
  assert (0 <= m / 2 ^ n) by (apply Z.div_pos; lia). rewrite shr_1_eq by (by rewrite H1).
  pose proof (Z.mod_pos_bound m (2 ^ n) ltac:(lia)) as Hr. set (r := m mod 2 ^ n) in *. set (q := m / 2 ^ n) in *.
  pose proof (Z.div_mod q 2 ltac:(lia)) as Hq. pose proof (Z.mod_pos_bound q 2 ltac:(lia)) as Hq2.
  assert (Hodd : Z.odd q = (q mod 2 =? 1)) by (rewrite Zmod_odd; by destruct (Z.odd q)).
  assert (E : m mod 2 ^ (n + 1) = (q mod 2) * 2 ^ n + r /\ m / 2 ^ (n + 1) = q / 2).
  { assert (m = 2 ^ n * q + r) by (apply Z.div_mod; lia). rewrite Z.pow_add_r by lia. change (2 ^ 1) with 2.
    assert (m = 2 ^ n * 2 * (q / 2) + ((q mod 2) * 2 ^ n + r)) by nia.
    split; symmetry; [eapply Z.mod_unique_pos|eapply Z.div_unique_pos]; [|eassumption| |eassumption]; nia. }
  destruct E as [E1 E2]. split; cbn.
  - by rewrite H1, E2.
  - rewrite H1, E1, Hodd, Z.pow_add_r by lia. change (2 ^ 1) with 2.
    destruct (Z.eqb_spec (q mod 2) 1), (Z.leb_spec (2 ^ n * 2) (2 * (q mod 2 * 2 ^ n + r))); nia.
  - rewrite H2, H3, E1, Z.pow_add_r by lia. change (2 ^ 1) with 2.
    replace (2 * (q mod 2 * 2 ^ n + r)) with (2 * r + (q mod 2) * (2 ^ n * 2)) by lia.
    rewrite Z.mod_add, (Z.mod_small (2 * r) (2 ^ n * 2)) by lia.
    destruct (Z.leb_spec (2 ^ n) (2 * r)); cbn [orb].
    + destruct (Z.eqb_spec (2 * r) 0); [lia|done].
    + by rewrite Z.mod_small by lia.
Qed.

Lemma shifted_iter m n p s : 0 <= m -> 0 <= n -> shifted m n s -> shifted m (n + Z.pos p) (SpecFloat.iter_pos shr_1 p s).
Proof.
  intros Hm. revert n s. induction p as [p IH|p IH|]; intros n s Hn Hs; cbn [SpecFloat.iter_pos].
  - replace (n + Z.pos p~1) with (n + 1 + Z.pos p + Z.pos p) by lia. apply IH; [lia|]. apply IH; [lia|]. by apply shifted_step.
  - replace (n + Z.pos p~0) with (n + Z.pos p + Z.pos p) by lia. apply IH; [lia|]. by apply IH.
  - by apply shifted_step.
Qed.

Lemma shifted_nearest m n s : 0 <= n -> shifted m n s -> round_nearest_even (shr_m s) (loc_of_shr_record s) = nearest_even m n.
Proof.
  intros Hn [H1 H2 H3]. assert (0 < 2 ^ n) by (apply Z.pow_pos_nonneg; lia).
  pose proof (Z.mod_pos_bound m (2 ^ n) ltac:(lia)). unfold nearest_even. destruct s as [q r t]. cbn in H1, H2, H3. subst q.
  set (x := m mod 2 ^ n) in *. cbn [shr_m].
  assert (Hx : 2 ^ n <= 2 * x -> 2 * x mod 2 ^ n = 2 * x - 2 ^ n).
  { intros. symmetry. apply Z.mod_unique_pos with 1; lia. }
  destruct (Z.leb_spec (2 ^ n) (2 * x)) as [Hle|Hlt]; subst r.
  - rewrite Hx in H3 by done. destruct (Z.ltb_spec (2 * x) (2 ^ n)); [lia|].
    destruct (Z.eqb_spec (2 * x - 2 ^ n) 0), (Z.ltb_spec (2 ^ n) (2 * x)); subst t; cbn; try lia; done.
  - destruct (Z.ltb_spec (2 * x) (2 ^ n)); [|lia]. by destruct t.
Qed.

(** ** Rounding a number of units of the smallest binary64 *)

Notation f64_emin := (emin f64_prec f64_emax).

(** The bits that go. *)
Definition excess (v : Z) : Z := Z.max 0 (Zdigits2 v - 53).

Definition rounded (v : Z) : Z := nearest_even v (excess v) * 2 ^ excess v.

(** The number of so many units, when it has one. *)
Definition of_units (s : bool) (w : Z) : f64 :=
  match w / 2 ^ excess w with
  | Z0 => S754_zero s
  | Zpos m => if f64_emin + excess w <=? f64_emax - f64_prec then S754_finite s m (f64_emin + excess w) else S754_infinity s
  | Zneg _ => S754_nan
  end.

Lemma excess_nonneg v : 0 <= excess v.
Proof. unfold excess. lia. Qed.

Lemma excess_mono v w : 0 <= v <= w -> excess v <= excess w.
Proof. intros H. pose proof (Zdigits2_mono v w H). unfold excess. lia. Qed.

Lemma fexp64_excess v : fexp64 (Zdigits2 v + f64_emin) = f64_emin + excess v.
Proof. unfold fexp, excess. lia. Qed.

Lemma nearest_even_pos v : 0 < v -> 2 ^ (Zdigits2 v - 1) <= rounded v <= 2 ^ Zdigits2 v /\ 0 < nearest_even v (excess v).
Proof.
  intros Hv. pose proof (Zdigits2_bounds v Hv) as [Hl Hu]. pose proof (nearest_even_bounds v (excess v)) as Hb.
  unfold rounded. set (n := excess v) in *. assert (Hn : 0 <= n) by apply excess_nonneg.
  assert (0 < 2 ^ n) by (apply Z.pow_pos_nonneg; lia).
  assert (1 <= Zdigits2 v) by (rewrite Zdigits2_log2 by done; pose proof (Z.log2_nonneg v); lia).
  assert (Hd : n <= Zdigits2 v - 1) by (unfold n, excess in *; lia).
  assert (Hq : 2 ^ (Zdigits2 v - 1 - n) <= v / 2 ^ n).
  { apply Z.div_le_lower_bound; [done|]. rewrite <-Z.pow_add_r by lia. by replace (n + (Zdigits2 v - 1 - n)) with (Zdigits2 v - 1) by lia. }
  assert (Hq' : v / 2 ^ n < 2 ^ (Zdigits2 v - n)).
  { apply Z.div_lt_upper_bound; [done|]. rewrite <-Z.pow_add_r by lia. by replace (n + (Zdigits2 v - n)) with (Zdigits2 v) by lia. }
  assert (0 < 2 ^ (Zdigits2 v - 1 - n)) by (apply Z.pow_pos_nonneg; lia).
  assert (E1 : 2 ^ (Zdigits2 v - 1) = 2 ^ (Zdigits2 v - 1 - n) * 2 ^ n) by (rewrite <-Z.pow_add_r by lia; f_equal; lia).
  assert (E2 : 2 ^ Zdigits2 v = 2 ^ (Zdigits2 v - n) * 2 ^ n) by (rewrite <-Z.pow_add_r by lia; f_equal; lia).
  rewrite E1, E2. nia.
Qed.

Lemma rounded_mono v w : 0 <= v <= w -> rounded v <= rounded w.
Proof.
  intros [Hv Hw]. destruct (decide (v = 0)) as [->|].
  { change (rounded 0) with 0. destruct (decide (w = 0)) as [->|]; [done|].
    pose proof (nearest_even_pos w ltac:(lia)) as [[Hr _] _]. pose proof (Zdigits2_nonneg w ltac:(lia)).
    enough (0 <= 2 ^ (Zdigits2 w - 1)) by lia. apply Z.pow_nonneg. lia. }
  pose proof (excess_mono v w ltac:(lia)) as He. destruct (decide (excess v = excess w)) as [E|Hne].
  - unfold rounded. rewrite E. pose proof (nearest_even_mono v w (excess w) (excess_nonneg w) Hw).
    assert (0 < 2 ^ excess w) by (apply Z.pow_pos_nonneg; [lia|apply excess_nonneg]). nia.
  - pose proof (nearest_even_pos v ltac:(lia)) as [[_ Hr] _]. pose proof (nearest_even_pos w ltac:(lia)) as [[Hr' _] _].
    transitivity (2 ^ Zdigits2 v); [done|]. etransitivity; [|exact Hr']. apply Z.pow_le_mono_r; [lia|]. unfold excess in *. lia.
Qed.

Lemma of_units_mono v w : 0 <= v <= w -> f_le (of_units false v) (of_units false w) = true.
Proof.
  intros [Hv Hw]. pose proof (excess_mono v w ltac:(lia)) as He. unfold of_units.
  assert (Hp : forall x, 0 < 2 ^ excess x) by (intros; apply Z.pow_pos_nonneg; [lia|apply excess_nonneg]).
  assert (Hd : 0 <= v / 2 ^ excess v) by (apply Z.div_pos; [done|apply Hp]).
  assert (Hd' : excess v = excess w -> v / 2 ^ excess v <= w / 2 ^ excess w) by (intros ->; by apply Z.div_le_mono).
  assert (Hw0 : 0 < excess w -> 0 < w / 2 ^ excess w).
  { intros Hx. apply Z.div_str_pos. split; [apply Hp|].
    assert (0 < w) as Hw' by (destruct (decide (w = 0)) as [->|]; [done|lia]). pose proof (Zdigits2_bounds w Hw') as [Hl _].
    etransitivity; [|exact Hl]. apply Z.pow_le_mono_r; [lia|]. unfold excess in *. lia. }
  pose proof (excess_nonneg v). destruct (v / 2 ^ excess v) as [|m|m] eqn:Ev; [| |lia].
  { assert (0 <= w / 2 ^ excess w) by (apply Z.div_pos; [lia|apply Hp]). destruct (w / 2 ^ excess w); [done| |lia]. by case_match. }
  destruct (w / 2 ^ excess w) as [|m'|m'] eqn:Ew; [exfalso; destruct (decide (excess v = excess w)); lia| |].
  2: { assert (0 <= w / 2 ^ excess w) by (apply Z.div_pos; [lia|apply Hp]). lia. }
  destruct (Z.leb_spec (f64_emin + excess w) (f64_emax - f64_prec)), (Z.leb_spec (f64_emin + excess v) (f64_emax - f64_prec)); try done; try lia.
  unfold f_le, SFleb. cbn [SFcompare]. change (Pos.compare_cont Eq m m') with (m ?= m')%positive.
  destruct (Z.compare_spec (f64_emin + excess v) (f64_emin + excess w)); [|done|lia].
  destruct (Pos.compare_spec m m'); try done. lia.
Qed.

(** Aligning what [rounded] leaves. *)
Lemma finish_rounded s v :
  0 < v ->
  (let '(mrs, e) := shr_fexp f64_prec f64_emax (nearest_even v (excess v)) (f64_emin + excess v) loc_Exact in
   match shr_m mrs with
   | Z0 => S754_zero s
   | Zpos m => if e <=? f64_emax - f64_prec then S754_finite s m e else S754_infinity s
   | Zneg _ => S754_nan
   end) = of_units s (rounded v).
Proof.
  intros Hv. pose proof (nearest_even_pos v Hv) as [[Hl _] Hm]. set (m := nearest_even v (excess v)) in *.
  pose proof (shr_fexp_spec m (f64_emin + excess v) loc_Exact ltac:(lia)) as Hs. cbv zeta in Hs.
  destruct (shr_fexp _ _ _ _ _) as [mrs e]. cbn [fst snd] in Hs. destruct Hs as [Hsm He].
  pose proof (excess_nonneg v) as Hn. assert (Hd : Zdigits2 (rounded v) = Zdigits2 m + excess v) by (by apply Zdigits2_shiftl).
  assert (Hge : Zdigits2 v <= Zdigits2 (rounded v)).
  { assert (0 < rounded v) as Hr by (pose proof (Z.pow_pos_nonneg 2 (excess v) ltac:(lia) ltac:(lia)); unfold rounded; fold m; nia).
    pose proof (Zdigits2_bounds (rounded v) Hr) as [_ Hu].
    assert (2 ^ (Zdigits2 v - 1) < 2 ^ Zdigits2 (rounded v)) as Hlt by lia.
    apply Z.pow_lt_mono_r_iff in Hlt; [lia|lia|]. pose proof (Zdigits2_nonneg (rounded v)). lia. }
  assert (Hx : excess (rounded v) = excess v + Z.max 0 (fexp64 (Zdigits2 m + (f64_emin + excess v)) - (f64_emin + excess v))).
  { unfold fexp, excess in *. lia. }
  unfold of_units. rewrite He, Hsm, Hx. set (k := Z.max 0 _) in *.
  assert (rounded v / 2 ^ (excess v + k) = m / 2 ^ k) as ->.
  { unfold rounded. fold m. rewrite Z.add_comm, Z.pow_add_r by lia. apply Z.div_mul_cancel_r; apply Z.pow_nonzero; lia. }
  by rewrite Z.add_assoc.
Qed.

(** What [binary_round] computes. *)
Lemma binary_round_units s m e : f64_emin <= e -> binary_round f64_prec f64_emax s m e = of_units s (rounded (Z.pos m * 2 ^ (e - f64_emin))).
Proof.
  intros He. set (v := Z.pos m * 2 ^ (e - f64_emin)).
  assert (0 < v) as Hv by (pose proof (Z.pow_pos_nonneg 2 (e - f64_emin) ltac:(lia) ltac:(lia)); unfold v; nia).
  rewrite <-finish_rounded by done. assert (Hd : Zdigits2 v = Zdigits2 (Z.pos m) + (e - f64_emin)) by (apply Zdigits2_shiftl; lia).
  pose proof (fexp64_excess v) as Hk. replace (Zdigits2 v + f64_emin) with (Zdigits2 (Z.pos m) + e) in Hk by lia.
  pose proof (excess_nonneg v) as Hn. unfold binary_round. change (Z.pos (digits2_pos m)) with (Zdigits2 (Z.pos m)). rewrite Hk.
  destruct (decide (f64_emin + excess v < e)) as [Hlt|Hge].
  - unfold shl_align. destruct (f64_emin + excess v - e) as [|d|d] eqn:Ed; try lia.
    assert (Z.pos (Pos.iter xO m d) = nearest_even v (excess v)) as Em.
    { rewrite iter_xO. assert (v = Z.pos m * 2 ^ Z.pos d * 2 ^ excess v) as Ev.
      { unfold v at 1. rewrite <-Z.mul_assoc, <-Z.pow_add_r by lia. do 2 f_equal. lia. }
      pose proof (nearest_even_scale (Z.pos m * 2 ^ Z.pos d) 0 (excess v) ltac:(lia) Hn) as Hs.
      by rewrite nearest_even_0, Z.add_0_l, <-Ev in Hs. }
    assert (Zdigits2 (nearest_even v (excess v)) + (f64_emin + excess v) = Zdigits2 (Z.pos m) + e) as Hdm
      by (rewrite <-Em, iter_xO, Zdigits2_shiftl by lia; lia).
    unfold binary_round_aux. rewrite Em. unfold shr_fexp at 1. rewrite Hdm, Hk, Z.sub_diag.
    cbn [shr shr_record_of_loc shr_m loc_of_shr_record round_nearest_even]. done.
  - unfold shl_align. replace (match f64_emin + excess v - e with Z.neg d => (Pos.iter xO m d, f64_emin + excess v) | _ => (m, e) end) with (m, e)
      by (destruct (f64_emin + excess v - e) eqn:Ed; try done; lia).
    unfold binary_round_aux. unfold shr_fexp at 1. rewrite Hk.
    assert (Hs : shifted (Z.pos m) 0 (shr_record_of_loc (Z.pos m) loc_Exact)) by (by split; cbn; rewrite ?Z.mod_1_r, ?Z.div_1_r).
    assert (Hnear : nearest_even v (excess v) = nearest_even (Z.pos m) (f64_emin + excess v - e)).
    { rewrite <-(nearest_even_scale (Z.pos m) (f64_emin + excess v - e) (e - f64_emin)) by lia. fold v. f_equal. lia. }
    rewrite Hnear. assert (exists q, f64_emin + excess v - e = q /\ f64_emin + excess v = e + q /\ 0 <= q) as (q & -> & -> & Hq).
    { eexists. split; [reflexivity|]. lia. }
    unfold shr. destruct q as [|p|p]; [by rewrite nearest_even_0, Z.add_0_r| |lia].
    pose proof (shifted_iter (Z.pos m) 0 p _ ltac:(lia) ltac:(lia) Hs) as Hsp. rewrite Z.add_0_l in Hsp.
    by rewrite (shifted_nearest (Z.pos m) (Z.pos p) _ ltac:(lia) Hsp).
Qed.
