(* ===== verification/PyTime.v ===== *)
(** Python [datetime] values in UTC, as the source writes and reads them.

    A datetime is the number of microseconds since 0001-01-01T00:00:00 UTC; the
    stores keep its [isoformat()] text, and compare those texts.  The calendar
    functions follow [_ord2ymd] and [_ymd2ord] of the [datetime] module.
    [fromisoformat] accepts the texts [isoformat] writes (and the [Z] suffix);
    the other ISO 8601 layouts Python accepts are outside the model and count
    as malformed. *)
From S2P Require Import Prelude PyStr.

Definition is_leap (y : Z) : bool :=
  (y mod 4 =? 0) && (negb (y mod 100 =? 0) || (y mod 400 =? 0)).

Definition days_before_year (y : Z) : Z :=
  let y := y - 1 in y * 365 + y / 4 - y / 100 + y / 400.

Definition days_in_month (y m : Z) : Z :=
  if m =? 2 then (if is_leap y then 29 else 28)
  else if (m =? 4) || (m =? 6) || (m =? 9) || (m =? 11) then 30 else 31.

Fixpoint days_before_month (y : Z) (k : nat) : Z :=
  match k with
  | O => 0
  | S k => days_before_month y k + days_in_month y (Z.of_nat (S k))
  end.

(** Proleptic Gregorian ordinal of a date, 1 for 0001-01-01. *)
Definition ymd2ord (y m d : Z) : Z :=
  days_before_year y + days_before_month y (Z.to_nat (m - 1)) + d.

(** The month containing day [n] (from 0) of year [y], and the day in it. *)
Fixpoint month_of (fuel : nat) (y m n : Z) : Z * Z :=
  match fuel with
  | O => (m, n + 1)
  | S fuel => if n <? days_in_month y m then (m, n + 1)
              else month_of fuel y (m + 1) (n - days_in_month y m)
  end.

Definition ord2ymd (o : Z) : Z * Z * Z :=
  let n := o - 1 in
  let n400 := n / 146097 in let n := n mod 146097 in
  let n100 := n / 36524 in let n := n mod 36524 in
  let n4 := n / 1461 in let n := n mod 1461 in
  let n1 := n / 365 in let n := n mod 365 in
  let y := n400 * 400 + n100 * 100 + n4 * 4 + n1 + 1 in
  if (n1 =? 4) || (n100 =? 4) then (y - 1, 12, 31)
  else let '(m, d) := month_of 11 y 1 n in (y, m, d).

Notation us_per_second := 1000000.
Notation us_per_day := (86400 * 1000000).

(** [datetime(y, m, d, H, M, S, us, tzinfo=utc)] *)
Definition datetime_of (y m d h mi s us : Z) : Z :=
  (ymd2ord y m d - 1) * us_per_day + ((h * 60 + mi) * 60 + s) * us_per_second + us.

(** [dt + timedelta(minutes=n)] *)
Definition add_minutes (t n : Z) : Z := t + n * 60 * us_per_second.

(** Zero-padded decimal field of [w] digits. *)
Fixpoint pad (w : nat) (n : Z) : string :=
  match w with O => "" | S w => pad w (n / 10) +:+ String (digit_char (n mod 10)) "" end.

(** [dt.isoformat()] *)
Definition isoformat (t : Z) : string :=
  let '(y, m, d) := ord2ymd (t / us_per_day + 1) in
  let r := t mod us_per_day in
  let us := r mod us_per_second in
  let s := r / us_per_second in
  pad 4 y +:+ "-" +:+ pad 2 m +:+ "-" +:+ pad 2 d +:+ "T" +:+
  pad 2 (s / 3600) +:+ ":" +:+ pad 2 (s / 60 mod 60) +:+ ":" +:+ pad 2 (s mod 60) +:+
  (if us =? 0 then "" else "." +:+ pad 6 us) +:+ "+00:00".

(** A field of exactly [w] digits. *)
Fixpoint field (w : nat) (acc : Z) (s : string) : option (Z * string) :=
  match w with
  | O => Some (acc, s)
  | S w =>
      match s with
      | String c s' => if is_digit c then field w (10 * acc + digit_val c) s' else None
      | EmptyString => None
      end
  end.

Definition expect (c : Ascii.ascii) (s : string) : option string :=
  match s with String a s' => if Ascii.eqb a c then Some s' else None | EmptyString => None end.

Definition offset_utc (s : string) : bool := String.eqb s "+00:00" || String.eqb s "Z".

(** [datetime.fromisoformat(s)]; [None] is the [ValueError]. *)
Definition fromisoformat (s : string) : option Z :=
  '(y, s) ← field 4 0 s; s ← expect "-"%char s;
  '(m, s) ← field 2 0 s; s ← expect "-"%char s;
  '(d, s) ← field 2 0 s; s ← expect "T"%char s;
  '(h, s) ← field 2 0 s; s ← expect ":"%char s;
  '(mi, s) ← field 2 0 s; s ← expect ":"%char s;
  '(sec, s) ← field 2 0 s;
  '(us, s) ← match expect "."%char s with
             | Some s' => field 6 0 s'
             | None => Some (0, s)
             end;
  if offset_utc s && (1 <=? y) && (1 <=? m) && (m <=? 12) && (1 <=? d) && (d <=? days_in_month y m)
     && (h <? 24) && (mi <? 60) && (sec <? 60)
  then Some (datetime_of y m d h mi sec us) else None.

(** [a < b] of SQLite on TEXT columns, and of Python on strings. *)
Definition text_lt (a b : string) : bool := String.ltb a b.

Definition noon_2026 : Z := datetime_of 2026 6 25 12 0 0 0.

Example iso_ex :
  map isoformat [noon_2026; add_minutes noon_2026 30 + 5; datetime_of 2024 2 29 23 59 59 999999]
  = ["2026-06-25T12:00:00+00:00"; "2026-06-25T12:30:00.000005+00:00";
     "2024-02-29T23:59:59.999999+00:00"].
Proof. by vm_compute. Qed.

Example iso_back_ex :
  fromisoformat (isoformat (noon_2026 + 17)) = Some (noon_2026 + 17) /\
  fromisoformat "2026-02-29T00:00:00+00:00" = None /\ fromisoformat "soon" = None.
Proof. by vm_compute. Qed.

#[global] Arguments isoformat _ : simpl never.
#[global] Arguments fromisoformat _ : simpl never.
#[global] Arguments datetime_of _ _ _ _ _ _ _ : simpl never.
#[global] Arguments add_minutes _ _ : simpl never.
#[global] Arguments noon_2026 : simpl never.
