(* ===== verification/Sha256.v ===== *)
(** SHA-256 ([hashlib.sha256(...).hexdigest()]), over the UTF-8 bytes of a
    string.  Words are integers below [2^32]; additions wrap. *)
From S2P Require Import Prelude PyStr.

Module Sha256.
Notation w32 := (2 ^ 32).

Definition add32 (a b : Z) : Z := (a + b) mod w32.
Definition rotr (x n : Z) : Z := Z.lor (Z.shiftr x n) (Z.shiftl x (32 - n) mod w32).
Definition not32 (x : Z) : Z := w32 - 1 - x.

(** The constants of FIPS 180-4 are derived, not transcribed: the first 32 bits of the
    fractional parts of the cube (square) roots of the first 64 (8) primes. *)
Definition has_divisor (n : nat) : bool := existsb (fun d => Nat.eqb (n mod d) 0) (seq 2 (n - 2)).
Definition primes : list Z :=
  map Z.of_nat (List.filter (fun n => negb (has_divisor n)) (seq 2 310)).

(** The largest [r < 2^bits] with [r ^ e <= n], built from its top bit down. *)
Fixpoint int_root (e n : Z) (bits : nat) (r : Z) : Z :=
  match bits with
  | O => r
  | S b => let r' := r + 2 ^ Z.of_nat b in int_root e n b (if r' ^ e <=? n then r' else r)
  end.
Definition root_fraction (e p : Z) : Z := int_root e (p * 2 ^ (32 * e)) 37 0 mod w32.

Definition K : list Z := Eval vm_compute in map (root_fraction 3) primes.
Definition H0 : list Z := Eval vm_compute in map (root_fraction 2) (firstn 8 primes).

Example constants_count : length K = 64%nat /\ length H0 = 8%nat.
Proof. by vm_compute. Qed.

Fixpoint bytes_of (s : string) : list Z :=
  match s with EmptyString => [] | String c s' => code c :: bytes_of s' end.

Definition be_bytes (n : nat) (v : Z) : list Z :=
  map (fun i => Z.shiftr v (8 * Z.of_nat (n - 1 - i)) mod 256) (seq 0 n).

Definition pad_message (m : list Z) : list Z :=
  let l := Z.of_nat (length m) in
  m ++ 128 :: repeat 0 (Z.to_nat ((55 - l) mod 64)) ++ be_bytes 8 (8 * l).

Fixpoint words_of (n : nat) (m : list Z) : list Z :=
  match n, m with
  | S n, a :: b :: c :: d :: m' => ((a * 256 + b) * 256 + c) * 256 + d :: words_of n m'
  | _, _ => []
  end.

(** Message schedule, most recent word first. *)
Fixpoint schedule (n : nat) (ws : list Z) : list Z :=
  match n with
  | O => ws
  | S n =>
      let w i := nth (i - 1) ws 0 in
      let s0 := Z.lxor (Z.lxor (rotr (w 15%nat) 7) (rotr (w 15%nat) 18)) (Z.shiftr (w 15%nat) 3) in
      let s1 := Z.lxor (Z.lxor (rotr (w 2%nat) 17) (rotr (w 2%nat) 19)) (Z.shiftr (w 2%nat) 10) in
      schedule n (add32 (add32 (w 16%nat) s0) (add32 (w 7%nat) s1) :: ws)
  end.

Definition round (st : list Z) (kw : Z * Z) : list Z :=
  match st with
  | [a; b; c; d; e; f; g; h] =>
      let s1 := Z.lxor (Z.lxor (rotr e 6) (rotr e 11)) (rotr e 25) in
      let ch := Z.lxor (Z.land e f) (Z.land (not32 e) g) in
      let t1 := add32 (add32 h s1) (add32 ch (add32 (fst kw) (snd kw))) in
      let s0 := Z.lxor (Z.lxor (rotr a 2) (rotr a 13)) (rotr a 22) in
      let maj := Z.lxor (Z.lxor (Z.land a b) (Z.land a c)) (Z.land b c) in
      [add32 t1 (add32 s0 maj); a; b; c; add32 d t1; e; f; g]
  | _ => st
  end.

Definition compress (st block : list Z) : list Z :=
  let ws := rev (schedule 48 (rev (words_of 16 block))) in
  map (fun p => add32 (fst p) (snd p)) (combine st (fold_left round (combine K ws) st)).

Fixpoint blocks (fuel : nat) (st m : list Z) : list Z :=
  match fuel, m with
  | S fuel, _ :: _ => blocks fuel (compress st (firstn 64 m)) (skipn 64 m)
  | _, _ => st
  end.

Definition hex_char (d : Z) : Ascii.ascii :=
  Ascii.ascii_of_nat (Z.to_nat (if d <? 10 then 48 + d else 87 + d)).

Definition hex_word (w : Z) : string :=
  fold_right (fun i s => String (hex_char (Z.shiftr w (4 * (7 - i)) mod 16)) s) ""
    [0; 1; 2; 3; 4; 5; 6; 7].

(** [hashlib.sha256(s.encode()).hexdigest()] *)
Definition hexdigest (s : string) : string :=
  let m := pad_message (bytes_of s) in
  fold_right (fun w acc => hex_word w +:+ acc) "" (blocks (length m) H0 m).

Example sha256_abc :
  hexdigest "abc" = "ba7816bf8f01cfea414140de5dae2223b00361a396177a9cb410ff61f20015ad".
Proof. by vm_compute. Qed.

Example sha256_two_blocks :
  hexdigest "abcdbcdecdefdefgefghfghighijhijkijkljklmklmnlmnomnopnopq"
  = "248d6a61d20638b8e5c026930c3e6039a33ce45964ff2167f6ecedd419db06c1".
Proof. by vm_compute. Qed.
End Sha256.
