(* ===== verification/Json.v ===== *)
(** JSON values and the [json] module: [dumps] (default separators, optional
    [sort_keys]) and [loads].

    A Python [dict] with string keys is an association list in insertion order
    with distinct keys.  The main result is that [loads] reads back what [dumps]
    writes, on values whose dictionaries have distinct keys and whose texts are
    ASCII. *)
From Stdlib Require Import Sorted.
From S2P Require Import Prelude PyStr PyFloat.

Inductive json : Type :=
  | JNull
  | JBool (b : bool)
  | JInt (z : Z)
  | JFloat (f : f64)
  | JStr (s : string)
  | JArr (l : list json)
  | JObj (d : list (string * json)).

Notation dict := (list (string * json)).

(** Induction with the elements of arrays and objects. *)
Section json_ind.
Context (P : json -> Prop).
Hypothesis HNull : P JNull.
Hypothesis HBool : forall b, P (JBool b).
Hypothesis HInt : forall z, P (JInt z).
Hypothesis HFloat : forall f, P (JFloat f).
Hypothesis HStr : forall s, P (JStr s).
Hypothesis HArr : forall l, Forall P l -> P (JArr l).
Hypothesis HObj : forall d, Forall (fun kv => P (snd kv)) d -> P (JObj d).

Fixpoint json_ind' (v : json) : P v :=
  match v with
  | JNull => HNull
  | JBool b => HBool b
  | JInt z => HInt z
  | JFloat f => HFloat f
  | JStr s => HStr s
  | JArr l =>
      HArr l ((fix go l := match l return Forall P l with
                | [] => Forall_nil_2 _
                | x :: l' => Forall_cons_2 _ _ _ (json_ind' x) (go l')
                end) l)
  | JObj d =>
      HObj d ((fix go d := match d return Forall (fun kv => P (snd kv)) d with
                | [] => Forall_nil_2 _
                | kv :: d' => Forall_cons_2 _ _ _ (json_ind' (snd kv)) (go d')
                end) d)
  end.
End json_ind.

(** ** Dictionaries *)

Fixpoint dget (d : dict) (k : string) : option json :=
  match d with
  | [] => None
  | (k', v) :: d' => if String.eqb k k' then Some v else dget d' k
  end.

(** [d\[k\] = v]: an existing key keeps its position. *)
Fixpoint dset (d : dict) (k : string) (v : json) : dict :=
  match d with
  | [] => [(k, v)]
  | (k', v') :: d' => if String.eqb k k' then (k', v) :: d' else (k', v') :: dset d' k v
  end.

Definition dkeys (d : dict) : list string := map fst d.
Definition dhas (d : dict) (k : string) : bool := is_some (dget d k).

(** ** Text *)

(** The code points of a UTF-8 text. *)
Fixpoint code_points (need : nat) (acc : Z) (s : string) : list Z :=
  match s with
  | EmptyString => []
  | String c s' =>
      let b := code c in
      if b <? 128 then b :: code_points 0 0 s'
      else if b <? 192 then
        let acc' := acc * 64 + (b - 128) in
        match need with
        | O => code_points 0 0 s'
        | 1%nat => acc' :: code_points 0 0 s'
        | S n => code_points n acc' s'
        end
      else if b <? 224 then code_points 1 (b - 192) s'
      else if b <? 240 then code_points 2 (b - 224) s'
      else code_points 3 (b - 240) s'
  end.

Definition chr (n : Z) : Ascii.ascii := Ascii.ascii_of_nat (Z.to_nat n).

Definition utf8 (cp : Z) : string :=
  if cp <? 128 then String (chr cp) ""
  else if cp <? 2048 then String (chr (192 + cp / 64)) (String (chr (128 + cp mod 64)) "")
  else if cp <? 65536 then
    String (chr (224 + cp / 4096)) (String (chr (128 + cp / 64 mod 64))
      (String (chr (128 + cp mod 64)) ""))
  else
    String (chr (240 + cp / 262144)) (String (chr (128 + cp / 4096 mod 64))
      (String (chr (128 + cp / 64 mod 64)) (String (chr (128 + cp mod 64)) ""))).

Definition hex_digit (d : Z) : Ascii.ascii := chr (if d <? 10 then 48 + d else 87 + d).

Definition u_escape (n : Z) : string :=
  "\u" +:+ String (hex_digit (n / 4096)) (String (hex_digit (n / 256 mod 16))
    (String (hex_digit (n / 16 mod 16)) (String (hex_digit (n mod 16)) ""))).

Definition quote : string := String (chr 34) "".

(** [ensure_ascii] escaping of one code point. *)
Definition escape_cp (cp : Z) : string :=
  if cp =? 34 then String (chr 92) quote else if cp =? 92 then "\\"
  else if cp =? 10 then "\n" else if cp =? 13 then "\r" else if cp =? 9 then "\t"
  else if cp =? 8 then "\b" else if cp =? 12 then "\f"
  else if (32 <=? cp) && (cp <=? 126) then String (chr cp) ""
  else if cp <? 65536 then u_escape cp
  else u_escape (55296 + (cp - 65536) / 1024) +:+ u_escape (56320 + (cp - 65536) mod 1024).

Fixpoint concat_str (l : list string) : string :=
  match l with [] => "" | s :: l' => s +:+ concat_str l' end.

Definition escape (s : string) : string := concat_str (map escape_cp (code_points 0 0 s)).

Definition dump_str (s : string) : string := quote +:+ escape s +:+ quote.

Definition float_text (f : f64) : string :=
  match f with
  | S754_nan => "NaN"
  | S754_infinity s => if s then "-Infinity" else "Infinity"
  | _ => float_repr f
  end.

(** Insertion by key, for [sort_keys]. *)
Fixpoint insert_key {A} (kv : string * A) (l : list (string * A)) : list (string * A) :=
  match l with
  | [] => [kv]
  | kv' :: l' => if String.leb (fst kv) (fst kv') then kv :: l else kv' :: insert_key kv l'
  end.

Definition sort_items {A} (l : list (string * A)) : list (string * A) :=
  fold_right insert_key [] l.

Definition dump_item (kv : string * string) : string := dump_str (fst kv) +:+ ": " +:+ snd kv.

(** [json.dumps(v, sort_keys=sort)] *)
Fixpoint dumps (sort : bool) (v : json) : string :=
  match v with
  | JNull => "null"
  | JBool b => if b then "true" else "false"
  | JInt z => str_of_Z z
  | JFloat f => float_text f
  | JStr s => dump_str s
  | JArr l => "[" +:+ join ", " (map (dumps sort) l) +:+ "]"
  | JObj d =>
      let items := map (fun kv => (fst kv, dumps sort (snd kv))) d in
      "{" +:+ join ", " (map dump_item (if sort then sort_items items else items)) +:+ "}"
  end.

(** ** Parsing *)

Definition is_ws (c : Ascii.ascii) : bool :=
  (code c =? 32) || (code c =? 9) || (code c =? 10) || (code c =? 13).

Fixpoint skip_ws (s : string) : string :=
  match s with String c s' => if is_ws c then skip_ws s' else s | EmptyString => EmptyString end.

Definition hex_val (c : Ascii.ascii) : option Z :=
  let b := code c in
  if (48 <=? b) && (b <=? 57) then Some (b - 48)
  else if (97 <=? b) && (b <=? 102) then Some (b - 87)
  else if (65 <=? b) && (b <=? 70) then Some (b - 55) else None.

Definition hex4 (a b c d : Ascii.ascii) : option Z :=
  x ← hex_val a; y ← hex_val b; z ← hex_val c; w ← hex_val d;
  Some (((x * 16 + y) * 16 + z) * 16 + w).

Definition simple_escape (c : Ascii.ascii) : option Ascii.ascii :=
  let b := code c in
  if b =? 34 then Some (chr 34) else if b =? 92 then Some (chr 92)
  else if b =? 47 then Some (chr 47) else if b =? 98 then Some (chr 8)
  else if b =? 102 then Some (chr 12) else if b =? 110 then Some (chr 10)
  else if b =? 114 then Some (chr 13) else if b =? 116 then Some (chr 9) else None.

Definition is_high (n : Z) : bool := (55296 <=? n) && (n <=? 56319).
Definition is_low (n : Z) : bool := (56320 <=? n) && (n <=? 57343).

Definition cons_str (t : string) (r : option (string * string)) : option (string * string) :=
  match r with Some (v, rest) => Some (t +:+ v, rest) | None => None end.

(** The body of a string literal, after the opening quote.  A surrogate on its own is a code
    point of the text, in the three bytes [utf8] gives it. *)
Fixpoint pstring (s : string) : option (string * string) :=
  match s with
  | EmptyString => None
  | String c s1 =>
      if code c =? 34 then Some ("", s1)
      else if code c =? 92 then
        match s1 with
        | String e s2 =>
            if code e =? 117 then
              match s2 with
              | String a (String b (String c' (String d s3))) =>
                  match hex4 a b c' d with
                  | None => None
                  | Some n =>
                      if is_high n then
                        match s3 with
                        | String x (String y (String a' (String b' (String c'' (String d' s4))))) =>
                            if (code x =? 92) && (code y =? 117) then
                              match hex4 a' b' c'' d' with
                              | Some m =>
                                  if is_low m
                                  then cons_str (utf8 (65536 + (n - 55296) * 1024 + (m - 56320)))
                                         (pstring s4)
                                  else cons_str (utf8 n) (pstring s3)
                              | None => None
                              end
                            else cons_str (utf8 n) (pstring s3)
                        | _ => cons_str (utf8 n) (pstring s3)
                        end
                      else cons_str (utf8 n) (pstring s3)
                  end
              | _ => None
              end
            else match simple_escape e with
                 | Some ch => cons_str (String ch "") (pstring s2)
                 | None => None
                 end
        | EmptyString => None
        end
      else if code c <? 32 then None
      else cons_str (String c "") (pstring s1)
  end.

(** Fraction and exponent of a number: digits and remaining text. *)
Definition pfrac (s : string) : option (string * string) :=
  match s with
  | String c s' =>
      if code c =? 46 then
        let '(ds, r) := span_digits s' in if str_true ds then Some (ds, r) else None
      else None
  | EmptyString => None
  end.

Definition pexp (s : string) : option (Z * string) :=
  match s with
  | String c s' =>
      if (code c =? 101) || (code c =? 69) then
        let '(sg, s'') :=
          match s' with
          | String x t => if code x =? 43 then (1, t) else if code x =? 45 then (-1, t) else (1, s')
          | EmptyString => (1, s')
          end in
        let '(ds, r) := span_digits s'' in
        if str_true ds then Some (sg * digits_val 0 ds, r) else None
      else None
  | EmptyString => None
  end.

Definition signed (neg : bool) (f : f64) : f64 := if neg then f_neg f else f.

(** [int] refuses a text of more digits, [sys.int_info.default_max_str_digits]. *)
Definition max_str_digits : Z := 4300.

Definition too_many_digits (n : Z) : exn :=
  ValueError ("Exceeds the limit (4300 digits) for integer string conversion: value has " +:+ str_of_Z n
              +:+ " digits; use sys.set_int_max_str_digits() to increase the limit").

Definition int_of_digits (neg : bool) (ds : string) : result json :=
  let n := Z.of_nat (String.length ds) in
  if n <=? max_str_digits then Ok (JInt (if neg then - digits_val 0 ds else digits_val 0 ds))
  else Raise (too_many_digits n).

(** A number after its sign: digits (a leading zero ends the integer part), then
    an optional fraction and an optional exponent, which make it a float. *)
Definition pnumber (neg : bool) (s : string) : result (json * string) :=
  let '(ds, r) :=
    match s with
    | String c s' => if code c =? 48 then ("0", s') else span_digits s
    | EmptyString => ("", "")
    end in
  if str_true ds then
    match pfrac r, pexp (match pfrac r with Some (_, r') => r' | None => r end) with
    | None, None => let* z := int_of_digits neg ds in Ok (z, r)
    | fr, ex =>
        let '(fs, r') := match fr with Some p => p | None => ("", r) end in
        let '(e, r'') := match ex with Some p => p | None => (0, r') end in
        Ok (JFloat (signed neg (dec_to_f64 (digits_val 0 (ds +:+ fs))
                                  (e - Z.of_nat (String.length fs)))), r'')
    end
  else Raise JSONDecodeError.

Definition after (p s : string) : option string :=
  if startswith s p then Some (String.substring (String.length p) (String.length s) s) else None.

Definition patom (s : string) : result (json * string) :=
  match after "null" s, after "true" s, after "false" s, after "NaN" s,
        after "Infinity" s, after "-Infinity" s with
  | Some r, _, _, _, _, _ => Ok (JNull, r)
  | _, Some r, _, _, _, _ => Ok (JBool true, r)
  | _, _, Some r, _, _, _ => Ok (JBool false, r)
  | _, _, _, Some r, _, _ => Ok (JFloat S754_nan, r)
  | _, _, _, _, Some r, _ => Ok (JFloat (S754_infinity false), r)
  | _, _, _, _, _, Some r => Ok (JFloat (S754_infinity true), r)
  | _, _, _, _, _, _ =>
      match s with
      | String c s' => if code c =? 45 then pnumber true s' else pnumber false s
      | EmptyString => Raise JSONDecodeError
      end
  end.

Definition char_is (n : Z) (s : string) : option string :=
  match s with String c s' => if code c =? n then Some s' else None | EmptyString => None end.

(** How deep arrays and objects may nest.  The bound is a constant of the build of CPython, less
    what is on its stack already. *)
Definition nesting_limit : Z := 1500.

Definition too_deep : exn := RecursionError "maximum recursion depth exceeded while decoding a JSON array or object from a unicode string".

Definition decoded {A} (o : option A) : result A := match o with Some a => Ok a | None => Raise JSONDecodeError end.

(** A value nested [d] levels at most, the rest of an array after one of its values, the rest
    of an object from the opening quote of a key.  Each call consumes a character, so fuel
    beyond the length of the text is never exhausted. *)
Fixpoint pvalue (n : nat) (d : Z) (s : string) : result (json * string) :=
  match n with
  | O => Raise JSONDecodeError
  | S n =>
      match char_is 34 s, char_is 91 s, char_is 123 s with
      | Some r, _, _ => let* (t, r') := decoded (pstring r) in Ok (JStr t, r')
      | _, Some r, _ =>
          if d <=? 0 then Raise too_deep
          else match char_is 93 (skip_ws r) with
               | Some r' => Ok (JArr [], r')
               | None => let* (l, r') := pelems n (d - 1) (skip_ws r) in Ok (JArr l, r')
               end
      | _, _, Some r =>
          if d <=? 0 then Raise too_deep
          else match char_is 125 (skip_ws r) with
               | Some r' => Ok (JObj [], r')
               | None => let* (o, r') := pitems n (d - 1) [] (skip_ws r) in Ok (JObj o, r')
               end
      | _, _, _ => patom s
      end
  end
with pelems (n : nat) (d : Z) (s : string) : result (list json * string) :=
  match n with
  | O => Raise JSONDecodeError
  | S n =>
      let* (v, r) := pvalue n d s in
      match char_is 44 (skip_ws r), char_is 93 (skip_ws r) with
      | Some r', _ => let* (l, r'') := pelems n d (skip_ws r') in Ok (v :: l, r'')
      | _, Some r' => Ok ([v], r')
      | _, _ => Raise JSONDecodeError
      end
  end
with pitems (n : nat) (d : Z) (acc : dict) (s : string) : result (dict * string) :=
  match n with
  | O => Raise JSONDecodeError
  | S n =>
      let* r := decoded (char_is 34 s) in
      let* (k, r) := decoded (pstring r) in
      let* r := decoded (char_is 58 (skip_ws r)) in
      let* (v, r) := pvalue n d (skip_ws r) in
      match char_is 44 (skip_ws r), char_is 125 (skip_ws r) with
      | Some r', _ => pitems n d (dset acc k v) (skip_ws r')
      | _, Some r' => Ok (dset acc k v, r')
      | _, _ => Raise JSONDecodeError
      end
  end.

(** [json.loads(s)].  Besides [JSONDecodeError] it raises a plain [ValueError] on an integer of
    too many digits, and [RecursionError] on a text nested too deep. *)
Definition loads (s : string) : result json :=
  let* (v, r) := pvalue (S (2 * String.length s)) nesting_limit (skip_ws s) in
  if String.eqb (skip_ws r) "" then Ok v else Raise JSONDecodeError.

(** ** Reading back what was written *)

Fixpoint ascii_text (s : string) : bool :=
  match s with EmptyString => true | String c s' => (code c <? 128) && ascii_text s' end.

(** The decimal text of a float reads back as the same float: decidable, and
    true of every float the interpreter prints. *)
Definition float_ok (f : f64) : bool :=
  match f with
  | S754_finite s m e =>
      match pnumber s (float_repr (S754_finite false m e)) with
      | Ok (JFloat g, r) => bool_decide (g = f) && String.eqb r ""
      | _ => false
      end
  | _ => true
  end.

Fixpoint nodup_str (l : list string) : bool :=
  match l with [] => true | x :: l' => negb (str_in x l') && nodup_str l' end.

Lemma nodup_str_spec l : nodup_str l = true <-> NoDup l.
Proof.
  induction l as [|x l IH]; cbn; [split; [constructor|done]|].
  rewrite andb_true_iff, negb_true_iff, str_in_false, IH, NoDup_cons. done.
Qed.

(** The integers whose text is read back; [dumps] raises on longer ones. *)
Definition int_ok (z : Z) : bool := Z.of_nat (String.length (str_of_nonneg (Z.abs z))) <=? max_str_digits.

(** Values [dumps] writes and [loads] reads back: ASCII texts, distinct keys, and neither
    integers nor nesting beyond the limits. *)
Fixpoint json_plain (v : json) : bool :=
  match v with
  | JInt z => int_ok z
  | JFloat f => float_ok f
  | JStr s => ascii_text s
  | JArr l => forallb json_plain l
  | JObj d => nodup_str (map fst d) && forallb (fun kv => ascii_text (fst kv) && json_plain (snd kv)) d
  | _ => true
  end.

Fixpoint depth (v : json) : Z :=
  match v with
  | JArr l => 1 + fold_right Z.max 0 (map depth l)
  | JObj d => 1 + fold_right Z.max 0 (map (fun kv => depth (snd kv)) d)
  | _ => 0
  end.

Definition json_ok (v : json) : bool := json_plain v && (depth v <=? nesting_limit).

(** The value read back: the keys of every dictionary in order when sorted. *)
Fixpoint canon (sort : bool) (v : json) : json :=
  match v with
  | JArr l => JArr (map (canon sort) l)
  | JObj d =>
      let d' := map (fun kv => (fst kv, canon sort (snd kv))) d in
      JObj (if sort then sort_items d' else d')
  | _ => v
  end.

Notation slen := String.length.

Lemma slen_app a b : slen (a +:+ b) = (slen a + slen b)%nat.
Proof. induction a as [|c a IH]; str_simpl; [done|]. by rewrite IH. Qed.

(** *** Strings *)

Lemma code_points_ascii s : ascii_text s = true ->
  code_points 0 0 s = match s with EmptyString => [] | String c s' => code c :: code_points 0 0 s' end.
Proof. destruct s as [|c s]; [done|]. cbn. by destruct (code c <? 128). Qed.

Lemma pstring_escape_char c t :
  code c <? 128 = true -> pstring (escape_cp (code c) +:+ t) = cons_str (String c "") (pstring t).
Proof.
  destruct c as [[] [] [] [] [] [] [] []]; intros H; try (vm_compute in H; discriminate H); reflexivity.
Qed.

Lemma pstring_escape s t :
  ascii_text s = true -> pstring (escape s +:+ quote +:+ t) = Some (s, t).
Proof.
  unfold escape. induction s as [|c s IH]; intros Hs; [done|].
  rewrite code_points_ascii by done. cbn [map concat_str]. cbn [ascii_text] in Hs.
  apply andb_true_iff in Hs as [Hc Hs].
  rewrite app_assoc_str, pstring_escape_char, (IH Hs) by done. done.
Qed.

Lemma pvalue_str n d s t :
  ascii_text s = true -> pvalue (S n) d (dump_str s +:+ t) = Ok (JStr s, t).
Proof.
  intros Hs. unfold dump_str. rewrite !app_assoc_str.
  cbn [pvalue]. change (char_is 34 (quote +:+ ?x)) with (Some x).
  cbn beta iota. by rewrite pstring_escape by done.
Qed.

(** *** Numbers *)

(** Text that may follow a number: not a digit, a point or an exponent. *)
Definition delim (r : string) : bool :=
  match head_char r with
  | None => true
  | Some c => negb (is_digit c) && negb (code c =? 46) && negb (code c =? 101) && negb (code c =? 69)
  end.

Lemma span_digits_ext t r ds q :
  span_digits t = (ds, q) -> delim r = true ->
  span_digits (t +:+ r) = (ds, q +:+ r).
Proof.
  revert ds q; induction t as [|c t IH]; intros ds q Ht Hr.
  - cbn in Ht. simplify_eq. rewrite app_nil. destruct r as [|c r]; [done|].
    unfold delim in Hr. simpl in *. bool_hyps. by rewrite H.
  - str_simpl. simpl in Ht. destruct (is_digit c) eqn:E; [|by simplify_eq].
    destruct (span_digits t) as [ds' q'] eqn:E'. simplify_eq. by rewrite (IH ds' q).
Qed.

Lemma pfrac_ext t r :
  delim r = true ->
  match pfrac t with
  | Some (fs, q) => pfrac (t +:+ r) = Some (fs, q +:+ r)
  | None => t = "" -> pfrac (t +:+ r) = None
  end.
Proof.
  intros Hr. destruct t as [|c t]; cbn [pfrac].
  - intros _. rewrite app_nil. destruct r as [|c r]; [done|]. unfold delim in Hr. simpl in *.
    bool_hyps. rewrite <-Z.eqb_neq in *. by repeat match goal with H : _ = false |- _ => rewrite H; clear H end.
  - destruct (code c =? 46) eqn:E; [|done]. destruct (span_digits t) as [ds q] eqn:Es.
    destruct (str_true ds) eqn:Ed; [|done].
    rewrite app_cons. cbn [pfrac]. rewrite E, (span_digits_ext t r ds q), Ed by done. done.
Qed.

Lemma pexp_ext t r :
  delim r = true ->
  match pexp t with
  | Some (e, q) => pexp (t +:+ r) = Some (e, q +:+ r)
  | None => t = "" -> pexp (t +:+ r) = None
  end.
Proof.
  intros Hr. destruct t as [|c t].
  - intros _. rewrite app_nil. destruct r as [|c r]; [done|]. unfold delim in Hr. simpl in *.
    bool_hyps. rewrite <-Z.eqb_neq in *.
    by repeat match goal with H : _ =? _ = false |- _ => rewrite H; clear H end.
  - rewrite app_cons. cbn [pexp]. destruct ((code c =? 101) || (code c =? 69)) eqn:E; [|done].
    destruct t as [|x t]; [done|]. rewrite app_cons.
    destruct (if code x =? 43 then (1, t) else if code x =? 45 then (-1, t) else (1, String x t))
      as [sg u] eqn:Eu.
    assert (Eu' : (if code x =? 43 then (1, t +:+ r) else if code x =? 45 then (-1, t +:+ r)
                   else (1, String x (t +:+ r))) = (sg, u +:+ r))
      by (by repeat case_match; simplify_eq).
    rewrite Eu'. destruct (span_digits u) as [ds q] eqn:Es.
    destruct (str_true ds) eqn:Ed; [|done].
    rewrite (span_digits_ext u r ds q), Ed by done. done.
Qed.

(** A number read to the end of its text is read the same before a delimiter. *)
Lemma pnumber_ext neg t v r :
  pnumber neg t = Ok (v, "") -> delim r = true -> pnumber neg (t +:+ r) = Ok (v, r).
Proof.
  intros Ht Hr. destruct t as [|c t]; [done|].
  unfold pnumber in *. rewrite app_cons.
  destruct (if code c =? 48 then ("0", t) else span_digits (String c t)) as [ds q] eqn:Es.
  assert (Es' : (if code c =? 48 then ("0", t +:+ r) else span_digits (String c (t +:+ r)))
                = (ds, q +:+ r)).
  { destruct (code c =? 48); [by simplify_eq|].
    rewrite <-app_cons. by apply span_digits_ext. }
  rewrite Es'. destruct (str_true ds); [|done].
  pose proof (pfrac_ext q r Hr) as Hf.
  destruct (pfrac q) as [[fs q1]|] eqn:Ef.
  - rewrite Hf. pose proof (pexp_ext q1 r Hr) as He.
    destruct (pexp q1) as [[e q2]|] eqn:Ee.
    + rewrite He. by simplify_eq.
    + simplify_eq. by rewrite He.
  - pose proof (pexp_ext q r Hr) as He.
    destruct (pexp q) as [[e q2]|] eqn:Ee.
    + simplify_eq. destruct (decide (q = "")) as [->|Hq]; [done|].
      destruct q as [|x q]; [done|]. rewrite app_cons in *.
      assert (pfrac (String x (q +:+ r)) = None) as ->.
      { cbn [pexp] in Ee. destruct ((code x =? 101) || (code x =? 69)) eqn:Ex; [|done].
        cbn [pfrac]. apply orb_true_iff in Ex as [Ex|Ex]; apply Z.eqb_eq in Ex; by rewrite Ex. }
      by rewrite He.
    + apply res_bind_ok in Ht as (z & Hz & [= -> ->]). rewrite app_nil in *. by rewrite Hf, He, Hz.
Qed.

Lemma pnumber_head neg t v q :
  pnumber neg t = Ok (v, q) -> exists c t', t = String c t' /\ is_digit c = true.
Proof.
  destruct t as [|c t]; [done|]. intros H. exists c, t. split; [done|].
  unfold pnumber in H. destruct (code c =? 48) eqn:E.
  - apply Z.eqb_eq in E. unfold is_digit. by rewrite E.
  - cbn [span_digits] in H. by destruct (is_digit c).
Qed.

(** *** Atoms *)

Lemma prefix_head_ne a p c t : a <> c -> String.prefix (String a p) (String c t) = false.
Proof. intros H. cbn [String.prefix]. by destruct (Ascii.ascii_dec a c). Qed.

Lemma after_head_ne a p c t : a <> c -> after (String a p) (String c t) = None.
Proof. intros H. unfold after, startswith. by rewrite prefix_head_ne. Qed.

Lemma is_digit_ne c a : is_digit c = true -> is_digit a = false -> a <> c.
Proof. intros ? ? ->. congruence. Qed.

Lemma patom_digits t v q :
  pnumber false t = Ok (v, q) -> patom t = Ok (v, q).
Proof.
  intros H. destruct (pnumber_head _ _ _ _ H) as (c & t' & -> & Hc).
  unfold patom. rewrite !after_head_ne by (by eapply is_digit_ne).
  destruct (Z.eqb_spec (code c) 45) as [E|_]; [|done].
  unfold is_digit in Hc. by rewrite E in Hc.
Qed.

Lemma patom_negative t v q :
  pnumber true t = Ok (v, q) -> patom (String "-"%char t) = Ok (v, q).
Proof.
  intros H. destruct (pnumber_head _ _ _ _ H) as (c & t' & -> & Hc).
  unfold patom. rewrite !after_head_ne by done.
  assert (after "-Infinity" (String "-"%char (String c t')) = None) as ->; [|done].
  unfold after, startswith. cbn [String.prefix].
  destruct (Ascii.ascii_dec "-" "-"); [|done]. destruct (Ascii.ascii_dec "I" c) as [<-|]; [|done].
  done.
Qed.

Lemma pnumber_int neg n :
  0 <= n -> int_ok n = true -> pnumber neg (str_of_nonneg n) = Ok (JInt (if neg then - n else n), "").
Proof.
  intros Hn. unfold int_ok. rewrite Z.abs_eq by done. intros Hok. destruct (str_of_nonneg_spec n Hn) as (Hd & Hne & Hv & Hz).
  unfold pnumber. destruct (str_of_nonneg n) as [|c ds] eqn:E; [done|].
  destruct (Z.eqb_spec (code c) 48) as [Hc|Hc].
  - assert (n = 0) as ->.
    { apply Hz. simpl. f_equal. unfold code in Hc. rewrite <-(Ascii.ascii_nat_embedding c).
      unfold digit_char. f_equal. lia. }
    vm_compute in E. simplify_eq. by destruct neg.
  - pose proof (span_digits_app (String c ds) "" Hd I) as Hs. rewrite app_empty_r in Hs.
    rewrite Hs. cbn [str_true String.eqb negb pfrac pexp]. unfold int_of_digits. by rewrite Hok, Hv.
Qed.

Lemma int_ok_opp z : int_ok (- z) = int_ok z.
Proof. unfold int_ok. by rewrite Z.abs_opp. Qed.

Lemma patom_int z r : int_ok z = true -> delim r = true -> patom (str_of_Z z +:+ r) = Ok (JInt z, r).
Proof.
  intros Hz Hr. unfold str_of_Z. destruct (Z.ltb_spec z 0).
  - rewrite app_assoc_str, app_cons, app_nil.
    apply patom_negative. rewrite (pnumber_ext _ _ (JInt z)); [done| |done].
    rewrite pnumber_int by (lia || by rewrite int_ok_opp). do 3 f_equal. lia.
  - apply patom_digits. apply pnumber_ext; [|done]. by rewrite pnumber_int by done.
Qed.

Lemma substring_full s k : (slen s <= k)%nat -> String.substring 0 k s = s.
Proof.
  revert k; induction s as [|c s IH]; intros [|k] Hk; cbn in *; try done; try lia.
  f_equal. apply IH. lia.
Qed.

Lemma after_app p r : after p (p +:+ r) = Some r.
Proof.
  unfold after, startswith. assert (String.prefix p (p +:+ r) = true) as ->
    by (apply prefix_app; eauto).
  f_equal. generalize (slen_app p r). generalize (slen (p +:+ r)). intros k ->.
  assert (Hle : (slen r <= slen p + slen r)%nat) by lia. revert Hle.
  generalize (slen p + slen r)%nat. intros k Hk.
  induction p as [|c p IH]; [by apply substring_full|]. rewrite app_cons. cbn. done.
Qed.

Lemma patom_word w v r :
  (w, v) ∈ [("null", JNull); ("true", JBool true); ("false", JBool false); ("NaN", JFloat S754_nan);
            ("Infinity", JFloat (S754_infinity false)); ("-Infinity", JFloat (S754_infinity true))] ->
  patom (w +:+ r) = Ok (v, r).
Proof.
  intros H. repeat (apply elem_of_cons in H as [H|H]; [simplify_eq|]); [..|by apply elem_of_nil in H].
  all: unfold patom; rewrite after_app; rewrite ?app_cons, ?app_nil.
  all: rewrite ?after_head_ne by done; done.
Qed.

Lemma float_repr_neg m e :
  float_repr (S754_finite true m e) = String "-"%char (float_repr (S754_finite false m e)).
Proof. unfold float_repr. by destruct (decimal m e). Qed.

Lemma patom_float f r :
  float_ok f = true -> delim r = true -> patom (float_text f +:+ r) = Ok (JFloat f, r).
Proof.
  intros Hf Hr. destruct f as [[]|[]| |s m e]; cbn [float_text].
  - change (float_repr (S754_zero true)) with (String "-"%char "0.0"). rewrite app_cons.
    apply patom_negative, pnumber_ext; [done|done].
  - apply patom_digits, pnumber_ext; [done|done].
  - apply patom_word. set_solver.
  - apply patom_word. set_solver.
  - apply patom_word. set_solver.
  - unfold float_ok in Hf. destruct (pnumber s _) as [[[] q]|] eqn:E; try done.
    apply andb_true_iff in Hf as [->%bool_decide_eq_true Hq]. bool_hyps. subst q.
    destruct s.
    + rewrite float_repr_neg, app_cons. by apply patom_negative, pnumber_ext.
    + by apply patom_digits, pnumber_ext.
Qed.

(** *** Structures *)

(** A text that starts like a value: no space, no closing bracket, no comma. *)
Definition starts_value (t : string) : bool :=
  match t with
  | String c _ => negb (is_ws c) && negb (code c =? 93) && negb (code c =? 125)
  | EmptyString => false
  end.

Lemma starts_value_digit c t : is_digit c = true -> starts_value (String c t) = true.
Proof.
  unfold is_digit, starts_value, is_ws. intros H. bool_hyps.
  rewrite !andb_true_iff, !negb_true_iff, !orb_false_iff, !Z.eqb_neq. lia.
Qed.

Lemma starts_value_dumps b v t : json_plain v = true -> starts_value (dumps b v +:+ t) = true.
Proof.
  intros Hv. destruct v as [|[]|z|f|s|l|d]; cbn [dumps]; try done.
  - unfold str_of_Z. case_match; [done|].
    destruct (str_of_nonneg_spec z ltac:(bool_hyps; lia)) as (Hd & Hne & _).
    destruct (str_of_nonneg z) as [|c ds]; [done|]. cbn [all_digits] in Hd. bool_hyps.
    by apply starts_value_digit.
  - cbn [json_plain] in Hv. destruct f as [[]|[]| |s m e]; try done. cbn [float_text].
    unfold float_ok in Hv. destruct (pnumber s _) as [[j q]|] eqn:E; [|done].
    apply pnumber_head in E as (c & t' & E & Hc).
    destruct s; [by rewrite float_repr_neg|]. rewrite E, app_cons. by apply starts_value_digit.
Qed.

Lemma skip_ws_starts t : starts_value t = true -> skip_ws t = t.
Proof. destruct t as [|c t]; [done|]. cbn. by destruct (is_ws c). Qed.

Lemma char_is_starts t n :
  n = 93 \/ n = 125 -> starts_value t = true -> char_is n t = None.
Proof.
  destruct t as [|c t]; [done|]. cbn. intros Hn H. bool_hyps.
  destruct Hn as [-> | ->]; by rewrite <-Z.eqb_neq in *; case_match.
Qed.

Lemma pvalue_atom n d t v r :
  patom t = Ok (v, r) ->
  match t with String c _ => negb (code c =? 34) && negb (code c =? 91) && negb (code c =? 123)
             | EmptyString => false end = true ->
  pvalue (S n) d t = Ok (v, r).
Proof.
  intros H Ht. destruct t as [|c t]; [done|]. cbn [pvalue char_is].
  bool_hyps. rewrite <-Z.eqb_neq in *.
  repeat match goal with H : _ =? _ = false |- _ => rewrite H; clear H end. done.
Qed.

(** *** Round trip *)

Lemma insert_key_map {A B} (f : A -> B) kv l :
  insert_key (fst kv, f (snd kv)) (map (fun kv => (fst kv, f (snd kv))) l)
  = map (fun kv => (fst kv, f (snd kv))) (insert_key kv l).
Proof. induction l as [|kv' l IH]; cbn; [done|]. case_match; cbn; by rewrite ?IH. Qed.

Lemma sort_items_map {A B} (f : A -> B) l :
  sort_items (map (fun kv => (fst kv, f (snd kv))) l)
  = map (fun kv => (fst kv, f (snd kv))) (sort_items l).
Proof. induction l as [|kv l IH]; cbn; [done|]. unfold sort_items in IH. by rewrite IH, insert_key_map. Qed.

Lemma insert_key_perm {A} kv (l : list (string * A)) : insert_key kv l ≡ₚ kv :: l.
Proof.
  induction l as [|kv' l IH]; cbn; [done|]. case_match; [done|].
  rewrite IH. apply Permutation_swap.
Qed.

Lemma sort_items_perm {A} (l : list (string * A)) : sort_items l ≡ₚ l.
Proof. induction l as [|kv l IH]; cbn; [done|]. unfold sort_items in IH. by rewrite insert_key_perm, IH. Qed.

Lemma dget_None_keys d k : dget d k = None <-> k ∉ dkeys d.
Proof.
  induction d as [|[k' v] d IH]; cbn; [split; [intros _ H; by apply elem_of_nil in H|done]|].
  rewrite not_elem_of_cons. destruct (String.eqb_spec k k'); naive_solver.
Qed.

Lemma dset_fresh d k v : k ∉ dkeys d -> dset d k v = d ++ [(k, v)].
Proof.
  induction d as [|[k' v'] d IH]; cbn; [done|]. rewrite not_elem_of_cons. intros [Hk Hd].
  destruct (String.eqb_spec k k'); [done|]. by rewrite IH.
Qed.

(** Text that is only white space. *)
Fixpoint blank (s : string) : bool :=
  match s with EmptyString => true | String c s' => is_ws c && blank s' end.

Lemma skip_blank ws t : blank ws = true -> skip_ws (ws +:+ t) = skip_ws t.
Proof.
  induction ws as [|c ws IH]; [done|]. cbn [blank]. intros [Hc Hw]%andb_true_iff.
  rewrite app_cons. cbn [skip_ws]. rewrite Hc. by apply IH.
Qed.

Lemma delim_blank ws t : blank ws = true -> delim t = true -> delim (ws +:+ t) = true.
Proof.
  destruct ws as [|c ws]; [done|]. cbn [blank]. intros [Hc _]%andb_true_iff _. rewrite app_cons. unfold delim. cbn [head_char].
  unfold is_ws in Hc. unfold is_digit. rewrite !orb_true_iff, !Z.eqb_eq in Hc.
  rewrite !andb_true_iff, !negb_true_iff, !Z.eqb_neq. split_and!; lia.
Qed.

Section roundtrip.
Context (ws close : string).
Hypothesis Hws : blank ws = true.
Hypothesis Hclose : blank close = true.
Notation sep := ("," +:+ ws).

(** [text] is read as [v] before any delimiter, and looks like a value. *)
Definition reads_as (text : string) (v : json) : Prop :=
  (forall t, starts_value (text +:+ t) = true) /\
  forall n d r, delim r = true -> depth v <= d -> (2 * slen text < n)%nat -> pvalue n d (text +:+ r) = Ok (v, r).

Lemma pelems_reads l vs r n d :
  Forall2 reads_as l vs -> l <> [] -> fold_right Z.max 0 (map depth vs) <= d -> (2 * slen (join sep l) + 1 < n)%nat ->
  pelems n d (join sep l +:+ close +:+ String "]"%char r) = Ok (vs, r).
Proof.
  intros Hl. revert n. induction Hl as [|t v l vs [Hs Ht] Hl IH]; intros n; [done|].
  intros _ Hd Hn. cbn [map fold_right] in Hd. destruct n as [|n]; [lia|]. cbn [pelems].
  destruct l as [|t' l].
  - inversion Hl; subst. cbn [join] in *. rewrite Ht by (lia || by apply delim_blank).
    cbn [res_bind]. by rewrite skip_blank.
  - cbn [join] in *. rewrite !slen_app in Hn. change (slen ",") with 1%nat in Hn.
    rewrite !app_assoc_str, Ht by (done || lia). cbn [res_bind].
    rewrite !app_cons, app_nil.
    match goal with |- context [skip_ws (String ","%char ?x)] =>
      change (skip_ws (String ","%char x)) with (String ","%char x);
      change (char_is 44 (String ","%char x)) with (Some x) end.
    cbv beta iota. rewrite skip_blank by done.
    assert (starts_value (join sep (t' :: l) +:+ close +:+ String "]"%char r) = true) as Hst.
    { inversion Hl as [|? v' ? ? [Hs' _]]; subst. cbn [join].
      destruct l; [apply Hs'|rewrite !app_assoc_str; apply Hs']. }
    cbn [join] in Hst, IH. rewrite skip_ws_starts by exact Hst.
    rewrite IH; [done|done|lia|]. destruct l; rewrite ?slen_app in *; lia.
Qed.

Lemma pitem_reads k t v n d acc r :
  ascii_text k = true -> reads_as t v -> depth v <= d -> (2 * slen (dump_item (k, t)) < n)%nat ->
  delim r = true ->
  pitems n d acc (dump_item (k, t) +:+ r) =
  match char_is 44 (skip_ws r), char_is 125 (skip_ws r) with
  | Some r', _ => pitems (pred n) d (dset acc k v) (skip_ws r')
  | _, Some r' => Ok (dset acc k v, r')
  | _, _ => Raise JSONDecodeError
  end.
Proof.
  intros Hk [Hs Ht] Hd Hn Hr. destruct n as [|n]; [lia|].
  unfold dump_item, dump_str in *. cbn [fst snd] in *.
  rewrite !slen_app in Hn. change (slen quote) with 1%nat in Hn. rewrite !app_assoc_str.
  cbn [pitems pred]. change (char_is 34 (quote +:+ ?x)) with (Some x).
  cbn [decoded res_bind]. rewrite pstring_escape by done.
  rewrite !app_cons, app_nil.
  cbn [decoded res_bind].
  change (char_is 58 (skip_ws (String ":"%char ?x))) with (Some x).
  cbn [decoded res_bind]. change (skip_ws (String " "%char ?x)) with (skip_ws x).
  rewrite (skip_ws_starts (t +:+ r)) by apply Hs. rewrite Ht by (done || lia). done.
Qed.

Lemma pitems_reads (txt : string * json -> string) (val : string * json -> json) l acc r n d :
  let item kv := dump_item (fst kv, txt kv) in
  Forall (fun kv => ascii_text (fst kv) = true /\ reads_as (txt kv) (val kv)) l -> l <> [] ->
  NoDup (map fst l) -> (forall k, k ∈ map fst l -> k ∉ dkeys acc) ->
  fold_right Z.max 0 (map (fun kv => depth (val kv)) l) <= d -> (2 * slen (join sep (map item l)) + 1 < n)%nat ->
  pitems n d acc (join sep (map item l) +:+ close +:+ String "}"%char r)
  = Ok (acc ++ map (fun kv => (fst kv, val kv)) l, r).
Proof.
  intros item Hl. revert acc n. induction Hl as [|kv l [Hk Ht] Hl IH]; intros acc n; [done|].
  intros _ Hnd Hacc Hd Hn. cbn [map fold_right] in *. apply NoDup_cons in Hnd as [Hkl Hnd].
  assert (fst kv ∉ dkeys acc) as Hka by (apply Hacc; by left).
  assert (forall r, delim r = true -> (2 * slen (item kv) < n)%nat -> _) as Hitem
    by exact (fun r Hr Hn => pitem_reads (fst kv) (txt kv) (val kv) n d acc r Hk Ht ltac:(lia) Hn Hr).
  fold (item kv) in Hitem. destruct l as [|kv' l].
  - cbn [map join] in *. rewrite Hitem by (lia || by apply delim_blank). rewrite skip_blank by done. cbn. by rewrite dset_fresh.
  - cbn [map join] in *. rewrite !slen_app in Hn. change (slen ",") with 1%nat in Hn.
    rewrite (app_assoc_str (item kv)), (app_assoc_str (sep)), (app_assoc_str ",").
    rewrite Hitem by (done || lia).
    rewrite !app_cons, app_nil.
    match goal with |- context [char_is 44 (skip_ws (String ","%char ?x))] =>
      change (char_is 44 (skip_ws (String ","%char x))) with (Some x) end.
    cbv beta iota. rewrite skip_blank by done.
    match goal with |- pitems _ _ _ (skip_ws ?x) = _ => assert (skip_ws x = x) as -> end.
    { by destruct (map item l). }
    rewrite IH; [|done|done| |lia|].
    + rewrite dset_fresh by done. by rewrite <-(assoc_L (++)).
    + intros k' Hk'. rewrite dset_fresh by done. unfold dkeys. rewrite map_app, elem_of_app.
      intros [H|H]; [by eapply Hacc; [right|]|]. cbn in H.
      apply list_elem_of_singleton in H as ->. done.
    + cbn [map join]. rewrite ?slen_app in *. lia.
Qed.
End roundtrip.

Definition tail_str (s : string) : string :=
  match s with EmptyString => EmptyString | String _ s' => s' end.

(** A structure parser met by its opening character. *)
Lemma pvalue_arr n d r :
  0 < d ->
  pvalue (S n) d (String "["%char r) =
  match char_is 93 (skip_ws r) with
  | Some r' => Ok (JArr [], r')
  | None => let* (l, r') := pelems n (d - 1) (skip_ws r) in Ok (JArr l, r')
  end.
Proof. intros Hd. cbn [pvalue]. by replace (d <=? 0) with false by lia. Qed.

Lemma pvalue_obj n d r :
  0 < d ->
  pvalue (S n) d (String "{"%char r) =
  match char_is 125 (skip_ws r) with
  | Some r' => Ok (JObj [], r')
  | None => let* (o, r') := pitems n (d - 1) [] (skip_ws r) in Ok (JObj o, r')
  end.
Proof. intros Hd. cbn [pvalue]. by replace (d <=? 0) with false by lia. Qed.

(** What nests below a value is at least as deep as nothing. *)
Lemma max_nonneg {A} (f : A -> Z) l : 0 <= fold_right Z.max 0 (map f l).
Proof. induction l; cbn; lia. Qed.

Lemma reads_atom b v :
  json_plain v = true ->
  (forall t, starts_value (dumps b v +:+ t) = true) ->
  (forall r, delim r = true -> patom (dumps b v +:+ r) = Ok (v, r)) ->
  match dumps b v with
  | String c _ => negb (code c =? 34) && negb (code c =? 91) && negb (code c =? 123)
  | EmptyString => false end = true ->
  reads_as (dumps b v) v.
Proof.
  intros Hv Hs Ha Hc. split; [done|]. intros n d r Hr _ Hn. destruct n as [|n]; [lia|].
  apply pvalue_atom; [by apply Ha|]. by destruct (dumps b v).
Qed.

Lemma reads_arr b l :
  Forall2 reads_as (map (dumps b) l) (map (canon b) l) ->
  reads_as (dumps b (JArr l)) (canon b (JArr l)).
Proof.
  intros Hl. split; [done|]. intros n d r Hr Hd Hn. destruct n as [|n]; [lia|].
  cbn [dumps canon depth] in *. pose proof (max_nonneg depth (map (canon b) l)). rewrite !slen_app in Hn. change (slen "[") with 1%nat in Hn.
  change (slen "]") with 1%nat in Hn.
  rewrite !app_assoc_str, !app_cons, !app_nil, pvalue_arr by lia.
  destruct l as [|v l]; [done|].
  set (t := join ", " (map (dumps b) (v :: l)) +:+ String "]"%char r).
  assert (starts_value t = true) as Ht.
  { subst t. inversion Hl as [|? v' ? ? [Hs' _]]; subst. cbn [map join].
    destruct (map (dumps b) l); [apply Hs'|rewrite !app_assoc_str; apply Hs']. }
  rewrite skip_ws_starts by done. rewrite char_is_starts by (done || lia).
  subst t. pose proof (pelems_reads " " "" eq_refl eq_refl _ _ r n (d - 1) Hl) as H'. rewrite app_nil in H'.
  change ("," +:+ " ") with ", " in H'. rewrite H'; [done|done|lia|lia].
Qed.

Lemma reads_obj b (d : dict) :
  nodup_str (map fst d) = true ->
  Forall (fun kv => ascii_text (fst kv) = true /\ reads_as (dumps b (snd kv)) (canon b (snd kv))) d ->
  reads_as (dumps b (JObj d)) (canon b (JObj d)).
Proof.
  intros Hnd Hd. split; [done|]. intros n lvl r Hr Hlvl Hn. destruct n as [|n]; [lia|].
  cbn [dumps canon depth] in *.
  assert (exists d', d' ≡ₚ d /\ forall B (f : json -> B),
    let g kv := (fst kv, f (snd kv)) in (if b then sort_items (map g d) else map g d) = map g d')
    as (d' & Hp & E).
  { destruct b; [|by exists d]. exists (sort_items d). split; [apply sort_items_perm|].
    intros B f. apply sort_items_map. }
  rewrite (E string) in *. rewrite (E json) in *. clear E. rewrite <-Hp in Hd.
  apply nodup_str_spec in Hnd. rewrite <-Hp in Hnd. clear Hp d.
  rewrite !slen_app in Hn. change (slen "{") with 1%nat in Hn. change (slen "}") with 1%nat in Hn.
  rewrite map_map in Hlvl. cbn [snd] in Hlvl.
  pose proof (max_nonneg (fun kv => depth (canon b (snd kv))) d') as Hpos.
  rewrite (app_assoc_str "{"), !app_cons, app_nil, pvalue_obj by lia.
  rewrite map_map in *. destruct d' as [|kv d']; [done|].
  set (t := join ", " _) in *.
  assert (t +:+ String "}"%char r = String (chr 34) (tail_str (t +:+ String "}"%char r))) as Hq.
  { subst t. cbn [map join]. by destruct (map _ d'). }
  rewrite app_assoc_str, app_cons, app_nil, Hq.
  cbn [skip_ws]. change (is_ws (chr 34)) with false. cbv beta iota.
  change (char_is 125 (String (chr 34) ?x)) with (@None string). cbv beta iota.
  rewrite <-Hq. subst t.
  pose proof (pitems_reads " " "" eq_refl eq_refl (fun kv => dumps b (snd kv)) (fun kv => canon b (snd kv)) (kv :: d') [] r n (lvl - 1)) as H.
  rewrite app_nil in H. change ("," +:+ " ") with ", " in H. rewrite H; [done|done|done|done| |lia|lia].
  intros k _ H'. by apply elem_of_nil in H'.
Qed.

Lemma dumps_head b v :
  match v with JNull | JBool _ | JInt _ | JFloat _ => True | _ => False end ->
  json_plain v = true ->
  match dumps b v with
  | String c _ => negb (code c =? 34) && negb (code c =? 91) && negb (code c =? 123)
  | EmptyString => false end = true.
Proof.
  assert (forall c, is_digit c = true ->
    negb (code c =? 34) && negb (code c =? 91) && negb (code c =? 123) = true) as Hdig.
  { unfold is_digit. intros c H. bool_hyps.
    rewrite !andb_true_iff, !negb_true_iff, !Z.eqb_neq. lia. }
  intros Hcase Hv. destruct v as [|[]|z|f|s|l|d]; try done; cbn [dumps].
  - unfold str_of_Z. destruct (Z.ltb_spec z 0); [done|].
    destruct (str_of_nonneg_spec z ltac:(lia)) as (Hd & Hne & _).
    destruct (str_of_nonneg z) as [|c ds]; [done|]. cbn [all_digits] in Hd. bool_hyps. by apply Hdig.
  - cbn [json_plain] in Hv. destruct f as [[]|[]| |s m e]; try done. cbn [float_text].
    unfold float_ok in Hv. destruct (pnumber s _) as [[j q]|] eqn:E; [|done].
    apply pnumber_head in E as (c & t' & E & Hc).
    destruct s; [by rewrite float_repr_neg|]. rewrite E. by apply Hdig.
Qed.

Lemma dumps_reads b v : json_plain v = true -> reads_as (dumps b v) (canon b v).
Proof.
  induction v as [|c|z|f|s|l IH|d IH] using json_ind'; intros Hv.
  1-4: apply reads_atom;
    [done|intros t; by apply starts_value_dumps|intros r Hr; cbn [dumps]|by apply dumps_head].
  - apply (patom_word "null" JNull r). set_solver.
  - destruct c; [apply (patom_word "true" (JBool true) r)|apply (patom_word "false" (JBool false) r)];
      set_solver.
  - by apply patom_int.
  - by apply patom_float.
  - split; [done|]. intros [|n] d r Hr _ Hn; [lia|]. by apply pvalue_str.
  - apply reads_arr. cbn [json_plain] in Hv. rewrite forallb_forall in Hv.
    apply Forall2_fmap. apply Forall_Forall2_diag. rewrite Forall_forall in IH |- *.
    intros x Hx. apply IH; [done|]. apply Hv. by apply list_elem_of_In.
  - cbn [json_plain] in Hv. apply andb_true_iff in Hv as [Hnd Hv]. apply reads_obj; [done|].
    rewrite forallb_forall in Hv. rewrite Forall_forall in IH |- *.
    intros kv Hx. pose proof (Hv kv (proj1 (list_elem_of_In _ _) Hx)) as H.
    apply andb_true_iff in H as [Hk H]. split; [done|]. by apply IH.
Qed.

(** Reading back sorts keys and keeps the nesting. *)
Lemma depth_canon b v : depth (canon b v) = depth v.
Proof.
  assert (Hmax : forall l l' : list Z, l ≡ₚ l' -> fold_right Z.max 0 l = fold_right Z.max 0 l')
    by (induction 1; cbn; lia).
  induction v as [| | | | |l IH|d IH] using json_ind'; cbn; try done.
  - f_equal. rewrite map_map. f_equal. induction IH as [|x l Hx _ IH]; cbn; [done|]. by rewrite Hx, IH.
  - f_equal. transitivity (fold_right Z.max 0 (map (fun kv => depth (snd kv)) (map (fun kv => (fst kv, canon b (snd kv))) d))).
    + apply Hmax. destruct b; [|done]. apply Permutation_map, sort_items_perm.
    + rewrite map_map. f_equal. induction IH as [|x l Hx _ IH]; [done|]. cbn [map fst snd] in *. by f_equal.
Qed.

(** A text written as some value is read as it. *)
Lemma loads_reads t v : reads_as t v -> depth v <= nesting_limit -> loads t = Ok v.
Proof.
  intros [Hs Ht] Hd. unfold loads. pose proof (Hs "") as Hs'. rewrite app_empty_r in Hs'. rewrite skip_ws_starts by done.
  specialize (Ht (S (2 * slen t)) nesting_limit "" eq_refl Hd ltac:(lia)). rewrite app_empty_r in Ht.
  by rewrite Ht.
Qed.

Lemma json_ok_spec v : json_ok v = true <-> json_plain v = true /\ depth v <= nesting_limit.
Proof. unfold json_ok. rewrite andb_true_iff, Z.leb_le. done. Qed.

(** [json.loads(json.dumps(v))] gives [v] back, with sorted keys when asked. *)
Lemma loads_dumps b v : json_ok v = true -> loads (dumps b v) = Ok (canon b v).
Proof.
  intros [Hv Hd]%json_ok_spec. apply loads_reads; [by apply dumps_reads|by rewrite depth_canon].
Qed.

Lemma canon_false v : canon false v = v.
Proof.
  induction v as [| | | | |l IH|d IH] using json_ind'; cbn; try done; f_equal.
  - induction IH as [|x l Hx _ IH]; cbn; [done|]. by rewrite Hx, IH.
  - induction IH as [|[k x] l Hx _ IH]; cbn in *; [done|]. by rewrite Hx, IH.
Qed.

(** *** Sorting is idempotent, so a value and its canonical form have one text *)

Definition key_le {A} (a b : string * A) : Prop := String.leb (fst a) (fst b) = true.

Lemma insert_key_hd {A} (x kv : string * A) l :
  HdRel key_le x l -> key_le x kv -> HdRel key_le x (insert_key kv l).
Proof. destruct l as [|y l]; cbn; intros H ?; [by constructor|]. inversion H; subst. case_match; by constructor. Qed.

Lemma insert_key_sorted {A} (kv : string * A) l :
  Sorted key_le l -> Sorted key_le (insert_key kv l).
Proof.
  induction 1 as [|x l Hl IH Hx]; cbn; [by repeat constructor|].
  destruct (String.leb (fst kv) (fst x)) eqn:E; [by repeat constructor|].
  constructor; [done|]. apply insert_key_hd; [done|]. unfold key_le.
  destruct (String.leb_total (fst kv) (fst x)); congruence.
Qed.

Lemma sort_items_sorted {A} (l : list (string * A)) : Sorted key_le (sort_items l).
Proof. induction l; cbn; [constructor|]. by apply insert_key_sorted. Qed.

Lemma sort_items_id {A} (l : list (string * A)) : Sorted key_le l -> sort_items l = l.
Proof.
  induction 1 as [|x l Hl IH Hx]; cbn; [done|]. unfold sort_items in IH. rewrite IH.
  destruct Hx as [|y l Hxy]; cbn; [done|]. unfold key_le in Hxy. by rewrite Hxy.
Qed.

Lemma dumps_canon v : dumps true (canon true v) = dumps true v.
Proof.
  induction v as [| | | | |l IH|d IH] using json_ind'; cbn [canon dumps]; try done.
  - do 3 f_equal. induction IH as [|x l Hx _ IH]; cbn; [done|]. by rewrite Hx, IH.
  - do 4 f_equal. rewrite <-sort_items_map, sort_items_id by apply sort_items_sorted.
    f_equal. induction IH as [|[k x] l Hx _ IH]; cbn in *; [done|]. by rewrite Hx, IH.
Qed.

(** Two values have the same sorted text exactly when they are the same value up
    to the order of keys. *)
Lemma dumps_sorted_inj a b :
  json_ok a = true -> json_ok b = true ->
  dumps true a = dumps true b <-> canon true a = canon true b.
Proof.
  intros Ha Hb. split; intros E.
  - pose proof (loads_dumps true a Ha) as H. rewrite E, (loads_dumps true b Hb) in H. congruence.
  - by rewrite <-(dumps_canon a), <-(dumps_canon b), E.
Qed.

#[global] Arguments loads _ : simpl never.
#[global] Arguments int_ok _ : simpl never.
#[global] Arguments dumps _ _ : simpl never.

(** ** Indented texts *)

Fixpoint spaces (n : nat) : string := match n with O => "" | S n => String " "%char (spaces n) end.

(** A line break followed by the indentation of level [k], two spaces each. *)
Definition line_break (k : nat) : string := String (chr 10) (spaces (2 * k)).

(** [json.dumps(v, indent=2)], from level [k]. *)
Fixpoint dumps_indent (k : nat) (v : json) : string :=
  match v with
  | JArr (x :: l) =>
      "[" +:+ line_break (S k) +:+ join ("," +:+ line_break (S k)) (map (dumps_indent (S k)) (x :: l))
      +:+ line_break k +:+ "]"
  | JObj (x :: d) =>
      "{" +:+ line_break (S k)
      +:+ join ("," +:+ line_break (S k)) (map (fun kv => dump_item (fst kv, dumps_indent (S k) (snd kv))) (x :: d))
      +:+ line_break k +:+ "}"
  | _ => dumps false v
  end.

Lemma blank_spaces n : blank (spaces n) = true.
Proof. induction n as [|n IH]; [done|]. exact IH. Qed.

Lemma blank_break k : blank (line_break k) = true.
Proof. apply (blank_spaces (2 * k)). Qed.

Lemma reads_arr_indent k x l :
  Forall2 reads_as (map (dumps_indent (S k)) (x :: l)) (x :: l) -> reads_as (dumps_indent k (JArr (x :: l))) (JArr (x :: l)).
Proof.
  intros Hl. split; [done|]. intros n d r Hr Hd Hn. destruct n as [|n]; [lia|].
  cbn [dumps_indent depth] in *. pose proof (max_nonneg depth (x :: l)). rewrite !slen_app in Hn. change (slen "[") with 1%nat in Hn. change (slen "]") with 1%nat in Hn.
  rewrite !app_assoc_str, !app_cons, !app_nil, pvalue_arr, skip_blank by (lia || apply blank_break).
  set (t := join _ _ +:+ _). assert (starts_value t = true) as Ht.
  { subst t. inversion Hl as [|? v' ? ? [Hs' _]]; subst. cbn [map join].
    destruct (map (dumps_indent (S k)) l); [apply Hs'|rewrite !app_assoc_str; apply Hs']. }
  rewrite skip_ws_starts by done. rewrite char_is_starts by (done || lia). subst t.
  pose proof (pelems_reads _ _ (blank_break (S k)) (blank_break k) _ _ r n (d - 1) Hl) as H'.
  change ("," +:+ line_break (S k)) with (String ","%char (line_break (S k))) in *. rewrite H'; [done|done|lia|lia].
Qed.

Lemma reads_obj_indent k x (d : dict) :
  nodup_str (map fst (x :: d)) = true ->
  Forall (fun kv => ascii_text (fst kv) = true /\ reads_as (dumps_indent (S k) (snd kv)) (snd kv)) (x :: d) ->
  reads_as (dumps_indent k (JObj (x :: d))) (JObj (x :: d)).
Proof.
  intros Hnd%nodup_str_spec Hd. split; [done|]. intros n lvl r Hr Hlvl Hn. destruct n as [|n]; [lia|].
  cbn [dumps_indent depth] in *. pose proof (max_nonneg (fun kv => depth (snd kv)) (x :: d)) as Hpos. rewrite !slen_app in Hn. change (slen "{") with 1%nat in Hn. change (slen "}") with 1%nat in Hn.
  rewrite !app_assoc_str, !app_cons, !app_nil, pvalue_obj, skip_blank by (lia || apply blank_break).
  set (t := join _ _ +:+ _).
  assert (t = String (chr 34) (tail_str t)) as Hq by (subst t; cbn [map join]; by destruct (map _ d)).
  rewrite Hq. cbn [skip_ws]. change (is_ws (chr 34)) with false. cbv beta iota.
  change (char_is 125 (String (chr 34) ?x)) with (@None string). cbv beta iota. rewrite <-Hq. subst t.
  pose proof (pitems_reads _ _ (blank_break (S k)) (blank_break k) (fun kv => dumps_indent (S k) (snd kv)) snd (x :: d) [] r n (lvl - 1)) as H.
  change ("," +:+ line_break (S k)) with (String ","%char (line_break (S k))) in *. rewrite H; [|done|done|done| |lia|lia].
  - cbn [res_bind app]. do 3 f_equal. clear. induction (x :: d) as [|[a b] d' IH]; [done|]. cbn. by f_equal.
  - intros a _ H'. by apply elem_of_nil in H'.
Qed.

Lemma dumps_indent_reads v : forall k, json_plain v = true -> reads_as (dumps_indent k v) v.
Proof.
  assert (Hatom : forall v, json_plain v = true -> reads_as (dumps false v) v).
  { intros u Hu. rewrite <-(canon_false u) at 2. by apply dumps_reads. }
  induction v as [|c|z|f|s|l IH|d IH] using json_ind'; intros k Hv; try by apply Hatom.
  - destruct l as [|x l]; [by apply (Hatom (JArr []))|]. apply reads_arr_indent. cbn [json_plain] in Hv. rewrite forallb_forall in Hv.
    rewrite <-(map_id (x :: l)) at 2. apply Forall2_fmap. apply Forall_Forall2_diag. rewrite Forall_forall in IH |- *.
    intros y Hy. apply IH; [done|]. apply Hv. by apply list_elem_of_In.
  - destruct d as [|x d]; [by apply (Hatom (JObj []))|]. cbn [json_plain] in Hv. apply andb_true_iff in Hv as [Hnd Hv].
    apply reads_obj_indent; [done|]. rewrite forallb_forall in Hv. rewrite Forall_forall in IH |- *.
    intros kv Hx. pose proof (Hv kv (proj1 (list_elem_of_In _ _) Hx)) as H.
    apply andb_true_iff in H as [Hk H]. split; [done|]. by apply IH.
Qed.

(** Reading an indented text gives the value back. *)
Lemma loads_dumps_indent v : json_ok v = true -> loads (dumps_indent 0 v) = Ok v.
Proof. intros [Hv Hd]%json_ok_spec. apply loads_reads; [by apply dumps_indent_reads|done]. Qed.

(** ** What the parser raises *)

Definition decode_error (e : exn) : Prop := e = JSONDecodeError \/ (exists n, e = too_many_digits n) \/ e = too_deep.

Lemma decode_bind {A B} (m : result A) (f : A -> result B) :
  (forall e, m = Raise e -> decode_error e) -> (forall a e, f a = Raise e -> decode_error e) ->
  forall e, (let* a := m in f a) = Raise e -> decode_error e.
Proof. intros Hm Hf e. destruct m as [a|x]; cbn; [apply Hf|intros [= <-]; by apply Hm]. Qed.

Lemma decoded_raises {A} (o : option A) e : decoded o = Raise e -> decode_error e.
Proof. destruct o; [done|]. intros [= <-]. by left. Qed.

Lemma patom_raises s e : patom s = Raise e -> decode_error e.
Proof.
  unfold patom, pnumber, int_of_digits. repeat (case_match || (cbn [res_bind res_map])); try done; intros [= <-]; try (by left); right; left; eauto.
Qed.

Lemma parser_raises n :
  (forall d s e, pvalue n d s = Raise e -> decode_error e) /\
  (forall d s e, pelems n d s = Raise e -> decode_error e) /\
  (forall d acc s e, pitems n d acc s = Raise e -> decode_error e).
Proof.
  induction n as [|n (IHv & IHe & IHi)]; [split_and!; intros *; cbn; intros [= <-]; by left|].
  split_and!; intros d; intros *; revert e.
  - cbn [pvalue]. destruct (char_is 34 s) as [r|]; [apply decode_bind; [apply decoded_raises|by intros []]|].
    destruct (char_is 91 s) as [r|].
    { destruct (d <=? 0); [intros e [= <-]; right; by right|]. destruct (char_is 93 _); [done|].
      apply decode_bind; [apply IHe|by intros []]. }
    destruct (char_is 123 s) as [r|]; [|apply patom_raises].
    destruct (d <=? 0); [intros e [= <-]; right; by right|]. destruct (char_is 125 _); [done|].
    apply decode_bind; [apply IHi|by intros []].
  - cbn [pelems]. apply decode_bind; [apply IHv|]. intros [v r]. destruct (char_is 44 _); [intros e; revert e; apply decode_bind; [apply IHe|by intros []]|].
    destruct (char_is 93 _); [done|]. intros e [= <-]. by left.
  - cbn [pitems]. repeat (apply decode_bind; [first [apply decoded_raises|apply IHv]|]; intros ?; try match goal with a : _ * _ |- _ => destruct a end).
    destruct (char_is 44 _); [apply IHi|]. destruct (char_is 125 _); [done|]. intros e [= <-]. by left.
Qed.

Lemma loads_raises s e : loads s = Raise e -> decode_error e.
Proof.
  revert e. unfold loads. apply decode_bind; [apply parser_raises|]. intros [v r] e. destruct (String.eqb _ _); [done|]. intros [= <-]. by left.
Qed.
