(* ===== verification/PyRepr.v ===== *)
(** Text of Python values: [repr], [str], [type(v).__name__], the truth test and
    the iteration of a JSON value. *)
From S2P Require Import Prelude PyStr PyFloat Json.

(** One character of [repr] of a string, between quotes [q]. *)
Definition repr_char (q : Z) (c : Ascii.ascii) : string :=
  let b := code c in
  if (b =? q) || (b =? 92) then String (chr 92) (String c "")
  else if b =? 10 then "\n" else if b =? 13 then "\r" else if b =? 9 then "\t"
  else if (b <? 32) || (b =? 127)
       then "\x" +:+ String (hex_digit (b / 16)) (String (hex_digit (b mod 16)) "")
  else String c "".

Fixpoint map_str (f : Ascii.ascii -> string) (s : string) : string :=
  match s with EmptyString => "" | String c s' => f c +:+ map_str f s' end.

(** [repr(s)]: single quotes, or double quotes when the text has a single one
    and no double one. *)
Definition repr_str (s : string) : string :=
  let q := if has_char (fun c => code c =? 39) s && negb (has_char (fun c => code c =? 34) s)
           then 34 else 39 in
  String (chr q) (map_str (repr_char q) s +:+ String (chr q) "").

Definition repr_float (f : f64) : string :=
  match f with
  | S754_nan => "nan"
  | S754_infinity s => if s then "-inf" else "inf"
  | _ => float_repr f
  end.

Fixpoint repr (v : json) : string :=
  match v with
  | JNull => "None"
  | JBool b => if b then "True" else "False"
  | JInt z => str_of_Z z
  | JFloat f => repr_float f
  | JStr s => repr_str s
  | JArr l => "[" +:+ join ", " (map repr l) +:+ "]"
  | JObj d => "{" +:+ join ", " (map (fun kv => repr_str (fst kv) +:+ ": " +:+ repr (snd kv)) d) +:+ "}"
  end.

(** [str(v)] *)
Definition py_str (v : json) : string := match v with JStr s => s | _ => repr v end.

Definition type_name (v : json) : string :=
  match v with
  | JNull => "NoneType" | JBool _ => "bool" | JInt _ => "int" | JFloat _ => "float"
  | JStr _ => "str" | JArr _ => "list" | JObj _ => "dict"
  end.

Definition json_true (v : json) : bool :=
  match v with
  | JNull => false
  | JBool b => b
  | JInt z => negb (z =? 0)
  | JFloat f => negb (f_eq f f_zero)
  | JStr s => str_true s
  | JArr l => list_true l
  | JObj d => list_true d
  end.

(** [iter(v)]: the elements of a list, the keys of a dict, the characters of a
    string; anything else is not iterable. *)
Fixpoint chars (s : string) : list json :=
  match s with EmptyString => [] | String c s' => JStr (String c "") :: chars s' end.

Definition py_list (v : json) : result (list json) :=
  match v with
  | JArr l => Ok l
  | JObj d => Ok (map (fun kv => JStr (fst kv)) d)
  | JStr s => Ok (chars s)
  | _ => Raise (TypeError (repr_str (type_name v) +:+ " object is not iterable"))
  end.

(** [v.get(...)]: only a dict has the method. *)
Definition py_dict (v : json) : result dict :=
  match v with
  | JObj d => Ok d
  | _ => Raise (AttributeError (repr_str (type_name v) +:+ " object has no attribute 'get'"))
  end.

(** [d.get(k, default)] *)
Definition dget_or (d : dict) (k : string) (default : json) : json :=
  match dget d k with Some v => v | None => default end.

(** [d\[k\]] *)
Definition ditem (d : dict) (k : string) : result json :=
  match dget d k with Some v => Ok v | None => Raise (KeyError k) end.

Definition str_exn (e : exn) : string :=
  match e with
  | RuntimeError m | ValueError m | TypeError m | AttributeError m | IndexError m
  | IntegrityError m | OperationalError m | HITLConfigurationError m
  | FileNotFoundError m | RecursionError m | OverflowError m => m
  | KeyError k => repr_str k
  | JSONDecodeError => "Expecting value"
  | HTTPException _ d => d
  end.

Definition exn_name (e : exn) : string :=
  match e with
  | RuntimeError _ => "RuntimeError" | ValueError _ => "ValueError" | KeyError _ => "KeyError"
  | TypeError _ => "TypeError" | AttributeError _ => "AttributeError"
  | IndexError _ => "IndexError" | IntegrityError _ => "IntegrityError"
  | OperationalError _ => "OperationalError"
  | JSONDecodeError => "JSONDecodeError" | HITLConfigurationError _ => "HITLConfigurationError"
  | FileNotFoundError _ => "FileNotFoundError"
  | RecursionError _ => "RecursionError" | OverflowError _ => "OverflowError"
  | HTTPException _ _ => "HTTPException"
  end.

Lemma dget_dset d k v k' : dget (dset d k v) k' = if String.eqb k' k then Some v else dget d k'.
Proof.
  induction d as [|[k0 v0] d IH]; cbn.
  - done.
  - destruct (String.eqb_spec k k0) as [->|Hk]; cbn.
    + by destruct (String.eqb_spec k' k0).
    + rewrite IH. destruct (String.eqb_spec k' k0) as [->|]; [|done].
      destruct (String.eqb_spec k0 k); [by subst|done].
Qed.

Lemma dget_dset_eq d k v : dget (dset d k v) k = Some v.
Proof. by rewrite dget_dset, String.eqb_refl. Qed.

Lemma dget_dset_ne d k v k' : k <> k' -> dget (dset d k v) k' = dget d k'.
Proof. intros H. rewrite dget_dset. by destruct (String.eqb_spec k' k). Qed.

Lemma dkeys_dset d k v : k ∈ dkeys (dset d k v).
Proof.
  induction d as [|[k0 v0] d IH]; cbn; [by left|].
  destruct (String.eqb_spec k k0) as [->|]; cbn; [by left|by right].
Qed.

Lemma dget_Some_keys d k v : dget d k = Some v -> k ∈ dkeys d.
Proof.
  intros H. destruct (decide (k ∈ dkeys d)); [done|].
  apply dget_None_keys in n. congruence.
Qed.

Example repr_ex :
  map repr [JStr "it's"; JStr "a\b"; JArr [JNull; JBool true; JFloat (f_of_Z 3)];
            JObj [("k", JInt (-4))]]
  = [quote +:+ "it's" +:+ quote; "'a\\b'"; "[None, True, 3.0]"; "{'k': -4}"].
Proof. by vm_compute. Qed.
