(* ===== verification/Auth.v ===== *)
(** Authorization: operations, decisions, the policies of [auth.py], the
    exact-match single-use grant, and the gateway that records every decision.

    A policy is an instance of [AuthorizationPolicy]; the gateway is written and
    proved against that interface.  The clock is an argument ([now]). *)
From S2P Require Import Prelude PyStr PyTime PyFloat Json PyRepr.

Inductive ApprovalDecision : Type := APPROVED | DENIED | PENDING.

#[export] Instance ApprovalDecision_eq_dec : EqDecision ApprovalDecision.
Proof. solve_decision. Defined.

Definition decision_value (d : ApprovalDecision) : string :=
  match d with APPROVED => "approved" | DENIED => "denied" | PENDING => "pending" end.

Inductive OperationKind : Type := READ | WRITE | TRANSFER | DELETE | CONFIG.

#[export] Instance OperationKind_eq_dec : EqDecision OperationKind.
Proof. solve_decision. Defined.

Definition kind_value (k : OperationKind) : string :=
  match k with
  | READ => "read" | WRITE => "write" | TRANSFER => "transfer" | DELETE => "delete"
  | CONFIG => "config"
  end.

Record Operation : Type := {
  op_kind : OperationKind;
  op_name : string;
  op_target : string;
  op_details : dict;
}.

Record AuthorizationDecision : Type := {
  ad_operation : Operation;
  ad_decision : ApprovalDecision;
  ad_reason : string;
  ad_timestamp : string;
  ad_approver : option string;
}.

(** The interface of a policy: it reads the clock, may change its own state, and
    may let an exception escape. *)
Class AuthorizationPolicy (P : Type) : Type :=
  policy_authorize : Z -> Operation -> P -> result (AuthorizationDecision * P).

(** What a policy promises the gateway: its decision is about the operation it
    was asked about. *)
Class LawfulPolicy (P : Type) {HP : AuthorizationPolicy P} : Prop :=
  policy_about now op (p : P) d p' :
    policy_authorize now op p = Ok (d, p') -> ad_operation d = op.

Definition decide_as (now : Z) (op : Operation) (d : ApprovalDecision) (reason : string)
    (approver : option string) : AuthorizationDecision :=
  {| ad_operation := op; ad_decision := d; ad_reason := reason; ad_timestamp := isoformat now;
     ad_approver := approver |}.

Inductive AutoApprovePolicy : Type := AutoApprove.
Inductive ReadOnlyPolicy : Type := ReadOnly.
Inductive RequireApprovalPolicy : Type := RequireApproval.

#[export] Instance auto_approve_authorize : AuthorizationPolicy AutoApprovePolicy :=
  fun now op p => Ok (decide_as now op APPROVED "auto-approved (development mode)" None, p).

#[export] Instance read_only_authorize : AuthorizationPolicy ReadOnlyPolicy :=
  fun now op p =>
    if bool_decide (op_kind op = READ)
    then Ok (decide_as now op APPROVED "read operations are always permitted" None, p)
    else Ok (decide_as now op DENIED
               (kind_value (op_kind op) +:+ " operations are not permitted in read-only mode") None, p).

#[export] Instance require_approval_authorize : AuthorizationPolicy RequireApprovalPolicy :=
  fun now op p =>
    if bool_decide (op_kind op = READ)
    then Ok (decide_as now op APPROVED "read operations are always permitted" None, p)
    else Ok (decide_as now op PENDING "human approval required for non-read operations" None, p).

(** ** The exact-match grant *)

Record ApprovedOperationGrant : Type := {
  aog_session_id : string;
  aog_approving_user : string;
  aog_requesting_user : string;
  aog_thread_id : string;
  aog_tool_name : string;
  aog_tool_args : dict;
  aog_idempotency_key : string;
  aog_decision : string;
  aog_created_at : string;
  aog_expires_at : option string;
  aog_consumed : bool;
  aog_version : Z;
}.

(** [datetime.now(utc) > datetime.fromisoformat(text)], with [if not text]. *)
Definition expired_at (now : Z) (expires_at : option string) : result bool :=
  if opt_str_true expires_at then
    match fromisoformat (opt_or expires_at "") with
    | Some t => Ok (t <? now)
    | None => Raise (ValueError ("Invalid isoformat string: " +:+ repr_str (opt_or expires_at "")))
    end
  else Ok false.

Definition is_expired (now : Z) (g : ApprovedOperationGrant) : result bool :=
  expired_at now (aog_expires_at g).

(** The fields a caller presents to [can_authorize]. *)
Record GrantQuery : Type := {
  q_session_id : string;
  q_user_id : string;
  q_thread_id : string;
  q_tool_name : string;
  q_tool_args : dict;
  q_idempotency_key : string;
}.

Definition can_authorize (now : Z) (g : ApprovedOperationGrant) (q : GrantQuery) : result bool :=
  if negb (String.eqb (aog_decision g) "approved") then Ok false
  else if aog_consumed g then Ok false
  else
    let* expired := is_expired now g in
    if expired then Ok false
    else if negb (String.eqb (aog_session_id g) (q_session_id q)) then Ok false
    else if negb (String.eqb (aog_requesting_user g) (q_user_id q)) then Ok false
    else if negb (String.eqb (aog_thread_id g) (q_thread_id q)) then Ok false
    else if negb (String.eqb (aog_tool_name g) (q_tool_name q)) then Ok false
    else if negb (String.eqb (aog_idempotency_key g) (q_idempotency_key q)) then Ok false
    else if negb (String.eqb (dumps true (JObj (aog_tool_args g))) (dumps true (JObj (q_tool_args q))))
    then Ok false
    else Ok true.

(** The policy around one grant, with its own consumed flag. *)
Record GrantPolicy : Type := {
  gp_grant : ApprovedOperationGrant;
  gp_consumed : bool;
}.

(** The query read from the details of an operation. *)
Definition grant_query (op : Operation) : GrantQuery :=
  let d := op_details op in
  {| q_session_id := py_str (dget_or d "session_id" (JStr ""));
     q_user_id := py_str (dget_or d "user_id" (JStr ""));
     q_thread_id := py_str (dget_or d "thread_id" (JStr ""));
     q_tool_name := op_name op;
     q_tool_args := match dget d "args" with Some (JObj a) => a | _ => [] end;
     q_idempotency_key := py_str (dget_or d "idempotency_key" (JStr "")) |}.

#[export] Instance grant_authorize : AuthorizationPolicy GrantPolicy :=
  fun now op p =>
    if gp_consumed p
    then Ok (decide_as now op DENIED
               "Approved operation grant already consumed — requires new authorization" None, p)
    else
      let g := gp_grant p in
      let* ok := can_authorize now g (grant_query op) in
      if ok
      then Ok (decide_as now op APPROVED
                 ("Approved by " +:+ aog_approving_user g +:+ " via HITL grant")
                 (Some (aog_approving_user g)),
               {| gp_grant := g; gp_consumed := true |})
      else Ok (decide_as now op DENIED
                 "Operation does not match approved grant — exact match required" None, p).

(** ** The gateway *)

Record AuthorizationGateway (P : Type) : Type := {
  gw_policy : P;
  gw_decisions : list AuthorizationDecision;
}.
Arguments gw_policy {P} _.
Arguments gw_decisions {P} _.

(** The constructor: [None] in place of a policy is refused. *)
Definition make_gateway {P} (policy : option P) : result (AuthorizationGateway P) :=
  match policy with
  | None => Raise (RuntimeError
      "AuthorizationGateway requires an explicit AuthorizationPolicy — refusing to fail open")
  | Some p => Ok {| gw_policy := p; gw_decisions := [] |}
  end.

Definition audit_trail {P} (g : AuthorizationGateway P) : list AuthorizationDecision :=
  gw_decisions g.

Definition gw_authorize {P} `{AuthorizationPolicy P} (now : Z) (op : Operation)
    (g : AuthorizationGateway P) : result (AuthorizationDecision * AuthorizationGateway P) :=
  let* (d, p') := policy_authorize now op (gw_policy g) in
  Ok (d, {| gw_policy := p'; gw_decisions := gw_decisions g ++ [d] |}).

Definition clear_audit_trail {P} (g : AuthorizationGateway P) : AuthorizationGateway P :=
  {| gw_policy := gw_policy g; gw_decisions := [] |}.

(** A run of requests, each with the clock at its time. *)
Fixpoint gw_run {P} `{AuthorizationPolicy P} (reqs : list (Z * Operation))
    (g : AuthorizationGateway P) : result (list AuthorizationDecision * AuthorizationGateway P) :=
  match reqs with
  | [] => Ok ([], g)
  | (now, op) :: reqs' =>
      let* (d, g1) := gw_authorize now op g in
      let* (ds, g2) := gw_run reqs' g1 in
      Ok (d :: ds, g2)
  end.

(** A gateway that some requests brought from [g] to [g']. *)
Definition gw_later {P} `{AuthorizationPolicy P} (g g' : AuthorizationGateway P) : Prop :=
  exists reqs ds, gw_run reqs g = Ok (ds, g').

Definition approved (d : AuthorizationDecision) : bool := bool_decide (ad_decision d = APPROVED).

(** ** Lemmas *)

#[export] Instance auto_approve_lawful : LawfulPolicy AutoApprovePolicy.
Proof. intros now op p d p' [= <- <-]. done. Qed.

#[export] Instance read_only_lawful : LawfulPolicy ReadOnlyPolicy.
Proof.
  intros now op p d p'. unfold policy_authorize, read_only_authorize. by case_bool_decide; intros [= <- <-].
Qed.

#[export] Instance require_approval_lawful : LawfulPolicy RequireApprovalPolicy.
Proof.
  intros now op p d p'. unfold policy_authorize, require_approval_authorize.
  by case_bool_decide; intros [= <- <-].
Qed.

Lemma grant_authorize_cases now op p d p' :
  policy_authorize now op p = Ok (d, p') ->
  ad_operation d = op /\
  (ad_decision d = APPROVED /\ gp_consumed p = false /\ gp_consumed p' = true /\
     can_authorize now (gp_grant p) (grant_query op) = Ok true
   \/ ad_decision d = DENIED /\ p' = p).
Proof.
  unfold policy_authorize, grant_authorize. destruct (gp_consumed p); [intros [= <- <-]; by auto|].
  destruct (can_authorize _ _ _) as [[]|]; cbn; intros H; simplify_eq; split; auto.
Qed.

#[export] Instance grant_lawful : LawfulPolicy GrantPolicy.
Proof. intros now op p d p' H. by apply grant_authorize_cases in H as [-> _]. Qed.

Lemma gw_authorize_ok {P} `{AuthorizationPolicy P} now op (g : AuthorizationGateway P) d g' :
  gw_authorize now op g = Ok (d, g') <->
  exists p', policy_authorize now op (gw_policy g) = Ok (d, p') /\
    g' = {| gw_policy := p'; gw_decisions := gw_decisions g ++ [d] |}.
Proof.
  unfold gw_authorize. rewrite res_bind_ok. split.
  - intros ([d1 p1] & Hp & [= <- <-]). by exists p1.
  - intros (p' & Hp & ->). by exists (d, p').
Qed.

Lemma gw_run_cons {P} `{AuthorizationPolicy P} now op reqs (g : AuthorizationGateway P) ds g' :
  gw_run ((now, op) :: reqs) g = Ok (ds, g') <->
  exists d g1 ds', gw_authorize now op g = Ok (d, g1) /\ gw_run reqs g1 = Ok (ds', g') /\ ds = d :: ds'.
Proof.
  cbn [gw_run]. rewrite res_bind_ok. split.
  - intros ([d g1] & Hd & ([ds' g2] & Hr & [= <- <-])%res_bind_ok). by exists d, g1, ds'.
  - intros (d & g1 & ds' & Hd & Hr & ->). exists (d, g1). split; [done|].
    apply res_bind_ok. by exists (ds', g').
Qed.

Lemma gw_later_refl {P} `{AuthorizationPolicy P} (g : AuthorizationGateway P) : gw_later g g.
Proof. by exists [], []. Qed.

Lemma gw_later_step {P} `{AuthorizationPolicy P} now op (g g1 g2 : AuthorizationGateway P) d :
  gw_later g g1 -> gw_authorize now op g1 = Ok (d, g2) -> gw_later g g2.
Proof.
  intros (reqs & ds & Hr) Hd. exists (reqs ++ [(now, op)]), (ds ++ [d]). revert g ds Hr.
  induction reqs as [|[now' op'] reqs IH]; intros g ds Hr.
  - injection Hr as <- <-. apply gw_run_cons. by exists d, g2, [].
  - apply gw_run_cons in Hr as (d' & g' & ds' & Hd' & Hr & ->). cbn [app]. apply gw_run_cons.
    exists d', g', (ds' ++ [d]). split; [done|]. split; [by apply IH|done].
Qed.

Lemma grant_run_consumed reqs (g : AuthorizationGateway GrantPolicy) ds g' :
  gw_run reqs g = Ok (ds, g') -> gp_consumed (gw_policy g) = true -> countb approved ds = 0%nat.
Proof.
  revert g ds; induction reqs as [|[now op] reqs IH]; intros g ds.
  - by intros [= <- <-].
  - rewrite gw_run_cons. intros (d & g1 & ds' & (p' & Hp & ->)%gw_authorize_ok & Hr & ->) Hc.
    apply grant_authorize_cases in Hp as [_ [(_ & Hf & _)|[Hd ->]]]; [congruence|].
    rewrite countb_cons. unfold approved at 1. rewrite Hd. cbn. by eapply IH.
Qed.

Lemma can_authorize_true now g q :
  can_authorize now g q = Ok true <->
  aog_decision g = "approved" /\ aog_consumed g = false /\ is_expired now g = Ok false /\
  aog_session_id g = q_session_id q /\ aog_requesting_user g = q_user_id q /\
  aog_thread_id g = q_thread_id q /\ aog_tool_name g = q_tool_name q /\
  aog_idempotency_key g = q_idempotency_key q /\
  dumps true (JObj (aog_tool_args g)) = dumps true (JObj (q_tool_args q)).
Proof.
  unfold can_authorize.
  generalize (dumps true (JObj (aog_tool_args g))), (dumps true (JObj (q_tool_args q))); intros ta tb.
  repeat match goal with
  | |- context [negb (String.eqb ?a ?b)] => destruct (String.eqb_spec a b); cbn [negb]
  end; destruct (aog_consumed g); destruct (is_expired now g) as [[]|]; cbn;
  (split; [intros E; try discriminate E; by auto 12|intros E; decompose [and] E; congruence]).
Qed.

(** ** Properties *)

(** C25: an [ApprovedOperationGrant] authorises a call exactly when it is
    approved, unconsumed, unexpired, and every field of the call equals the field the
    grant was issued for, the arguments being the same JSON object up to key order. *)
Theorem grant_authorizes_exactly now g q :
  json_ok (JObj (aog_tool_args g)) = true -> json_ok (JObj (q_tool_args q)) = true ->
  can_authorize now g q = Ok true <->
  aog_decision g = "approved" /\ aog_consumed g = false /\ is_expired now g = Ok false /\
  aog_session_id g = q_session_id q /\ aog_requesting_user g = q_user_id q /\
  aog_thread_id g = q_thread_id q /\ aog_tool_name g = q_tool_name q /\
  aog_idempotency_key g = q_idempotency_key q /\
  canon true (JObj (aog_tool_args g)) = canon true (JObj (q_tool_args q)).
Proof. intros Hg Hq. by rewrite can_authorize_true, dumps_sorted_inj. Qed.

Definition witness_grant : ApprovedOperationGrant :=
  {| aog_session_id := "s-1"; aog_approving_user := "bob"; aog_requesting_user := "alice";
     aog_thread_id := "t-1"; aog_tool_name := "submit_transfer";
     aog_tool_args := [("draft_id", JStr "d-1"); ("user_id", JStr "alice")];
     aog_idempotency_key := "k-1"; aog_decision := "approved";
     aog_created_at := isoformat noon_2026;
     aog_expires_at := Some (isoformat (add_minutes noon_2026 30));
     aog_consumed := false; aog_version := 1 |}.

Definition witness_operation : Operation :=
  {| op_kind := TRANSFER; op_name := "submit_transfer"; op_target := "d-1";
     op_details := [("session_id", JStr "s-1"); ("user_id", JStr "alice"); ("thread_id", JStr "t-1");
                    ("idempotency_key", JStr "k-1");
                    ("args", JObj [("user_id", JStr "alice"); ("draft_id", JStr "d-1")])] |}.

Lemma grant_authorizes_exactly_witness :
  can_authorize noon_2026 witness_grant (grant_query witness_operation) = Ok true.
Proof.
  apply (grant_authorizes_exactly noon_2026 witness_grant (grant_query witness_operation));
    [reflexivity|reflexivity|].
  vm_compute. repeat split.
Defined.

(** whatever operations are put to the gateway of one HITL grant, in any
    order and at any times, at most one of them is approved. *)
Theorem grant_policy_single_use reqs g ds g' :
  gw_run reqs {| gw_policy := {| gp_grant := g; gp_consumed := false |}; gw_decisions := [] |}
    = Ok (ds, g') ->
  (countb approved ds <= 1)%nat.
Proof.
  set (gw := {| gw_policy := _; gw_decisions := _ |}). assert (gp_consumed (gw_policy gw) = false) as Hc by done.
  clearbody gw. revert gw ds Hc. induction reqs as [|[now op] reqs IH]; intros gw ds Hc.
  - intros [= <- <-]. cbn. lia.
  - rewrite gw_run_cons. intros (d & g1 & ds' & (p' & Hp & ->)%gw_authorize_ok & Hr & ->).
    rewrite countb_cons. apply grant_authorize_cases in Hp as [_ [(_ & _ & Ht & _)|[Hd ->]]].
    + rewrite (grant_run_consumed _ _ _ _ Hr Ht). case_match; lia.
    + unfold approved at 1. rewrite Hd. cbn. by apply IH in Hr.
Qed.

Lemma grant_policy_single_use_witness :
  exists ds g', gw_run [(noon_2026, witness_operation); (noon_2026, witness_operation)]
    {| gw_policy := {| gp_grant := witness_grant; gp_consumed := false |}; gw_decisions := [] |}
    = Ok (ds, g') /\ (countb approved ds <= 1)%nat /\ countb approved ds = 1%nat.
Proof.
  eexists _, _. split; [vm_compute; reflexivity|]. split; [|reflexivity].
  eapply (grant_policy_single_use [(noon_2026, witness_operation); (noon_2026, witness_operation)]
            witness_grant).
  vm_compute; reflexivity.
Defined.

(** The gateway's audit trail is, in order, the decisions it returned,
    each about the operation that was asked: no decision is lost, added or reordered. *)
Theorem gateway_audits_every_decision {P} `{LawfulPolicy P} reqs (g g' : AuthorizationGateway P) ds :
  gw_run reqs g = Ok (ds, g') ->
  audit_trail g' = audit_trail g ++ ds /\ map ad_operation ds = map snd reqs.
Proof.
  revert g ds; induction reqs as [|[now op] reqs IH]; intros g ds.
  - intros [= <- <-]. by rewrite app_nil_r.
  - rewrite gw_run_cons. intros (d & g1 & ds' & (p' & Hp & ->)%gw_authorize_ok & Hr & ->).
    apply IH in Hr as [Ht Ho]. apply policy_about in Hp as Hop. cbn in *.
    rewrite Ht, Ho, Hop. by rewrite <-(assoc_L (++)).
Qed.

Lemma gateway_audits_every_decision_witness :
  exists ds g', gw_run [(noon_2026, witness_operation)]
    {| gw_policy := ReadOnly; gw_decisions := [] |} = Ok (ds, g') /\
  audit_trail g' = [] ++ ds /\ map ad_operation ds = [witness_operation].
Proof.
  eexists _, _. split; [vm_compute; reflexivity|].
  apply (gateway_audits_every_decision [(noon_2026, witness_operation)]
           {| gw_policy := ReadOnly; gw_decisions := [] |}).
  reflexivity.
Defined.
