(* ===== verification/Tools.v ===== *)
(** The tool layer: [ToolDefinition], its provider schemas, the registry and the
    deterministic validation of a call proposed by the model
    ([tools/models.py], [tools/registry.py], [tools/validation.py],
    [tools/provider_adapters.py]). *)
From S2P Require Import Prelude PyStr PyFloat Json PyRepr.

(** ** Definitions of tools *)

Inductive RiskLevel : Type := Low | Medium | High | Critical.
Inductive ApprovalPolicy : Type := ApprNever | ApprHighRisk | ApprAlways.
Inductive RetryPolicy : Type := RetryAllow | RetryNeverOnUnknown | RetryNever.

#[export] Instance RiskLevel_eq_dec : EqDecision RiskLevel.
Proof. solve_decision. Defined.
#[export] Instance ApprovalPolicy_eq_dec : EqDecision ApprovalPolicy.
Proof. solve_decision. Defined.
#[export] Instance RetryPolicy_eq_dec : EqDecision RetryPolicy.
Proof. solve_decision. Defined.

Record ToolDefinition : Type := {
  td_name : string;
  td_description : string;
  td_input_schema : dict;
  td_side_effect : bool;
  td_risk_level : RiskLevel;
  td_required_permissions : list string;
  td_approval_policy : ApprovalPolicy;
  td_idempotency_required : bool;
  td_retry_policy : RetryPolicy;
  td_data_classification : string;
  td_timeout_seconds : f64;
  td_tags : list string;
}.

(** The field constraints of the model: [min_length=1] on name and description. *)
Definition tool_definition_ok (t : ToolDefinition) : bool :=
  str_true (td_name t) && str_true (td_description t).

Definition is_read_only (t : ToolDefinition) : bool :=
  negb (td_side_effect t) && bool_decide (td_risk_level t = Low).

Definition requires_approval (t : ToolDefinition) : bool :=
  match td_approval_policy t with
  | ApprNever => false
  | ApprAlways => true
  | ApprHighRisk => match td_risk_level t with High | Critical => true | _ => false end
  end.

Definition server_fields : list string := ["user_id"; "tenant_id"; "approver_id"].

(** [dict(v)] of a JSON value. *)
Definition py_dict_of (v : json) : result dict :=
  match v with
  | JObj d => Ok d
  | JArr [] => Ok []
  | JStr s => if str_true s then Raise (ValueError "dictionary update sequence element #0 has length 1; 2 is required") else Ok []
  | JArr _ => Raise (TypeError "cannot convert dictionary update sequence element #0 to a sequence")
  | _ => Raise (TypeError (repr_str (type_name v) +:+ " object is not iterable"))
  end.

Definition is_server_field (v : json) : bool :=
  match v with JStr s => str_in s server_fields | _ => false end.

(** The properties and required names of a schema, less the server's fields
    unless they are asked for. *)
Definition visible_properties (include_server_fields : bool) (schema : dict) : result dict :=
  let* properties := py_dict_of (dget_or schema "properties" (JObj [])) in
  Ok (if include_server_fields then properties
      else List.filter (fun kv => negb (str_in (fst kv) server_fields)) properties).

Definition visible_required (include_server_fields : bool) (schema : dict) : result (list json) :=
  let* required := py_list (dget_or schema "required" (JArr [])) in
  Ok (if include_server_fields then required
      else List.filter (fun r => negb (is_server_field r)) required).

Definition provider_schema (include_server_fields : bool) (t : ToolDefinition) : result json :=
  let* properties := visible_properties include_server_fields (td_input_schema t) in
  let* required := visible_required include_server_fields (td_input_schema t) in
  Ok (JObj [("type", JStr "function");
            ("function", JObj
               [("name", JStr (td_name t));
                ("description", JStr (td_description t));
                ("parameters", JObj
                   [("type", JStr "object");
                    ("properties", JObj properties);
                    ("required", JArr required)])])]).

Definition to_openai_tools (include_server_fields : bool) (tools : list ToolDefinition) : result (list json) :=
  res_mapM (provider_schema include_server_fields) tools.

Definition anthropic_tool (include_server_fields : bool) (t : ToolDefinition) : result json :=
  let* properties := visible_properties include_server_fields (td_input_schema t) in
  let* required := visible_required include_server_fields (td_input_schema t) in
  Ok (JObj [("name", JStr (td_name t));
            ("description", JStr (td_description t));
            ("input_schema", JObj
               [("type", JStr "object");
                ("properties", JObj properties);
                ("required", JArr required)])]).

Definition to_anthropic_tools (include_server_fields : bool) (tools : list ToolDefinition) : result (list json) :=
  res_mapM (anthropic_tool include_server_fields) tools.

(** ** Registry *)

Definition ToolRegistry : Type := list (string * ToolDefinition).

Definition register (r : ToolRegistry) (t : ToolDefinition) : result ToolRegistry :=
  if ohas r (td_name t)
  then Raise (ValueError ("Duplicate tool name: " +:+ repr_str (td_name t)))
  else Ok (oset r (td_name t) t).

Fixpoint register_all (r : ToolRegistry) (tools : list ToolDefinition) : result ToolRegistry :=
  match tools with
  | [] => Ok r
  | t :: tools' => let* r' := register r t in register_all r' tools'
  end.

Definition make_registry (tools : list ToolDefinition) : result ToolRegistry := register_all [] tools.

Definition registry_get (r : ToolRegistry) (name : string) : option ToolDefinition := oget r name.
Definition registry_has (r : ToolRegistry) (name : string) : bool := ohas r name.
Definition registry_names (r : ToolRegistry) : gset string := list_to_set (okeys r).
Definition registry_count (r : ToolRegistry) : Z := Z.of_nat (length r).
Definition registry_iter (r : ToolRegistry) : list ToolDefinition := ovalues r.

Definition provider_definitions (include_server_fields : bool) (r : ToolRegistry) : result (list json) :=
  res_mapM (provider_schema include_server_fields) (ovalues r).

Definition side_effecting_tools (r : ToolRegistry) : list ToolDefinition :=
  List.filter td_side_effect (ovalues r).

Definition risk_value (l : RiskLevel) : string :=
  match l with Low => "low" | Medium => "medium" | High => "high" | Critical => "critical" end.

Definition risk_levels : list (string * Z) := [("low", 0); ("medium", 1); ("high", 2); ("critical", 3)].

Definition tools_by_risk (minimum_risk : string) (r : ToolRegistry) : list ToolDefinition :=
  let threshold := default 0 (oget risk_levels minimum_risk) in
  List.filter (fun t => threshold <=? default 0 (oget risk_levels (risk_value (td_risk_level t))))
    (ovalues r).

(** ** Validation of a proposed call *)

Record ToolCallValidation : Type := {
  tcv_valid : bool;
  tcv_tool_name : string;
  tcv_validated_args : dict;
  tcv_error : string;
  tcv_error_code : string;
}.

Definition tcv_reject (tool_name error error_code : string) : ToolCallValidation :=
  {| tcv_valid := false; tcv_tool_name := tool_name; tcv_validated_args := [];
     tcv_error := error; tcv_error_code := error_code |}.

Definition tcv_accept (tool_name : string) (args : dict) : ToolCallValidation :=
  {| tcv_valid := true; tcv_tool_name := tool_name; tcv_validated_args := args;
     tcv_error := ""; tcv_error_code := "" |}.

Definition check_type (value expected : json) : bool :=
  match expected with
  | JStr e =>
      if String.eqb e "string" then match value with JStr _ => true | _ => false end
      else if String.eqb e "number" then match value with JInt _ | JFloat _ => true | _ => false end
      else if String.eqb e "integer" then match value with JInt _ => true | _ => false end
      else if String.eqb e "boolean" then match value with JBool _ => true | _ => false end
      else if String.eqb e "object" then match value with JObj _ => true | _ => false end
      else if String.eqb e "array" then match value with JArr _ => true | _ => false end
      else true
  | _ => true
  end.

(** [f not in args or args\[f\] is None], where an unhashable [f] raises. *)
Definition missing (args : dict) (f : json) : result bool :=
  match f with
  | JStr s => Ok (match dget args s with None | Some JNull => true | _ => false end)
  | JArr _ | JObj _ => Raise (TypeError ("unhashable type: " +:+ repr_str (type_name f)))
  | _ => Ok true
  end.

Fixpoint check_required (tool_name : string) (args : dict) (required : list json)
    : result (option ToolCallValidation) :=
  match required with
  | [] => Ok None
  | f :: required' =>
      let* m := missing args f in
      if m then Ok (Some (tcv_reject tool_name
                     ("Missing required parameter: " +:+ repr f +:+ " for tool " +:+ repr_str tool_name)
                     "MISSING_REQUIRED_PARAMETER"))
      else check_required tool_name args required'
  end.

Fixpoint check_fields (tool_name : string) (properties : json) (items : dict)
    : result (option ToolCallValidation) :=
  match items with
  | [] => Ok None
  | (field_name, value) :: items' =>
      let* props := py_dict properties in
      match dget props field_name with
      | None | Some JNull => check_fields tool_name properties items'
      | Some prop =>
          let* p := py_dict prop in
          let expected_type := dget_or p "type" (JStr "string") in
          if check_type value expected_type then check_fields tool_name properties items'
          else Ok (Some (tcv_reject tool_name
                 ("Type mismatch for " +:+ repr_str field_name +:+ " in " +:+ repr_str tool_name
                  +:+ ": expected " +:+ py_str expected_type +:+ ", got " +:+ type_name value)
                 "TYPE_MISMATCH"))
      end
  end.

Definition validate_against_schema (tool_name : string) (args schema : dict)
    : result (option ToolCallValidation) :=
  let* required := py_list (dget_or schema "required" (JArr [])) in
  let properties := dget_or schema "properties" (JObj []) in
  let* r := check_required tool_name args required in
  match r with
  | Some v => Ok (Some v)
  | None => check_fields tool_name properties args
  end.

(** Step 2: the arguments as a dict, or the rejection.  Of what [json.loads] raises, only
    [JSONDecodeError] is caught. *)
Definition normalize_args (tool_name : string) (arguments : json) : result (ToolCallValidation + dict) :=
  match arguments with
  | JNull => Ok (inr [])
  | JStr text =>
      match loads text with
      | Raise JSONDecodeError => Ok (inl (tcv_reject tool_name
                  ("Tool arguments must be valid JSON for " +:+ repr_str tool_name) "INVALID_JSON_ARGS"))
      | Raise e => Raise e
      | Ok (JObj d) => Ok (inr d)
      | Ok _ => Ok (inl (tcv_reject tool_name
                  ("Tool arguments must be a JSON object for " +:+ repr_str tool_name) "ARGS_NOT_OBJECT"))
      end
  | JObj d => Ok (inr d)
  | _ => Ok (inl (tcv_reject tool_name
           ("Tool arguments must be a dict for " +:+ repr_str tool_name +:+ ", got " +:+ type_name arguments)
           "ARGS_NOT_DICT"))
  end.

Definition validate_tool_call (tool_name : string) (arguments : json) (registry : ToolRegistry)
    : result ToolCallValidation :=
  match registry_get registry tool_name with
  | None => Ok (tcv_reject tool_name ("Unknown tool: " +:+ repr_str tool_name) "UNKNOWN_TOOL")
  | Some definition =>
      let* normalized := normalize_args tool_name arguments in
      match normalized with
      | inl v => Ok v
      | inr args =>
          let schema := td_input_schema definition in
          if list_true schema then
            let* r := validate_against_schema tool_name args schema in
            match r with Some v => Ok v | None => Ok (tcv_accept tool_name args) end
          else Ok (tcv_accept tool_name args)
      end
  end.

(** ** What validation means *)

(** The JSON Schema types of the source: [bool] is neither a number nor an
    integer, and an unknown type name admits every value. *)
Inductive has_type : json -> string -> Prop :=
  | ht_string s : has_type (JStr s) "string"
  | ht_number_int z : has_type (JInt z) "number"
  | ht_number_float f : has_type (JFloat f) "number"
  | ht_integer z : has_type (JInt z) "integer"
  | ht_boolean b : has_type (JBool b) "boolean"
  | ht_object d : has_type (JObj d) "object"
  | ht_array l : has_type (JArr l) "array"
  | ht_other v e : e ∉ ["string"; "number"; "integer"; "boolean"; "object"; "array"] -> has_type v e.

Lemma check_type_spec v e : check_type v (JStr e) = true <-> has_type v e.
Proof.
  split.
  - cbn. repeat match goal with
    | |- context [String.eqb e ?t] => destruct (String.eqb_spec e t) as [->|]
    end; try solve [destruct v; intros; try discriminate; constructor].
    intros _. apply ht_other. set_solver.
  - destruct 1; try reflexivity. cbn.
    repeat match goal with
    | |- context [String.eqb e ?t] => destruct (String.eqb_spec e t) as [->|]; [exfalso; set_solver|]
    end. done.
Qed.

(** A schema of the shape every tool of the program declares: a list of required
    names and, per property, a dict with a type name ([string] when absent). *)
Definition schema_shape (schema : dict) (required : list string) (props : list (string * string)) : Prop :=
  dget schema "required" = Some (JArr (map JStr required)) /\
  exists ps, dget schema "properties" = Some (JObj ps) /\
    Forall2 (fun kp kt => fst kp = fst kt /\ exists p, snd kp = JObj p /\
               dget_or p "type" (JStr "string") = JStr (snd kt)) ps props.

(** The contract: every required name has a value, and every declared field has
    its type. *)
Definition conforms (required : list string) (props : list (string * string)) (args : dict) : Prop :=
  (forall f, f ∈ required -> exists v, dget args f = Some v /\ v <> JNull) /\
  (forall k v t, (k, v) ∈ args -> oget props k = Some t -> has_type v t).

(** The dict the arguments stand for. *)
Definition arguments_dict (arguments : json) : option dict :=
  match arguments with
  | JNull => Some []
  | JStr text => match loads text with Ok (JObj d) => Some d | _ => None end
  | JObj d => Some d
  | _ => None
  end.

(** A text the parser gives up on for another reason than its syntax. *)
Definition unreadable (arguments : json) (e : exn) : Prop :=
  exists text, arguments = JStr text /\ loads text = Raise e /\ e <> JSONDecodeError.

Lemma normalize_args_spec name arguments :
  match normalize_args name arguments with
  | Ok (inr d) => arguments_dict arguments = Some d
  | Ok (inl v) => arguments_dict arguments = None /\ tcv_valid v = false /\ tcv_tool_name v = name
  | Raise e => unreadable arguments e
  end.
Proof.
  destruct arguments; cbn; try done. destruct (loads s) as [[]|[]] eqn:E; cbn; try done; by exists s.
Qed.

Lemma normalize_args_readable name arguments e : unreadable arguments e -> normalize_args name arguments = Raise e.
Proof. intros (text & -> & E & Hne). cbn. rewrite E. by destruct e. Qed.

Lemma check_required_spec name args required :
  exists r, check_required name args (map JStr required) = Ok r /\
    match r with
    | None => forall f, f ∈ required -> exists v, dget args f = Some v /\ v <> JNull
    | Some v => tcv_valid v = false /\ tcv_tool_name v = name /\
        ~ (forall f, f ∈ required -> exists v, dget args f = Some v /\ v <> JNull)
    end.
Proof.
  induction required as [|f required IH]; cbn.
  - exists None. split; [done|]. intros f Hf. by apply elem_of_nil in Hf.
  - destruct (dget args f) as [v|] eqn:E; cbn.
    + assert (v = JNull \/ v <> JNull) as [->|Hv] by (destruct v; auto).
      * eexists. split; [done|]. cbn. split; [done|]. split; [done|]. intros H.
        destruct (H f ltac:(by left)) as (v' & Hv' & ?). congruence.
      * replace (match v with JNull => true | _ => false end) with false by (by destruct v).
        destruct IH as (r & -> & Hr). exists r. split; [done|]. destruct r as [w|].
        -- destruct Hr as (Hw & Hn & Hr). split; [done|]. split; [done|]. intros H. apply Hr.
           intros g Hg. apply H. by right.
        -- intros g [->|Hg]%elem_of_cons; [by exists v|auto].
    + eexists. split; [done|]. cbn. split; [done|]. split; [done|]. intros H.
      destruct (H f ltac:(by left)) as (v' & Hv' & ?). congruence.
Qed.

Lemma props_lookup ps props k :
  Forall2 (fun kp kt => fst kp = fst kt /\ exists p, snd kp = JObj p /\
             dget_or p "type" (JStr "string") = JStr (snd kt)) ps props ->
  match oget props k with
  | Some t => exists p, dget ps k = Some (JObj p) /\ dget_or p "type" (JStr "string") = JStr t
  | None => dget ps k = None
  end.
Proof.
  induction 1 as [|[k1 v1] [k2 t2] ps props (Hk & p & Hp & Ht) _ IH]; cbn in *; [done|]. subst k2 v1.
  destruct (String.eqb_spec k k1); [by exists p|done].
Qed.

Lemma check_fields_spec name ps props args :
  Forall2 (fun kp kt => fst kp = fst kt /\ exists p, snd kp = JObj p /\
             dget_or p "type" (JStr "string") = JStr (snd kt)) ps props ->
  exists r, check_fields name (JObj ps) args = Ok r /\
    match r with
    | None => forall k v t, (k, v) ∈ args -> oget props k = Some t -> has_type v t
    | Some w => tcv_valid w = false /\ tcv_tool_name w = name /\
        ~ (forall k v t, (k, v) ∈ args -> oget props k = Some t -> has_type v t)
    end.
Proof.
  intros Hps. induction args as [|[k v] args IH]; cbn.
  - exists None. split; [done|]. intros k v t H. by apply elem_of_nil in H.
  - pose proof (props_lookup ps props k Hps) as Hk.
    assert (forall r, check_fields name (JObj ps) args = Ok r ->
      (forall t, oget props k = Some t -> has_type v t) ->
      match r with
      | None => forall k0 v0 t, (k0, v0) ∈ (k, v) :: args -> oget props k0 = Some t -> has_type v0 t
      | Some w => tcv_valid w = false /\ tcv_tool_name w = name /\
          ~ (forall k0 v0 t, (k0, v0) ∈ (k, v) :: args -> oget props k0 = Some t -> has_type v0 t)
      end) as Hskip.
    { intros r Hr Hv. destruct IH as (r' & Hr' & IH). rewrite Hr in Hr'. simplify_eq.
      destruct r' as [w|].
      - destruct IH as (Hw & Hn & IH). split; [done|]. split; [done|]. intros H. apply IH.
        intros k0 v0 t0 Hin. apply H. by right.
      - intros k0 v0 t0 [[= -> ->]|Hin]%elem_of_cons; eauto. }
    destruct (oget props k) as [t|] eqn:Et.
    + destruct Hk as (p & -> & Hp). cbn. rewrite Hp.
      destruct (check_type v (JStr t)) eqn:Ec.
      * apply check_type_spec in Ec. destruct IH as (r & Hr & _). exists r. split; [done|].
        apply Hskip; [done|]. intros t' [= <-]. done.
      * eexists. split; [done|]. cbn. split; [done|]. split; [done|]. intros H.
        specialize (H k v t ltac:(by left) Et). apply check_type_spec in H. congruence.
    + rewrite Hk. destruct IH as (r & Hr & _). exists r. split; [done|]. by apply Hskip.
Qed.

(** ** Registry lemmas *)

Lemma register_all_ok r tools r' :
  register_all r tools = Ok r' ->
  r' = r ++ map (fun t => (td_name t, t)) tools /\
  (NoDup (okeys r) -> NoDup (okeys r')).
Proof.
  revert r; induction tools as [|t tools IH]; cbn; intros r H.
  - simplify_eq. by rewrite app_nil_r.
  - unfold register in H. destruct (ohas r (td_name t)) eqn:E; [done|]. cbn in H.
    apply IH in H as [-> Hnd]. apply ohas_false in E.
    rewrite oset_fresh in * by done. split; [by rewrite <-(assoc_L (++))|]. intros Hr.
    apply Hnd. unfold okeys. rewrite map_app. apply NoDup_app. split; [done|].
    split; [|apply NoDup_singleton]. intros x Hx ->%list_elem_of_singleton. done.
Qed.

Lemma register_all_total r tools :
  NoDup (okeys r ++ map td_name tools) -> exists r', register_all r tools = Ok r'.
Proof.
  revert r; induction tools as [|t tools IH]; cbn; intros r H; [eauto|].
  apply NoDup_app in H as H'. destruct H' as (Hr & Hx & Ht).
  unfold register. destruct (ohas r (td_name t)) eqn:E.
  - apply ohas_true in E. exfalso. apply (Hx _ E). by left.
  - apply ohas_false in E. cbn. apply IH. rewrite oset_fresh by done. unfold okeys.
    rewrite map_app. cbn. by rewrite <-(assoc_L (++)).
Qed.

Lemma filter_In_elem {A} (p : A -> bool) l x : x ∈ List.filter p l <-> x ∈ l /\ p x = true.
Proof. rewrite !list_elem_of_In. apply List.filter_In. Qed.

Lemma validate_tool_call_spec name arguments reg t required props :
  registry_get reg name = Some t -> schema_shape (td_input_schema t) required props ->
  (forall e, ~ unreadable arguments e) ->
  exists v, validate_tool_call name arguments reg = Ok v /\ tcv_tool_name v = name /\
    (tcv_valid v = true <-> exists d, arguments_dict arguments = Some d /\ conforms required props d) /\
    (tcv_valid v = true -> arguments_dict arguments = Some (tcv_validated_args v)).
Proof.
  intros Ht (Hreq & ps & Hps & Hprops) Hread. unfold validate_tool_call. rewrite Ht.
  pose proof (normalize_args_spec name arguments) as Hn.
  destruct (normalize_args name arguments) as [[v|d]|e]; cbn [res_bind]; [| |by destruct (Hread e)].
  { destruct Hn as (Hd & Hv & Hname). exists v. rewrite Hv, Hd. naive_solver. }
  rewrite Hn. assert (list_true (td_input_schema t) = true) as -> by (by destruct (td_input_schema t)).
  unfold validate_against_schema, dget_or. rewrite Hreq, Hps. cbn [py_list res_bind].
  destruct (check_required_spec name d required) as (r & -> & Hr). cbn [res_bind].
  destruct r as [w|].
  { destruct Hr as (Hv & Hname & Hr). exists w. cbn. rewrite Hv.
    split; [done|]. split; [done|]. split; [|done]. split; [done|]. intros (d' & [= <-] & Hc). by destruct Hr, Hc. }
  destruct (check_fields_spec name ps props d Hprops) as (r & -> & Hf). cbn [res_bind].
  destruct r as [w|].
  { destruct Hf as (Hv & Hname & Hf). exists w. rewrite Hv.
    split; [done|]. split; [done|]. split; [|done]. split; [done|]. intros (d' & [= <-] & Hc). by destruct Hf, Hc. }
  exists (tcv_accept name d). do 2 (split; [done|]). split; [|done]. split; [|done].
  intros _. by exists d.
Qed.

(** ** Properties *)

(** C20: For a registered tool whose schema has the shape every tool of the program declares,
    validating a call raises exactly when the arguments are a text on which [json.loads] raises
    something else than [JSONDecodeError] (an integer of more than 4300 digits, nesting too
    deep), and then that.  Otherwise it accepts the call exactly when the arguments are a JSON
    object that conforms to the schema; the accepted arguments are that object, unchanged. *)
Theorem validate_tool_call_correct name arguments reg t required props :
  registry_get reg name = Some t -> schema_shape (td_input_schema t) required props ->
  (forall e, validate_tool_call name arguments reg = Raise e <-> unreadable arguments e) /\
  forall v, validate_tool_call name arguments reg = Ok v ->
    tcv_tool_name v = name /\
    (tcv_valid v = true <-> exists d, arguments_dict arguments = Some d /\ conforms required props d) /\
    (tcv_valid v = true -> arguments_dict arguments = Some (tcv_validated_args v)).
Proof.
  intros Ht Hshape. pose proof (normalize_args_spec name arguments) as Hn.
  assert (Hraise : forall e, unreadable arguments e -> validate_tool_call name arguments reg = Raise e)
    by (intros e He; unfold validate_tool_call; by rewrite Ht, (normalize_args_readable name arguments e He)).
  destruct (normalize_args name arguments) as [n|e'] eqn:E.
  - assert (Hread : forall e, ~ unreadable arguments e)
      by (intros e He; apply (normalize_args_readable name) in He; congruence).
    destruct (validate_tool_call_spec name arguments reg t required props Ht Hshape Hread) as (v & -> & Hv).
    split; [|by intros v' [= <-]]. intros e. split; [done|]. intros He. by destruct (Hread e).
  - rewrite (Hraise e' Hn). split; [|done]. intros e. split; [by intros [= <-]|]. intros He.
    rewrite <-(Hraise e He). symmetry. by apply Hraise.
Qed.

Definition witness_tool : ToolDefinition :=
  {| td_name := "get_balance"; td_description := "Get account balance";
     td_input_schema := [("type", JStr "object");
       ("properties", JObj [("account_id", JObj [("type", JStr "string")]);
                            ("user_id", JObj [("type", JStr "string")])]);
       ("required", JArr [JStr "account_id"; JStr "user_id"])];
     td_side_effect := false; td_risk_level := Low; td_required_permissions := [];
     td_approval_policy := ApprNever; td_idempotency_required := false;
     td_retry_policy := RetryAllow; td_data_classification := "confidential";
     td_timeout_seconds := f_of_Z 30; td_tags := [] |}.

Lemma witness_shape :
  schema_shape (td_input_schema witness_tool) ["account_id"; "user_id"] [("account_id", "string"); ("user_id", "string")].
Proof. split; [reflexivity|]. eexists. split; [reflexivity|]. repeat constructor; eexists; split; reflexivity. Qed.

(** Brackets without end, and an integer without end. *)
Definition brackets (n : nat) : string := Nat.iter n (String (chr 91)) "".
Definition nines (n : nat) : string := Nat.iter n (String (chr 57)) "".

(** Three calls: one of the wrong type is refused, one is accepted, and one whose text nests
    too deep raises. *)
Lemma validate_tool_call_correct_witness :
  let validate arguments := validate_tool_call "get_balance" arguments [("get_balance", witness_tool)] in
  let wrong := JObj [("account_id", JStr "acc-1"); ("user_id", JInt 7)] in
  let right := JObj [("account_id", JStr "acc-1"); ("user_id", JStr "alice")] in
  ~ conforms ["account_id"; "user_id"] [("account_id", "string"); ("user_id", "string")]
      [("account_id", JStr "acc-1"); ("user_id", JInt 7)] /\
  conforms ["account_id"; "user_id"] [("account_id", "string"); ("user_id", "string")]
      [("account_id", JStr "acc-1"); ("user_id", JStr "alice")] /\
  validate (JStr (brackets 1501)) = Raise too_deep.
Proof.
  intros validate wrong right.
  pose proof (fun arguments => validate_tool_call_correct "get_balance" arguments [("get_balance", witness_tool)] witness_tool
    ["account_id"; "user_id"] [("account_id", "string"); ("user_id", "string")] eq_refl witness_shape) as H.
  split; [|split].
  - intros Hc. destruct (proj2 (H wrong) _ eq_refl) as (_ & Hv & _).
    assert (Hf : false = true) by (apply Hv; eexists; split; [reflexivity|exact Hc]). discriminate Hf.
  - destruct (proj2 (H right) _ eq_refl) as (_ & Hv & _). destruct (proj1 Hv eq_refl) as (d & [= <-] & Hc). exact Hc.
  - apply (proj1 (H (JStr (brackets 1501)))). exists (brackets 1501).
    split; [reflexivity|]. split; [vm_compute; reflexivity|discriminate].
Defined.

(** The arguments of a proposed call can raise out of the validation: an integer of 4301 digits. *)
Example validation_raises_on_long_integers :
  validate_tool_call "get_balance" (JStr (nines 4301)) [("get_balance", witness_tool)] = Raise (too_many_digits 4301).
Proof. vm_compute. reflexivity. Qed.

(** Building a registry succeeds exactly when the names are distinct, and
    then each tool is found under its own name, in the order given, and nothing else is. *)
Theorem make_registry_correct tools :
  (is_ok (make_registry tools) = true <-> NoDup (map td_name tools)) /\
  (forall r, make_registry tools = Ok r ->
     registry_iter r = tools /\
     forall name t, registry_get r name = Some t <-> t ∈ tools /\ td_name t = name).
Proof.
  split; [split|].
  - destruct (make_registry tools) as [r|] eqn:E; [|done]. intros _.
    apply register_all_ok in E as [-> Hnd]. specialize (Hnd (NoDup_nil_2)).
    unfold okeys in Hnd. cbn in Hnd. by rewrite map_map in Hnd.
  - intros Hnd. destruct (register_all_total [] tools Hnd) as [r Hr]. unfold make_registry. by rewrite Hr.
  - intros r E. apply register_all_ok in E as [-> Hnd]. specialize (Hnd (NoDup_nil_2)). cbn in *.
    split; [unfold registry_iter, ovalues; rewrite map_map; apply map_id|].
    intros name t. unfold registry_get. split.
    + intros H%oget_elem. apply list_elem_of_fmap in H as (t' & [= -> ->] & H). done.
    + intros [Hin <-]. apply oget_NoDup; [done|]. apply list_elem_of_fmap. by exists t.
Qed.

Lemma make_registry_correct_witness :
  is_ok (make_registry [witness_tool]) = true /\ is_ok (make_registry [witness_tool; witness_tool]) = false.
Proof. split; reflexivity. Defined.

(** A schema sent to a model never lists a server-injected identity
    field, neither among its properties nor among its required names, and keeps every
    other property and required name. *)
Theorem provider_schema_hides_identity t props req :
  visible_properties false (td_input_schema t) = Ok props ->
  visible_required false (td_input_schema t) = Ok req ->
  (forall k, k ∈ server_fields -> k ∉ dkeys props /\ JStr k ∉ req) /\
  (forall all k, visible_properties true (td_input_schema t) = Ok all -> k ∉ server_fields ->
     dget props k = dget all k) /\
  provider_schema false t = Ok (JObj [("type", JStr "function"); ("function", JObj
     [("name", JStr (td_name t)); ("description", JStr (td_description t));
      ("parameters", JObj [("type", JStr "object"); ("properties", JObj props);
                           ("required", JArr req)])])]).
Proof.
  intros Hp Hr. split; [|split].
  - intros k Hk. unfold visible_properties, visible_required in *.
    apply res_bind_ok in Hp as (ps & _ & [= <-]). apply res_bind_ok in Hr as (rs & _ & [= <-]). split.
    + intros Hin. unfold dkeys in Hin. apply list_elem_of_fmap in Hin as ([k' v] & -> & Hin).
      apply filter_In_elem in Hin as [_ Hin%negb_true_iff]. by apply (proj1 (str_in_false k' server_fields) Hin).
    + intros [_ Hin%negb_true_iff]%filter_In_elem. by apply (proj1 (str_in_false k server_fields) Hin).
  - intros all k Ha Hk. unfold visible_properties in *.
    apply res_bind_ok in Hp as (ps & Hps & [= <-]). rewrite Hps in Ha. cbn in Ha. simplify_eq.
    clear Hps Hr. induction all as [|[k' v] all IH]; cbn; [done|].
    destruct (str_in k' server_fields) eqn:E; cbn; destruct (String.eqb_spec k k') as [->|]; try done; try exact IH.
    by apply str_in_spec in E.
  - unfold provider_schema. by rewrite Hp, Hr.
Qed.

Lemma provider_schema_hides_identity_witness :
  exists props req,
    visible_properties false (td_input_schema witness_tool) = Ok props /\
    visible_required false (td_input_schema witness_tool) = Ok req /\
    (forall k, k ∈ server_fields -> k ∉ dkeys props /\ JStr k ∉ req).
Proof.
  eexists _, _. split; [reflexivity|]. split; [reflexivity|].
  apply (provider_schema_hides_identity witness_tool); reflexivity.
Defined.
