(* ===== verification/Banking.v ===== *)
(** The synthetic bank ([banking/models.py], [banking/policy.py],
    [banking/repository.py]): accounts, beneficiaries, transactions and transfer
    drafts in an in-memory repository.

    Balances and amounts are binary64 values.  The clock readings and the UUIDs an
    operation draws are arguments. *)
From S2P Require Import Prelude PyStr PyFloat PyTime Json PyRepr Auth.

(** ** Models *)

Inductive RiskClassification : Type := READ_ONLY | REVERSIBLE_WRITE | SIDE_EFFECTING | HIGH_RISK.

#[export] Instance RiskClassification_eq_dec : EqDecision RiskClassification.
Proof. solve_decision. Defined.

Inductive TransferStatus : Type := TDRAFT | TPENDING | TCOMPLETED | TCANCELLED | TFAILED.

#[export] Instance TransferStatus_eq_dec : EqDecision TransferStatus.
Proof. solve_decision. Defined.

Definition status_value (s : TransferStatus) : string :=
  match s with
  | TDRAFT => "DRAFT" | TPENDING => "PENDING" | TCOMPLETED => "COMPLETED"
  | TCANCELLED => "CANCELLED" | TFAILED => "FAILED"
  end.

Record Account : Type := {
  account_id : string;
  owner_id : string;
  account_type : string;
  balance : f64;
  account_currency : string;
  account_active : bool;
}.

Record Beneficiary : Type := {
  beneficiary_id : string;
  beneficiary_name : string;
  account_holder : string;
  bank_code : string;
  account_number : string;
  beneficiary_active : bool;
}.

Record Transaction : Type := {
  transaction_id : string;
  txn_account_id : string;
  txn_amount : f64;
  txn_currency : string;
  txn_description : string;
  txn_timestamp : string;
}.

Record TransferDraft : Type := {
  draft_id : string;
  source_account_id : string;
  draft_beneficiary_id : string;
  amount : f64;
  draft_currency : string;
  draft_description : string;
  status : TransferStatus;
  idempotency_key : string;
  created_at : string;
  expires_at : string;
}.

Record AccountSummary : Type := {
  sum_account : Account;
  recent_transactions : list Transaction;
  beneficiary_count : Z;
}.

(** ** Policy *)

Definition TOOL_RISK : list (string * RiskClassification) :=
  [("get_account_summary", READ_ONLY); ("get_balance", READ_ONLY); ("list_transactions", READ_ONLY);
   ("find_beneficiary", READ_ONLY); ("create_transfer_draft", REVERSIBLE_WRITE);
   ("get_transfer_status", READ_ONLY); ("cancel_transfer", SIDE_EFFECTING);
   ("report_suspicious_transaction", SIDE_EFFECTING); ("submit_transfer", HIGH_RISK)].

Definition SUPPORTED_CURRENCIES : list string := ["USD"; "EUR"; "GBP"; "JPY"; "CHF"].
Definition DEFAULT_TRANSACTION_LIMIT : f64 := Eval vm_compute in f_of_Z 100000.
Definition TRANSFER_DRAFT_EXPIRY_MINUTES : Z := 30.

Definition requires_hitl (tool_name : string) : bool :=
  bool_decide (default READ_ONLY (oget TOOL_RISK tool_name) = HIGH_RISK).

Definition is_read_only_tool (tool_name : string) : bool :=
  bool_decide (default READ_ONLY (oget TOOL_RISK tool_name) = READ_ONLY).

(** ** Repository *)

Record BankingRepository : Type := {
  accounts : gmap string Account;
  beneficiaries : gmap string Beneficiary;
  transactions : gmap string (list Transaction);
  transfer_drafts : gmap string TransferDraft;
  completed_transfers : gset string;
}.

Definition empty_repository : BankingRepository :=
  {| accounts := ∅; beneficiaries := ∅; transactions := ∅; transfer_drafts := ∅;
     completed_transfers := ∅ |}.

Definition with_accounts (r : BankingRepository) (f : gmap string Account -> gmap string Account) :=
  {| accounts := f (accounts r); beneficiaries := beneficiaries r; transactions := transactions r;
     transfer_drafts := transfer_drafts r; completed_transfers := completed_transfers r |}.

Definition with_drafts (r : BankingRepository)
    (f : gmap string TransferDraft -> gmap string TransferDraft) :=
  {| accounts := accounts r; beneficiaries := beneficiaries r; transactions := transactions r;
     transfer_drafts := f (transfer_drafts r); completed_transfers := completed_transfers r |}.

Definition set_balance (a : Account) (b : f64) : Account :=
  {| account_id := account_id a; owner_id := owner_id a; account_type := account_type a;
     balance := b; account_currency := account_currency a; account_active := account_active a |}.

Definition set_status (d : TransferDraft) (s : TransferStatus) : TransferDraft :=
  {| draft_id := draft_id d; source_account_id := source_account_id d;
     draft_beneficiary_id := draft_beneficiary_id d; amount := amount d;
     draft_currency := draft_currency d; draft_description := draft_description d; status := s;
     idempotency_key := idempotency_key d; created_at := created_at d; expires_at := expires_at d |}.

Definition load_account (r : BankingRepository) (a : Account) : BankingRepository :=
  {| accounts := <[account_id a := a]> (accounts r); beneficiaries := beneficiaries r;
     transactions := match transactions r !! account_id a with
                     | Some _ => transactions r
                     | None => <[account_id a := []]> (transactions r)
                     end;
     transfer_drafts := transfer_drafts r; completed_transfers := completed_transfers r |}.

Definition load_beneficiary (r : BankingRepository) (b : Beneficiary) : BankingRepository :=
  {| accounts := accounts r; beneficiaries := <[beneficiary_id b := b]> (beneficiaries r);
     transactions := transactions r; transfer_drafts := transfer_drafts r;
     completed_transfers := completed_transfers r |}.

Definition load_fixtures (accs : list Account) (bens : list Beneficiary) (r : BankingRepository)
    : BankingRepository :=
  fold_left load_beneficiary bens (fold_left load_account accs r).

Definition get_account (r : BankingRepository) (id : string) : option Account := accounts r !! id.

Definition owner_of (r : BankingRepository) (id user : string) : bool :=
  match accounts r !! id with Some acc => String.eqb (owner_id acc) user | None => false end.

Definition get_balance (r : BankingRepository) (id user : string) : option f64 :=
  match accounts r !! id with
  | None => None
  | Some acc => if negb (String.eqb (owner_id acc) user) then None else Some (balance acc)
  end.

Definition txns_of (r : BankingRepository) (id : string) : list Transaction :=
  default [] (transactions r !! id).

Definition get_summary (r : BankingRepository) (id user : string) : option AccountSummary :=
  match accounts r !! id with
  | None => None
  | Some acc =>
      if negb (String.eqb (owner_id acc) user) then None
      else Some {| sum_account := acc; recent_transactions := slice_from (-10) (txns_of r id);
                   beneficiary_count := Z.of_nat (size (beneficiaries r)) |}
  end.

Definition list_transactions (r : BankingRepository) (id user : string) (limit : Z)
    : option (list Transaction) :=
  if negb (owner_of r id user) then None else Some (slice_from (- limit) (txns_of r id)).

Definition get_beneficiary (r : BankingRepository) (id : string) : option Beneficiary :=
  beneficiaries r !! id.

(** The arguments of [create_transfer_draft]. *)
Record DraftRequest : Type := {
  rq_source : string;
  rq_beneficiary : string;
  rq_amount : f64;
  rq_currency : string;
  rq_user : string;
  rq_key : string;
  rq_description : string;
}.

(** A draft and no error, or no draft and an error. *)
Definition DraftResult : Type := TransferDraft + string.

Definition check_draft (r : BankingRepository) (q : DraftRequest) : option string :=
  match accounts r !! rq_source q with
  | None => Some ("Account not found: " +:+ rq_source q)
  | Some acc =>
      if negb (account_active acc) then Some ("Account inactive: " +:+ rq_source q)
      else if negb (String.eqb (owner_id acc) (rq_user q))
      then Some ("User " +:+ rq_user q +:+ " does not own account " +:+ rq_source q)
      else
        match beneficiaries r !! rq_beneficiary q with
        | None => Some ("Beneficiary not found: " +:+ rq_beneficiary q)
        | Some ben =>
            if negb (beneficiary_active ben) then Some ("Beneficiary inactive: " +:+ rq_beneficiary q)
            else if f_le (rq_amount q) f_zero then Some "Amount must be positive"
            else if f_gt (rq_amount q) DEFAULT_TRANSACTION_LIMIT
            then Some ("Amount exceeds limit of " +:+ repr_float DEFAULT_TRANSACTION_LIMIT)
            else if negb (str_in (rq_currency q) SUPPORTED_CURRENCIES)
            then Some ("Unsupported currency: " +:+ rq_currency q)
            else if f_lt (balance acc) (rq_amount q)
            then Some ("Insufficient funds: balance " +:+ repr_float (balance acc) +:+ " < "
                       +:+ repr_float (rq_amount q))
            else if bool_decide (rq_key q ∈ completed_transfers r)
            then Some "Transfer already completed (idempotency key)"
            else None
        end
  end.

Definition new_draft (now : Z) (uuid : string) (q : DraftRequest) : TransferDraft :=
  {| draft_id := uuid; source_account_id := rq_source q; draft_beneficiary_id := rq_beneficiary q;
     amount := rq_amount q; draft_currency := rq_currency q; draft_description := rq_description q;
     status := TDRAFT; idempotency_key := rq_key q; created_at := isoformat now;
     expires_at := isoformat (add_minutes now TRANSFER_DRAFT_EXPIRY_MINUTES) |}.

Definition create_transfer_draft (now : Z) (uuid : string) (q : DraftRequest) (r : BankingRepository)
    : DraftResult * BankingRepository :=
  match check_draft r q with
  | Some error => (inr error, r)
  | None =>
      let draft := new_draft now uuid q in
      (inl draft, with_drafts r (insert uuid draft))
  end.

(** The transaction a submission records. *)
Definition debit (now : Z) (uuid : string) (d : TransferDraft) : Transaction :=
  {| transaction_id := uuid; txn_account_id := source_account_id d; txn_amount := f_neg (amount d);
     txn_currency := draft_currency d;
     txn_description := str_or (draft_description d) ("Transfer to " +:+ draft_beneficiary_id d);
     txn_timestamp := isoformat now |}.

(** The balance, status, transaction and key written together when a draft goes through. *)
Definition commit_transfer (now : Z) (uuid id : string) (d : TransferDraft) (acc : Account)
    (r : BankingRepository) : BankingRepository :=
  let src := source_account_id d in
  {| accounts := <[src := set_balance acc (f_sub (balance acc) (amount d))]> (accounts r);
     beneficiaries := beneficiaries r;
     transactions := <[src := txns_of r src ++ [debit now uuid d]]> (transactions r);
     transfer_drafts := <[id := set_status d TCOMPLETED]> (transfer_drafts r);
     completed_transfers :=
       if str_true (idempotency_key d) then {[idempotency_key d]} ∪ completed_transfers r
       else completed_transfers r |}.

(** [now1] is read by the expiry test, [now2] by the transaction. *)
Definition submit_transfer (now1 now2 : Z) (uuid id user : string) (r : BankingRepository)
    : result (DraftResult * BankingRepository) :=
  match transfer_drafts r !! id with
  | None => Ok (inr ("Draft not found: " +:+ id), r)
  | Some draft =>
      if negb (bool_decide (status draft = TDRAFT))
      then Ok (inr ("Draft already " +:+ status_value (status draft)), r)
      else if negb (owner_of r (source_account_id draft) user) then Ok (inr "Ownership violation", r)
      else
        let* late := expired_at now1 (Some (expires_at draft)) in
        if late
        then Ok (inr "Draft expired", with_drafts r (insert id (set_status draft TFAILED)))
        else if str_true (idempotency_key draft) &&
                bool_decide (idempotency_key draft ∈ completed_transfers r)
        then Ok (inr "Transfer already completed", r)
        else
          match accounts r !! source_account_id draft with
          | None => Raise (KeyError (source_account_id draft))
          | Some acc =>
              if f_lt (balance acc) (amount draft) then Ok (inr "Insufficient funds", r)
              else Ok (inl (set_status draft TCOMPLETED), commit_transfer now2 uuid id draft acc r)
          end
  end.

Definition cancel_transfer (id user : string) (r : BankingRepository)
    : (bool * option string) * BankingRepository :=
  match transfer_drafts r !! id with
  | None => ((false, Some ("Draft not found: " +:+ id)), r)
  | Some draft =>
      match status draft with
      | TDRAFT | TPENDING =>
          if negb (owner_of r (source_account_id draft) user)
          then ((false, Some "Ownership violation"), r)
          else ((true, None), with_drafts r (insert id (set_status draft TCANCELLED)))
      | s => ((false, Some ("Cannot cancel: draft is " +:+ status_value s)), r)
      end
  end.

Definition get_transfer_status (r : BankingRepository) (id : string) : option TransferDraft :=
  transfer_drafts r !! id.

Definition is_idempotency_key_used (r : BankingRepository) (key : string) : bool :=
  bool_decide (key ∈ completed_transfers r).

(** ** Runs of operations *)

(** The calls that change the repository, with the clock readings and UUIDs they
    draw. *)
Inductive BankOp : Type :=
  | OpCreate (now : Z) (uuid : string) (q : DraftRequest)
  | OpSubmit (now1 now2 : Z) (uuid id user : string)
  | OpCancel (id user : string).

(** The repository after a call; a call that raises leaves it unchanged. *)
Definition bank_step (op : BankOp) (r : BankingRepository) : BankingRepository :=
  match op with
  | OpCreate now uuid q => snd (create_transfer_draft now uuid q r)
  | OpSubmit now1 now2 uuid id user =>
      match submit_transfer now1 now2 uuid id user r with Ok (_, r') => r' | Raise _ => r end
  | OpCancel id user => snd (cancel_transfer id user r)
  end.

Definition bank_run (ops : list BankOp) (r : BankingRepository) : BankingRepository :=
  fold_left (fun r op => bank_step op r) ops r.

(** What each call can do to the repository. *)
Inductive bank_change (op : BankOp) (r : BankingRepository) : BankingRepository -> Prop :=
  | ch_none : bank_change op r r
  | ch_create now uuid q :
      op = OpCreate now uuid q -> check_draft r q = None ->
      bank_change op r (with_drafts r (insert uuid (new_draft now uuid q)))
  | ch_status id d s :
      transfer_drafts r !! id = Some d -> status d = TDRAFT \/ status d = TPENDING ->
      s = TFAILED \/ s = TCANCELLED ->
      bank_change op r (with_drafts r (insert id (set_status d s)))
  | ch_commit now1 now uuid id user d acc :
      op = OpSubmit now1 now uuid id user ->
      transfer_drafts r !! id = Some d -> status d = TDRAFT ->
      accounts r !! source_account_id d = Some acc -> owner_id acc = user ->
      expired_at now1 (Some (expires_at d)) = Ok false ->
      (str_true (idempotency_key d) = true -> idempotency_key d ∉ completed_transfers r) ->
      f_lt (balance acc) (amount d) = false ->
      bank_change op r (commit_transfer now uuid id d acc r).

Lemma owner_of_true r id user :
  owner_of r id user = true <-> exists acc, accounts r !! id = Some acc /\ owner_id acc = user.
Proof.
  unfold owner_of. destruct (accounts r !! id) as [acc|]; [|split; [done|by intros (? & ? & _)]].
  rewrite String.eqb_eq. split; [eauto|]. by intros (? & [= <-] & ?).
Qed.

Lemma submit_transfer_cases now1 now2 uuid id user r out r' :
  submit_transfer now1 now2 uuid id user r = Ok (out, r') ->
  (exists d acc, transfer_drafts r !! id = Some d /\ status d = TDRAFT /\
     accounts r !! source_account_id d = Some acc /\ owner_id acc = user /\
     expired_at now1 (Some (expires_at d)) = Ok false /\
     (str_true (idempotency_key d) = true -> idempotency_key d ∉ completed_transfers r) /\
     f_lt (balance acc) (amount d) = false /\
     out = inl (set_status d TCOMPLETED) /\ r' = commit_transfer now2 uuid id d acc r) \/
  (exists e, out = inr e /\
     (r' = r \/ exists d, transfer_drafts r !! id = Some d /\ status d = TDRAFT /\
        expired_at now1 (Some (expires_at d)) = Ok true /\
        r' = with_drafts r (insert id (set_status d TFAILED)))).
Proof.
  unfold submit_transfer. intros H.
  destruct (transfer_drafts r !! id) as [d|] eqn:Ed; [|simplify_eq; eauto].
  case_bool_decide as Hs; cbn in H; [|simplify_eq; eauto].
  destruct (owner_of r (source_account_id d) user) eqn:Eo; cbn in H; [|simplify_eq; eauto].
  apply res_bind_ok in H as (late & Hl & H). destruct late.
  { simplify_eq. right. eexists. split; [done|]. right. by exists d. }
  apply owner_of_true in Eo as (acc & Ea & Ho). rewrite Ea in H.
  destruct (str_true (idempotency_key d) && _) eqn:Ek; [simplify_eq; eauto|].
  destruct (f_lt (balance acc) (amount d)) eqn:Ef; simplify_eq; [eauto|].
  left. exists d, acc. repeat (split; [done|]). split; [|done].
  intros Hk. rewrite Hk in Ek. cbn in Ek. by apply bool_decide_eq_false in Ek.
Qed.

Lemma bank_step_change op r : bank_change op r (bank_step op r).
Proof.
  destruct op as [now uuid q|now1 now2 uuid id user|id user]; cbn.
  - unfold create_transfer_draft. destruct (check_draft r q) eqn:E; cbn; [constructor|].
    by apply (ch_create _ _ now uuid q).
  - destruct (submit_transfer now1 now2 uuid id user r) as [[out r']|e] eqn:E; [|constructor].
    apply submit_transfer_cases in E as [(d & acc & H)|(e & -> & [->|(d & Hd & Hs & _ & ->)])].
    + decompose [and] H. subst. by eapply ch_commit.
    + constructor.
    + eapply ch_status; eauto.
  - unfold cancel_transfer. destruct (transfer_drafts r !! id) as [d|] eqn:Ed; [|constructor].
    destruct (status d) eqn:Es; cbn; try apply ch_none; destruct (owner_of _ _ _); cbn;
      try apply ch_none; eapply ch_status; eauto.
Qed.

(** Invariants of runs: what one change preserves, every run preserves. *)
Lemma bank_run_invariant (I : BankingRepository -> Prop) (ok : BankOp -> Prop) :
  (forall op r r', ok op -> I r -> bank_change op r r' -> I r') ->
  forall ops r, Forall ok ops -> I r -> I (bank_run ops r).
Proof.
  intros Hstep ops. induction ops as [|op ops IH]; intros r Hok Hr; [done|].
  inversion Hok; subst. cbn. apply IH; [done|]. eauto using bank_step_change.
Qed.

(** *** Balances *)

Definition money_ok (x : f64) : bool := f_valid x && f_nonneg x.

(** Draft amounts are positive, finite and within the limit; balances are not
    negative. *)
Definition balances_ok (r : BankingRepository) : Prop :=
  (forall id acc, accounts r !! id = Some acc -> money_ok (balance acc) = true) /\
  (forall id d, transfer_drafts r !! id = Some d -> f_valid (amount d) = true /\ f_nonneg (amount d) = true /\
     amount d <> S754_infinity false).

Definition op_amount_ok (op : BankOp) : Prop :=
  match op with
  | OpCreate _ _ q => f_valid (rq_amount q) = true /\ f_is_nan (rq_amount q) = false
  | _ => True
  end.

Lemma check_draft_None r q :
  check_draft r q = None ->
  exists acc ben, accounts r !! rq_source q = Some acc /\ account_active acc = true /\
    owner_id acc = rq_user q /\ beneficiaries r !! rq_beneficiary q = Some ben /\
    beneficiary_active ben = true /\ f_le (rq_amount q) f_zero = false /\
    f_gt (rq_amount q) DEFAULT_TRANSACTION_LIMIT = false /\ rq_currency q ∈ SUPPORTED_CURRENCIES /\
    f_lt (balance acc) (rq_amount q) = false /\ rq_key q ∉ completed_transfers r.
Proof.
  unfold check_draft. destruct (accounts r !! rq_source q) as [acc|]; [|done].
  destruct (account_active acc) eqn:Ea; [|done]. cbn [negb].
  destruct (String.eqb_spec (owner_id acc) (rq_user q)); [|done]. cbn [negb].
  destruct (beneficiaries r !! rq_beneficiary q) as [ben|]; [|done].
  destruct (beneficiary_active ben) eqn:Eb; [|done]. cbn [negb].
  destruct (f_le _ f_zero) eqn:E1; [done|]. destruct (f_gt _ _) eqn:E2; [done|].
  destruct (str_in _ _) eqn:E3; [|done]. destruct (f_lt _ _) eqn:E4; [done|].
  case_bool_decide as E5; [done|]. intros _. apply str_in_spec in E3.
  exists acc, ben. done.
Qed.

Lemma f_gt_zero_nonneg x : f_is_nan x = false -> f_le x f_zero = false -> f_nonneg x = true.
Proof. by destruct x as [[]|[]| |[] m e]. Qed.

Lemma f_gt_limit_finite x :
  f_is_nan x = false -> f_gt x DEFAULT_TRANSACTION_LIMIT = false -> x <> S754_infinity false.
Proof. intros _ H ->. done. Qed.

(** *** The ledger *)

(** The balance an account had before the transactions recorded since. *)
Definition ledger (opening : f64) (txns : list Transaction) : f64 :=
  fold_left (fun b t => f_add b (txn_amount t)) txns opening.

Definition ledger_ok (r0 r : BankingRepository) : Prop :=
  forall id, match accounts r0 !! id, accounts r !! id with
             | Some a0, Some a =>
                 exists ts, txns_of r id = txns_of r0 id ++ ts /\ balance a = ledger (balance a0) ts /\
                   owner_id a = owner_id a0 /\ Forall (fun t => txn_account_id t = id) ts
             | None, None => txns_of r id = txns_of r0 id
             | _, _ => False
             end.

(** *** Idempotency keys *)

Definition keys_ok (r : BankingRepository) : Prop :=
  (forall id d, transfer_drafts r !! id = Some d -> status d = TCOMPLETED ->
     str_true (idempotency_key d) = true -> idempotency_key d ∈ completed_transfers r) /\
  (forall id1 id2 d1 d2, transfer_drafts r !! id1 = Some d1 -> transfer_drafts r !! id2 = Some d2 ->
     status d1 = TCOMPLETED -> status d2 = TCOMPLETED ->
     str_true (idempotency_key d1) = true -> idempotency_key d1 = idempotency_key d2 -> id1 = id2).

Lemma balances_ok_change op r r' :
  op_amount_ok op -> balances_ok r -> bank_change op r r' -> balances_ok r'.
Proof.
  intros Hop [Hb Hd] Hc. destruct Hc as [|now uuid q -> Hq|id d s Hid Hs Hs'|now1 now uuid id user d acc _ Hid _ Ha _ _ _ Hlt].
  - done.
  - split; [done|]. intros id d. cbn. rewrite lookup_insert_Some. intros [[_ <-]|[_ H]]; [|eauto].
    destruct Hop as [Hv Hn].
    apply check_draft_None in Hq as (acc & ben & _ & _ & _ & _ & _ & H0 & Hlim & _).
    cbn. eauto using f_gt_zero_nonneg, f_gt_limit_finite.
  - split; [done|]. intros id' d'. cbn. rewrite lookup_insert_Some. intros [[_ <-]|[_ H]]; [|eauto].
    cbn. eauto.
  - destruct (Hd _ _ Hid) as (Hv & Hn & Hinf). pose proof (Hb _ _ Ha) as Hm. apply andb_true_iff in Hm as [Hbv Hbn].
    split; intros id' x; cbn; rewrite lookup_insert_Some; (intros [[_ <-]|[_ H]]; [|eauto]); [|eauto].
    cbn. apply andb_true_iff. eauto using f_valid_sub, f_sub_nonneg.
Qed.

Lemma ledger_snoc b ts t : ledger b (ts ++ [t]) = f_add (ledger b ts) (txn_amount t).
Proof. unfold ledger. by rewrite fold_left_app. Qed.

Lemma txns_of_commit now uuid id d acc r x :
  txns_of (commit_transfer now uuid id d acc r) x =
  if bool_decide (x = source_account_id d) then txns_of r x ++ [debit now uuid d] else txns_of r x.
Proof.
  unfold txns_of at 1. cbn [transactions commit_transfer]. case_bool_decide as Hx.
  - subst x. by rewrite lookup_insert_eq.
  - by rewrite lookup_insert_ne.
Qed.

Lemma ledger_ok_change op r0 r r' : ledger_ok r0 r -> bank_change op r r' -> ledger_ok r0 r'.
Proof.
  intros H Hc. destruct Hc as [| | |now1 now uuid id user d acc _ Hid _ Ha _ _ _ Hlt]; try exact H.
  intros x. specialize (H x). rewrite txns_of_commit. cbn [accounts commit_transfer].
  case_bool_decide as Hx.
  - subst x. rewrite lookup_insert_eq. rewrite Ha in H.
    destruct (accounts r0 !! source_account_id d) as [a0|]; [|done].
    destruct H as (ts & -> & Hb & Ho & Hf). exists (ts ++ [debit now uuid d]).
    rewrite <-(assoc_L (++)). split; [done|]. cbn. split; [|split; [done|]].
    + by rewrite ledger_snoc, f_sub_add_neg, Hb.
    + apply Forall_app. split; [done|]. by repeat constructor.
  - by rewrite lookup_insert_ne by done.
Qed.

Lemma keys_ok_change op r r' : keys_ok r -> bank_change op r r' -> keys_ok r'.
Proof.
  intros [H1 H2] Hc.
  assert (forall id d, (status d = TCOMPLETED -> False) ->
    keys_ok (with_drafts r (insert id d))) as Hins.
  { intros id d Hd. split.
    - intros x y. cbn. rewrite lookup_insert_Some. intros [[_ <-]|[_ ?]]; [naive_solver|eauto].
    - intros x1 x2 y1 y2. cbn. rewrite !lookup_insert_Some.
      intros [[_ <-]|[_ ?]]; [naive_solver|]. intros [[_ <-]|[_ ?]]; [naive_solver|eauto]. }
  destruct Hc as [|now uuid q -> Hq|id d s Hid Hs Hs'|now1 now uuid id user d acc _ Hid _ Ha _ _ Hk Hlt].
  - done.
  - by apply Hins.
  - apply Hins. cbn. naive_solver.
  - assert (forall x y, transfer_drafts r !! x = Some y -> status y = TCOMPLETED ->
      str_true (idempotency_key y) = true -> idempotency_key y <> idempotency_key d) as Hfresh.
    { intros x y Hx Hy Hky E. apply Hk; [by rewrite <-E|]. rewrite <-E. eauto. }
    split.
    + intros x y. cbn. rewrite lookup_insert_Some. intros [[_ <-]|[_ Hx]] Hy Hky; cbn in *.
      * rewrite Hky. set_solver.
      * specialize (H1 _ _ Hx Hy Hky). case_match; set_solver.
    + intros x1 x2 y1 y2. cbn. rewrite !lookup_insert_Some.
      intros [[<- <-]|[? Hx1]] [[<- <-]|[? Hx2]] Hs1 Hs2 Hk1 E; cbn in *; try done; eauto.
      * exfalso. eapply (Hfresh _ _ Hx2); [done| |done]. by rewrite <-E.
      * exfalso. by eapply (Hfresh _ _ Hx1).
Qed.

Lemma bank_run_keys ops r : keys_ok r -> keys_ok (bank_run ops r).
Proof.
  apply (bank_run_invariant keys_ok (fun _ => True)); [|by apply Forall_true].
  eauto using keys_ok_change.
Qed.

(** ** Fixtures *)

Definition mk_account id owner type bal active :=
  {| account_id := id; owner_id := owner; account_type := type; balance := bal;
     account_currency := "USD"; account_active := active |}.

Definition mk_beneficiary id name holder bank number active :=
  {| beneficiary_id := id; beneficiary_name := name; account_holder := holder; bank_code := bank;
     account_number := number; beneficiary_active := active |}.

Definition mk_transaction id acc amt desc ts :=
  {| transaction_id := id; txn_account_id := acc; txn_amount := amt; txn_currency := "USD";
     txn_description := desc; txn_timestamp := ts |}.

Definition create_test_repository : BankingRepository :=
  let r := load_fixtures
    [mk_account "ACC-1001" "user-alice" "checking" (f_of_Z 15000) true;
     mk_account "ACC-1002" "user-alice" "savings" (f_of_Z 50000) true;
     mk_account "ACC-2001" "user-bob" "checking" (f_of_Z 3500) true;
     mk_account "ACC-3001" "user-carol" "checking" (f_of_Z 250) true;
     mk_account "ACC-9001" "user-alice" "checking" (f_of_Z 0) false]
    [mk_beneficiary "BEN-001" "Alice's Savings" "Alice" "ABC" "ACC-1002" true;
     mk_beneficiary "BEN-002" "Bob's Checking" "Bob" "ABC" "ACC-2001" true;
     mk_beneficiary "BEN-003" "Electric Company" "UtilityCorp" "XYZ" "UTIL-001" true;
     mk_beneficiary "BEN-999" "Inactive Payee" "Unknown" "ZZZ" "CLOSED" false]
    empty_repository in
  {| accounts := accounts r; beneficiaries := beneficiaries r;
     transactions := <["ACC-1001" :=
       [mk_transaction "TXN-001" "ACC-1001" (f_of_Z 5000) "Salary deposit" "2026-06-15T09:00:00Z";
        mk_transaction "TXN-002" "ACC-1001" (f_of_Z (-200)) "ATM withdrawal" "2026-06-16T14:30:00Z";
        mk_transaction "TXN-003" "ACC-1001" (f_of_Z (-1500)) "Rent payment" "2026-06-18T08:00:00Z"]]>
       (transactions r);
     transfer_drafts := transfer_drafts r; completed_transfers := completed_transfers r |}.

Lemma test_accounts_ok id acc :
  accounts create_test_repository !! id = Some acc -> money_ok (balance acc) = true.
Proof.
  cbn. rewrite !lookup_insert_Some. intros H.
  repeat (destruct H as [[_ <-]|[_ H]]; [reflexivity|]). by rewrite lookup_empty in H.
Qed.

Lemma test_balances_ok : balances_ok create_test_repository.
Proof. split; [exact test_accounts_ok|]. intros id d. cbn. by rewrite lookup_empty. Qed.

Lemma test_keys_ok : keys_ok create_test_repository.
Proof. split; intros *; cbn; by rewrite lookup_empty. Qed.

Definition witness_request (amt : f64) : DraftRequest :=
  {| rq_source := "ACC-1001"; rq_beneficiary := "BEN-002"; rq_amount := amt; rq_currency := "USD";
     rq_user := "user-alice"; rq_key := "k-1"; rq_description := "" |}.

Definition witness_ops (amt : f64) : list BankOp :=
  [OpCreate noon_2026 "d-1" (witness_request amt); OpCreate noon_2026 "d-2" (witness_request amt);
   OpSubmit noon_2026 noon_2026 "txn-1" "d-1" "user-alice";
   OpSubmit noon_2026 noon_2026 "txn-2" "d-1" "user-alice";
   OpSubmit noon_2026 noon_2026 "txn-3" "d-2" "user-alice"].

Example witness_ops_ex :
  (fun r => (balance <$> accounts r !! "ACC-1001", status <$> transfer_drafts r !! "d-1",
             status <$> transfer_drafts r !! "d-2", length (txns_of r "ACC-1001")))
    (bank_run (witness_ops (f_of_Z 100)) create_test_repository)
  = (Some (f_of_Z 14900), Some TCOMPLETED, Some TDRAFT, 4%nat).
Proof. by vm_compute. Qed.

(** ** Properties *)

(** C5: no sequence of draft, submit and cancel calls, with any arguments and in
    any order, makes a balance negative or ill formed, as long as the amounts asked for
    are numbers: the balance test and the binary64 subtraction together never overdraw. *)
Theorem balances_never_negative ops r :
  balances_ok r -> Forall op_amount_ok ops ->
  forall id acc, accounts (bank_run ops r) !! id = Some acc ->
    f_valid (balance acc) = true /\ f_nonneg (balance acc) = true.
Proof.
  intros Hr Hops id acc H.
  destruct (bank_run_invariant balances_ok op_amount_ok balances_ok_change ops r Hops Hr) as [Hb _].
  by apply andb_true_iff, (Hb id).
Qed.

Lemma balances_never_negative_witness :
  exists acc, accounts (bank_run (witness_ops (f_of_Z 100)) create_test_repository) !! "ACC-1001" = Some acc /\
    (f_valid (balance acc) = true /\ f_nonneg (balance acc) = true).
Proof.
  eexists. split; [vm_compute; reflexivity|].
  assert (Hops : Forall op_amount_ok (witness_ops (f_of_Z 100))) by repeat constructor.
  apply (balances_never_negative _ _ test_balances_ok Hops "ACC-1001"). vm_compute. reflexivity.
Defined.

(** C17: at every point of every run, an account's balance is, to the last bit, its
    opening balance with the amounts of the transactions recorded since added in order;
    the earlier history is kept, and owners never change. *)
Theorem balance_is_ledger_replay ops r :
  forall id, match accounts r !! id, accounts (bank_run ops r) !! id with
    | Some a0, Some a =>
        exists ts, txns_of (bank_run ops r) id = txns_of r id ++ ts /\
          balance a = ledger (balance a0) ts /\ owner_id a = owner_id a0 /\
          Forall (fun t => txn_account_id t = id) ts
    | None, None => txns_of (bank_run ops r) id = txns_of r id
    | _, _ => False
    end.
Proof.
  apply (bank_run_invariant (ledger_ok r) (fun _ => True)); [|by apply Forall_true|].
  - eauto using ledger_ok_change.
  - intros id. destruct (accounts r !! id) as [a|]; [|done]. exists [].
    by rewrite app_nil_r.
Qed.

(** C31: whatever drafts are made and submitted, in any order and however
    often, at most one draft with a given non-empty idempotency key is ever completed. *)
Theorem transfer_key_completes_once ops r id1 id2 d1 d2 :
  keys_ok r ->
  transfer_drafts (bank_run ops r) !! id1 = Some d1 -> transfer_drafts (bank_run ops r) !! id2 = Some d2 ->
  status d1 = TCOMPLETED -> status d2 = TCOMPLETED ->
  idempotency_key d1 <> "" -> idempotency_key d1 = idempotency_key d2 ->
  id1 = id2 /\ is_idempotency_key_used (bank_run ops r) (idempotency_key d1) = true.
Proof.
  intros Hr H1 H2 Hs1 Hs2 Hk%str_true_spec E.
  destruct (bank_run_keys ops r Hr) as [Hused Hinj]. split; [by eapply Hinj|].
  apply bool_decide_eq_true. by eapply Hused.
Qed.

Lemma transfer_key_completes_once_witness :
  let r := bank_run (witness_ops (f_of_Z 100)) create_test_repository in
  exists d1, transfer_drafts r !! "d-1" = Some d1 /\ status d1 = TCOMPLETED /\
    "d-1" = "d-1" /\ is_idempotency_key_used r (idempotency_key d1) = true.
Proof.
  eexists. split; [vm_compute; reflexivity|]. split; [reflexivity|].
  eapply (transfer_key_completes_once (witness_ops (f_of_Z 100)) create_test_repository "d-1" "d-1");
    [exact test_keys_ok|vm_compute; reflexivity|vm_compute; reflexivity|reflexivity..|discriminate|reflexivity].
Defined.

(** a submission that succeeds was made by the owner of the source account, on
    an unexpired draft the balance covers; it debits exactly that account by exactly the
    amount, records one transaction, completes the draft, and changes nothing else. *)
Theorem submit_transfer_correct now1 now2 uuid id user r d r' :
  submit_transfer now1 now2 uuid id user r = Ok (inl d, r') ->
  exists d0 acc, transfer_drafts r !! id = Some d0 /\ status d0 = TDRAFT /\ d = set_status d0 TCOMPLETED /\
    accounts r !! source_account_id d0 = Some acc /\ owner_id acc = user /\
    f_lt (balance acc) (amount d0) = false /\
    expired_at now1 (Some (expires_at d0)) = Ok false /\
    accounts r' = <[source_account_id d0 := set_balance acc (f_sub (balance acc) (amount d0))]> (accounts r) /\
    transfer_drafts r' = <[id := d]> (transfer_drafts r) /\
    txns_of r' (source_account_id d0) = txns_of r (source_account_id d0) ++ [debit now2 uuid d0] /\
    (forall x, x <> source_account_id d0 -> txns_of r' x = txns_of r x) /\
    beneficiaries r' = beneficiaries r.
Proof.
  intros [(d0 & acc & H)|(e & [=] & _)]%submit_transfer_cases.
  decompose [and] H. simplify_eq. exists d0, acc.
  repeat (split; [done|]). split; [|split; [|done]].
  - by rewrite txns_of_commit, bool_decide_true.
  - intros x Hx. by rewrite txns_of_commit, bool_decide_false.
Qed.

Lemma submit_transfer_correct_witness :
  let r := bank_run [OpCreate noon_2026 "d-1" (witness_request (f_of_Z 100))] create_test_repository in
  exists d r', submit_transfer noon_2026 noon_2026 "txn-1" "d-1" "user-alice" r = Ok (inl d, r') /\
    exists d0 acc, transfer_drafts r !! "d-1" = Some d0 /\ status d0 = TDRAFT /\
      d = set_status d0 TCOMPLETED /\ accounts r !! source_account_id d0 = Some acc /\ owner_id acc = "user-alice".
Proof.
  intros r. destruct (submit_transfer noon_2026 noon_2026 "txn-1" "d-1" "user-alice" r) as [[[d|e] r']|] eqn:E;
    [|vm_compute in E; discriminate E..].
  exists d, r'. split; [reflexivity|].
  destruct (submit_transfer_correct _ _ _ _ _ _ _ _ E) as (d0 & acc & H). exists d0, acc.
  destruct H as (H1 & H2 & H3 & H4 & H5 & _). repeat (split; [assumption|]). assumption.
Defined.

(** a draft is made exactly when the source account is active and owned by the
    caller, the beneficiary is active, the amount passes the two limit tests and the
    balance test, the currency is supported and the key unused; it then moves no money
    and starts in DRAFT with the request's fields. *)
Theorem create_transfer_draft_correct now uuid q r :
  match create_transfer_draft now uuid q r with
  | (inl d, r') =>
      (exists acc ben, accounts r !! rq_source q = Some acc /\ account_active acc = true /\
         owner_id acc = rq_user q /\ beneficiaries r !! rq_beneficiary q = Some ben /\
         beneficiary_active ben = true /\ f_le (rq_amount q) f_zero = false /\
         f_gt (rq_amount q) DEFAULT_TRANSACTION_LIMIT = false /\
         rq_currency q ∈ SUPPORTED_CURRENCIES /\
         f_lt (balance acc) (rq_amount q) = false /\ rq_key q ∉ completed_transfers r) /\
      d = new_draft now uuid q /\ accounts r' = accounts r /\ transactions r' = transactions r /\
      transfer_drafts r' = <[uuid := d]> (transfer_drafts r)
  | (inr e, r') => r' = r /\ check_draft r q = Some e
  end.
Proof.
  unfold create_transfer_draft. destruct (check_draft r q) eqn:E; [done|].
  split; [by apply check_draft_None|]. done.
Qed.

(** An amount that is not a number passes every test of [create_transfer_draft]
    (all its comparisons are false), and submitting the draft replaces the account's
    balance by NaN. *)
Theorem nan_amount_corrupts_balance :
  (forall r q acc ben, accounts r !! rq_source q = Some acc -> account_active acc = true ->
     owner_id acc = rq_user q -> beneficiaries r !! rq_beneficiary q = Some ben ->
     beneficiary_active ben = true -> rq_currency q ∈ SUPPORTED_CURRENCIES ->
     rq_key q ∉ completed_transfers r -> rq_amount q = S754_nan -> check_draft r q = None) /\
  balance <$> accounts (bank_run (witness_ops S754_nan) create_test_repository) !! "ACC-1001"
    = Some S754_nan.
Proof.
  split; [|by vm_compute].
  intros r q acc ben Ha Hact Ho Hb Hbact Hc Hk Hn. unfold check_draft.
  rewrite Ha, Hact, Ho, String.eqb_refl, Hb, Hbact, Hn. cbn [negb].
  apply str_in_spec in Hc. rewrite Hc. rewrite bool_decide_false by done. cbn.
  by destruct (balance acc) as [[]|[]| |].
Qed.
