(* ===== verification/BankingTools.v ===== *)
(** The banking tools offered to the model ([banking/tools.py],
    [banking/mcp_server.py]): their schemas, the dispatch by name, and the JSON
    each returns. *)
From S2P Require Import Prelude PyStr PyFloat PyTime Json PyRepr Auth Tools Banking.

Definition prop_type (t : string) : json := JObj [("type", JStr t)].

Definition banking_schema (name description : string) (props : list (string * string))
    (required : list string) : json :=
  JObj [("name", JStr name); ("description", JStr description);
        ("parameters", JObj
           [("type", JStr "object");
            ("properties", JObj (map (fun kt => (fst kt, prop_type (snd kt))) props));
            ("required", JArr (map JStr required))])].

Definition tool_schemas : list json :=
  [banking_schema "get_account_summary" "Get account summary"
     [("account_id", "string"); ("user_id", "string")] ["account_id"; "user_id"];
   banking_schema "get_balance" "Get account balance"
     [("account_id", "string"); ("user_id", "string")] ["account_id"; "user_id"];
   banking_schema "list_transactions" "List recent transactions"
     [("account_id", "string"); ("user_id", "string"); ("limit", "integer")]
     ["account_id"; "user_id"];
   banking_schema "find_beneficiary" "Find a beneficiary by ID"
     [("beneficiary_id", "string")] ["beneficiary_id"];
   banking_schema "create_transfer_draft" "Create a transfer draft"
     [("source_account_id", "string"); ("beneficiary_id", "string"); ("amount", "number");
      ("currency", "string"); ("user_id", "string"); ("idempotency_key", "string");
      ("description", "string")]
     ["source_account_id"; "beneficiary_id"; "amount"; "currency"; "user_id"; "idempotency_key"];
   banking_schema "submit_transfer" "Submit a transfer draft for execution"
     [("draft_id", "string"); ("user_id", "string")] ["draft_id"; "user_id"];
   banking_schema "cancel_transfer" "Cancel a pending transfer draft"
     [("draft_id", "string"); ("user_id", "string")] ["draft_id"; "user_id"];
   banking_schema "get_transfer_status" "Get the status of a transfer"
     [("draft_id", "string")] ["draft_id"];
   banking_schema "report_suspicious_transaction" "Report a suspicious transaction"
     [("account_id", "string"); ("transaction_id", "string"); ("reason", "string");
      ("user_id", "string")]
     ["account_id"; "transaction_id"; "reason"; "user_id"]].

(** Arguments used as dictionary keys or texts: the repository is typed, so an
    argument that is not a string is outside its annotations and counts as a type
    error. *)
Definition str_arg (args : dict) (k : string) : result string :=
  let* v := ditem args k in
  match v with JStr s => Ok s | _ => Raise (TypeError ("expected str, got " +:+ type_name v)) end.

(** [float(v)]; the text of a string is read as JSON number text, without a limit on its
    digits, or one of the names of the special values. *)
Definition float_of_text (s : string) : result f64 :=
  let t := lower (strip s) in
  if str_in t ["nan"; "+nan"; "-nan"] then Ok S754_nan
  else if str_in t ["inf"; "+inf"; "infinity"; "+infinity"] then Ok (S754_infinity false)
  else if str_in t ["-inf"; "-infinity"] then Ok (S754_infinity true)
  else
    let wrong := Raise (ValueError ("could not convert string to float: " +:+ repr_str s)) in
    match loads t with
    | Ok (JInt z) => Ok (f_of_Z z)
    | Ok (JFloat f) => Ok f
    | Raise (ValueError _) => match loads (t +:+ ".0") with Ok (JFloat f) => Ok f | _ => wrong end
    | _ => wrong
    end.

(** An integer that rounds to no finite float. *)
Definition too_large (z : Z) : bool := match f_of_Z z with S754_infinity _ => true | _ => false end.

Definition int_too_large : exn := OverflowError "int too large to convert to float".

Definition py_float (v : json) : result f64 :=
  match v with
  | JFloat f => Ok f
  | JInt z => if too_large z then Raise int_too_large else Ok (f_of_Z z)
  | JBool b => Ok (f_of_Z (if b then 1 else 0))
  | JStr s => float_of_text s
  | _ => Raise (TypeError ("float() argument must be a string or a real number, not "
                           +:+ repr_str (type_name v)))
  end.

(** The bound of [txs\[-limit:\]]. *)
Definition limit_arg (v : json) : result Z :=
  match v with
  | JInt z => Ok z
  | JBool b => Ok (if b then 1 else 0)
  | JFloat _ => Raise (TypeError "slice indices must be integers or None or have an __index__ method")
  | _ => Raise (TypeError ("bad operand type for unary -: " +:+ repr_str (type_name v)))
  end.

(** What a tool returns: a JSON text, or an error. *)
Definition ToolOut : Type := string * option string.

Definition tool_ok (v : json) : ToolOut := (dumps false v, None).
Definition tool_error (e : string) : ToolOut := ("", Some e).

Definition tool_get_account_summary (r : BankingRepository) (args : dict) : result ToolOut :=
  let* acc := str_arg args "account_id" in
  let* user := str_arg args "user_id" in
  Ok (match get_summary r acc user with
      | None => tool_error "Account not found or access denied"
      | Some s =>
          let a := sum_account s in
          tool_ok (JObj [("account_id", JStr (account_id a)); ("owner_id", JStr (owner_id a));
                         ("balance", JFloat (balance a)); ("currency", JStr (account_currency a));
                         ("type", JStr (account_type a)); ("active", JBool (account_active a));
                         ("recent_transaction_count", JInt (Z.of_nat (length (recent_transactions s))));
                         ("beneficiary_count", JInt (beneficiary_count s))])
      end).

Definition tool_get_balance (r : BankingRepository) (args : dict) : result ToolOut :=
  let* acc := str_arg args "account_id" in
  let* user := str_arg args "user_id" in
  Ok (match get_balance r acc user with
      | None => tool_error "Account not found or access denied"
      | Some bal => tool_ok (JObj [("account_id", JStr acc); ("balance", JFloat bal);
                                   ("currency", JStr "USD")])
      end).

Definition txn_json (t : Transaction) : json :=
  JObj [("id", JStr (transaction_id t)); ("amount", JFloat (txn_amount t));
        ("currency", JStr (txn_currency t)); ("description", JStr (txn_description t));
        ("timestamp", JStr (txn_timestamp t))].

(** The limit is used after the ownership test, so a bad one raises only for the owner. *)
Definition tool_list_transactions (r : BankingRepository) (args : dict) : result ToolOut :=
  let limit := dget_or args "limit" (JInt 20) in
  let* acc := str_arg args "account_id" in
  let* user := str_arg args "user_id" in
  if negb (owner_of r acc user) then Ok (tool_error "Account not found or access denied")
  else
    let* n := limit_arg limit in
    Ok (match list_transactions r acc user n with
        | None => tool_error "Account not found or access denied"
        | Some txs => tool_ok (JArr (map txn_json txs))
        end).

Definition tool_find_beneficiary (r : BankingRepository) (args : dict) : result ToolOut :=
  let* id := str_arg args "beneficiary_id" in
  Ok (match get_beneficiary r id with
      | None => tool_error "Beneficiary not found"
      | Some b => tool_ok (JObj [("id", JStr (beneficiary_id b)); ("name", JStr (beneficiary_name b));
                                 ("active", JBool (beneficiary_active b))])
      end).

(** The clock readings and UUID a call draws. *)
Record Draws : Type := { dr_now1 : Z; dr_now2 : Z; dr_uuid : string }.

Definition tool_create_transfer_draft (w : Draws) (r : BankingRepository) (args : dict)
    : result (ToolOut * BankingRepository) :=
  let* source := str_arg args "source_account_id" in
  let* beneficiary := str_arg args "beneficiary_id" in
  let* amt := (let* v := ditem args "amount" in py_float v) in
  let* currency := str_arg args "currency" in
  let* user := str_arg args "user_id" in
  let* key := str_arg args "idempotency_key" in
  let* description := (if dhas args "description" then str_arg args "description" else Ok "") in
  let '(res, r') := create_transfer_draft (dr_now1 w) (dr_uuid w)
    {| rq_source := source; rq_beneficiary := beneficiary; rq_amount := amt; rq_currency := currency;
       rq_user := user; rq_key := key; rq_description := description |} r in
  Ok (match res with
      | inr e => tool_error e
      | inl d => tool_ok (JObj [("draft_id", JStr (draft_id d)); ("status", JStr (status_value (status d)));
                                ("amount", JFloat (amount d)); ("expires_at", JStr (expires_at d))])
      end, r').

Definition tool_submit_transfer (w : Draws) (r : BankingRepository) (args : dict)
    : result (ToolOut * BankingRepository) :=
  let* id := str_arg args "draft_id" in
  let* user := str_arg args "user_id" in
  let* (res, r') := submit_transfer (dr_now1 w) (dr_now2 w) (dr_uuid w) id user r in
  Ok (match res with
      | inr e => tool_error e
      | inl d => tool_ok (JObj [("draft_id", JStr (draft_id d)); ("status", JStr (status_value (status d)))])
      end, r').

Definition tool_cancel_transfer (r : BankingRepository) (args : dict)
    : result (ToolOut * BankingRepository) :=
  let* id := str_arg args "draft_id" in
  let* user := str_arg args "user_id" in
  let '((ok, error), r') := cancel_transfer id user r in
  Ok (match error with
      | Some e => tool_error e
      | None => tool_ok (JObj [("success", JBool ok)])
      end, r').

Definition tool_get_transfer_status (r : BankingRepository) (args : dict) : result ToolOut :=
  let* id := str_arg args "draft_id" in
  Ok (match get_transfer_status r id with
      | None => tool_error "Transfer draft not found"
      | Some d => tool_ok (JObj [("draft_id", JStr (draft_id d)); ("status", JStr (status_value (status d)));
                                 ("amount", JFloat (amount d))])
      end).

Definition tool_report_suspicious_transaction (args : dict) : result ToolOut :=
  let* _ := ditem args "account_id" in
  let* txn := str_arg args "transaction_id" in
  let* _ := ditem args "reason" in
  let* _ := ditem args "user_id" in
  Ok (tool_ok (JObj [("reported", JBool true); ("reference", JStr ("SAR-" +:+ take_str 8 txn))])).

(** A read: the repository is returned as it was. *)
Definition reading (r : BankingRepository) (m : result ToolOut) : result (ToolOut * BankingRepository) :=
  let* out := m in Ok (out, r).

(** The method [_tool_<name>], if there is one. *)
Definition tool_method (name : string) (w : Draws) (r : BankingRepository) (args : dict)
    : option (result (ToolOut * BankingRepository)) :=
  if String.eqb name "get_account_summary" then Some (reading r (tool_get_account_summary r args))
  else if String.eqb name "get_balance" then Some (reading r (tool_get_balance r args))
  else if String.eqb name "list_transactions" then Some (reading r (tool_list_transactions r args))
  else if String.eqb name "find_beneficiary" then Some (reading r (tool_find_beneficiary r args))
  else if String.eqb name "create_transfer_draft" then Some (tool_create_transfer_draft w r args)
  else if String.eqb name "submit_transfer" then Some (tool_submit_transfer w r args)
  else if String.eqb name "cancel_transfer" then Some (tool_cancel_transfer r args)
  else if String.eqb name "get_transfer_status" then Some (reading r (tool_get_transfer_status r args))
  else if String.eqb name "report_suspicious_transaction"
  then Some (reading r (tool_report_suspicious_transaction args))
  else None.

(** [execute]: an exception of a tool becomes an error text. *)
Definition execute (w : Draws) (name : string) (args : dict) (r : BankingRepository)
    : ToolOut * BankingRepository :=
  match tool_method name w r args with
  | None => (tool_error ("Unknown tool: " +:+ name), r)
  | Some (Ok p) => p
  | Some (Raise e) => (tool_error (str_exn e), r)
  end.

(** What [execute] returns for arguments that are not a dict: the first thing every tool does
    with them raises, subscripting in all but one. *)
Definition subscript_error (v : json) : string :=
  match v with
  | JArr _ => "list indices must be integers or slices, not str"
  | JStr _ => "string indices must be integers, not 'str'"
  | _ => repr_str (type_name v) +:+ " object is not subscriptable"
  end.

Definition execute_json (w : Draws) (name : string) (arguments : json) (r : BankingRepository)
    : ToolOut * BankingRepository :=
  match arguments with
  | JObj d => execute w name d r
  | v =>
      (tool_error
         (if is_some (tool_method name w r []) then
            if String.eqb name "list_transactions" then repr_str (type_name v) +:+ " object has no attribute 'get'"
            else subscript_error v
          else "Unknown tool: " +:+ name), r)
  end.

(** ** The in-process MCP server *)

Record MCPToolSchema : Type := { mts_name : string; mts_description : json; mts_parameters : json }.
Record MCPToolResult : Type := {
  mtr_tool_name : string;
  mtr_success : bool;
  mtr_content : string;
  mtr_error : option string;
}.

Definition mcp_list_tools : result (list MCPToolSchema) :=
  res_mapM (fun s =>
    let* d := py_dict s in
    let* name := str_arg d "name" in
    Ok {| mts_name := name; mts_description := dget_or d "description" (JStr "");
          mts_parameters := dget_or d "parameters" (JObj []) |}) tool_schemas.

Definition mcp_invoke_tool (w : Draws) (name : string) (arguments : json) (r : BankingRepository)
    : MCPToolResult * BankingRepository :=
  let '((content, error), r') := execute_json w name arguments r in
  (if opt_str_true error
   then {| mtr_tool_name := name; mtr_success := false; mtr_content := ""; mtr_error := error |}
   else {| mtr_tool_name := name; mtr_success := true; mtr_content := content; mtr_error := None |}, r').

(** ** Lemmas *)

Lemma res_bind_Ok {A B} (a : A) (k : A -> result B) : res_bind (Ok a) k = k a.
Proof. done. Qed.

Lemma str_arg_ok args k s : str_arg args k = Ok s <-> dget args k = Some (JStr s).
Proof.
  unfold str_arg, ditem. destruct (dget args k) as [[]|]; cbn; split; intros H; simplify_eq; done.
Qed.

Lemma reading_same r m p : reading r m = Ok p -> snd p = r.
Proof. unfold reading. intros (out & _ & [= <-])%res_bind_ok. done. Qed.

(** The user a call acts for. *)
Definition acts_for (args : dict) : option string :=
  match dget args "user_id" with Some (JStr u) => Some u | _ => None end.

(** Every account of another owner keeps its record and its transactions. *)
Definition others_kept (u : option string) (r r' : BankingRepository) : Prop :=
  forall id acc, accounts r !! id = Some acc -> Some (owner_id acc) <> u ->
    accounts r' !! id = Some acc /\ txns_of r' id = txns_of r id.

Lemma others_kept_refl u r : others_kept u r r.
Proof. by intros id acc. Qed.

Lemma others_kept_drafts u r f : others_kept u r (with_drafts r f).
Proof. by intros id acc. Qed.

Lemma acts_for_str_arg args user : str_arg args "user_id" = Ok user -> acts_for args = Some user.
Proof. rewrite str_arg_ok. unfold acts_for. by intros ->. Qed.

Lemma submit_others now1 now2 uuid id user r out r' :
  submit_transfer now1 now2 uuid id user r = Ok (out, r') -> others_kept (Some user) r r'.
Proof.
  intros [(d & acc & H)|(e & _ & [->|(d & _ & _ & _ & ->)])]%submit_transfer_cases;
    [|apply others_kept_refl|apply others_kept_drafts].
  decompose [and] H. subst. intros x a Hx Ho. rewrite txns_of_commit. cbn.
  assert (x <> source_account_id d) as Hne by (intros ->; congruence).
  rewrite lookup_insert_ne by done. by rewrite bool_decide_false.
Qed.

Lemma tool_method_others name w r args m p :
  tool_method name w r args = Some m -> m = Ok p -> others_kept (acts_for args) r (snd p).
Proof.
  unfold tool_method. intros H ->.
  repeat match type of H with
  | (if ?b then _ else _) = _ => destruct b; [apply (inj Some) in H|]
  end; try discriminate H;
  try (apply reading_same in H; rewrite H; apply others_kept_refl).
  - unfold tool_create_transfer_draft in H.
    repeat (apply res_bind_ok in H as (? & _ & H)).
    unfold create_transfer_draft in H. destruct (check_draft _ _); simplify_eq; cbn;
      [apply others_kept_refl|apply others_kept_drafts].
  - unfold tool_submit_transfer in H.
    apply res_bind_ok in H as (id & _ & (user & Hu & ([out r'] & Hs & [= <-])%res_bind_ok)%res_bind_ok).
    rewrite (acts_for_str_arg _ _ Hu). by eapply submit_others.
  - unfold tool_cancel_transfer in H.
    apply res_bind_ok in H as (id & _ & (user & Hu & H)%res_bind_ok).
    unfold cancel_transfer in H. repeat (case_match; simplify_eq; cbn in *);
      first [apply others_kept_refl|apply others_kept_drafts].
Qed.

Lemma conforms_field required props args f :
  conforms required props args -> f ∈ required ->
  exists v, dget args f = Some v /\ v <> JNull /\ forall t, oget props f = Some t -> has_type v t.
Proof.
  intros [Hr Ht] Hf. destruct (Hr f Hf) as (v & Hv & Hn). exists v. split; [done|]. split; [done|].
  intros t Hp. eapply Ht; [|done]. clear - Hv. induction args as [|[k x] args IH]; [done|].
  cbn in Hv. destruct (String.eqb_spec f k) as [->|]; [simplify_eq; by left|right; auto].
Qed.

Lemma has_type_string v : has_type v "string" -> exists s, v = JStr s.
Proof. inversion 1; subst; [eauto|]. exfalso. set_solver. Qed.

Lemma conforms_str required props args f :
  conforms required props args -> f ∈ required -> oget props f = Some "string" ->
  exists s, str_arg args f = Ok s.
Proof.
  intros Hc Hf Hp. destruct (conforms_field _ _ _ _ Hc Hf) as (v & Hv & _ & Ht).
  destruct (has_type_string v (Ht _ Hp)) as [s ->]. exists s. by apply str_arg_ok.
Qed.

Lemma conforms_optional required props args f v t :
  conforms required props args -> dget args f = Some v -> oget props f = Some t -> has_type v t.
Proof.
  intros [_ Ht] Hv. apply Ht. clear - Hv. induction args as [|[k x] args IH]; [done|].
  cbn in Hv. destruct (String.eqb_spec f k) as [->|]; [simplify_eq; by left|right; auto].
Qed.

(** The names and types a tool declares. *)
Definition declared (name : string) : option (list string * list (string * string)) :=
  let s := "string" in
  oget [("get_account_summary", (["account_id"; "user_id"], [("account_id", s); ("user_id", s)]));
        ("get_balance", (["account_id"; "user_id"], [("account_id", s); ("user_id", s)]));
        ("list_transactions", (["account_id"; "user_id"],
           [("account_id", s); ("user_id", s); ("limit", "integer")]));
        ("find_beneficiary", (["beneficiary_id"], [("beneficiary_id", s)]));
        ("create_transfer_draft",
           (["source_account_id"; "beneficiary_id"; "amount"; "currency"; "user_id"; "idempotency_key"],
            [("source_account_id", s); ("beneficiary_id", s); ("amount", "number"); ("currency", s);
             ("user_id", s); ("idempotency_key", s); ("description", s)]));
        ("submit_transfer", (["draft_id"; "user_id"], [("draft_id", s); ("user_id", s)]));
        ("cancel_transfer", (["draft_id"; "user_id"], [("draft_id", s); ("user_id", s)]));
        ("get_transfer_status", (["draft_id"], [("draft_id", s)]));
        ("report_suspicious_transaction",
           (["account_id"; "transaction_id"; "reason"; "user_id"],
            [("account_id", s); ("transaction_id", s); ("reason", s); ("user_id", s)]))] name.

(** The declarations are those of [tool_schemas]. *)
Definition schema_of (name : string) : option dict :=
  match List.find (fun s => match s with
                            | JObj d => match dget d "name" with Some (JStr n) => String.eqb n name | _ => false end
                            | _ => false end) tool_schemas with
  | Some (JObj d) => match dget d "parameters" with Some (JObj p) => Some p | _ => None end
  | _ => None
  end.

Lemma declared_schema name req props :
  declared name = Some (req, props) -> exists p, schema_of name = Some p /\ schema_shape p req props.
Proof.
  unfold declared. cbn [oget].
  repeat (match goal with |- context [String.eqb name ?t] => destruct (String.eqb_spec name t) as [->|] end;
    [intros [= <- <-]; eexists; split; [reflexivity|]; split; [reflexivity|]; eexists; split; [reflexivity|];
     repeat constructor; eexists; split; reflexivity|]).
  done.
Qed.

Definition drafts_dated (r : BankingRepository) : Prop :=
  forall id d now, transfer_drafts r !! id = Some d -> is_ok (expired_at now (Some (expires_at d))) = true.

Lemma submit_total now1 now2 uuid id user r :
  drafts_dated r -> is_ok (submit_transfer now1 now2 uuid id user r) = true.
Proof.
  intros Hd. unfold submit_transfer. destruct (transfer_drafts r !! id) as [d|] eqn:E; [|done].
  destruct (negb _); [done|]. destruct (owner_of r _ user) eqn:Eo; [|done].
  apply owner_of_true in Eo as (acc & -> & _). cbn [negb].
  specialize (Hd _ _ now1 E). destruct (expired_at _ _) as [[]|]; try done. cbn [res_bind].
  by repeat case_match.
Qed.

(** Reads the declared string arguments of a conforming call. *)
Ltac read_args Hc :=
  repeat match goal with
  | |- context [str_arg ?args ?k] =>
      let s := fresh "s" in let H := fresh "H" in
      destruct (conforms_str _ _ args k Hc ltac:(apply str_in_spec; reflexivity) ltac:(reflexivity)) as [s H];
      rewrite H; clear H; rewrite ?res_bind_Ok
  end.

(** A number argument that no float can hold. *)
Definition overflows (args : dict) (f : string) : bool :=
  match dget args f with Some (JInt z) => too_large z | _ => false end.

Lemma conforms_number required props args f :
  conforms required props args -> f ∈ required -> oget props f = Some "number" ->
  if overflows args f then (let* v := ditem args f in py_float v) = Raise int_too_large
  else exists x, (let* v := ditem args f in py_float v) = Ok x.
Proof.
  intros Hc Hf Hp. destruct (conforms_field _ _ _ _ Hc Hf) as (v & Hv & _ & Ht).
  specialize (Ht _ Hp). unfold ditem, overflows. rewrite Hv. cbn [res_bind].
  inversion Ht; subst; cbn [py_float]; [case_match; eauto|eauto|exfalso; set_solver].
Qed.

Lemma conforms_present required props args f :
  conforms required props args -> f ∈ required -> exists v, ditem args f = Ok v.
Proof.
  intros Hc Hf. destruct (conforms_field _ _ _ _ Hc Hf) as (v & Hv & _).
  exists v. unfold ditem. by rewrite Hv.
Qed.

Lemma conforms_limit required props args :
  conforms required props args -> oget props "limit" = Some "integer" ->
  exists n, limit_arg (dget_or args "limit" (JInt 20)) = Ok n.
Proof.
  intros Hc Hp. unfold dget_or. destruct (dget args "limit") as [v|] eqn:E; [|by exists 20].
  pose proof (conforms_optional _ _ _ _ _ _ Hc E Hp) as Ht.
  inversion Ht; subst; cbn; eauto. exfalso. set_solver.
Qed.

Lemma conforms_description required props args :
  conforms required props args -> oget props "description" = Some "string" ->
  exists s, (if dhas args "description" then str_arg args "description" else Ok "") = Ok s.
Proof.
  intros Hc Hp. unfold dhas. destruct (dget args "description") as [v|] eqn:E; [|by exists ""].
  destruct (has_type_string v (conforms_optional _ _ _ _ _ _ Hc E Hp)) as [s ->].
  exists s. by apply str_arg_ok.
Qed.

(** The one way a conforming call raises. *)
Definition amount_overflows (name : string) (args : dict) : bool :=
  String.eqb name "create_transfer_draft" && overflows args "amount".

Lemma conforming_call_ok name w r args req props :
  drafts_dated r -> declared name = Some (req, props) -> conforms req props args ->
  if amount_overflows name args then tool_method name w r args = Some (Raise int_too_large)
  else exists p, tool_method name w r args = Some (Ok p).
Proof.
  intros Hd Hdecl Hc. unfold declared in Hdecl. cbn [oget] in Hdecl. unfold tool_method, amount_overflows.
  repeat (match type of Hdecl with (if String.eqb name ?t then _ else _) = _ =>
    destruct (String.eqb_spec name t) as [->|] end;
    [injection Hdecl as <- <-; cbn [String.eqb Ascii.eqb Bool.eqb andb]; unfold reading|]); [..|done].
  - unfold tool_get_account_summary. read_args Hc. eauto.
  - unfold tool_get_balance. read_args Hc. eauto.
  - unfold tool_list_transactions. read_args Hc. destruct (negb _); [eauto|].
    destruct (conforms_limit _ _ _ Hc eq_refl) as [lim ->]. eauto.
  - unfold tool_find_beneficiary. read_args Hc. eauto.
  - unfold tool_create_transfer_draft. read_args Hc.
    pose proof (conforms_number _ _ _ "amount" Hc ltac:(apply str_in_spec; reflexivity) eq_refl) as Hx.
    destruct (overflows args "amount"); [by rewrite Hx|]. destruct Hx as [x ->]. cbn [res_bind].
    destruct (conforms_description _ _ _ Hc eq_refl) as [desc ->]. cbn [res_bind].
    destruct (create_transfer_draft _ _ _ _). eauto.
  - unfold tool_submit_transfer. read_args Hc.
    match goal with |- context [submit_transfer ?a ?b ?c ?d ?e ?f] =>
      pose proof (submit_total a b c d e f Hd) as Hs; destruct (submit_transfer a b c d e f) as [[]|] end;
      [|done]. cbn [res_bind]. eauto.
  - unfold tool_cancel_transfer. read_args Hc. destruct (cancel_transfer _ _ _) as [[]]. eauto.
  - unfold tool_get_transfer_status. read_args Hc. eauto.
  - unfold tool_report_suspicious_transaction. read_args Hc.
    repeat match goal with |- context [ditem args ?k] =>
      destruct (conforms_present _ _ args k Hc ltac:(apply str_in_spec; reflexivity)) as [? ->] end.
    eauto.
Qed.

Lemma execute_read_only w name args r : is_read_only_tool name = true -> snd (execute w name args r) = r.
Proof.
  unfold is_read_only_tool. rewrite bool_decide_eq_true. unfold TOOL_RISK, execute, tool_method.
  cbn [oget]. intros H.
  repeat (match goal with |- context [String.eqb name ?t] =>
    destruct (String.eqb_spec name t) as [->|] end;
    [first [vm_compute in H; discriminate H
           |match goal with |- context [reading r ?m] =>
              destruct (reading r m) as [p|e] eqn:E; [by apply reading_same in E|done] end]|]).
  done.
Qed.

(** ** Properties *)

(** C32: whatever tool is called with whatever arguments, an account that is not
    owned by the call's [user_id] keeps its balance and its transactions; a call without
    a user changes no account at all. *)
Theorem tools_touch_only_own_accounts w name args r id acc :
  accounts r !! id = Some acc -> Some (owner_id acc) <> acts_for args ->
  accounts (snd (execute w name args r)) !! id = Some acc /\
  txns_of (snd (execute w name args r)) id = txns_of r id.
Proof.
  unfold execute. destruct (tool_method name w r args) as [[p|e]|] eqn:E; [|done..].
  by apply (tool_method_others _ _ _ _ _ _ E eq_refl).
Qed.

Definition witness_draws : Draws := {| dr_now1 := noon_2026; dr_now2 := noon_2026; dr_uuid := "txn-1" |}.
Definition witness_repo : BankingRepository :=
  bank_run [OpCreate noon_2026 "d-1" (witness_request (f_of_Z 100))] create_test_repository.

Lemma tools_touch_only_own_accounts_witness :
  let args := [("draft_id", JStr "d-1"); ("user_id", JStr "user-bob")] in
  exists acc, accounts witness_repo !! "ACC-1001" = Some acc /\ owner_id acc = "user-alice" /\
    accounts (snd (execute witness_draws "submit_transfer" args witness_repo)) !! "ACC-1001" = Some acc /\
    txns_of (snd (execute witness_draws "submit_transfer" args witness_repo)) "ACC-1001"
      = txns_of witness_repo "ACC-1001".
Proof.
  eexists. split; [vm_compute; reflexivity|]. split; [reflexivity|].
  apply (tools_touch_only_own_accounts witness_draws "submit_transfer"
           [("draft_id", JStr "d-1"); ("user_id", JStr "user-bob")] witness_repo "ACC-1001").
  - vm_compute; reflexivity.
  - discriminate.
Defined.

(** every tool the policy table classifies READ_ONLY leaves the repository
    exactly as it was, for all arguments. *)
Theorem read_only_tools_do_not_write w name args r :
  is_read_only_tool name = true -> snd (execute w name args r) = r.
Proof. apply execute_read_only. Qed.

Lemma read_only_tools_do_not_write_witness :
  snd (execute witness_draws "get_balance" [("account_id", JStr "ACC-1001"); ("user_id", JStr "user-alice")]
         witness_repo) = witness_repo /\
  fst (execute witness_draws "get_balance" [("account_id", JStr "ACC-1001"); ("user_id", JStr "user-alice")]
         witness_repo)
  = (dumps false (JObj [("account_id", JStr "ACC-1001"); ("balance", JFloat (f_of_Z 15000));
                        ("currency", JStr "USD")]), None).
Proof.
  split; [apply read_only_tools_do_not_write; reflexivity|vm_compute; reflexivity].
Defined.

(** C35: Of the calls whose arguments conform to the schema their tool publishes, exactly one
    kind raises inside the tool: a draft whose amount is an integer no float can hold, which the
    schema's [number] admits.  It raises OverflowError, reported as the call's error, and the
    bank stays as it was; every other conforming call returns, so the validation covers
    everything else the tool methods read. *)
Theorem validated_calls_raise_only_overflow name req props :
  declared name = Some (req, props) ->
  (exists p, schema_of name = Some p /\ schema_shape p req props) /\
  forall w args r, drafts_dated r -> conforms req props args ->
    if amount_overflows name args then
      tool_method name w r args = Some (Raise int_too_large) /\
      execute w name args r = (tool_error "int too large to convert to float", r)
    else exists p, tool_method name w r args = Some (Ok p) /\ execute w name args r = p.
Proof.
  intros Hdecl. split; [by apply declared_schema|]. intros w args r Hd Hc.
  pose proof (conforming_call_ok name w r args req props Hd Hdecl Hc) as Hp. unfold execute.
  destruct (amount_overflows name args); [by rewrite Hp|]. destruct Hp as [p Hp]. exists p. by rewrite Hp.
Qed.

(** A draft for [amount]. *)
Definition draft_args (amount : json) : dict :=
  [("source_account_id", JStr "ACC-1001"); ("beneficiary_id", JStr "BEN-002"); ("amount", amount);
   ("currency", JStr "USD"); ("user_id", JStr "user-alice"); ("idempotency_key", JStr "k-1")].

Lemma validated_calls_raise_only_overflow_witness :
  let call z := execute witness_draws "create_transfer_draft" (draft_args (JInt z)) create_test_repository in
  call (10 ^ 400) = (tool_error "int too large to convert to float", create_test_repository) /\
  exists p, tool_method "create_transfer_draft" witness_draws create_test_repository (draft_args (JInt 100)) = Some (Ok p) /\
    call 100 = p.
Proof.
  intros call. destruct (validated_calls_raise_only_overflow "create_transfer_draft" _ _ eq_refl) as [_ Hall].
  assert (Hd : drafts_dated create_test_repository).
  { intros id d now H. change (transfer_drafts create_test_repository) with (∅ : gmap string TransferDraft) in H.
    by rewrite lookup_empty in H. }
  assert (Hc : forall z, conforms
      ["source_account_id"; "beneficiary_id"; "amount"; "currency"; "user_id"; "idempotency_key"]
      [("source_account_id", "string"); ("beneficiary_id", "string"); ("amount", "number"); ("currency", "string");
       ("user_id", "string"); ("idempotency_key", "string"); ("description", "string")] (draft_args (JInt z))).
  { intros z. split.
    - intros f Hf. repeat (apply elem_of_cons in Hf as [->|Hf]; [eexists; done|]). by apply elem_of_nil in Hf.
    - intros k v t Hin Ht. repeat (apply elem_of_cons in Hin as [[= -> ->]|Hin];
        [cbn in Ht; simplify_eq; constructor|]). by apply elem_of_nil in Hin. }
  split.
  - pose proof (Hall witness_draws (draft_args (JInt (10 ^ 400))) create_test_repository Hd (Hc _)) as H.
    assert (E : amount_overflows "create_transfer_draft" (draft_args (JInt (10 ^ 400))) = true) by (vm_compute; reflexivity).
    rewrite E in H. exact (proj2 H).
  - pose proof (Hall witness_draws (draft_args (JInt 100)) create_test_repository Hd (Hc _)) as H.
    assert (E : amount_overflows "create_transfer_draft" (draft_args (JInt 100)) = false) by (vm_compute; reflexivity).
    rewrite E in H. exact H.
Defined.
