(* ===== verification/HitlStore.v ===== *)
(** The durable HITL session store ([hitl_store.py]): rows of the
    [hitl_sessions] table, sessions, and the statements each method executes.

    The table is a map from its primary key; TEXT columns are strings, and the
    two indexed constraints (primary key, UNIQUE idempotency key) raise
    [IntegrityError].  A SELECT without ORDER BY promises no order, so lists of
    rows are read up to permutation.  HitlSql proves that the SQL does the same. *)
From S2P Require Import Prelude PyStr PyFloat PyTime Json PyRepr Auth.

Inductive HITLSessionStatus : Type :=
  | HPENDING | HAPPROVED | HREJECTED | HEXPIRED | HRESUMED | HFAILED | HRECONCILIATION_REQUIRED.

#[export] Instance HITLSessionStatus_eq_dec : EqDecision HITLSessionStatus.
Proof. solve_decision. Defined.

Definition hitl_value (s : HITLSessionStatus) : string :=
  match s with
  | HPENDING => "PENDING" | HAPPROVED => "APPROVED" | HREJECTED => "REJECTED"
  | HEXPIRED => "EXPIRED" | HRESUMED => "RESUMED" | HFAILED => "FAILED"
  | HRECONCILIATION_REQUIRED => "RECONCILIATION_REQUIRED"
  end.

(** [HITLSessionStatus(text)] *)
Definition hitl_status_of (text : string) : result HITLSessionStatus :=
  match oget (map (fun s => (hitl_value s, s))
                [HPENDING; HAPPROVED; HREJECTED; HEXPIRED; HRESUMED; HFAILED; HRECONCILIATION_REQUIRED])
          text with
  | Some s => Ok s
  | None => Raise (ValueError (repr_str text +:+ " is not a valid HITLSessionStatus"))
  end.

Record HITLSession : Type := {
  hs_session_id : string;
  hs_user_id : string;
  hs_thread_id : string;
  hs_status : HITLSessionStatus;
  hs_tool_name : string;
  hs_tool_args : json;
  hs_authorization_decision : option string;
  hs_approval_requirement : option string;
  hs_idempotency_key : option string;
  hs_version : Z;
  hs_created_at : string;
  hs_updated_at : string;
  hs_expires_at : option string;
  hs_tool_call_id : string;
}.

Definition is_terminal (s : HITLSession) : bool :=
  match hs_status s with
  | HAPPROVED | HREJECTED | HEXPIRED | HFAILED | HRECONCILIATION_REQUIRED => true
  | HPENDING | HRESUMED => false
  end.

Definition session_expired (now : Z) (s : HITLSession) : result bool := expired_at now (hs_expires_at s).

(** ** Rows *)

Record HITLRow : Type := {
  hr_session_id : string;
  hr_user_id : string;
  hr_thread_id : string;
  hr_status : string;
  hr_tool_name : string;
  hr_tool_args : string;
  hr_authorization_decision : option string;
  hr_approval_requirement : option string;
  hr_idempotency_key : option string;
  hr_version : Z;
  hr_created_at : string;
  hr_updated_at : string;
  hr_expires_at : option string;
  hr_tool_call_id : string;
}.

Notation HITLTable := (gmap string HITLRow).

Definition session_to_row (s : HITLSession) : HITLRow :=
  {| hr_session_id := hs_session_id s; hr_user_id := hs_user_id s; hr_thread_id := hs_thread_id s;
     hr_status := hitl_value (hs_status s); hr_tool_name := hs_tool_name s;
     hr_tool_args := dumps false (hs_tool_args s);
     hr_authorization_decision := hs_authorization_decision s;
     hr_approval_requirement := hs_approval_requirement s;
     hr_idempotency_key := hs_idempotency_key s; hr_version := hs_version s;
     hr_created_at := hs_created_at s; hr_updated_at := hs_updated_at s;
     hr_expires_at := hs_expires_at s; hr_tool_call_id := hs_tool_call_id s |}.

Definition row_to_hitl_session (r : HITLRow) : result HITLSession :=
  let* st := hitl_status_of (hr_status r) in
  let* args := loads (hr_tool_args r) in
  Ok {| hs_session_id := hr_session_id r; hs_user_id := hr_user_id r; hs_thread_id := hr_thread_id r;
        hs_status := st; hs_tool_name := hr_tool_name r; hs_tool_args := args;
        hs_authorization_decision := hr_authorization_decision r;
        hs_approval_requirement := hr_approval_requirement r;
        hs_idempotency_key := hr_idempotency_key r; hs_version := hr_version r;
        hs_created_at := hr_created_at r; hs_updated_at := hr_updated_at r;
        hs_expires_at := hr_expires_at r; hs_tool_call_id := hr_tool_call_id r |}.

(** [SET status=?, updated_at=?] and, for an optimistic update, [version=version+1]. *)
Definition set_row_status (r : HITLRow) (st now : string) (version : Z) : HITLRow :=
  {| hr_session_id := hr_session_id r; hr_user_id := hr_user_id r; hr_thread_id := hr_thread_id r;
     hr_status := st; hr_tool_name := hr_tool_name r; hr_tool_args := hr_tool_args r;
     hr_authorization_decision := hr_authorization_decision r;
     hr_approval_requirement := hr_approval_requirement r;
     hr_idempotency_key := hr_idempotency_key r; hr_version := version;
     hr_created_at := hr_created_at r; hr_updated_at := now;
     hr_expires_at := hr_expires_at r; hr_tool_call_id := hr_tool_call_id r |}.

(** ** Statements *)

(** Another row already has this non-NULL key. *)
Definition key_taken (t : HITLTable) (key : option string) : bool :=
  is_some key &&
  existsb (fun kv => bool_decide (hr_idempotency_key (snd kv) = key)) (map_to_list t).

Definition hitl_insert (s : HITLSession) (t : HITLTable) : result HITLTable :=
  match t !! hs_session_id s with
  | Some _ => Raise (IntegrityError "UNIQUE constraint failed: hitl_sessions.session_id")
  | None =>
      if key_taken t (hs_idempotency_key s)
      then Raise (IntegrityError "UNIQUE constraint failed: hitl_sessions.idempotency_key")
      else Ok (<[hs_session_id s := session_to_row s]> t)
  end.

Definition hitl_get (session_id : string) (t : HITLTable) : result (option HITLSession) :=
  match t !! session_id with
  | None => Ok None
  | Some r => let* s := row_to_hitl_session r in Ok (Some s)
  end.

(** The optimistic update: [WHERE session_id=? AND version=?]. *)
Definition hitl_update_status (now : Z) (session_id : string) (st : HITLSessionStatus)
    (expected_version : Z) (t : HITLTable) : bool * HITLTable :=
  match t !! session_id with
  | Some r =>
      if hr_version r =? expected_version
      then (true, <[session_id := set_row_status r (hitl_value st) (isoformat now) (hr_version r + 1)]> t)
      else (false, t)
  | None => (false, t)
  end.

Definition pending_row (user_id : option string) (r : HITLRow) : bool :=
  String.eqb (hr_status r) "PENDING" &&
  (if opt_str_true user_id then String.eqb (hr_user_id r) (opt_or user_id "") else true).

Definition hitl_list_pending (user_id : option string) (t : HITLTable) : result (list HITLSession) :=
  res_mapM row_to_hitl_session (List.filter (pending_row user_id) (map snd (map_to_list t))).

(** [status='PENDING' AND expires_at IS NOT NULL AND expires_at < ?] on texts. *)
Definition stale (now : string) (r : HITLRow) : bool :=
  String.eqb (hr_status r) "PENDING" &&
  match hr_expires_at r with Some e => text_lt e now | None => false end.

Definition expire_row (now : string) (r : HITLRow) : HITLRow :=
  if stale now r then set_row_status r "EXPIRED" now (hr_version r) else r.

Definition expire_stale_sessions (now : Z) (t : HITLTable) : Z * HITLTable :=
  let text := isoformat now in
  (Z.of_nat (countb (stale text) (map snd (map_to_list t))), expire_row text <$> t).

(** ** Lemmas *)

Lemma hitl_status_roundtrip s : hitl_status_of (hitl_value s) = Ok s.
Proof. by destruct s. Qed.

Lemma row_roundtrip s :
  json_ok (hs_tool_args s) = true -> row_to_hitl_session (session_to_row s) = Ok s.
Proof.
  intros Hs. unfold row_to_hitl_session. cbn [session_to_row hr_status hr_tool_args].
  rewrite hitl_status_roundtrip, loads_dumps, canon_false by done. by destruct s.
Qed.

Lemma update_status_true now id st v t t' :
  hitl_update_status now id st v t = (true, t') <->
  exists r, t !! id = Some r /\ hr_version r = v /\
    t' = <[id := set_row_status r (hitl_value st) (isoformat now) (v + 1)]> t.
Proof.
  unfold hitl_update_status. destruct (t !! id) as [r|]; [|split; [done|by intros (? & ? & _)]].
  destruct (Z.eqb_spec (hr_version r) v) as [<-|]; split.
  - intros [= <-]. by exists r.
  - by intros (r' & [= <-] & _ & ->).
  - done.
  - intros (r' & [= <-] & ? & _). done.
Qed.

Lemma update_status_false now id st v t t' :
  hitl_update_status now id st v t = (false, t') -> t' = t.
Proof. unfold hitl_update_status. destruct (t !! id); [case_match|]; by intros [= <-]. Qed.

Lemma key_taken_spec t key :
  key_taken t key = false <->
  key = None \/ forall id r, t !! id = Some r -> hr_idempotency_key r <> key.
Proof.
  unfold key_taken. destruct key as [k|]; cbn; [|split; auto].
  rewrite <-not_true_iff_false, existsb_exists. split.
  - intros H. right. intros id r Hr E. apply H. exists (id, r). split.
    + apply list_elem_of_In. by apply elem_of_map_to_list.
    + by apply bool_decide_eq_true.
  - intros [|H] ([id r] & Hin & E); [done|]. apply list_elem_of_In, elem_of_map_to_list in Hin.
    apply bool_decide_eq_true in E. by apply (H id r).
Qed.

(** ** Runs of statements *)

(** The statements the store executes after a session exists. *)
Inductive HitlOp : Type :=
  | HUpdate (now : Z) (id : string) (st : HITLSessionStatus) (expected_version : Z)
  | HExpire (now : Z).

Definition hitl_step (op : HitlOp) (t : HITLTable) : bool * HITLTable :=
  match op with
  | HUpdate now id st v => hitl_update_status now id st v t
  | HExpire now => (false, snd (expire_stale_sessions now t))
  end.

(** Each statement with whether it won its row. *)
Fixpoint hitl_run (ops : list HitlOp) (t : HITLTable) : list (HitlOp * bool) * HITLTable :=
  match ops with
  | [] => ([], t)
  | op :: ops' =>
      let '(b, t1) := hitl_step op t in
      let '(log, t2) := hitl_run ops' t1 in
      ((op, b) :: log, t2)
  end.

(** A statement that updated session [id] from version [v]. *)
Definition won (id : string) (v : Z) (e : HitlOp * bool) : bool :=
  match e with
  | (HUpdate _ id' _ v', true) => String.eqb id' id && (v' =? v)
  | _ => false
  end.

Definition version_of (t : HITLTable) (id : string) : option Z := hr_version <$> t !! id.

Lemma hitl_step_version op t id v :
  version_of t id = Some v ->
  version_of (snd (hitl_step op t)) id = Some (if won id v (op, fst (hitl_step op t)) then v + 1 else v).
Proof.
  unfold version_of. intros Hv. destruct op as [now id' st v'|now]; cbn.
  - destruct (hitl_update_status now id' st v' t) as [[] t'] eqn:E; cbn.
    + apply update_status_true in E as (r & Hr & Hrv & ->).
      destruct (String.eqb_spec id' id) as [->|Hne]; cbn.
      * rewrite lookup_insert_eq. rewrite Hr in Hv. cbn in Hv. simplify_eq. cbn.
        by rewrite Z.eqb_refl.
      * by rewrite lookup_insert_ne.
    + by apply update_status_false in E as ->.
  - rewrite lookup_fmap. destruct (t !! id) as [r|]; [|done]. cbn in *. unfold expire_row.
    by destruct (stale _ r).
Qed.

Lemma won_other_version ops t id v w :
  version_of t id = Some w -> v < w -> countb (won id v) (fst (hitl_run ops t)) = 0%nat.
Proof.
  revert t w; induction ops as [|op ops IH]; intros t w Hw Hlt; [done|].
  cbn [hitl_run]. pose proof (hitl_step_version op t id w Hw) as Hv.
  destruct (hitl_step op t) as [b t1] eqn:E. cbn [fst snd] in Hv.
  destruct (hitl_run ops t1) as [log t2] eqn:E2. cbn [fst]. rewrite countb_cons.
  replace log with (fst (hitl_run ops t1)) by (by rewrite E2).
  rewrite (IH t1 _ Hv) by (case_match; lia).
  destruct op as [now id' st v'|now]; cbn; [|done]. destruct b; [|done].
  destruct (String.eqb_spec id' id) as [->|]; cbn; [|done].
  destruct (Z.eqb_spec v' v) as [->|]; cbn; [|done]. exfalso.
  cbn in E. apply update_status_true in E as (r & Hr & Hrv & _).
  unfold version_of in Hw. rewrite Hr in Hw. cbn in Hw. simplify_eq. lia.
Qed.

Definition witness_session : HITLSession :=
  {| hs_session_id := "s-1"; hs_user_id := "user-alice"; hs_thread_id := "s-1"; hs_status := HPENDING;
     hs_tool_name := "submit_transfer";
     hs_tool_args := JObj [("draft_id", JStr "d-1"); ("user_id", JStr "user-alice")];
     hs_authorization_decision := Some "pending"; hs_approval_requirement := None;
     hs_idempotency_key := Some "s-1:call-1"; hs_version := 1;
     hs_created_at := isoformat noon_2026; hs_updated_at := isoformat noon_2026;
     hs_expires_at := Some (isoformat (add_minutes noon_2026 30)); hs_tool_call_id := "call-1" |}.

(** ** Properties *)

(** a session inserted in the store is read back exactly (arguments
    included, through their JSON text); inserting the same session id or the same
    idempotency key again raises IntegrityError and stores nothing. *)
Theorem hitl_insert_get s t t' :
  json_ok (hs_tool_args s) = true -> hitl_insert s t = Ok t' ->
  hitl_get (hs_session_id s) t' = Ok (Some s) /\
  (forall id, id <> hs_session_id s -> t' !! id = t !! id) /\
  (forall s2, hs_session_id s2 = hs_session_id s \/
     (is_some (hs_idempotency_key s) = true /\ hs_idempotency_key s2 = hs_idempotency_key s) ->
     exists c, hitl_insert s2 t' = Raise (IntegrityError c)).
Proof.
  intros Hs H. unfold hitl_insert in H. destruct (t !! hs_session_id s) eqn:E; [done|].
  destruct (key_taken t _) eqn:Ek; simplify_eq. split; [|split].
  - unfold hitl_get. rewrite lookup_insert_eq, row_roundtrip by done. done.
  - intros id Hid. by rewrite lookup_insert_ne.
  - intros s2 Hs2. unfold hitl_insert.
    destruct (<[_ := _]> t !! hs_session_id s2) eqn:E2; [eauto|].
    destruct Hs2 as [Heq|[Hk Heq]]; [rewrite Heq, lookup_insert_eq in E2; done|].
    destruct (key_taken _ (hs_idempotency_key s2)) eqn:Ek2; [eauto|].
    apply key_taken_spec in Ek2 as [Hn|Ek2]; [by rewrite Heq in Hn; rewrite Hn in Hk|].
    exfalso. eapply (Ek2 (hs_session_id s)); [by rewrite lookup_insert_eq|done].
Qed.

Lemma hitl_insert_get_witness :
  exists t', hitl_insert witness_session ∅ = Ok t' /\ hitl_get "s-1" t' = Ok (Some witness_session).
Proof.
  eexists. split; [reflexivity|].
  apply (hitl_insert_get witness_session ∅); reflexivity.
Defined.

(** however updates and expiry sweeps interleave, at most one update of a
    session based on a given version succeeds: two callers that read the same version
    cannot both change the session. *)
Theorem optimistic_update_wins_once ops t id v :
  version_of t id = Some v -> (countb (won id v) (fst (hitl_run ops t)) <= 1)%nat.
Proof.
  revert t; induction ops as [|op ops IH]; intros t Hv; [cbn; lia|].
  cbn [hitl_run]. pose proof (hitl_step_version op t id v Hv) as Hv1.
  destruct (hitl_step op t) as [b t1] eqn:E. cbn [fst snd] in Hv1.
  destruct (hitl_run ops t1) as [log t2] eqn:E2. cbn [fst]. rewrite countb_cons.
  replace log with (fst (hitl_run ops t1)) by (by rewrite E2).
  destruct (won id v (op, b)).
  - rewrite (won_other_version ops t1 id v _ Hv1) by lia. lia.
  - by apply IH.
Qed.

Lemma optimistic_update_wins_once_witness :
  let ops := [HUpdate noon_2026 "s-1" HAPPROVED 1; HUpdate noon_2026 "s-1" HREJECTED 1] in
  let t := {["s-1" := session_to_row witness_session]} in
  (countb (won "s-1" 1) (fst (hitl_run ops t)) <= 1)%nat /\
  countb (won "s-1" 1) (fst (hitl_run ops t)) = 1%nat.
Proof.
  split; [|vm_compute; reflexivity].
  apply (optimistic_update_wins_once
           [HUpdate noon_2026 "s-1" HAPPROVED 1; HUpdate noon_2026 "s-1" HREJECTED 1]).
  reflexivity.
Defined.

(** The expiry sweep marks exactly the overdue PENDING sessions but leaves
    their version alone, so an update based on the version read before the sweep still
    succeeds and replaces EXPIRED, by APPROVED for instance. *)
Theorem expiry_sweep_does_not_lock t now now2 id r st :
  t !! id = Some r -> stale (isoformat now) r = true ->
  let t1 := snd (expire_stale_sessions now t) in
  (hr_status <$> t1 !! id = Some "EXPIRED") /\
  (exists t2, hitl_update_status now2 id st (hr_version r) t1 = (true, t2) /\
     hr_status <$> t2 !! id = Some (hitl_value st)) /\
  (forall id' r', t !! id' = Some r' -> stale (isoformat now) r' = false -> t1 !! id' = Some r').
Proof.
  intros Hr Hs t1. assert (t1 !! id = Some (set_row_status r "EXPIRED" (isoformat now) (hr_version r))) as H1.
  { subst t1. cbn. rewrite lookup_fmap, Hr. cbn. unfold expire_row. by rewrite Hs. }
  split; [by rewrite H1|]. split.
  - eexists. split; [apply update_status_true; eexists; split; [exact H1|done]|].
    by rewrite lookup_insert_eq.
  - intros id' r' Hr' Hs'. subst t1. cbn. rewrite lookup_fmap, Hr'. cbn. unfold expire_row. by rewrite Hs'.
Qed.

Lemma expiry_sweep_does_not_lock_witness :
  let t := {["s-1" := session_to_row witness_session]} in
  let t1 := snd (expire_stale_sessions (add_minutes noon_2026 31) t) in
  (hr_status <$> t1 !! "s-1" = Some "EXPIRED") /\
  exists t2, hitl_update_status (add_minutes noon_2026 32) "s-1" HAPPROVED 1 t1 = (true, t2) /\
     hr_status <$> t2 !! "s-1" = Some "APPROVED".
Proof.
  destruct (expiry_sweep_does_not_lock {["s-1" := session_to_row witness_session]}
    (add_minutes noon_2026 31) (add_minutes noon_2026 32) "s-1" (session_to_row witness_session) HAPPROVED)
    as (H1 & H2 & _); [reflexivity|vm_compute; reflexivity|].
  split; [exact H1|exact H2].
Defined.
