(* ===== verification/GrantRepo.v ===== *)
(** The durable repository of approved-operation grants ([grant_repo.py]).

    The table is a map from its primary key [session_id] (schema version 3 and
    later); the status column ranges over the values its CHECK constraint
    admits.  Every method is one conditional UPDATE, so each is one atomic step:
    the file proves the state machine those steps follow, and that a session's
    grant is claimed at most once.  GrantSql proves that the SQL the methods send to the
    migrated table does the same. *)
From S2P Require Import Prelude PyStr PyFloat PyTime Sha256 Json PyRepr.

Inductive GrantStatus : Type :=
  | GPENDING | GAPPROVED | GCONSUMING | GCONSUMED | GREJECTED | GEXPIRED | GFAILED | GUNKNOWN
  | GRECONCILIATION_REQUIRED.

#[export] Instance GrantStatus_eq_dec : EqDecision GrantStatus.
Proof. solve_decision. Defined.

Record GrantRecord : Type := {
  g_session_id : string;
  g_requesting_user_id : string;
  g_approving_actor_id : string;
  g_thread_id : string;
  g_run_id : option string;
  g_checkpoint_id : option string;
  g_tool_call_id : string;
  g_tool_name : string;
  g_canonical_tool_args : string;
  g_argument_digest : string;
  g_idempotency_key : string;
  g_decision : string;
  g_status : GrantStatus;
  g_created_at : string;
  g_approved_at : option string;
  g_expires_at : option string;
  g_consuming_at : option string;
  g_consumed_at : option string;
  g_failed_at : option string;
  g_version : Z;
}.

Notation GrantTable := (gmap string GrantRecord).

(** [sha256(json.dumps(tool_args, sort_keys=True).encode()).hexdigest()] *)
Definition digest (tool_args : json) : string := Sha256.hexdigest (dumps true tool_args).

(** The columns a status change writes. *)
Record Stamp : Type := {
  st_approving_actor : option string;
  st_approved_at : option string;
  st_consuming_at : option string;
  st_consumed_at : option string;
  st_failed_at : option string;
}.

Definition no_stamp : Stamp :=
  {| st_approving_actor := None; st_approved_at := None; st_consuming_at := None;
     st_consumed_at := None; st_failed_at := None |}.

Definition opt_over {A} (new old : option A) : option A := match new with Some a => Some a | None => old end.

Definition set_grant (g : GrantRecord) (s : GrantStatus) (w : Stamp) : GrantRecord :=
  {| g_session_id := g_session_id g; g_requesting_user_id := g_requesting_user_id g;
     g_approving_actor_id := default (g_approving_actor_id g) (st_approving_actor w);
     g_thread_id := g_thread_id g; g_run_id := g_run_id g; g_checkpoint_id := g_checkpoint_id g;
     g_tool_call_id := g_tool_call_id g; g_tool_name := g_tool_name g;
     g_canonical_tool_args := g_canonical_tool_args g; g_argument_digest := g_argument_digest g;
     g_idempotency_key := g_idempotency_key g; g_decision := g_decision g; g_status := s;
     g_created_at := g_created_at g;
     g_approved_at := opt_over (st_approved_at w) (g_approved_at g);
     g_expires_at := g_expires_at g;
     g_consuming_at := opt_over (st_consuming_at w) (g_consuming_at g);
     g_consumed_at := opt_over (st_consumed_at w) (g_consumed_at g);
     g_failed_at := opt_over (st_failed_at w) (g_failed_at g);
     g_version := g_version g |}.

(** The row INSERTed: status, version and the timestamps of later steps are fixed. *)
Definition pending_grant (g : GrantRecord) : GrantRecord :=
  {| g_session_id := g_session_id g; g_requesting_user_id := g_requesting_user_id g;
     g_approving_actor_id := g_approving_actor_id g; g_thread_id := g_thread_id g;
     g_run_id := g_run_id g; g_checkpoint_id := g_checkpoint_id g; g_tool_call_id := g_tool_call_id g;
     g_tool_name := g_tool_name g; g_canonical_tool_args := g_canonical_tool_args g;
     g_argument_digest := g_argument_digest g; g_idempotency_key := g_idempotency_key g;
     g_decision := g_decision g; g_status := GPENDING; g_created_at := g_created_at g;
     g_approved_at := None; g_expires_at := g_expires_at g; g_consuming_at := None;
     g_consumed_at := None; g_failed_at := None; g_version := 1 |}.

Definition decision_allowed (d : string) : bool := str_in d ["PENDING"; "approved"; "rejected"].

Definition insert_pending (g : GrantRecord) (t : GrantTable) : result GrantTable :=
  if negb (decision_allowed (g_decision g))
  then Raise (IntegrityError "CHECK constraint failed: decision IN ('PENDING','approved','rejected')")
  else
    match t !! g_session_id g with
    | Some _ => Raise (IntegrityError "UNIQUE constraint failed: approved_operation_grants.session_id")
    | None =>
        if existsb (fun kv => String.eqb (g_idempotency_key (snd kv)) (g_idempotency_key g)) (map_to_list t)
        then Raise (IntegrityError "UNIQUE constraint failed: approved_operation_grants.idempotency_key")
        else Ok (<[g_session_id g := pending_grant g]> t)
    end.

(** One conditional UPDATE of a session's row; [true] when a row changed. *)
Definition update_grant (id : string) (guard : GrantRecord -> bool) (s : GrantStatus) (w : Stamp)
    (t : GrantTable) : bool * GrantTable :=
  match t !! id with
  | Some g => if guard g then (true, <[id := set_grant g s w]> t) else (false, t)
  | None => (false, t)
  end.

(** What [atomic_consume] is given. *)
Record ConsumeArgs : Type := {
  ca_session_id : string;
  ca_user_id : string;
  ca_approving_actor_id : string;
  ca_thread_id : string;
  ca_run_id : string;
  ca_checkpoint_id : string;
  ca_tool_call_id : string;
  ca_tool_name : string;
  ca_tool_args : json;
  ca_idempotency_key : string;
  ca_version : Z;
}.

Definition is_status (s : GrantStatus) (g : GrantRecord) : bool := bool_decide (g_status g = s).

(** [col=? OR col IS NULL OR ?='']. *)
Definition null_or_eq (col : option string) (v : string) : bool :=
  match col with Some c => String.eqb c v || String.eqb v "" | None => true end.

(** The WHERE clause of the claim, at time text [now]. *)
Definition consume_guard (now : string) (a : ConsumeArgs) (g : GrantRecord) : bool :=
  is_status GAPPROVED g && (g_version g =? ca_version a) &&
  String.eqb (g_requesting_user_id g) (ca_user_id a) &&
  String.eqb (g_thread_id g) (ca_thread_id a) &&
  (String.eqb (g_approving_actor_id g) (ca_approving_actor_id a)
   || String.eqb (g_approving_actor_id g) "" || String.eqb (ca_approving_actor_id a) "") &&
  null_or_eq (g_run_id g) (ca_run_id a) &&
  null_or_eq (g_checkpoint_id g) (ca_checkpoint_id a) &&
  String.eqb (g_tool_call_id g) (ca_tool_call_id a) &&
  String.eqb (g_tool_name g) (ca_tool_name a) &&
  String.eqb (g_argument_digest g) (digest (ca_tool_args a)) &&
  String.eqb (g_idempotency_key g) (ca_idempotency_key a) &&
  match g_expires_at g with Some e => text_lt now e | None => true end.

Definition claim (now : Z) (a : ConsumeArgs) (t : GrantTable) : bool * GrantTable :=
  update_grant (ca_session_id a) (consume_guard (isoformat now) a) GCONSUMING
    {| st_approving_actor := None; st_approved_at := None; st_consuming_at := Some (isoformat now);
       st_consumed_at := None; st_failed_at := None |} t.

(** The grant that is being consumed, read back. *)
Definition claimed (id : string) (t : GrantTable) : option GrantRecord :=
  match t !! id with
  | Some g => if is_status GCONSUMING g then Some g else None
  | None => None
  end.

Definition atomic_consume (now : Z) (a : ConsumeArgs) (t : GrantTable)
    : option GrantRecord * GrantTable :=
  let '(won, t') := claim now a t in if won then (claimed (ca_session_id a) t', t') else (None, t').

Definition failed_stamp (now : Z) : Stamp :=
  {| st_approving_actor := None; st_approved_at := None; st_consuming_at := None;
     st_consumed_at := None; st_failed_at := Some (isoformat now) |}.

Definition mark_consumed (now : Z) (id : string) (t : GrantTable) : GrantTable :=
  snd (update_grant id (is_status GCONSUMING) GCONSUMED
         {| st_approving_actor := None; st_approved_at := None; st_consuming_at := None;
            st_consumed_at := Some (isoformat now); st_failed_at := None |} t).

Definition mark_failed (now : Z) (id : string) (t : GrantTable) : GrantTable :=
  snd (update_grant id (is_status GCONSUMING) GFAILED (failed_stamp now) t).

Definition mark_rejected (now : Z) (id : string) (t : GrantTable) : GrantTable :=
  snd (update_grant id (fun g => is_status GPENDING g || is_status GAPPROVED g) GREJECTED
         (failed_stamp now) t).

Definition mark_reconciliation_required (now : Z) (id : string) (t : GrantTable) : GrantTable :=
  snd (update_grant id (is_status GPENDING) GRECONCILIATION_REQUIRED (failed_stamp now) t).

Definition mark_unknown (now : Z) (id : string) (t : GrantTable) : GrantTable :=
  snd (update_grant id (is_status GCONSUMING) GUNKNOWN (failed_stamp now) t).

Definition approve_pending (now : Z) (id actor : string) (expected_version : Z) (t : GrantTable)
    : bool * GrantTable :=
  update_grant id (fun g => is_status GPENDING g && (g_version g =? expected_version)) GAPPROVED
    {| st_approving_actor := Some actor; st_approved_at := Some (isoformat now);
       st_consuming_at := None; st_consumed_at := None; st_failed_at := None |} t.

Definition get_by_session (id : string) (t : GrantTable) : option GrantRecord := t !! id.

(** ** The state machine *)

(** The transitions the statements can make. *)
Inductive grant_next : GrantStatus -> GrantStatus -> Prop :=
  | gn_approve : grant_next GPENDING GAPPROVED
  | gn_reject_pending : grant_next GPENDING GREJECTED
  | gn_reject_approved : grant_next GAPPROVED GREJECTED
  | gn_reconcile : grant_next GPENDING GRECONCILIATION_REQUIRED
  | gn_claim : grant_next GAPPROVED GCONSUMING
  | gn_consumed : grant_next GCONSUMING GCONSUMED
  | gn_failed : grant_next GCONSUMING GFAILED
  | gn_unknown : grant_next GCONSUMING GUNKNOWN.

Inductive GrantOp : Type :=
  | GInsert (g : GrantRecord)
  | GApprove (now : Z) (id actor : string) (expected_version : Z)
  | GConsume (now : Z) (a : ConsumeArgs)
  | GConsumed (now : Z) (id : string)
  | GFail (now : Z) (id : string)
  | GReject (now : Z) (id : string)
  | GReconcile (now : Z) (id : string)
  | GUnknown (now : Z) (id : string).

(** The table after a call, and the session it claimed, if it claimed one. *)
Definition grant_step (op : GrantOp) (t : GrantTable) : option string * GrantTable :=
  match op with
  | GInsert g => (None, match insert_pending g t with Ok t' => t' | Raise _ => t end)
  | GApprove now id actor v => (None, snd (approve_pending now id actor v t))
  | GConsume now a =>
      let '(claimed, t') := atomic_consume now a t in (g_session_id <$> claimed, t')
  | GConsumed now id => (None, mark_consumed now id t)
  | GFail now id => (None, mark_failed now id t)
  | GReject now id => (None, mark_rejected now id t)
  | GReconcile now id => (None, mark_reconciliation_required now id t)
  | GUnknown now id => (None, mark_unknown now id t)
  end.

Fixpoint grant_run (ops : list GrantOp) (t : GrantTable) : list (option string) * GrantTable :=
  match ops with
  | [] => ([], t)
  | op :: ops' =>
      let '(c, t1) := grant_step op t in
      let '(cs, t2) := grant_run ops' t1 in (c :: cs, t2)
  end.

Definition status_of (t : GrantTable) (id : string) : option GrantStatus := g_status <$> t !! id.

(** The operation a grant is bound to: the columns no statement ever rewrites. *)
Definition bound_operation (g : GrantRecord) :=
  (g_session_id g, g_requesting_user_id g, g_thread_id g, g_tool_call_id g, g_tool_name g,
   (g_canonical_tool_args g, g_argument_digest g, g_idempotency_key g, g_version g)).

(** Rows are stored under their own session id. *)
Definition keyed (t : GrantTable) : Prop := forall id g, t !! id = Some g -> g_session_id g = id.

(** ** Lemmas *)

Lemma is_status_spec s g : is_status s g = true <-> g_status g = s.
Proof. apply bool_decide_eq_true. Qed.

(** The effect of one conditional UPDATE. *)
Lemma update_grant_cases id guard s w t :
  (exists g, t !! id = Some g /\ guard g = true /\
     update_grant id guard s w t = (true, <[id := set_grant g s w]> t)) \/
  update_grant id guard s w t = (false, t).
Proof.
  unfold update_grant. destruct (t !! id) as [g|]; [|by right].
  destruct (guard g) eqn:E; [left; by exists g|by right].
Qed.

(** One row moved along the state machine, its bound operation kept. *)
Inductive grant_move (t : GrantTable) : GrantTable -> Prop :=
  | gm_none : grant_move t t
  | gm_insert g : t !! g_session_id g = None -> decision_allowed (g_decision g) = true ->
      grant_move t (<[g_session_id g := pending_grant g]> t)
  | gm_next id g s w : t !! id = Some g -> grant_next (g_status g) s ->
      grant_move t (<[id := set_grant g s w]> t).

Lemma update_grant_move id guard s w t :
  (forall g, guard g = true -> grant_next (g_status g) s) ->
  grant_move t (snd (update_grant id guard s w t)).
Proof.
  intros Hg. destruct (update_grant_cases id guard s w t) as [(g & Hid & Hgd & ->)| ->]; cbn;
    [|constructor]. apply gm_next; auto.
Qed.

Lemma atomic_consume_snd now a t :
  snd (atomic_consume now a t) =
  snd (update_grant (ca_session_id a) (consume_guard (isoformat now) a) GCONSUMING
    {| st_approving_actor := None; st_approved_at := None; st_consuming_at := Some (isoformat now);
       st_consumed_at := None; st_failed_at := None |} t).
Proof. unfold atomic_consume, claim. by destruct (update_grant _ _ _ _ _) as [[] t']. Qed.

Lemma atomic_consume_Some now a t g t' :
  atomic_consume now a t = (Some g, t') ->
  exists g0, t !! ca_session_id a = Some g0 /\ consume_guard (isoformat now) a g0 = true /\
    t' = <[ca_session_id a := g]> t /\
    g = set_grant g0 GCONSUMING
      {| st_approving_actor := None; st_approved_at := None; st_consuming_at := Some (isoformat now);
         st_consumed_at := None; st_failed_at := None |}.
Proof.
  unfold atomic_consume, claim, claimed.
  destruct (update_grant_cases (ca_session_id a) (consume_guard (isoformat now) a) GCONSUMING
    {| st_approving_actor := None; st_approved_at := None; st_consuming_at := Some (isoformat now);
       st_consumed_at := None; st_failed_at := None |} t) as [(g0 & Hid & Hgd & ->)| ->]; [|done].
  rewrite lookup_insert_eq. cbn. intros [= <- <-]. by exists g0.
Qed.

Lemma consume_guard_status now a g : consume_guard now a g = true -> g_status g = GAPPROVED.
Proof. unfold consume_guard. rewrite !andb_true_iff. intros H. apply is_status_spec. tauto. Qed.

Lemma grant_step_move op t : grant_move t (snd (grant_step op t)).
Proof.
  destruct op as [g|now id actor v|now a|now id|now id|now id|now id|now id]; cbn.
  - unfold insert_pending. destruct (decision_allowed _) eqn:Ed; [|constructor]. cbn [negb].
    destruct (t !! g_session_id g) eqn:E; [constructor|]. destruct (existsb _ _); by constructor.
  - apply update_grant_move. intros g H. apply andb_true_iff in H as [H%is_status_spec _].
    rewrite H. constructor.
  - destruct (atomic_consume now a t) as [c t'] eqn:E. cbn.
    replace t' with (snd (atomic_consume now a t)) by (by rewrite E).
    rewrite atomic_consume_snd. apply update_grant_move.
    intros g ->%consume_guard_status. constructor.
  - apply update_grant_move. intros g ->%is_status_spec. constructor.
  - apply update_grant_move. intros g ->%is_status_spec. constructor.
  - apply update_grant_move. intros g [->%is_status_spec| ->%is_status_spec]%orb_true_iff; constructor.
  - apply update_grant_move. intros g ->%is_status_spec. constructor.
  - apply update_grant_move. intros g ->%is_status_spec. constructor.
Qed.

Lemma grant_move_lookup t t' id g :
  grant_move t t' -> t !! id = Some g ->
  exists g', t' !! id = Some g' /\ bound_operation g' = bound_operation g /\
    (g_status g' = g_status g \/ grant_next (g_status g) (g_status g')).
Proof.
  intros Hm Hg. destruct Hm as [|h Hh|id' h s w Hh Hn].
  - exists g. auto.
  - exists g. rewrite lookup_insert_ne by congruence. auto.
  - destruct (decide (id' = id)) as [->|Hne].
    + rewrite lookup_insert_eq. rewrite Hg in Hh. simplify_eq. eexists. split; [done|]. auto.
    + exists g. rewrite lookup_insert_ne by done. auto.
Qed.

(** The statuses a grant can no longer be claimed from. *)
Definition spent (s : GrantStatus) : bool :=
  match s with GPENDING | GAPPROVED => false | _ => true end.

Lemma spent_next s s' : spent s = true -> grant_next s s' -> spent s' = true.
Proof. intros Hs H. by destruct H. Qed.

Lemma grant_step_claim op t id :
  fst (grant_step op t) = Some id -> keyed t ->
  status_of t id = Some GAPPROVED /\ status_of (snd (grant_step op t)) id = Some GCONSUMING.
Proof.
  destruct op as [| |now a| | | | |]; try done. cbn. intros H Hk.
  destruct (atomic_consume now a t) as [[g|] t'] eqn:E; [|done]. cbn in *. simplify_eq.
  apply atomic_consume_Some in E as (g0 & H0 & Hgd & -> & ->). cbn.
  unfold status_of. rewrite (Hk _ _ H0), H0, lookup_insert_eq. cbn.
  by rewrite (consume_guard_status _ _ _ Hgd).
Qed.

Lemma keyed_step op t : keyed t -> keyed (snd (grant_step op t)).
Proof.
  intros Hk. destruct (grant_step_move op t) as [|g Hg|id g s w Hg Hn]; [done|..];
    intros id' g'; rewrite lookup_insert_Some; intros [[<- <-]|[_ ?]]; eauto. by apply Hk in Hg.
Qed.

Lemma spent_step op t id s :
  status_of t id = Some s -> spent s = true ->
  exists s', status_of (snd (grant_step op t)) id = Some s' /\ spent s' = true.
Proof.
  unfold status_of. intros Hs Hsp. destruct (t !! id) as [g|] eqn:E; [|done]. cbn in Hs. simplify_eq.
  destruct (grant_move_lookup _ _ id g (grant_step_move op t) E) as (g' & -> & _ & Hn).
  exists (g_status g'). split; [done|]. destruct Hn as [-> |Hn]; [done|]. by eapply spent_next.
Qed.

Definition claims (id : string) (c : option string) : bool := bool_decide (c = Some id).

Lemma spent_never_claimed ops t id s :
  keyed t -> status_of t id = Some s -> spent s = true ->
  countb (claims id) (fst (grant_run ops t)) = 0%nat.
Proof.
  revert t s; induction ops as [|op ops IH]; intros t s Hk Hs Hsp; [done|]. cbn [grant_run].
  pose proof (keyed_step op t Hk) as Hk1. destruct (spent_step op t id s Hs Hsp) as (s1 & Hs1 & Hsp1).
  pose proof (grant_step_claim op t id) as Hc.
  destruct (grant_step op t) as [c t1]. cbn [fst snd] in *.
  specialize (IH t1 s1 Hk1 Hs1 Hsp1). destruct (grant_run ops t1) as [cs t2]. cbn [fst] in *.
  rewrite countb_cons, IH. unfold claims. case_bool_decide as Hb; [|done].
  destruct (Hc Hb Hk) as [Ha _]. rewrite Hs in Ha. by simplify_eq.
Qed.

Definition witness_grant_record : GrantRecord :=
  {| g_session_id := "s-1"; g_requesting_user_id := "user-alice"; g_approving_actor_id := "";
     g_thread_id := "s-1"; g_run_id := None; g_checkpoint_id := None; g_tool_call_id := "call-1";
     g_tool_name := "submit_transfer";
     g_canonical_tool_args := dumps true (JObj [("draft_id", JStr "d-1"); ("user_id", JStr "user-alice")]);
     g_argument_digest := digest (JObj [("draft_id", JStr "d-1"); ("user_id", JStr "user-alice")]);
     g_idempotency_key := "s-1:call-1"; g_decision := "PENDING"; g_status := GPENDING;
     g_created_at := isoformat noon_2026; g_approved_at := None;
     g_expires_at := Some (isoformat (add_minutes noon_2026 30)); g_consuming_at := None;
     g_consumed_at := None; g_failed_at := None; g_version := 1 |}.

Definition witness_consume : ConsumeArgs :=
  {| ca_session_id := "s-1"; ca_user_id := "user-alice"; ca_approving_actor_id := "bob";
     ca_thread_id := "s-1"; ca_run_id := "s-1"; ca_checkpoint_id := ""; ca_tool_call_id := "call-1";
     ca_tool_name := "submit_transfer";
     ca_tool_args := JObj [("user_id", JStr "user-alice"); ("draft_id", JStr "d-1")];
     ca_idempotency_key := "s-1:call-1"; ca_version := 1 |}.

(** ** Properties *)

(** C6: whatever the repository is asked, in any order and however often,
    a session's grant is claimed (APPROVED to CONSUMING) at most once. *)
Theorem grant_claimed_at_most_once ops t id :
  keyed t -> (countb (claims id) (fst (grant_run ops t)) <= 1)%nat.
Proof.
  revert t; induction ops as [|op ops IH]; intros t Hk; [cbn; lia|]. cbn [grant_run].
  pose proof (keyed_step op t Hk) as Hk1. pose proof (grant_step_claim op t id) as Hc.
  destruct (grant_step op t) as [c t1]. cbn [fst snd] in *.
  specialize (IH t1 Hk1). pose proof (spent_never_claimed ops t1 id) as Hz.
  destruct (grant_run ops t1) as [cs t2]. cbn [fst] in *. rewrite countb_cons.
  unfold claims at 1. case_bool_decide as Hb; [|lia].
  destruct (Hc Hb Hk) as [_ Ha]. by rewrite (Hz _ Hk1 Ha).
Qed.

Lemma keyed_empty : keyed ∅.
Proof. intros id g. by rewrite lookup_empty. Qed.

Lemma grant_claimed_at_most_once_witness :
  let ops := [GInsert witness_grant_record; GApprove noon_2026 "s-1" "bob" 1;
              GConsume noon_2026 witness_consume; GConsume noon_2026 witness_consume] in
  (countb (claims "s-1") (fst (grant_run ops ∅)) <= 1)%nat /\
  countb (claims "s-1") (fst (grant_run ops ∅)) = 1%nat.
Proof.
  split; [|vm_compute; reflexivity].
  apply (grant_claimed_at_most_once
    [GInsert witness_grant_record; GApprove noon_2026 "s-1" "bob" 1;
     GConsume noon_2026 witness_consume; GConsume noon_2026 witness_consume] ∅ "s-1").
  exact keyed_empty.
Defined.

(** C30: every repository call moves a stored grant along one edge of the
    approval state machine or leaves its status alone, and never changes the operation
    the grant is bound to (session, requester, thread, tool, arguments, key, version). *)
Theorem grant_state_machine op t id g :
  t !! id = Some g ->
  exists g', snd (grant_step op t) !! id = Some g' /\ bound_operation g' = bound_operation g /\
    (g_status g' = g_status g \/ grant_next (g_status g) (g_status g')).
Proof. intros Hg. by apply (grant_move_lookup t), Hg; apply grant_step_move. Qed.

Lemma grant_state_machine_witness :
  let t := {["s-1" := witness_grant_record]} in
  exists g', snd (grant_step (GApprove noon_2026 "s-1" "bob" 1) t) !! "s-1" = Some g' /\
    bound_operation g' = bound_operation witness_grant_record /\
    (g_status g' = GPENDING \/ grant_next GPENDING (g_status g')).
Proof.
  apply (grant_state_machine (GApprove noon_2026 "s-1" "bob" 1) {["s-1" := witness_grant_record]}
           "s-1" witness_grant_record).
  reflexivity.
Defined.

(** a successful claim proves that the stored grant was APPROVED,
    unexpired, and issued for exactly the presented user, thread, tool call, tool,
    idempotency key and argument digest; the row handed back is that grant, now
    CONSUMING, and no other row changed. *)
Theorem atomic_consume_claims_exactly now a t g t' :
  atomic_consume now a t = (Some g, t') ->
  exists g0, t !! ca_session_id a = Some g0 /\ g_status g0 = GAPPROVED /\
    g_requesting_user_id g0 = ca_user_id a /\ g_thread_id g0 = ca_thread_id a /\
    g_tool_call_id g0 = ca_tool_call_id a /\ g_tool_name g0 = ca_tool_name a /\
    g_argument_digest g0 = digest (ca_tool_args a) /\
    g_idempotency_key g0 = ca_idempotency_key a /\ g_version g0 = ca_version a /\
    (forall e, g_expires_at g0 = Some e -> text_lt (isoformat now) e = true) /\
    g_status g = GCONSUMING /\ bound_operation g = bound_operation g0 /\
    t' = <[ca_session_id a := g]> t.
Proof.
  intros (g0 & H0 & Hgd & -> & ->)%atomic_consume_Some. exists g0.
  pose proof (consume_guard_status _ _ _ Hgd) as Hst.
  unfold consume_guard in Hgd. rewrite !andb_true_iff, !String.eqb_eq, Z.eqb_eq in Hgd.
  destruct Hgd as [[[[[[[[[[[_ Hv] Hu] Ht] _] _] _] Hc] Hn] Hd] Hk] He].
  repeat (split; [done|]). split; [|done]. intros e Ee. by rewrite Ee in He.
Qed.

Lemma atomic_consume_claims_exactly_witness :
  let t := snd (grant_run [GInsert witness_grant_record; GApprove noon_2026 "s-1" "bob" 1] ∅) in
  exists g t', atomic_consume noon_2026 witness_consume t = (Some g, t') /\ g_status g = GCONSUMING.
Proof.
  intros t. destruct (atomic_consume noon_2026 witness_consume t) as [[g|] t'] eqn:E.
  - exists g, t'. split; [reflexivity|].
    destruct (atomic_consume_claims_exactly _ _ _ _ _ E) as (g0 & H). apply H.
  - vm_compute in E. discriminate E.
Defined.
