(* ===== verification/IdempotencyStore.v ===== *)
(** The durable idempotency store ([idempotency_store.py]): one row per key, and
    the statement each method executes.  IdempotencySql proves that the SQL does the same. *)
From S2P Require Import Prelude PyStr PyFloat PyTime Json PyRepr.

Inductive IdempotencyStatus : Type := IRESERVED | IEXECUTING | ISUCCEEDED | IFAILED | IUNKNOWN.

#[export] Instance IdempotencyStatus_eq_dec : EqDecision IdempotencyStatus.
Proof. solve_decision. Defined.

Definition idem_value (s : IdempotencyStatus) : string :=
  match s with
  | IRESERVED => "RESERVED" | IEXECUTING => "EXECUTING" | ISUCCEEDED => "SUCCEEDED"
  | IFAILED => "FAILED" | IUNKNOWN => "UNKNOWN"
  end.

Definition idem_status_of (text : string) : result IdempotencyStatus :=
  match oget (map (fun s => (idem_value s, s)) [IRESERVED; IEXECUTING; ISUCCEEDED; IFAILED; IUNKNOWN]) text with
  | Some s => Ok s
  | None => Raise (ValueError (repr_str text +:+ " is not a valid IdempotencyStatus"))
  end.

Record IdempotencyRecord : Type := {
  ir_key : string;
  ir_status : IdempotencyStatus;
  ir_tool_name : string;
  ir_tool_args : option json;
  ir_result : option string;
  ir_error : option string;
  ir_created_at : string;
  ir_completed_at : option string;
}.

Definition idem_is_terminal (r : IdempotencyRecord) : bool :=
  match ir_status r with ISUCCEEDED | IFAILED => true | _ => false end.

Definition can_retry (r : IdempotencyRecord) : bool :=
  match ir_status r with IRESERVED | IFAILED => true | _ => false end.

Record IdemRow : Type := {
  iw_key : string;
  iw_status : string;
  iw_tool_name : string;
  iw_tool_args : option string;
  iw_result : option string;
  iw_error : option string;
  iw_created_at : string;
  iw_completed_at : option string;
}.

Notation IdemTable := (gmap string IdemRow).

Definition row_to_record (r : IdemRow) : result IdempotencyRecord :=
  let* st := idem_status_of (iw_status r) in
  let* args := (if opt_str_true (iw_tool_args r)
                then res_map Some (loads (opt_or (iw_tool_args r) ""))
                else Ok None) in
  Ok {| ir_key := iw_key r; ir_status := st; ir_tool_name := iw_tool_name r; ir_tool_args := args;
        ir_result := iw_result r; ir_error := iw_error r; ir_created_at := iw_created_at r;
        ir_completed_at := iw_completed_at r |}.

Definition set_idem (r : IdemRow) (st : string) (res err completed : option string) : IdemRow :=
  {| iw_key := iw_key r; iw_status := st; iw_tool_name := iw_tool_name r; iw_tool_args := iw_tool_args r;
     iw_result := res; iw_error := err; iw_created_at := iw_created_at r; iw_completed_at := completed |}.

(** ** Statements *)

(** [json.dumps(tool_args or {})] *)
Definition args_or_empty (v : json) : json := if json_true v then v else JObj [].

(** INSERT OR IGNORE, then read the row back. *)
Definition reserve (now : Z) (key tool_name : string) (tool_args : json) (t : IdemTable)
    : result IdempotencyRecord * IdemTable :=
  let row := {| iw_key := key; iw_status := "RESERVED"; iw_tool_name := tool_name;
                iw_tool_args := Some (dumps false (args_or_empty tool_args)); iw_result := None;
                iw_error := None; iw_created_at := isoformat now; iw_completed_at := None |} in
  match t !! key with
  | Some r => (row_to_record r, t)
  | None => (row_to_record row, <[key := row]> t)
  end.

(** What a reservation reads back. *)
Definition reserved (key : string) (t : IdemTable) : result IdempotencyRecord :=
  match t !! key with
  | Some r => row_to_record r
  | None => Raise (TypeError "'NoneType' object is not subscriptable")
  end.

(** One conditional UPDATE by key. *)
Definition update_idem (key : string) (guard : string -> bool) (f : IdemRow -> IdemRow) (t : IdemTable)
    : bool * IdemTable :=
  match t !! key with
  | Some r => if guard (iw_status r) then (true, <[key := f r]> t) else (false, t)
  | None => (false, t)
  end.

Definition mark_executing (key : string) : IdemTable -> bool * IdemTable :=
  update_idem key (fun s => String.eqb s "RESERVED")
    (fun r => set_idem r "EXECUTING" (iw_result r) (iw_error r) (iw_completed_at r)).

Definition mark_succeeded (now : Z) (key res : string) : IdemTable -> bool * IdemTable :=
  update_idem key (fun s => String.eqb s "EXECUTING")
    (fun r => set_idem r "SUCCEEDED" (Some res) (iw_error r) (Some (isoformat now))).

(** No guard on the status. *)
Definition mark_failed (now : Z) (key error : string) : IdemTable -> bool * IdemTable :=
  update_idem key (fun _ => true)
    (fun r => set_idem r "FAILED" (iw_result r) (Some error) (Some (isoformat now))).

Definition mark_unknown (key : string) : IdemTable -> bool * IdemTable :=
  update_idem key (fun s => String.eqb s "RESERVED" || String.eqb s "EXECUTING")
    (fun r => set_idem r "UNKNOWN" (iw_result r) (iw_error r) (iw_completed_at r)).

Definition idem_get (key : string) (t : IdemTable) : result (option IdempotencyRecord) :=
  match t !! key with
  | None => Ok None
  | Some r => let* x := row_to_record r in Ok (Some x)
  end.

(** ** Runs *)

Inductive IdemOp : Type :=
  | IReserve (now : Z) (key tool_name : string) (tool_args : json)
  | IExecuting (key : string)
  | ISucceeded (now : Z) (key res : string)
  | IFail (now : Z) (key error : string)
  | IUnknown (key : string).

Definition idem_step (op : IdemOp) (t : IdemTable) : IdemTable :=
  match op with
  | IReserve now key name args => snd (reserve now key name args t)
  | IExecuting key => snd (mark_executing key t)
  | ISucceeded now key res => snd (mark_succeeded now key res t)
  | IFail now key error => snd (mark_failed now key error t)
  | IUnknown key => snd (mark_unknown key t)
  end.

Definition idem_status (t : IdemTable) (key : string) : option string := iw_status <$> t !! key.

(** The status changes a statement can make on an existing row. *)
Inductive idem_next : string -> string -> Prop :=
  | in_executing : idem_next "RESERVED" "EXECUTING"
  | in_succeeded : idem_next "EXECUTING" "SUCCEEDED"
  | in_failed s : idem_next s "FAILED"
  | in_unknown_reserved : idem_next "RESERVED" "UNKNOWN"
  | in_unknown_executing : idem_next "EXECUTING" "UNKNOWN".

(** The identity of a reservation: what no statement rewrites. *)
Definition reservation (r : IdemRow) := (iw_key r, iw_tool_name r, iw_tool_args r, iw_created_at r).

Lemma update_idem_cases key guard f t :
  (exists r, t !! key = Some r /\ guard (iw_status r) = true /\
     update_idem key guard f t = (true, <[key := f r]> t)) \/
  update_idem key guard f t = (false, t).
Proof.
  unfold update_idem. destruct (t !! key) as [r|]; [|by right].
  destruct (guard (iw_status r)) eqn:E; [left; by exists r|by right].
Qed.

Lemma update_idem_lookup key guard f t k r :
  t !! k = Some r ->
  (forall x, reservation (f x) = reservation x) ->
  exists r', snd (update_idem key guard f t) !! k = Some r' /\ reservation r' = reservation r /\
    (r' = r \/ (k = key /\ guard (iw_status r) = true /\ r' = f r)).
Proof.
  intros Hr Hf. destruct (update_idem_cases key guard f t) as [(x & Hx & Hg & ->)| ->]; cbn; [|by eauto].
  destruct (decide (key = k)) as [->|Hne].
  - rewrite lookup_insert_eq. simplify_eq. exists (f r). split; [done|]. split; [apply Hf|]. by right.
  - rewrite lookup_insert_ne by done. eauto.
Qed.

Definition reserved_row (now : Z) (key tool_name : string) (tool_args : json) : IdemRow :=
  {| iw_key := key; iw_status := "RESERVED"; iw_tool_name := tool_name;
     iw_tool_args := Some (dumps false (args_or_empty tool_args)); iw_result := None;
     iw_error := None; iw_created_at := isoformat now; iw_completed_at := None |}.

(** A reservation reads back what it left. *)
Lemma reserved_after_reserve now key name args t :
  fst (reserve now key name args t) = reserved key (snd (reserve now key name args t)).
Proof. unfold reserve, reserved. destruct (t !! key) as [r|] eqn:E; cbn [fst snd]; [by rewrite E|by rewrite lookup_insert_eq]. Qed.

Lemma reserve_ok now key name args :
  json_ok args = true ->
  exists rec, row_to_record (reserved_row now key name args) = Ok rec /\ ir_status rec = IRESERVED /\
    ir_key rec = key /\ ir_tool_name rec = name /\ ir_tool_args rec = Some (args_or_empty args).
Proof.
  intros Ha.
  assert (json_ok (args_or_empty args) = true) as Ha' by (unfold args_or_empty; by destruct (json_true args)).
  unfold row_to_record, reserved_row. cbn [iw_status iw_tool_args].
  change (idem_status_of "RESERVED") with (Ok IRESERVED). cbn [res_bind opt_str_true opt_or].
  assert (str_true (dumps false (args_or_empty args)) = true) as Ht.
  { destruct (dumps_reads false _ (proj1 (proj1 (json_ok_spec _) Ha'))) as [Hs _]. specialize (Hs "").
    destruct (dumps false (args_or_empty args)); [done|]. done. }
  unfold str_or. rewrite !Ht, loads_dumps, canon_false by done. eexists. split; [done|]. done.
Qed.

(** The status a reader of the key sees. *)
Definition key_status (key : string) (t : IdemTable) : option IdempotencyStatus :=
  match idem_get key t with Ok (Some r) => Some (ir_status r) | _ => None end.

Lemma row_to_record_set r rec st s res err completed :
  row_to_record r = Ok rec -> idem_status_of st = Ok s ->
  exists rec', row_to_record (set_idem r st res err completed) = Ok rec' /\ ir_status rec' = s.
Proof.
  unfold row_to_record. cbn [set_idem iw_status iw_tool_args].
  intros (s0 & _ & (args & Ha & _)%res_bind_ok)%res_bind_ok Hs. rewrite Hs, Ha. cbn [res_bind].
  eexists. split; [reflexivity|done].
Qed.

(** ** Properties *)

(** The first reservation of a key wins. Reserving an existing key
    returns the stored record, whatever tool or arguments the new request has, and
    changes nothing; a new key is stored RESERVED with the request's tool and arguments. *)
Theorem reserve_first_wins now key name args t :
  json_ok args = true ->
  match t !! key with
  | Some r => reserve now key name args t = (row_to_record r, t)
  | None =>
      exists rec, fst (reserve now key name args t) = Ok rec /\ ir_status rec = IRESERVED /\
        ir_key rec = key /\ ir_tool_name rec = name /\ ir_tool_args rec = Some (args_or_empty args) /\
        idem_get key (snd (reserve now key name args t)) = Ok (Some rec) /\
        forall now2 name2 args2,
          reserve now2 key name2 args2 (snd (reserve now key name args t))
          = (Ok rec, snd (reserve now key name args t))
  end.
Proof.
  intros Ha. unfold reserve. destruct (t !! key) as [r|] eqn:E; [done|].
  destruct (reserve_ok now key name args Ha) as (rec & Hrec & Hrest).
  fold (reserved_row now key name args).
  exists rec. cbn [fst snd]. rewrite Hrec. unfold idem_get. rewrite lookup_insert_eq, Hrec.
  decompose [and] Hrest. done.
Qed.

Lemma reserve_first_wins_witness :
  exists rec, fst (reserve noon_2026 "k" "submit_transfer" (JObj [("a", JInt 1)]) ∅) = Ok rec /\
    ir_status rec = IRESERVED /\ ir_key rec = "k".
Proof.
  destruct (reserve_first_wins noon_2026 "k" "submit_transfer" (JObj [("a", JInt 1)]) ∅ eq_refl)
    as (rec & H1 & H2 & H3 & _).
  exists rec. split; [exact H1|]. split; [exact H2|exact H3].
Defined.

(** a stored reservation is never deleted nor rebound to another tool or
    arguments, and each statement moves its status along one edge: EXECUTING only from
    RESERVED, SUCCEEDED only from EXECUTING, UNKNOWN only from those two. FAILED, though,
    is reachable from every status, SUCCEEDED included. *)
Theorem idempotency_state_machine op t key r :
  t !! key = Some r ->
  exists r', idem_step op t !! key = Some r' /\ reservation r' = reservation r /\
    (iw_status r' = iw_status r \/ idem_next (iw_status r) (iw_status r')).
Proof.
  intros Hr.
  assert (forall k g f, (forall x, reservation (f x) = reservation x) ->
    (forall x, g (iw_status x) = true -> idem_next (iw_status x) (iw_status (f x))) ->
    exists r', snd (update_idem k g f t) !! key = Some r' /\ reservation r' = reservation r /\
    (iw_status r' = iw_status r \/ idem_next (iw_status r) (iw_status r'))) as Hupd.
  { intros k g f Hf Hn. destruct (update_idem_lookup k g f t key r Hr Hf) as (r' & H1 & H2 & H3).
    exists r'. split; [done|]. split; [done|]. destruct H3 as [->|(_ & Hg & ->)]; auto. }
  destruct op as [now k name args|k|now k res|now k err|k]; cbn [idem_step].
  - unfold reserve. destruct (t !! k) as [x|] eqn:E; cbn; [by eauto|].
    exists r. rewrite lookup_insert_ne by congruence. auto.
  - apply Hupd; [done|]. cbn. intros x ->%String.eqb_eq. constructor.
  - apply Hupd; [done|]. cbn. intros x ->%String.eqb_eq. constructor.
  - apply Hupd; [done|]. cbn. intros x _. constructor.
  - apply Hupd; [done|]. cbn. intros x [->%String.eqb_eq| ->%String.eqb_eq]%orb_true_iff; constructor.
Qed.

Lemma idempotency_state_machine_witness :
  let t := idem_step (IReserve noon_2026 "k" "submit_transfer" (JObj [])) ∅ in
  exists r r', t !! "k" = Some r /\ idem_step (IExecuting "k") t !! "k" = Some r' /\
    reservation r' = reservation r.
Proof.
  intros t. destruct (t !! "k") as [r|] eqn:E; [|discriminate E].
  destruct (idempotency_state_machine (IExecuting "k") t "k" r E) as (r' & H1 & H2 & _).
  exists r, r'. split; [reflexivity|]. split; [exact H1|exact H2].
Defined.
