(* ===== verification/Sql.v ===== *)
(** The part of SQLite, seen through Python's [sqlite3] module, that the schema
    migrations rely on: tables with their constraints, indexes, the statements that
    change them, and the transactions the module opens by itself.

    A connection holds the committed database and, while a transaction is open, the
    database it is building.  The module opens a transaction before a statement that
    writes rows; a statement that changes the schema is committed at once unless a
    transaction is already open. *)
From S2P Require Import Prelude.

Inductive value : Type := VNull | VInt (n : Z) | VText (s : string) | VBlob (s : string).

#[export] Instance value_eq_dec : EqDecision value.
Proof. solve_decision. Defined.

(** The order of values: NULL, then the integers, the texts and the blobs. *)
Definition value_le (a b : value) : bool :=
  match a, b with
  | VNull, _ => true
  | VInt x, VInt y => x <=? y
  | VInt _, (VText _ | VBlob _) => true
  | VText x, VText y => String.leb x y
  | VText _, VBlob _ => true
  | VBlob x, VBlob y => String.leb x y
  | _, _ => false
  end.

Notation row := (list value).

Record Column : Type := { c_name : string; c_notnull : bool; c_default : option value }.

(** The primary key and the UNIQUE columns of a table, its CHECK (column IN texts)
    constraints, and its rows. *)
Record Table : Type := {
  t_columns : list Column;
  t_keys : list (list string);
  t_checks : list (string * list string);
  t_rows : list row;
}.

Record Index : Type := { ix_table : string; ix_columns : list string; ix_unique : bool }.

Record Db : Type := { tables : list (string * Table); indexes : list (string * Index) }.

#[export] Instance column_eq_dec : EqDecision Column.
Proof. solve_decision. Defined.
#[export] Instance table_eq_dec : EqDecision Table.
Proof. solve_decision. Defined.
#[export] Instance index_eq_dec : EqDecision Index.
Proof. solve_decision. Defined.
#[export] Instance db_eq_dec : EqDecision Db.
Proof. solve_decision. Defined.

Definition empty_db : Db := {| tables := []; indexes := [] |}.

Definition set_tables (db : Db) (ts : list (string * Table)) : Db :=
  {| tables := ts; indexes := indexes db |}.

Definition with_rows (t : Table) (rows : list row) : Table :=
  {| t_columns := t_columns t; t_keys := t_keys t; t_checks := t_checks t; t_rows := rows |}.

(** ** Constraints *)

Fixpoint column_index (cs : list Column) (c : string) : nat :=
  match cs with
  | [] => 0
  | k :: cs' => if String.eqb (c_name k) c then 0 else S (column_index cs' c)
  end.

Definition cell (cs : list Column) (c : string) (r : row) : value := default VNull (r !! column_index cs c).

Definition is_null (v : value) : bool := match v with VNull => true | _ => false end.

Definition distinct {A} `{EqDecision A} (l : list A) : bool := bool_decide (NoDup l).

(** Rows with a NULL in the key are never equal to one another. *)
Definition key_ok (cs : list Column) (rows : list row) (key : list string) : bool :=
  distinct (List.filter (fun k => negb (existsb is_null k)) (map (fun r => map (fun c => cell cs c r) key) rows)).

Definition check_ok (cs : list Column) (r : row) (k : string * list string) : bool :=
  match cell cs (fst k) r with VText s => str_in s (snd k) | VNull => true | VInt _ | VBlob _ => false end.

Definition row_ok (cs : list Column) (checks : list (string * list string)) (r : row) : bool :=
  Nat.eqb (length r) (length cs) &&
  forallb (fun c => negb (c_notnull c && is_null (cell cs (c_name c) r))) cs &&
  forallb (check_ok cs r) checks.

Definition rows_ok (cs : list Column) (keys : list (list string)) (checks : list (string * list string))
    (rows : list row) : bool :=
  forallb (row_ok cs checks) rows && forallb (key_ok cs rows) keys.

(** ** Statements *)

Inductive stmt : Type :=
  | CreateTable (if_not_exists : bool) (name : string) (t : Table)
  | CreateIndex (name : string) (ix : Index)
  | InsertSelect (dst src : string)
  | InsertOrReplaceInt (name : string) (n : Z)
  | DropTable (name : string)
  | RenameTable (old new : string)
  | AddColumn (name : string) (c : Column)
  | Commit.

(** Another connection of the file holds its write lock. *)
Definition database_locked : exn := OperationalError "database is locked".

Definition no_such_table {A} (name : string) : result A := Raise (OperationalError ("no such table: " +:+ name)).

Definition without (name : string) (ts : list (string * Table)) : list (string * Table) :=
  List.filter (fun kv => negb (String.eqb (fst kv) name)) ts.

Definition on_table (db : Db) (name : string) (f : Table -> result Table) : result Db :=
  match oget (tables db) name with
  | None => no_such_table name
  | Some t => let* t' := f t in Ok (set_tables db (oset (tables db) name t'))
  end.

Definition add_rows (t : Table) (rows : list row) : result Table :=
  if rows_ok (t_columns t) (t_keys t) (t_checks t) (t_rows t ++ rows) then Ok (with_rows t (t_rows t ++ rows))
  else Raise (IntegrityError "constraint failed").

(** The effect of a statement on the database it sees. *)
Definition apply (s : stmt) (db : Db) : result Db :=
  match s with
  | CreateTable ine name t =>
      match oget (tables db) name with
      | Some _ => if ine then Ok db else Raise (OperationalError ("table " +:+ name +:+ " already exists"))
      | None => Ok (set_tables db (tables db ++ [(name, t)]))
      end
  | CreateIndex name ix =>
      match oget (indexes db) name with
      | Some _ => Ok db
      | None =>
          match oget (tables db) (ix_table ix) with
          | None => no_such_table (ix_table ix)
          | Some t =>
              if negb (ix_unique ix) || key_ok (t_columns t) (t_rows t) (ix_columns ix)
              then Ok {| tables := tables db; indexes := indexes db ++ [(name, ix)] |}
              else Raise (IntegrityError "UNIQUE constraint failed")
          end
      end
  | InsertSelect dst src =>
      match oget (tables db) src with
      | None => no_such_table src
      | Some s => on_table db dst (fun t => add_rows t (t_rows s))
      end
  | InsertOrReplaceInt name n =>
      on_table db name (fun t =>
        Ok (with_rows t (List.filter (fun r => negb (bool_decide (r = [VInt n]))) (t_rows t) ++ [[VInt n]])))
  | DropTable name =>
      match oget (tables db) name with
      | None => no_such_table name
      | Some _ =>
          Ok {| tables := without name (tables db);
                indexes := List.filter (fun kv => negb (String.eqb (ix_table (snd kv)) name)) (indexes db) |}
      end
  | RenameTable old new =>
      match oget (tables db) old, oget (tables db) new with
      | None, _ => no_such_table old
      | Some _, Some _ => Raise (OperationalError ("there is already another table or index with this name: " +:+ new))
      | Some t, None =>
          Ok {| tables := map (fun kv => if String.eqb (fst kv) old then (new, snd kv) else kv) (tables db);
                indexes := map (fun kv => if String.eqb (ix_table (snd kv)) old
                                          then (fst kv, {| ix_table := new; ix_columns := ix_columns (snd kv);
                                                           ix_unique := ix_unique (snd kv) |})
                                          else kv) (indexes db) |}
      end
  | AddColumn name c =>
      on_table db name (fun t =>
        if str_in (c_name c) (map c_name (t_columns t))
        then Raise (OperationalError ("duplicate column name: " +:+ c_name c))
        else Ok {| t_columns := t_columns t ++ [c]; t_keys := t_keys t; t_checks := t_checks t;
                   t_rows := map (fun r => r ++ [default VNull (c_default c)]) (t_rows t) |})
  | Commit => Ok db
  end.

Definition writes_rows (s : stmt) : bool :=
  match s with InsertSelect _ _ | InsertOrReplaceInt _ _ => true | _ => false end.

(** ** Connections *)

Record Conn : Type := { committed : Db; working : option Db }.

Definition connect (db : Db) : Conn := {| committed := db; working := None |}.

(** The database the connection sees. *)
Definition view (c : Conn) : Db := default (committed c) (working c).

(** One statement; the connection is unchanged when it fails. *)
Definition execute (s : stmt) (c : Conn) : result Conn :=
  match s with
  | Commit => Ok (connect (view c))
  | _ =>
      let* db := apply s (view c) in
      Ok (match working c with
          | Some _ => {| committed := committed c; working := Some db |}
          | None => if writes_rows s then {| committed := committed c; working := Some db |} else connect db
          end)
  end.
