(* ===== verification/Migrations.v ===== *)
(** Database initialisation and schema migration ([db.py]).

    Each migration is the list of the statements the source executes, in its order, with
    the checks it makes between them.  A crash cuts the list anywhere: what was not
    committed is lost, as it is when an exception closes the connection. *)
From S2P Require Import Prelude PyStr Json PyRepr Sql.

(** ** Tables *)

Definition text (name : string) : Column := {| c_name := name; c_notnull := false; c_default := None |}.
Definition text_required (name : string) : Column := {| c_name := name; c_notnull := true; c_default := None |}.
Definition text_default (name d : string) : Column :=
  {| c_name := name; c_notnull := true; c_default := Some (VText d) |}.
Definition version_column (name : string) : Column :=
  {| c_name := name; c_notnull := true; c_default := Some (VInt 1) |}.

Definition new_table (cs : list Column) (keys : list (list string)) (checks : list (string * list string)) : Table :=
  {| t_columns := cs; t_keys := keys; t_checks := checks; t_rows := [] |}.

Definition index_on (t c : string) : Index := {| ix_table := t; ix_columns := [c]; ix_unique := false |}.
Definition unique_on (t c : string) : Index := {| ix_table := t; ix_columns := [c]; ix_unique := true |}.

Definition schema_version_table : Table := new_table [text "version"] [["version"]] [].

Definition events_table : Table :=
  new_table [text "id"; text_required "run_id"; text_required "seq"; text_required "kind";
             text_required "payload"; text_required "timestamp"] [["id"]; ["run_id"; "seq"]] [].

Definition checkpoints_table : Table :=
  new_table [text_required "thread_id"; text_default "checkpoint_ns" ""; text_required "checkpoint_id";
             text "parent_checkpoint_id"; text_required "type"; text_required "checkpoint"; text "metadata";
             text_required "created_at"] [["thread_id"; "checkpoint_ns"; "checkpoint_id"]] [].

Definition hitl_sessions_table : Table :=
  new_table [text "session_id"; text_default "user_id" "unknown"; text_required "thread_id";
             text_default "status" "PENDING"; text_required "tool_name"; text_required "tool_args";
             text "authorization_decision"; text "approval_requirement"; text "idempotency_key";
             version_column "version"; text_required "created_at"; text_required "updated_at"; text "expires_at"]
    [["session_id"]; ["idempotency_key"]] [].

Definition idempotency_records_table : Table :=
  new_table [text "idempotency_key"; text_default "status" "RESERVED"; text_required "tool_name"; text "tool_args";
             text "result"; text "error"; text_required "created_at"; text "completed_at"]
    [["idempotency_key"]] [].

(** The columns of the grants, shared by the three versions of the table. *)
Definition grant_columns (decision : Column) : list Column :=
  [text_required "session_id"; text_required "requesting_user_id"; text_required "approving_actor_id";
   text_required "thread_id"; text "run_id"; text "checkpoint_id"; text_required "tool_call_id";
   text_required "tool_name"; text_required "canonical_tool_args"; text_required "argument_digest";
   text_required "idempotency_key"; decision; text_default "status" "PENDING"; text_required "created_at";
   text "approved_at"; text "expires_at"; text "consuming_at"; text "consumed_at"; text "failed_at";
   version_column "version"].

Definition grants_v2 : Table := new_table (grant_columns (text_default "decision" "PENDING")) [] [].

Definition constrained_grants (statuses : list string) : Table :=
  new_table (grant_columns (text_required "decision")) [["session_id"]; ["idempotency_key"]]
    [("decision", ["PENDING"; "approved"; "rejected"]); ("status", statuses)].

Definition statuses_v3 : list string :=
  ["PENDING"; "APPROVED"; "CONSUMING"; "CONSUMED"; "REJECTED"; "EXPIRED"; "FAILED"; "UNKNOWN"].

Definition grants_v3 : Table := constrained_grants statuses_v3.
Definition grants_v5 : Table := constrained_grants (statuses_v3 ++ ["RECONCILIATION_REQUIRED"]).

Definition channel_writes_table : Table :=
  new_table [text_required "thread_id"; text_default "checkpoint_ns" ""; text_required "checkpoint_id";
             text_required "task_id"; text_default "task_path" ""; text_required "idx"; text_required "channel";
             text_required "value"; text_required "created_at"]
    [["thread_id"; "checkpoint_ns"; "checkpoint_id"; "task_id"; "idx"]] [].

(** ** Migrations *)

Inductive action : Type :=
  | Exec (s : stmt)
  | Guard (check : Db -> result unit).

Definition create_if_missing (name : string) (t : Table) : action := Exec (CreateTable true name t).
Definition add_index (name : string) (ix : Index) : action := Exec (CreateIndex name ix).

Definition migrate_v1 : list action :=
  [create_if_missing "events" events_table;
   add_index "idx_events_run_id" (index_on "events" "run_id");
   add_index "idx_events_kind" (index_on "events" "kind");
   create_if_missing "checkpoints" checkpoints_table;
   create_if_missing "hitl_sessions" hitl_sessions_table;
   add_index "idx_hitl_status" (index_on "hitl_sessions" "status");
   add_index "idx_hitl_thread" (index_on "hitl_sessions" "thread_id");
   create_if_missing "idempotency_records" idempotency_records_table;
   add_index "idx_idem_status" (index_on "idempotency_records" "status");
   Exec Commit].

Notation grants := "approved_operation_grants" (only parsing).

Definition migrate_v2 : list action :=
  [create_if_missing grants grants_v2;
   add_index "idx_grants_session" (index_on grants "session_id");
   add_index "idx_grants_status" (index_on grants "status");
   Exec Commit].

(** The values of a column held by more than one row, in the order of the grouping. *)
Definition repeated (vs : list value) (v : value) : bool :=
  (1 <? countb (fun u => bool_decide (u = v)) vs)%nat.

Definition duplicates (vs : list value) : list value :=
  order_by value_le (remove_dups (List.filter (repeated vs) vs)).

Definition column_values (t : Table) (c : string) : list value := map (cell (t_columns t) c) (t_rows t).

(** Bytes are assumed to be ASCII, where their [repr] is that of the text after a [b]. *)
Definition value_repr (v : value) : string :=
  match v with VNull => "None" | VInt n => str_of_Z n | VText s => repr_str s | VBlob s => "b" +:+ repr_str s end.

Definition list_repr (vs : list value) : string := "[" +:+ join ", " (map value_repr vs) +:+ "]".

Definition named_key (v : value) : bool := match v with VNull => false | VText s | VBlob s => str_true s | VInt _ => true end.

Definition reject_duplicates (db : Db) : result unit :=
  match oget (tables db) grants with
  | None => no_such_table grants
  | Some t =>
      let dup_sessions := duplicates (column_values t "session_id") in
      let dup_keys := duplicates (List.filter named_key (column_values t "idempotency_key")) in
      if list_true dup_sessions
      then Raise (RuntimeError ("Cannot migrate to v3: duplicate session_id rows found: " +:+ list_repr dup_sessions
             +:+ ". Manual reconciliation required."))
      else if list_true dup_keys
      then Raise (RuntimeError ("Cannot migrate to v3: duplicate idempotency_key rows found: " +:+ list_repr dup_keys
             +:+ ". Manual reconciliation required."))
      else Ok tt
  end.

(** Replace the grants by a table built beside them. *)
Definition rebuild_grants (name : string) (t : Table) : list action :=
  [Exec (CreateTable false name t);
   Exec (InsertSelect name grants);
   Exec (DropTable grants);
   Exec (RenameTable name grants);
   add_index "idx_grants_session" (index_on grants "session_id");
   add_index "idx_grants_status" (index_on grants "status");
   add_index "idx_grants_expires" (index_on grants "expires_at");
   add_index "idx_grants_idem_key" (unique_on grants "idempotency_key");
   Exec Commit].

Definition migrate_v3 : list action :=
  Guard reject_duplicates :: rebuild_grants "approved_operation_grants_v3" grants_v3.

Definition migrate_v4 : list action :=
  [Exec (AddColumn "hitl_sessions" (text_default "tool_call_id" "")); Exec Commit].

Definition migrate_v5 : list action := rebuild_grants "approved_operation_grants_v5" grants_v5.

Definition migrate_v6 : list action :=
  [create_if_missing "channel_writes" channel_writes_table;
   add_index "idx_writes_thread" (index_on "channel_writes" "thread_id");
   Exec Commit].

Definition CURRENT_SCHEMA_VERSION : Z := 6.

Definition migrations : list (Z * list action) :=
  [(1, migrate_v1); (2, migrate_v2); (3, migrate_v3); (4, migrate_v4); (5, migrate_v5); (6, migrate_v6)].

(** ** Initialisation *)

(** [SELECT version ... ORDER BY version DESC LIMIT 1], or 0. *)
Definition current_version (db : Db) : result Z :=
  match oget (tables db) "_schema_version" with
  | None => no_such_table "_schema_version"
  | Some t =>
      match order_by (fun a b => b <=? a)
              (omap (fun r => match r with [VInt n] => Some n | _ => None end) (t_rows t)) with
      | n :: _ => Ok n
      | [] => Ok 0
      end
  end.

(** What is left to do once the version is read. *)
Definition upgrade (current target : Z) : list action :=
  concat (map (fun m => if (current <? fst m) && (fst m <=? target) then snd m else []) migrations)
  ++ (if current <? target then [Exec (InsertOrReplaceInt "_schema_version" target); Exec Commit] else []).

Fixpoint perform (acts : list action) (c : Conn) : result unit * Conn :=
  match acts with
  | [] => (Ok tt, c)
  | Guard check :: acts' =>
      match check (view c) with Ok _ => perform acts' c | Raise e => (Raise e, c) end
  | Exec s :: acts' =>
      match execute s c with Ok c' => perform acts' c' | Raise e => (Raise e, c) end
  end.

(** The actions of a start on a database, [None] when it is refused as too new. *)
Definition init_actions (target : Z) (db : Db) : result (list action) :=
  let* c := execute (CreateTable true "_schema_version" schema_version_table) (connect db) in
  let* current := current_version (view c) in
  if current >? target
  then Raise (RuntimeError ("Database schema version " +:+ str_of_Z current +:+ " is newer than expected "
         +:+ str_of_Z target +:+ ". Cannot downgrade."))
  else Ok (Exec (CreateTable true "_schema_version" schema_version_table) :: upgrade current target).

(** [init_database]: the outcome, and the database on disk once the connection is
    closed, which loses an open transaction. *)
Definition init_database (target : Z) (db : Db) : result unit * Db :=
  match init_actions target db with
  | Raise e =>
      (Raise e, committed (snd (perform [Exec (CreateTable true "_schema_version" schema_version_table)] (connect db))))
  | Ok acts => let '(r, c) := perform acts (connect db) in (r, committed c)
  end.

(** The database on disk when the process dies after [k] actions of a start. *)
Definition crash (k : nat) (target : Z) (db : Db) : Db :=
  match init_actions target db with
  | Raise _ => snd (init_database target db)
  | Ok acts => committed (snd (perform (firstn k acts) (connect db)))
  end.

Definition start : Db -> result unit * Db := init_database CURRENT_SCHEMA_VERSION.

(** ** Lemmas: constraints *)

Lemma distinct_spec {A} `{EqDecision A} (l : list A) : distinct l = true <-> NoDup l.
Proof. apply bool_decide_eq_true. Qed.

Lemma NoDup_countb {A} `{EqDecision A} (l : list A) :
  NoDup l <-> forall v, v ∈ l -> (countb (fun u => bool_decide (u = v)) l <= 1)%nat.
Proof.
  induction l as [|x l IH]; [split; [intros _ v Hv; by apply elem_of_nil in Hv|constructor]|].
  rewrite NoDup_cons, IH. setoid_rewrite countb_cons.
  assert (Hx : x ∉ l <-> countb (fun u => bool_decide (u = x)) l = 0%nat).
  { rewrite countb_0. setoid_rewrite bool_decide_eq_false. naive_solver. }
  split.
  - intros [Hnx H] v [->|Hv]%elem_of_cons.
    + rewrite bool_decide_true by done. apply Hx in Hnx. lia.
    + specialize (H v Hv). rewrite bool_decide_false; [lia|]. intros ->. done.
  - intros H. split.
    + apply Hx. specialize (H x ltac:(by left)). rewrite bool_decide_true in H by done. lia.
    + intros v Hv. specialize (H v ltac:(by right)). lia.
Qed.

Lemma duplicates_none vs : list_true (duplicates vs) = false <-> NoDup vs.
Proof.
  assert (Hin : forall v, v ∈ duplicates vs <-> v ∈ vs /\ repeated vs v = true).
  { intros v. unfold duplicates. rewrite elem_of_order_by, elem_of_remove_dups, !list_elem_of_In.
    apply List.filter_In. }
  rewrite NoDup_countb. destruct (duplicates vs) as [|x l]; cbn.
  - split; [|done]. intros _ v Hv. destruct (repeated vs v) eqn:E; [|by apply Nat.ltb_ge in E].
    exfalso. apply (not_elem_of_nil v), Hin. done.
  - split; [done|]. intros H. destruct (proj1 (Hin x) ltac:(by left)) as [Hx Hr].
    apply Nat.ltb_lt in Hr. specialize (H x Hx). lia.
Qed.

Lemma NoDup_single_key (cs : list Column) (c : string) rows :
  key_ok cs rows [c] = true -> (forall r, r ∈ rows -> is_null (cell cs c r) = false) ->
  NoDup (map (cell cs c) rows).
Proof.
  unfold key_ok. rewrite distinct_spec. cbn [map]. intros Hk Hn.
  apply (NoDup_fmap_1 (fun v => [v])). change (fmap (fun v => [v])) with (map (fun v : value => [v])).
  rewrite map_map. erewrite <-(forallb_filter_id _ (map _ rows)); [exact Hk|].
  apply forallb_forall. intros k (r & <- & Hr)%in_map_iff. cbn. rewrite Hn; [done|by apply list_elem_of_In].
Qed.

Lemma row_ok_not_null cs checks r k :
  row_ok cs checks r = true -> k ∈ cs -> c_notnull k = true -> is_null (cell cs (c_name k) r) = false.
Proof.
  unfold row_ok. intros ((_ & Hn)%andb_true_iff & _)%andb_true_iff Hk Hnn.
  rewrite forallb_forall in Hn. specialize (Hn k ltac:(by apply list_elem_of_In)). rewrite Hnn in Hn.
  by apply negb_true_iff in Hn.
Qed.

(** What the constraints of the grants ask of the rows. *)
Definition grants_ok (t : Table) (rows : list row) : bool := rows_ok (t_columns t) (t_keys t) (t_checks t) rows.

Lemma grants_ok_keys rows c :
  grants_ok grants_v3 rows = true -> c = "session_id" \/ c = "idempotency_key" ->
  key_ok (t_columns grants_v3) rows [c] = true /\ NoDup (map (cell (t_columns grants_v3) c) rows).
Proof.
  intros (Hr & Hk)%andb_true_iff Hc.
  assert (Hkey : key_ok (t_columns grants_v3) rows [c] = true).
  { rewrite forallb_forall in Hk. apply Hk. destruct Hc as [-> | ->]; cbn; auto. }
  split; [done|]. apply NoDup_single_key; [done|]. intros r Hin.
  rewrite forallb_forall in Hr. specialize (Hr r ltac:(by apply list_elem_of_In)).
  destruct Hc as [-> | ->]; [apply (row_ok_not_null _ _ r (text_required "session_id") Hr)|
                             apply (row_ok_not_null _ _ r (text_required "idempotency_key") Hr)]; cbn; try done; set_solver.
Qed.

Lemma check_ok_weaken cs r c l l' :
  (forall s, s ∈ l -> s ∈ l') -> check_ok cs r (c, l) = true -> check_ok cs r (c, l') = true.
Proof.
  unfold check_ok. cbn. intros Hl. destruct (cell cs c r); try done. rewrite !str_in_spec. auto.
Qed.

Lemma grants_ok_v5 rows : grants_ok grants_v3 rows = true -> grants_ok grants_v5 rows = true.
Proof.
  unfold grants_ok, rows_ok. rewrite !andb_true_iff. intros [Hr Hk]. split; [|exact Hk].
  rewrite !forallb_forall in Hr |- *. intros r Hin. specialize (Hr r Hin). revert Hr. unfold row_ok.
  rewrite !andb_true_iff. intros [Hw Hc]. split; [exact Hw|]. cbn [t_checks grants_v3 grants_v5 constrained_grants new_table forallb] in *.
  rewrite !andb_true_iff in *. destruct Hc as (Hd & Hs & _). split_and!; [done| |done].
  eapply check_ok_weaken; [|exact Hs]. intros s. rewrite elem_of_app. auto.
Qed.

Lemma unnamed_duplicates rows c :
  NoDup (map (cell (t_columns grants_v3) c) rows) ->
  list_true (duplicates (map (cell (t_columns grants_v3) c) rows)) = false /\
  list_true (duplicates (List.filter named_key (map (cell (t_columns grants_v3) c) rows))) = false.
Proof.
  intros Hnd. rewrite !duplicates_none. split; [done|]. apply NoDup_ListNoDup. apply List.NoDup_filter.
  by apply NoDup_ListNoDup.
Qed.

(** ** Databases of each version *)

(** The same tables, holding other rows; the recorded version stays. *)
Definition fill (rows : string -> list row) (db : Db) : Db :=
  set_tables db (map (fun kv => (fst kv, if String.eqb (fst kv) "_schema_version" then snd kv
                                         else with_rows (snd kv) (rows (fst kv)))) (tables db)).

(** A database of version [v], made by this code, with any rows. *)
Definition holding (v : Z) (rows : string -> list row) : Db := fill rows (snd (init_database v empty_db)).

Definition rows_of (db : Db) (name : string) : option (list row) := t_rows <$> oget (tables db) name.

(** A database without its rows. *)
Definition shape (db : Db) : Db :=
  set_tables db (map (fun kv => (fst kv, with_rows (snd kv) [])) (tables db)).

(** The rows of a table once the migrations after version [v] are done. *)
Definition upgraded (v : Z) (name : string) (rows : list row) : list row :=
  if String.eqb name "hitl_sessions" && (v <? 4) then map (fun r => r ++ [VText ""]) rows else rows.

(** Every table of [db], but the one that records the version. *)
Definition user_tables (db : Db) : list (string * Table) :=
  List.filter (fun kv => negb (String.eqb (fst kv) "_schema_version")) (tables db).

Definition keeps_rows (v : Z) (db db' : Db) : Prop :=
  map (fun kv => rows_of db' (fst kv)) (user_tables db) =
  map (fun kv => Some (upgraded v (fst kv) (t_rows (snd kv)))) (user_tables db).

(** The databases on disk after each action. *)
Fixpoint states (acts : list action) (c : Conn) : list Db :=
  committed c ::
  match acts with
  | [] => []
  | Guard check :: acts' => match check (view c) with Ok _ => states acts' c | Raise _ => [] end
  | Exec s :: acts' => match execute s c with Ok c' => states acts' c' | Raise _ => [] end
  end.

Lemma states_head acts c : committed c ∈ states acts c.
Proof. destruct acts; by left. Qed.

Lemma perform_in_states k acts c : committed (snd (perform (firstn k acts) c)) ∈ states acts c.
Proof.
  revert k c. induction acts as [|[s|check] acts IH]; intros [|k] c; try apply states_head; cbn.
  - destruct (execute s c) as [c'|]; [right; apply IH|by left].
  - destruct (check (view c)); [right; apply IH|by left].
Qed.

(** Case analysis on a version. *)
Lemma version_cases (P : Z -> Prop) :
  P 0 -> P 1 -> P 2 -> P 3 -> P 4 -> P 5 -> P 6 -> forall v, 0 <= v <= 6 -> P v.
Proof.
  intros. assert (v = 0 \/ v = 1 \/ v = 2 \/ v = 3 \/ v = 4 \/ v = 5 \/ v = 6) by lia.
  naive_solver.
Qed.

(** ** Lemmas: running the actions *)

Lemma perform_exec s acts c c' : execute s c = Ok c' -> perform (Exec s :: acts) c = perform acts c'.
Proof. intros H. cbn [perform]. by rewrite H. Qed.

Lemma perform_guard check acts c : check (view c) = Ok tt -> perform (Guard check :: acts) c = perform acts c.
Proof. intros H. cbn [perform]. by rewrite H. Qed.

Lemma insert_select_inv dst src c c' s d :
  execute (InsertSelect dst src) c = Ok c' ->
  oget (tables (view c)) src = Some s -> oget (tables (view c)) dst = Some d -> t_rows d = [] ->
  c' = {| committed := committed c;
          working := Some (set_tables (view c) (oset (tables (view c)) dst (with_rows d (t_rows s)))) |}.
Proof.
  unfold execute. cbn [apply]. unfold on_table, add_rows. intros H Hs Hd Hr. rewrite Hs, Hd, Hr in H. cbn [app] in H.
  destruct (rows_ok _ _ _ _); [|done]. cbn in H. destruct (working c); by injection H as <-.
Qed.

Lemma unique_index_inv name table column c c' t db :
  execute (CreateIndex name (unique_on table column)) c = Ok c' ->
  working c = Some db -> oget (indexes db) name = None -> oget (tables db) table = Some t ->
  c' = {| committed := committed c;
          working := Some {| tables := tables db; indexes := indexes db ++ [(name, unique_on table column)] |} |}.
Proof.
  unfold execute, view. cbn. intros H Hw Hi Ht. rewrite Hw in H. cbn in H. rewrite Hi, Ht in H.
  destruct (key_ok _ _ _); [|done]. cbn in H. by injection H as <-.
Qed.

Lemma execute_insert_select dst src c s d :
  oget (tables (view c)) src = Some s -> oget (tables (view c)) dst = Some d ->
  t_rows d = [] -> grants_ok d (t_rows s) = true ->
  execute (InsertSelect dst src) c =
  Ok {| committed := committed c;
        working := Some (set_tables (view c) (oset (tables (view c)) dst (with_rows d (t_rows s)))) |}.
Proof.
  unfold grants_ok. intros Hs Hd Hr Hok. destruct (execute (InsertSelect dst src) c) as [c'|e] eqn:E.
  - f_equal. by eapply insert_select_inv.
  - exfalso. revert E. unfold execute. cbn [apply]. unfold on_table, add_rows. rewrite Hs, Hd, Hr. cbn [app].
    by rewrite Hok.
Qed.

Lemma execute_unique_index name table column c t db :
  working c = Some db ->
  oget (indexes db) name = None -> oget (tables db) table = Some t ->
  key_ok (t_columns t) (t_rows t) [column] = true ->
  execute (CreateIndex name (unique_on table column)) c =
  Ok {| committed := committed c;
        working := Some {| tables := tables db; indexes := indexes db ++ [(name, unique_on table column)] |} |}.
Proof. intros Hw Hi Ht Hk. unfold execute, view. cbn. rewrite Hw. cbn. rewrite Hi, Ht, Hk. done. Qed.

Lemma cell_names cs cs' c r : map c_name cs = map c_name cs' -> cell cs c r = cell cs' c r.
Proof.
  intros H. unfold cell. f_equal. f_equal. revert cs' H.
  induction cs as [|k cs IH]; intros [|k' cs'] [=]; [done|]. cbn. rewrite H0. by rewrite (IH cs').
Qed.

Lemma reject_duplicates_ok db t :
  oget (tables db) "approved_operation_grants" = Some t ->
  map c_name (t_columns t) = map c_name (t_columns grants_v3) ->
  grants_ok grants_v3 (t_rows t) = true -> reject_duplicates db = Ok tt.
Proof.
  intros Ht Hc H. unfold reject_duplicates, column_values. rewrite Ht.
  assert (Hm : forall c, map (cell (t_columns t) c) (t_rows t) = map (cell (t_columns grants_v3) c) (t_rows t)).
  { intros c. apply List.map_ext. intros r. by apply cell_names. }
  rewrite !Hm.
  destruct (grants_ok_keys _ "session_id" H ltac:(auto)) as [_ N1].
  destruct (grants_ok_keys _ "idempotency_key" H ltac:(auto)) as [_ N2].
  destruct (unnamed_duplicates _ _ N1) as [-> _]. by destruct (unnamed_duplicates _ _ N2) as [_ ->].
Qed.

(** A start on a database of version [v] is the creation of the version table, then the
    migrations after [v]. *)
Section starts.
Context (db : Db) (v : Z) (c0 : Conn).
Hypothesis creates : execute (CreateTable true "_schema_version" schema_version_table) (connect db) = Ok c0.
Hypothesis version : current_version (view c0) = Ok v.
Hypothesis not_newer : v <= CURRENT_SCHEMA_VERSION.

Lemma init_actions_upgrade :
  init_actions CURRENT_SCHEMA_VERSION db =
  Ok (Exec (CreateTable true "_schema_version" schema_version_table) :: upgrade v CURRENT_SCHEMA_VERSION).
Proof.
  unfold init_actions. rewrite creates. cbn [res_bind]. rewrite version. cbn [res_bind].
  by replace (v >? CURRENT_SCHEMA_VERSION) with false by lia.
Qed.

Lemma start_performs c :
  perform (upgrade v CURRENT_SCHEMA_VERSION) c0 = (Ok tt, c) -> start db = (Ok tt, committed c).
Proof.
  intros Hp. unfold start, init_database. rewrite init_actions_upgrade. cbn [perform]. by rewrite creates, Hp.
Qed.

Lemma crash_in_states (P : Db -> Prop) k :
  P db -> Forall P (states (upgrade v CURRENT_SCHEMA_VERSION) c0) -> P (crash k CURRENT_SCHEMA_VERSION db).
Proof.
  intros Hp HP. unfold crash. rewrite init_actions_upgrade. destruct k as [|k]; [done|]. cbn [firstn perform].
  rewrite creates. rewrite Forall_forall in HP. apply HP, perform_in_states.
Qed.
End starts.

Lemma states_exec (P : Db -> Prop) s acts c :
  P (committed c) -> (forall c', execute s c = Ok c' -> Forall P (states acts c')) ->
  Forall P (states (Exec s :: acts) c).
Proof. intros Hc H. cbn [states]. constructor; [done|]. destruct (execute s c); [auto|constructor]. Qed.

Lemma states_exec_ok (P : Db -> Prop) s acts c c' :
  execute s c = Ok c' -> P (committed c) -> Forall P (states acts c') -> Forall P (states (Exec s :: acts) c).
Proof. intros He Hc H. apply states_exec; [done|]. intros c2. rewrite He. by intros [= <-]. Qed.

Lemma states_guard (P : Db -> Prop) check acts c :
  P (committed c) -> Forall P (states acts c) -> Forall P (states (Guard check :: acts) c).
Proof. intros Hc H. cbn [states]. constructor; [done|]. destruct (check (view c)); [auto|constructor]. Qed.

Lemma states_nil (P : Db -> Prop) c : P (committed c) -> Forall P (states [] c).
Proof. intros H. cbn. by constructor. Qed.

(** The statements of [upgrade], the tables they create left folded. *)
Ltac list_actions :=
  lazy beta iota zeta delta [upgrade migrations migrate_v1 migrate_v2 migrate_v3 migrate_v4 migrate_v5 migrate_v6 rebuild_grants
    create_if_missing add_index index_on unique_on concat map app fst snd andb
    Z.ltb Z.leb Z.compare Pos.compare Pos.compare_cont CURRENT_SCHEMA_VERSION].

(** Run the first action, whose checks the lemmas in [facts] pass. *)
Ltac perform_step facts :=
  match goal with
  | |- perform (Exec (InsertSelect _ _) :: _) _ = _ =>
      etransitivity; [apply perform_exec; eapply execute_insert_select; [vm_compute; reflexivity..|facts]|]
  | |- perform (Exec (CreateIndex _ {| ix_table := _; ix_columns := _; ix_unique := true |}) :: _) _ = _ =>
      etransitivity; [apply perform_exec; eapply execute_unique_index; [vm_compute; reflexivity..|facts]|]
  | |- perform (Exec _ :: _) _ = _ => etransitivity; [apply perform_exec; vm_compute; reflexivity|]
  | |- perform (Guard _ :: _) _ = _ => 
      etransitivity; [apply perform_guard; eapply reject_duplicates_ok; [vm_compute; reflexivity..|facts]|]
  end.

(** One state of a run, [kept] showing what holds of it. *)
Ltac states_step kept :=
  match goal with
  | |- Forall _ (states [] _) => apply states_nil; kept
  | |- Forall _ (states (Guard _ :: _) _) => apply states_guard; [kept|]
  | |- Forall _ (states (Exec (InsertSelect _ _) :: _) _) =>
      apply states_exec; [kept|let H := fresh in intros ? H; eapply insert_select_inv in H; [|vm_compute; reflexivity..]; subst]
  | |- Forall _ (states (Exec (CreateIndex _ {| ix_table := _; ix_columns := _; ix_unique := true |}) :: _) _) =>
      apply states_exec; [kept|let H := fresh in intros ? H; eapply unique_index_inv in H; [|vm_compute; reflexivity..]; subst]
  | |- Forall _ (states (Exec _ :: _) _) => eapply states_exec_ok; [vm_compute; reflexivity|kept|]
  end.

(** The database after [n] more starts. *)
Definition restarts (n : nat) (db : Db) : Db := Nat.iter n (fun d => snd (start d)) db.

Lemma restarts_fixed n db : snd (start db) = db -> restarts n db = db.
Proof. intros H. induction n as [|n IH]; [done|].
  change (restarts (S n) db) with (snd (start (restarts n db))). by rewrite IH. Qed.

Lemma restarts_S n db : restarts (S n) db = restarts n (snd (start db)).
Proof. unfold restarts. by rewrite Nat.iter_succ_r. Qed.

(** A second start changes nothing, and ends as the first one did. *)
Definition settled (db : Db) : bool :=
  let '(r, db1) := start db in
  let '(r1, db2) := start db1 in
  bool_decide (db2 = db1) && bool_decide ((if r is Ok _ then true else false) = (if r1 is Ok _ then true else false)).

Lemma settled_restarts n db :
  settled db = true -> fst (start (restarts n db)) = Ok tt <-> fst (start db) = Ok tt.
Proof.
  unfold settled. destruct (start db) as [r db1] eqn:E. destruct (start db1) as [r1 db2] eqn:E1.
  intros (->%bool_decide_eq_true & Hr%bool_decide_eq_true)%andb_true_iff. destruct n as [|n]; [by cbn; rewrite E|].
  rewrite restarts_S, E. cbn [fst snd]. rewrite restarts_fixed by (by rewrite E1). rewrite E1. cbn [fst].
  destruct r as [[]|], r1 as [[]|]; naive_solver.
Qed.

(** The crash points of a first start after which every later start fails. *)
Definition wedged (k : nat) : bool := ((17 <=? k) && (k <=? 24) || (26 <=? k) && (k <=? 40))%nat.

Definition first_crash (k : nat) : Db := crash k CURRENT_SCHEMA_VERSION empty_db.

Lemma first_crash_end k : (41 <= k)%nat -> first_crash k = first_crash 41.
Proof.
  intros Hk. unfold first_crash, crash. destruct (init_actions CURRENT_SCHEMA_VERSION empty_db) as [acts|] eqn:E; [|done].
  assert (Hl : (length acts <= 41)%nat).
  { assert (H : match init_actions CURRENT_SCHEMA_VERSION empty_db with Ok l => (length l <=? 41)%nat | _ => true end = true)
      by (vm_compute; reflexivity).
    rewrite E in H. by apply Nat.leb_le. }
  rewrite !firstn_all2 by lia. done.
Qed.

Lemma first_crash_settled k :
  settled (first_crash k) = true /\
  (if fst (start (first_crash k)) is Ok _ then negb (wedged k) else wedged k) = true.
Proof.
  assert (H : forallb (fun k => settled (first_crash k) &&
            (if fst (start (first_crash k)) is Ok _ then negb (wedged k) else wedged k)) (seq 0 42) = true)
    by (vm_compute; reflexivity).
  rewrite forallb_forall in H. destruct (decide (k <= 41)%nat) as [Hk|Hk].
  - apply andb_true_iff, H, in_seq. lia.
  - rewrite first_crash_end by lia. replace (wedged k) with (wedged 41); [apply andb_true_iff, H, in_seq; lia|].
    unfold wedged. destruct (Nat.leb_spec k 24), (Nat.leb_spec k 40); try lia. by rewrite !andb_false_r.
Qed.

(** A start runs to its end, which the theorems' remaining parts then evaluate. *)
Ltac upgraded_by facts :=
  eexists; split;
    [eapply start_performs; [vm_compute; reflexivity..|done|list_actions; repeat perform_step facts; reflexivity]|];
  do 3 (split; [vm_compute; reflexivity|]); vm_compute; reflexivity.

(** ** Properties *)

(** C8: Starting on a database that this code made, at any version and holding any rows
    (from version 2 on, grants that respect the constraints that version 3 adds),
    succeeds; the result has exactly the tables, columns, constraints and indexes of a
    fresh start, records version 6, keeps every row of every table (approval
    sessions older than version 4 gain an empty tool_call_id), and starting again changes
    nothing. *)
Theorem upgrade_equivalent_to_fresh_start v rows :
  0 <= v <= 6 -> (2 <= v -> grants_ok grants_v3 (rows "approved_operation_grants") = true) ->
  exists db', start (holding v rows) = (Ok tt, db') /\ start db' = (Ok tt, db') /\
    shape db' = shape (snd (start empty_db)) /\ current_version db' = Ok 6 /\
    keeps_rows v (holding v rows) db'.
Proof.
  set (P := fun v => (2 <= v -> grants_ok grants_v3 (rows "approved_operation_grants") = true) ->
    exists db', start (holding v rows) = (Ok tt, db') /\ start db' = (Ok tt, db') /\
      shape db' = shape (snd (start empty_db)) /\ current_version db' = Ok 6 /\ keeps_rows v (holding v rows) db').
  intros Hv. revert v Hv. apply (version_cases P); subst P; cbv beta.
  1-2: intros _; upgraded_by ltac:(vm_compute; reflexivity).
  all: intros H; specialize (H ltac:(lia)); pose proof (grants_ok_v5 _ H) as H5;
    destruct (grants_ok_keys _ "idempotency_key" H ltac:(auto)) as [K _];
    upgraded_by ltac:(first [exact H|exact H5|exact K]).
Qed.

(** C24: Wherever a start is cut off, by a crash or by a statement that fails, on a database
    of any version and whatever its rows, no row is lost: each table still holds its
    rows, approval sessions possibly with their new column. *)
Theorem crash_keeps_every_row v rows k :
  0 <= v <= 6 ->
  keeps_rows 6 (holding v rows) (crash k CURRENT_SCHEMA_VERSION (holding v rows)) \/
  keeps_rows v (holding v rows) (crash k CURRENT_SCHEMA_VERSION (holding v rows)).
Proof.
  intros Hv. revert v Hv. apply version_cases.
  all: eapply crash_in_states with
    (P := fun db' => keeps_rows 6 (holding _ rows) db' \/ keeps_rows _ (holding _ rows) db');
    [vm_compute; reflexivity..|done|left; vm_compute; reflexivity|].
  all: list_actions; repeat states_step ltac:(first [left; vm_compute; reflexivity|right; vm_compute; reflexivity]).
Qed.

(** When the process dies during its first start, at the [k]-th of the 41 actions, every
    later start succeeds exactly when [k] is not among 17 to 24 or 26 to 40: since the
    version is recorded only at the very end and each CREATE or ALTER is committed by
    itself, a crash inside migration 3, or anywhere after it, leaves a database on which
    every later start fails, however often it is repeated. *)
Theorem first_start_crash_recovery k n :
  fst (start (restarts n (crash k CURRENT_SCHEMA_VERSION empty_db))) = Ok tt <->
  ~ (17 <= k <= 24 \/ 26 <= k <= 40)%nat.
Proof.
  fold (first_crash k). destruct (first_crash_settled k) as [Hs Hw]. rewrite (settled_restarts _ _ Hs).
  assert (Hb : wedged k = true <-> (17 <= k <= 24 \/ 26 <= k <= 40)%nat).
  { unfold wedged. rewrite orb_true_iff, !andb_true_iff, !Nat.leb_le. lia. }
  rewrite <-Hb. destruct (fst (start (first_crash k))) as [[]|e]; [apply negb_true_iff in Hw|]; rewrite Hw; naive_solver.
Qed.

(** A database whose recorded version is newer than the code's is refused with an
    error that names both versions, and nothing on disk changes. *)
Theorem newer_database_refused db t v :
  oget (tables db) "_schema_version" = Some t -> current_version db = Ok v -> CURRENT_SCHEMA_VERSION < v ->
  start db = (Raise (RuntimeError ("Database schema version " +:+ str_of_Z v +:+
    " is newer than expected 6. Cannot downgrade.")), db).
Proof.
  intros Ht Hv Hlt. unfold start, init_database.
  assert (Hc : execute (CreateTable true "_schema_version" schema_version_table) (connect db) = Ok (connect db)).
  { unfold execute, view. cbn. by rewrite Ht. }
  unfold init_actions. rewrite Hc. cbn [res_bind]. change (view (connect db)) with db. rewrite Hv. cbn [res_bind].
  replace (v >? CURRENT_SCHEMA_VERSION) with true by lia. cbn [perform]. by rewrite Hc.
Qed.

Example newer_database_refused_witness :
  let db := snd (perform [Exec (InsertOrReplaceInt "_schema_version" 7); Exec Commit] (connect (snd (start empty_db)))) in
  start (committed db) =
  (Raise (RuntimeError "Database schema version 7 is newer than expected 6. Cannot downgrade."), committed db).
Proof.
  intros db. refine (newer_database_refused (committed db) _ 7 _ _ _); [vm_compute; reflexivity..].
Defined.

(** Two grants with the same, empty idempotency key. *)
Definition unkeyed_grant (session : string) : row :=
  [VText session; VText "u1"; VText "m1"; VText "th1"; VNull; VNull; VText "call_1"; VText "execute_transfer";
   VText "{}"; VText "d"; VText ""; VText "approved"; VText "APPROVED"; VText "2025-01-01"; VNull; VNull; VNull;
   VNull; VNull; VInt 1].

Definition unkeyed (name : string) : list row :=
  if String.eqb name "approved_operation_grants" then [unkeyed_grant "s1"; unkeyed_grant "s2"] else [].

(** Two rows without an idempotency key pass the check for duplicates, which skips them, but
    not the UNIQUE constraint: the copy fails, the new table stays behind, and the next
    start fails on it. *)
Lemma unkeyed_grants_wedge :
  let '(r, db) := start (holding 2 unkeyed) in
  r = Raise (IntegrityError "constraint failed") /\
  start db = (Raise (OperationalError "table approved_operation_grants_v3 already exists"), db).
Proof. vm_compute. auto. Qed.

Example upgrade_equivalent_to_fresh_start_witness :
  let rows name := if String.eqb name "approved_operation_grants" then [unkeyed_grant "s1"]
                   else if String.eqb name "hitl_sessions" then [[VText "s1"; VText "u1"; VText "th1"; VText "APPROVED"; VText "execute_transfer"; VText "{}"; VNull;
                              VNull; VNull; VInt 2; VText "2025-01-01"; VText "2025-01-01"; VNull]]
                   else [] in
  exists db', start (holding 2 rows) = (Ok tt, db') /\ start db' = (Ok tt, db') /\
    shape db' = shape (snd (start empty_db)) /\ current_version db' = Ok 6 /\
    keeps_rows 2 (holding 2 rows) db'.
Proof.
  intros rows. apply (upgrade_equivalent_to_fresh_start 2 rows); [lia|]. intros _. vm_compute. reflexivity.
Defined.

Example crash_keeps_every_row_witness :
  keeps_rows 6 (holding 2 unkeyed) (crash 4 CURRENT_SCHEMA_VERSION (holding 2 unkeyed)) \/
  keeps_rows 2 (holding 2 unkeyed) (crash 4 CURRENT_SCHEMA_VERSION (holding 2 unkeyed)).
Proof. apply (crash_keeps_every_row 2 unkeyed 4). lia. Defined.
