(* ===== verification/SqlStmt.v ===== *)
(** The statements the stores send to SQLite: INSERT, INSERT OR IGNORE, UPDATE and SELECT (with
    WHERE and ORDER BY) over one table of [Sql], with SQL's three-valued conditions and the
    table's constraints; and the relation between such a table and the finite map a store is
    modelled by.

    Comparisons are between texts or between integers, as the typed columns make them;
    sums are of integers. *)
From Stdlib Require Import Sorted.
From S2P Require Import Prelude PyStr PyTime Sql.

(** ** Conditions *)

Inductive expr : Type := Col (c : string) | Val (v : value) | Plus (a b : expr).

Inductive cond : Type :=
  | CEq (a b : expr)
  | CGt (a b : expr)
  | CIn (a : expr) (texts : list string)
  | CIsNull (a : expr)
  | CNotNull (a : expr)
  | CAnd (p q : cond)
  | COr (p q : cond).

Definition add_values (a b : value) : value :=
  match a, b with VInt x, VInt y => VInt (x + y) | _, _ => VNull end.

Fixpoint eval (cs : list Column) (r : row) (e : expr) : value :=
  match e with Col c => cell cs c r | Val v => v | Plus a b => add_values (eval cs r a) (eval cs r b) end.

(** A comparison with NULL is unknown. *)
Definition compare (f : value -> value -> bool) (a b : value) : option bool :=
  match a, b with VNull, _ | _, VNull => None | _, _ => Some (f a b) end.

Definition value_gt (a b : value) : bool :=
  match a, b with
  | VText x, VText y | VBlob x, VBlob y => text_lt y x
  | VInt x, VInt y => y <? x
  | VText _, VInt _ | VBlob _, (VInt _ | VText _) => true
  | _, _ => false
  end.

Definition and3 (p q : option bool) : option bool :=
  match p, q with
  | Some false, _ | _, Some false => Some false
  | Some true, Some true => Some true
  | _, _ => None
  end.

Definition or3 (p q : option bool) : option bool :=
  match p, q with
  | Some true, _ | _, Some true => Some true
  | Some false, Some false => Some false
  | _, _ => None
  end.

Definition value_eq (a b : value) : bool :=
  match a, b with VText x, VText y | VBlob x, VBlob y => String.eqb x y | VInt x, VInt y => x =? y | _, _ => false end.

Fixpoint holds (cs : list Column) (r : row) (c : cond) : option bool :=
  match c with
  | CEq a b => compare value_eq (eval cs r a) (eval cs r b)
  | CGt a b => compare value_gt (eval cs r a) (eval cs r b)
  | CIn a texts => compare (fun x _ => match x with VText s => str_in s texts | _ => false end) (eval cs r a) (VText "")
  | CIsNull a => Some (is_null (eval cs r a))
  | CNotNull a => Some (negb (is_null (eval cs r a)))
  | CAnd p q => and3 (holds cs r p) (holds cs r q)
  | COr p q => or3 (holds cs r p) (holds cs r q)
  end.

Definition selected (cs : list Column) (c : cond) (r : row) : bool :=
  match holds cs r c with Some true => true | _ => false end.

Definition text_is (c s : string) : cond := CEq (Col c) (Val (VText s)).
Definition int_is (c : string) (n : Z) : cond := CEq (Col c) (Val (VInt n)).

Fixpoint all_of (c : cond) (cs : list cond) : cond :=
  match cs with [] => c | d :: cs' => all_of (CAnd c d) cs' end.

(** ** Statements *)

(** [INSERT INTO t (columns) VALUES (...)]: a column left out takes its default. *)
Definition insert_row (cs : list Column) (vals : list (string * value)) : row :=
  map (fun c => match oget vals (c_name c) with Some v => v | None => default VNull (c_default c) end) cs.

Definition sql_insert (vals : list (string * value)) (t : Table) : result Table :=
  add_rows t [insert_row (t_columns t) vals].

(** [INSERT OR IGNORE]: a row that breaks a constraint is not inserted. *)
Definition sql_insert_or_ignore (vals : list (string * value)) (t : Table) : Table :=
  match sql_insert vals t with Ok t' => t' | Raise _ => t end.

(** The error of an INSERT that a constraint refuses: the first CHECK the row breaks, else the
    first key another row has already. *)
Definition violation (name : string) (t : Table) (r : row) : exn :=
  match List.find (fun k => negb (check_ok (t_columns t) r k)) (t_checks t) with
  | Some (c, texts) => IntegrityError ("CHECK constraint failed: " +:+ c +:+ " IN ('" +:+ join "','" texts +:+ "')")
  | None =>
      match List.find (fun key => negb (key_ok (t_columns t) (t_rows t ++ [r]) key)) (t_keys t) with
      | Some key => IntegrityError ("UNIQUE constraint failed: " +:+ join ", " (map (fun c => name +:+ "." +:+ c) key))
      | None => IntegrityError "NOT NULL constraint failed"
      end
  end.

(** [UPDATE t SET ... WHERE ...]: the new values are computed from the old row; the constraints
    are those of the rows it leaves. *)
Definition set_cells (cs : list Column) (sets : list (string * expr)) (r : row) : row :=
  zip_with (fun c v => match oget sets (c_name c) with Some e => eval cs r e | None => v end) cs r.

Definition sql_update (sets : list (string * expr)) (c : cond) (t : Table) : result (nat * Table) :=
  let hit := selected (t_columns t) c in
  let rows := map (fun r => if hit r then set_cells (t_columns t) sets r else r) (t_rows t) in
  if rows_ok (t_columns t) (t_keys t) (t_checks t) rows then Ok (countb hit (t_rows t), with_rows t rows)
  else Raise (IntegrityError "constraint failed").

(** [INSERT OR REPLACE]: the rows that agree with the new one on a key are deleted first. *)
Definition same_key (cs : list Column) (r r' : row) (key : list string) : bool :=
  let k x := map (fun c => cell cs c x) key in
  negb (existsb is_null (k r)) && bool_decide (k r = k r').

Definition sql_replace (vals : list (string * value)) (t : Table) : result Table :=
  let r := insert_row (t_columns t) vals in
  add_rows (with_rows t (List.filter (fun r' => negb (existsb (same_key (t_columns t) r r') (t_keys t))) (t_rows t))) [r].

(** [DELETE FROM t WHERE ...] *)
Definition sql_delete (c : cond) (t : Table) : Table :=
  with_rows t (List.filter (fun r => negb (selected (t_columns t) c r)) (t_rows t)).

(** [SELECT * FROM t WHERE ...], and its first row. *)
Definition sql_select (c : cond) (t : Table) : list row := List.filter (selected (t_columns t) c) (t_rows t).
Definition sql_select_one (c : cond) (t : Table) : option row := List.find (selected (t_columns t) c) (t_rows t).

(** [WHERE] on conditions joined by AND, or no [WHERE] at all. *)
Definition select_where (cs : list cond) (t : Table) : list row :=
  match cs with [] => t_rows t | c :: cs' => sql_select (all_of c cs') t end.

Definition ascending (cs : list Column) (c : string) (a b : row) : bool := value_le (cell cs c a) (cell cs c b).
Definition descending (cs : list Column) (c : string) (a b : row) : bool := ascending cs c b a.

(** [ORDER BY]: the rows in an order the clause allows.  Rows that agree on the sorting column
    come in any order. *)
Definition ordered (le : row -> row -> bool) (rows out : list row) : Prop := out ≡ₚ rows /\ StronglySorted (fun a b => le a b = true) out.

(** ** Values of columns *)

Definition opt_value (o : option string) : value := match o with Some s => VText s | None => VNull end.
Definition value_opt (v : value) : option string := match v with VText s => Some s | _ => None end.
Definition value_text (v : value) : string := match v with VText s => s | _ => "" end.
Definition value_int (v : value) : Z := match v with VInt n => n | _ => 0 end.

Lemma value_opt_back o : value_opt (opt_value o) = o.
Proof. by destruct o. Qed.

(** ** Lemmas: conditions *)

Lemma and3_known a b : and3 (Some a) (Some b) = Some (a && b).
Proof. by destruct a, b. Qed.

Lemma or3_known a b : or3 (Some a) (Some b) = Some (a || b).
Proof. by destruct a, b. Qed.

Lemma holds_all_of cs r c b l bs :
  holds cs r c = Some b -> Forall2 (fun c b => holds cs r c = Some b) l bs ->
  holds cs r (all_of c l) = Some (fold_left andb bs b).
Proof.
  intros Hc Hl. revert c b Hc. induction Hl as [|d k l bs Hd _ IH]; intros c b Hc; [done|].
  apply IH. cbn [holds]. by rewrite Hc, Hd, and3_known.
Qed.

Lemma holds_and cs r p q a b : holds cs r p = Some a -> holds cs r q = Some b -> holds cs r (CAnd p q) = Some (a && b).
Proof. cbn [holds]. intros -> ->. apply and3_known. Qed.

Lemma holds_text cs r c x s : cell cs c r = VText x -> holds cs r (text_is c s) = Some (String.eqb x s).
Proof. cbn [text_is holds eval]. by intros ->. Qed.

Lemma holds_int cs r c n m : cell cs c r = VInt n -> holds cs r (int_is c m) = Some (n =? m).
Proof. cbn [int_is holds eval]. by intros ->. Qed.

Lemma selected_known cs r c b : holds cs r c = Some b -> selected cs c r = b.
Proof. unfold selected. intros ->. by destruct b. Qed.

(** ** Lemmas: keys of one column *)

Lemma nullable_key_ok {X} cs (to_row : X -> row) (f : X -> option string) c xs :
  (forall x, cell cs c (to_row x) = opt_value (f x)) ->
  key_ok cs (map to_row xs) [c] = true <-> NoDup (omap f xs).
Proof.
  intros Hf. unfold key_ok, distinct. rewrite bool_decide_eq_true, map_map. cbn [map].
  assert (List.filter (fun k => negb (existsb is_null k)) (map (fun x => [cell cs c (to_row x)]) xs)
          = map (fun s => [VText s]) (omap f xs)) as ->.
  { induction xs as [|x xs IH]; [done|]. cbn [map List.filter]. rewrite Hf, IH. cbn [omap list_omap]. by destruct (f x). }
  split; [apply NoDup_fmap_1|]. intros H. apply NoDup_fmap_2; [|done]. by intros x y [= ->].
Qed.

Lemma text_key_ok {X} cs (to_row : X -> row) (f : X -> string) c xs :
  (forall x, cell cs c (to_row x) = VText (f x)) ->
  key_ok cs (map to_row xs) [c] = true <-> NoDup (map f xs).
Proof.
  intros Hf. rewrite (nullable_key_ok cs to_row (fun x => Some (f x)) c) by done.
  assert (omap (fun x => Some (f x)) xs = map f xs) as ->; [|done]. induction xs as [|x xs IH]; [done|]. cbn. by rewrite IH.
Qed.

(** A key whose cells are never NULL. *)
Lemma key_values_ok {K} cs rows key (f : K -> list value) ks :
  Inj (=) (=) f -> (forall k, existsb is_null (f k) = false) ->
  map (fun r => map (fun c => cell cs c r) key) rows = map f ks ->
  key_ok cs rows key = true <-> NoDup ks.
Proof.
  intros Hinj Hn Hf. unfold key_ok, distinct. rewrite bool_decide_eq_true, Hf.
  assert (List.filter (fun k => negb (existsb is_null k)) (map f ks) = map f ks) as ->; [|apply NoDup_fmap; apply Hinj].
  clear -Hn. induction ks as [|k ks IH]; [done|]. cbn [map List.filter]. by rewrite Hn, IH.
Qed.

(** ** Lemmas: WHERE and ORDER BY *)

Lemma all_of_selected cs r c l : selected cs (all_of c l) r = selected cs c r && forallb (fun d => selected cs d r) l.
Proof.
  revert c. induction l as [|d l IH]; intros c; cbn [all_of forallb]; [by rewrite andb_true_r|].
  rewrite IH, andb_assoc. f_equal. unfold selected. cbn [holds].
  by destruct (holds cs r c) as [[]|], (holds cs r d) as [[]|].
Qed.

Lemma select_where_filter cs t :
  select_where cs t = List.filter (fun r => forallb (fun c => selected (t_columns t) c r) cs) (t_rows t).
Proof.
  destruct cs as [|c cs]; cbn [select_where forallb].
  - induction (t_rows t) as [|r rs IH]; [done|]. cbn. by rewrite <-IH.
  - unfold sql_select. apply List.filter_ext. intros r. apply all_of_selected.
Qed.

Lemma value_le_total a b : value_le a b = true \/ value_le b a = true.
Proof. destruct a, b; cbn; auto; [rewrite !Z.leb_le; lia|apply leb_total..]. Qed.

Lemma value_le_trans a b c : value_le a b = true -> value_le b c = true -> value_le a c = true.
Proof. destruct a, b, c; cbn; try done; [rewrite !Z.leb_le; lia|apply leb_trans..]. Qed.

(** A total and transitive order sorts any list. *)
Lemma order_by_strongly_sorted {A} (le : A -> A -> bool) l :
  (forall a b, le a b = true \/ le b a = true) ->
  (forall a b c, le a b = true -> le b c = true -> le a c = true) ->
  StronglySorted (fun a b => le a b = true) (order_by le l).
Proof.
  intros Htot Htrans. apply Sorted.Sorted_StronglySorted; [|by apply order_by_sorted]. intros a b c. apply Htrans.
Qed.

Lemma sorted_map {A B} (f : A -> B) (le : B -> B -> bool) (le' : A -> A -> bool) l :
  (forall x y, le (f x) (f y) = le' x y) ->
  StronglySorted (fun a b => le a b = true) (map f l) <-> StronglySorted (fun a b => le' a b = true) l.
Proof.
  intros Hle. induction l as [|x l IH]; [by split; constructor|]. cbn [map].
  assert (Hall : Forall (fun b => le (f x) b = true) (map f l) <-> Forall (fun b => le' x b = true) l).
  { rewrite Forall_map. apply Forall_iff. intros y. cbn. by rewrite Hle. }
  split; intros H; inversion H; subst; constructor; tauto.
Qed.

(** The orders of rows are those of the records they hold. *)
Lemma ordered_map {X} (cells : X -> row) le le' xs out :
  (forall x y, le (cells x) (cells y) = le' x y) ->
  ordered le (map cells xs) out <->
  exists l, out = map cells l /\ l ≡ₚ xs /\ StronglySorted (fun a b => le' a b = true) l.
Proof.
  intros Hle. split.
  - intros [Hp Hsort]. destruct (Permutation_map_inv _ _ Hp) as (l & -> & Hl). exists l. split; [done|].
    split; [by symmetry|by eapply sorted_map].
  - intros (l & -> & Hp & Hsort). split; [by apply Permutation_map|by eapply sorted_map].
Qed.

(** The first of some order: a record none comes before, if there is one. *)
Lemma sorted_head {X} (le : X -> X -> bool) xs o :
  (forall a b, le a b = true \/ le b a = true) ->
  (forall a b c, le a b = true -> le b c = true -> le a c = true) ->
  (exists l, l ≡ₚ xs /\ StronglySorted (fun a b => le a b = true) l /\ head l = o) <->
  match o with None => xs = [] | Some x => x ∈ xs /\ forall y, y ∈ xs -> le x y = true end.
Proof.
  intros Htot Htrans. split.
  - intros (l & Hp & Hs & <-). destruct l as [|x l]; cbn [head].
    + by apply Permutation_nil.
    + split; [rewrite <-Hp; by left|]. intros y Hy. rewrite <-Hp in Hy. apply elem_of_cons in Hy as [->|Hy].
      * by destruct (Htot x x).
      * inversion Hs as [|? ? _ Hall]; subst. rewrite Forall_forall in Hall. by apply Hall.
  - destruct o as [x|]; [|intros ->; exists []; split; [done|]; split; [constructor|done]].
    intros [Hx Hmin]. apply elem_of_Permutation in Hx as [rest Hp]. exists (x :: order_by le rest).
    split; [by rewrite Hp, order_by_perm|]. split; [|done]. constructor; [by apply order_by_strongly_sorted|].
    apply Forall_forall. intros y Hy. apply Hmin. rewrite Hp. rewrite elem_of_order_by in Hy. by right.
Qed.

(** ** Tables as lists *)

Lemma NoDup_map_filter {A B} (f : A -> B) p l : NoDup (map f l) -> NoDup (map f (List.filter p l)).
Proof.
  induction l as [|x l IH]; [constructor|]. intros [Hx Hnd]%NoDup_cons. cbn [List.filter].
  destruct (p x); [|by apply IH]. constructor; [|by apply IH]. contradict Hx.
  apply list_elem_of_fmap in Hx as (y & E & [Hy _]%list_elem_of_In%List.filter_In).
  change (f x ∈ f <$> l). rewrite E. by apply list_elem_of_fmap_2, list_elem_of_In.
Qed.

(** Records kept in the rows of a table with one key, none of whose columns is ever NULL. *)
Section listed.
Context {X : Type} (base : Table) (cells : X -> row) (key : list string) (key_of : X -> list value).
Hypothesis one_key : t_keys base = [key].
Hypothesis key_cells : forall x, map (fun c => cell (t_columns base) c (cells x)) key = key_of x.
Hypothesis key_not_null : forall x, existsb is_null (key_of x) = false.
Hypothesis cells_ok : forall x, row_ok (t_columns base) (t_checks base) (cells x) = true.

Definition listed (xs : list X) : Table := with_rows base (map cells xs).

Definition same_keyed (x y : X) : bool := bool_decide (key_of x = key_of y).

Lemma listed_ok xs :
  rows_ok (t_columns base) (t_keys base) (t_checks base) (map cells xs) = true <-> NoDup (map key_of xs).
Proof using one_key key_cells key_not_null cells_ok.
  unfold rows_ok. rewrite one_key. cbn [forallb]. rewrite andb_true_r.
  assert (forallb (row_ok (t_columns base) (t_checks base)) (map cells xs) = true) as ->.
  { apply forallb_forall. intros r (x & <- & _)%in_map_iff. apply cells_ok. }
  cbn [andb]. unfold key_ok, distinct. rewrite bool_decide_eq_true, map_map, (List.map_ext _ key_of) by done.
  assert (List.filter (fun k => negb (existsb is_null k)) (map key_of xs) = map key_of xs) as ->; [|done].
  induction xs as [|x xs IH]; [done|]. cbn [map List.filter]. by rewrite key_not_null, IH.
Qed.

Lemma filter_cells (p : row -> bool) (q : X -> bool) xs :
  (forall x, p (cells x) = q x) -> List.filter p (map cells xs) = map cells (List.filter q xs).
Proof. intros Hp. induction xs as [|x xs IH]; [done|]. cbn [map List.filter]. rewrite Hp, IH. by destruct (q x). Qed.

(** INSERT OR REPLACE leaves the new record last, and no other of its key. *)
Lemma replace_listed vals x xs :
  insert_row (t_columns base) vals = cells x -> NoDup (map key_of xs) ->
  let xs' := List.filter (fun y => negb (same_keyed x y)) xs ++ [x] in
  sql_replace vals (listed xs) = Ok (listed xs') /\ NoDup (map key_of xs').
Proof using one_key key_cells key_not_null cells_ok.
  intros Hx Hnd xs'.
  assert (Hnd' : NoDup (map key_of xs')).
  { subst xs'. rewrite map_app, NoDup_app. split; [|split; [|apply NoDup_singleton]].
    - by apply NoDup_map_filter.
    - intros k (y & -> & [_ Hy]%list_elem_of_In%List.filter_In)%list_elem_of_fmap Hk%list_elem_of_singleton.
      unfold same_keyed in Hy. rewrite bool_decide_eq_true_2 in Hy by done. done. }
  split; [|done]. unfold sql_replace. cbn [listed with_rows t_columns t_keys t_rows]. rewrite Hx, one_key.
  rewrite (filter_cells _ (fun y => negb (same_keyed x y))).
  - transitivity (if rows_ok (t_columns base) (t_keys base) (t_checks base) (map cells xs') then Ok (listed xs')
                  else Raise (IntegrityError "constraint failed")).
    + subst xs'. unfold listed. by rewrite map_app.
    + by rewrite (proj2 (listed_ok xs') Hnd').
  - intros y. cbn [existsb]. rewrite orb_false_r. unfold same_key, same_keyed. by rewrite !key_cells, key_not_null.
Qed.

Lemma delete_listed c p xs :
  (forall x, selected (t_columns base) c (cells x) = p x) ->
  sql_delete c (listed xs) = listed (List.filter (fun x => negb (p x)) xs).
Proof.
  intros Hp. unfold sql_delete, listed. cbn [with_rows t_columns t_rows].
  rewrite (filter_cells _ (fun x => negb (p x))); [done|]. intros x. by rewrite Hp.
Qed.

Lemma select_listed cs p xs :
  (forall x, forallb (fun c => selected (t_columns base) c (cells x)) cs = p x) ->
  select_where cs (listed xs) = map cells (List.filter p xs).
Proof. intros Hp. rewrite select_where_filter. by apply filter_cells. Qed.
End listed.

(** ** Calls one after the other *)

(** The answers of a sequence of calls, and the state they leave. *)
Fixpoint answers {Op R S} (step : Op -> S -> R * S) (ops : list Op) (s : S) : list R * S :=
  match ops with
  | [] => ([], s)
  | op :: ops' => let '(r, s1) := step op s in let '(rs, s2) := answers step ops' s1 in (r :: rs, s2)
  end.

(** Steps that keep a relation between two states and agree on their answers do so in sequence. *)
Lemma answers_simulated {Op R S S'} (step : Op -> S -> R * S) (step' : Op -> S' -> R * S') (rel : S -> S' -> Prop) ops s s' :
  (forall op s s', rel s s' -> fst (step op s) = fst (step' op s') /\ rel (snd (step op s)) (snd (step' op s'))) ->
  rel s s' ->
  fst (answers step ops s) = fst (answers step' ops s') /\ rel (snd (answers step ops s)) (snd (answers step' ops s')).
Proof.
  intros Hstep. revert s s'. induction ops as [|op ops IH]; intros s s' Hr; [done|]. cbn [answers].
  destruct (Hstep op s s' Hr) as [E Hr1]. destruct (step op s) as [r s1], (step' op s') as [r' s1']. cbn in E, Hr1. subst r'.
  destruct (IH _ _ Hr1) as [E2 Hr2]. destruct (answers step ops s1), (answers step' ops s1'). cbn in *. by subst.
Qed.

(** ** Tables as maps *)

(** A record stored in a table: its row, its primary key, and what the constraints of the
    schema say of a list of records. *)
Class Stored (X : Type) : Type := {
  schema : Table;
  to_row : X -> row;
  row_key : X -> string;
  lawful : list X -> Prop;
  schema_empty : t_rows schema = [];
  lawful_nil : lawful [];
  lawful_rows : forall xs,
    rows_ok (t_columns schema) (t_keys schema) (t_checks schema) (map to_row xs) = true <-> lawful xs;
  lawful_keys : forall xs, lawful xs -> NoDup (map row_key xs);
}.

(** [UPDATE ... WHERE key = ... AND guard] on a map. *)
Definition map_update {X} (k : string) (guard : X -> bool) (f : X -> X) (t : gmap string X) : bool * gmap string X :=
  match t !! k with
  | Some x => if guard x then (true, <[k := f x]> t) else (false, t)
  | None => (false, t)
  end.

Section stored.
Context {X : Type} `{Stored X}.

(** The records of the map, in some order. *)
Definition contents (xs : list X) (t : gmap string X) : Prop :=
  lawful xs /\ forall k x, t !! k = Some x <-> x ∈ xs /\ row_key x = k.

(** The rows of the table are the records of the map, in the order they were inserted. *)
Definition represents (tbl : Table) (t : gmap string X) : Prop :=
  exists xs, tbl = with_rows schema (map to_row xs) /\ contents xs t.

Lemma represents_empty : represents schema ∅.
Proof.
  exists []. split; [by destruct H as [[] ? ? ? E]; cbn in *; subst|]. split; [apply lawful_nil|].
  intros k x. rewrite lookup_empty. set_solver.
Qed.

Lemma represents_schema tbl t :
  represents tbl t -> t_columns tbl = t_columns schema /\ t_keys tbl = t_keys schema /\ t_checks tbl = t_checks schema.
Proof. by intros (xs & -> & _). Qed.

Lemma represents_ok tbl t :
  represents tbl t -> rows_ok (t_columns schema) (t_keys schema) (t_checks schema) (t_rows tbl) = true.
Proof. intros (xs & -> & Hl & _). by apply lawful_rows. Qed.

Lemma contents_nodup xs t : contents xs t -> NoDup xs.
Proof. intros [Hl _]. by eapply NoDup_fmap_1, lawful_keys. Qed.

Lemma contents_perm xs t : contents xs t -> xs ≡ₚ map snd (map_to_list t).
Proof.
  intros Hc. pose proof Hc as [Hl Ht]. apply NoDup_Permutation; [by eapply contents_nodup|..].
  - apply NoDup_fmap_1 with row_key. rewrite <-list_fmap_compose.
    assert (Hk : row_key ∘ snd <$> map_to_list t = fst <$> map_to_list t).
    { apply list_fmap_ext. intros i [k x] Hi. cbn. apply list_elem_of_lookup_2, elem_of_map_to_list in Hi.
      by apply Ht in Hi as [_ ->]. }
    rewrite Hk. apply NoDup_fst_map_to_list.
  - intros x. rewrite list_elem_of_fmap. split.
    + intros Hx. exists (row_key x, x). split; [done|]. by apply elem_of_map_to_list, Ht.
    + intros ([k y] & -> & Hy%elem_of_map_to_list). by apply Ht in Hy as [? _].
Qed.

(** An INSERT whose key is new succeeds exactly when the constraints allow the record. *)
Lemma insert_represented x tbl t (b : bool) :
  represents tbl t -> t !! row_key x = None ->
  (forall xs, contents xs t -> lawful (xs ++ [x]) <-> b = true) ->
  if b then exists tbl', add_rows tbl [to_row x] = Ok tbl' /\ represents tbl' (<[row_key x := x]> t)
  else add_rows tbl [to_row x] = Raise (IntegrityError "constraint failed").
Proof.
  intros (xs & -> & Hl & Ht) Hn Hb. specialize (Hb xs (conj Hl Ht)). unfold add_rows. cbn [t_columns t_keys t_checks t_rows with_rows].
  change [to_row x] with (map to_row [x]). rewrite <-map_app. rewrite <-lawful_rows in Hb.
  destruct (rows_ok _ _ _ _) eqn:E, b; try by intuition.
  eexists. split; [done|]. exists (xs ++ [x]). split; [done|]. split; [by apply lawful_rows|].
  intros k y. rewrite elem_of_app, list_elem_of_singleton. destruct (decide (row_key x = k)) as [<-|Hne].
  - rewrite lookup_insert_eq. split; [intros [= <-]; auto|]. intros [[Hy| ->] Hk]; [|done].
    assert (t !! row_key x = Some y) by (by apply Ht). congruence.
  - rewrite lookup_insert_ne, Ht by done. split; [naive_solver|]. by intros [[Hy| ->] Hk].
Qed.

(** The INSERT of a record whose key is taken is refused. *)
Lemma insert_taken x y tbl t :
  represents tbl t -> t !! row_key x = Some y -> add_rows tbl [to_row x] = Raise (IntegrityError "constraint failed").
Proof.
  intros (xs & -> & Hl & Ht) [Hy Hk]%Ht. unfold add_rows. cbn [t_columns t_keys t_checks t_rows with_rows].
  change [to_row x] with (map to_row [x]). rewrite <-map_app. pose proof (lawful_rows (xs ++ [x])) as Hx.
  destruct (rows_ok _ _ _ _); [|done]. pose proof (lawful_keys _ (proj1 Hx eq_refl)) as Hnd.
  rewrite map_app, NoDup_app in Hnd. destruct Hnd as (_ & Hd & _). destruct (Hd (row_key y)); [by apply list_elem_of_fmap_2|].
  rewrite Hk. by left.
Qed.

(** Which constraint an INSERT breaks: a key of the primary column exactly when it is taken; some
    key, when the row itself is in order and the INSERT is refused. *)
Lemma primary_key_taken x tbl t c :
  (forall y, cell (t_columns schema) c (to_row y) = VText (row_key y)) -> represents tbl t ->
  key_ok (t_columns schema) (t_rows tbl ++ [to_row x]) [c] = negb (is_some (t !! row_key x)).
Proof.
  intros Hc (xs & -> & Hl & Ht). cbn [with_rows t_rows]. change [to_row x] with (map to_row [x]). rewrite <-map_app.
  apply eq_true_iff_eq. rewrite (text_key_ok _ to_row row_key) by done. rewrite map_app, NoDup_app. cbn [map].
  destruct (t !! row_key x) as [y|] eqn:E; cbn [is_some negb].
  - split; [|done]. intros (_ & Hd & _). apply Ht in E as [Hin Hk]. destruct (Hd (row_key y)); [by apply list_elem_of_fmap_2|].
    rewrite Hk. by left.
  - split; [done|]. intros _. split; [by apply lawful_keys|]. split; [|apply NoDup_singleton].
    intros k (y & -> & Hin)%list_elem_of_fmap Hk%list_elem_of_singleton.
    assert (t !! row_key x = Some y) by (by apply Ht). congruence.
Qed.

Lemma refused_key x tbl t e :
  represents tbl t -> row_ok (t_columns schema) (t_checks schema) (to_row x) = true -> add_rows tbl [to_row x] = Raise e ->
  forallb (key_ok (t_columns schema) (t_rows tbl ++ [to_row x])) (t_keys schema) = false.
Proof.
  intros Hr Hx. pose proof (represents_ok tbl t Hr) as Hold. destruct Hr as (xs & -> & _).
  unfold add_rows, rows_ok in *. cbn [with_rows t_columns t_keys t_checks t_rows] in *. apply andb_true_iff in Hold as [Hold _].
  rewrite forallb_app, Hold. cbn [forallb]. rewrite Hx. cbn [andb]. by destruct (forallb (key_ok _ _) _).
Qed.

Section update.
Context (hit : X -> bool) (f : X -> X) (sets : list (string * expr)) (c : cond).
Hypothesis hits : forall x, selected (t_columns schema) c (to_row x) = hit x.
Hypothesis sets_cells : forall x, hit x = true -> set_cells (t_columns schema) sets (to_row x) = to_row (f x).
Hypothesis keeps_key : forall x, row_key (f x) = row_key x.

Definition moved (x : X) : X := if hit x then f x else x.

Hypothesis keeps_law : forall xs, lawful xs -> lawful (map moved xs).

Lemma moved_key x : row_key (moved x) = row_key x.
Proof using keeps_key. unfold moved. by destruct (hit x). Qed.

(** An UPDATE changes the records its condition selects, and counts them. *)
Lemma update_represented tbl t :
  represents tbl t ->
  exists tbl', sql_update sets c tbl = Ok (countb hit (map snd (map_to_list t)), tbl') /\ represents tbl' (moved <$> t).
Proof using hits sets_cells keeps_key keeps_law.
  intros (xs & -> & Hl & Ht). unfold sql_update. cbn [t_columns t_keys t_checks t_rows with_rows].
  rewrite map_map, (List.map_ext _ (fun x => to_row (moved x))).
  2: { intros x. rewrite hits. unfold moved. destruct (hit x) eqn:E; [by apply sets_cells|done]. }
  rewrite <-(map_map moved to_row), (proj2 (lawful_rows (map moved xs))) by auto.
  assert (Hcount : countb (selected (t_columns schema) c) (map to_row xs) = countb hit xs).
  { clear -hits. induction xs as [|x xs IH]; [done|]. cbn [map]. by rewrite !countb_cons, hits, IH. }
  rewrite Hcount, (countb_perm _ _ _ (contents_perm xs t (conj Hl Ht))). eexists. split; [done|].
  exists (map moved xs). split; [done|]. split; [auto|]. intros k y. rewrite lookup_fmap, fmap_Some, list_elem_of_fmap. split.
  - intros (x & [Hx Hk]%Ht & ->). split; [eauto|]. by rewrite moved_key.
  - intros [(x & -> & Hx) Hk]. rewrite moved_key in Hk. exists x. split; [by apply Ht|done].
Qed.
End update.

(** An UPDATE by primary key changes at most one record. *)
Lemma update_one k guard f sets c tbl t :
  (forall x, selected (t_columns schema) c (to_row x) = String.eqb (row_key x) k && guard x) ->
  (forall x, set_cells (t_columns schema) sets (to_row x) = to_row (f x)) ->
  (forall x, row_key (f x) = row_key x) ->
  (forall xs, lawful xs -> lawful (map (moved (fun x => String.eqb (row_key x) k && guard x) f) xs)) ->
  represents tbl t ->
  exists tbl', sql_update sets c tbl = Ok (if fst (map_update k guard f t) then 1%nat else 0%nat, tbl') /\
    represents tbl' (snd (map_update k guard f t)).
Proof.
  intros Hc Hs Hk Hl Hr. set (hit := fun x => String.eqb (row_key x) k && guard x).
  destruct (update_represented hit f sets c Hc (fun x _ => Hs x) Hk Hl tbl t Hr) as (tbl' & E & Hr'). exists tbl'.
  destruct Hr as (xs & _ & Hcont). pose proof Hcont as [_ Ht].
  assert (Hkey : forall k' x, t !! k' = Some x -> row_key x = k') by (intros k' x Hx; by apply Ht in Hx as [_ ?]).
  assert (Hnone : (forall x, t !! k = Some x -> guard x = false) ->
    countb hit (map snd (map_to_list t)) = 0%nat /\ moved hit f <$> t = t).
  { intros Hg. assert (Hh : forall k' x, t !! k' = Some x -> hit x = false).
    { intros k' x Hx. unfold hit. destruct (String.eqb_spec (row_key x) k) as [E'|]; [|done]. apply Hg.
      by rewrite <-E', (Hkey _ _ Hx). }
    split.
    - apply countb_0. intros x ([k' y] & -> & Hy%elem_of_map_to_list)%list_elem_of_fmap. by eapply Hh.
    - apply map_eq. intros k'. rewrite lookup_fmap. destruct (t !! k') as [x|] eqn:Ex; [|done]. cbn. unfold moved.
      by rewrite (Hh _ _ Ex). }
  unfold map_update. destruct (t !! k) as [x|] eqn:Ex; [destruct (guard x) eqn:Eg|]; cbn [fst snd].
  - assert (Hx : hit x = true) by (unfold hit; by rewrite (Hkey _ _ Ex), String.eqb_refl, Eg).
    assert (Hother : forall k' y, k' <> k -> t !! k' = Some y -> hit y = false).
    { intros k' y Hne Hy. unfold hit. rewrite (Hkey _ _ Hy). by destruct (String.eqb_spec k' k). }
    assert (Hone : countb hit (map snd (map_to_list t)) = 1%nat).
    { rewrite <-(insert_delete_id t k x Ex).
      assert (Hp : map snd (map_to_list (<[k:=x]> (delete k t))) ≡ₚ x :: map snd (map_to_list (delete k t))).
      { by rewrite map_to_list_insert by apply lookup_delete_eq. }
      rewrite (countb_perm hit _ _ Hp), countb_cons, Hx, (proj2 (countb_0 hit _)); [done|].
      intros y ([k' z] & -> & Hz%elem_of_map_to_list)%list_elem_of_fmap. apply lookup_delete_Some in Hz as [? Hz]. by eapply Hother. }
    rewrite Hone in E. split; [exact E|]. assert (moved hit f <$> t = <[k := f x]> t) as <-; [|done].
    apply map_eq. intros k'. rewrite lookup_fmap. destruct (decide (k = k')) as [<-|Hne].
    + rewrite lookup_insert_eq, Ex. cbn. unfold moved. by rewrite Hx.
    + rewrite lookup_insert_ne by done. destruct (t !! k') as [y|] eqn:Ey; [|done]. cbn. unfold moved.
      by rewrite (Hother k' y).
  - destruct Hnone as [Hn Hm]; [congruence|]. rewrite Hn in E. by rewrite Hm in Hr'.
  - destruct Hnone as [Hn Hm]; [done|]. rewrite Hn in E. by rewrite Hm in Hr'.
Qed.

(** The rows a SELECT finds. *)
Lemma select_represented c p tbl t :
  (forall x, selected (t_columns schema) c (to_row x) = p x) -> represents tbl t ->
  sql_select c tbl ≡ₚ map to_row (List.filter p (map snd (map_to_list t))).
Proof.
  intros Hc (xs & -> & Hcont). unfold sql_select. cbn [t_columns t_rows with_rows].
  assert (List.filter (selected (t_columns schema) c) (map to_row xs) = map to_row (List.filter p xs)) as ->.
  { clear -Hc. induction xs as [|x xs IH]; [done|]. cbn [map List.filter]. rewrite Hc. destruct (p x); cbn; by rewrite IH. }
  apply Permutation_map. pose proof (contents_perm _ _ Hcont) as Hp. clear -Hp.
  induction Hp; cbn; repeat case_match; eauto using Permutation.
Qed.

(** The row a SELECT by primary key finds. *)
Lemma select_one c k p tbl t :
  (forall x, selected (t_columns schema) c (to_row x) = String.eqb (row_key x) k && p x) -> represents tbl t ->
  sql_select_one c tbl = match t !! k with Some x => if p x then Some (to_row x) else None | None => None end.
Proof.
  intros Hc (xs & -> & Hl & Ht). unfold sql_select_one. cbn [t_columns t_rows with_rows].
  assert (Hf : List.find (selected (t_columns schema) c) (map to_row xs)
               = to_row <$> List.find (fun x => String.eqb (row_key x) k && p x) xs).
  { clear -Hc. induction xs as [|x xs IH]; [done|]. cbn [map List.find]. rewrite Hc. by destruct (_ && _). }
  rewrite Hf. destruct (List.find _ xs) as [x|] eqn:E.
  - apply find_some in E as [Hin%list_elem_of_In [Hk%String.eqb_eq Hp]%andb_true_iff].
    assert (t !! k = Some x) as -> by (by apply Ht). by rewrite Hp.
  - destruct (t !! k) as [x|] eqn:Ex; [|done]. apply Ht in Ex as [Hin%list_elem_of_In Hk]. destruct (p x) eqn:Ep; [|done].
    apply (find_none _ _ E) in Hin. cbn in Hin. by rewrite Hk, String.eqb_refl, Ep in Hin.
Qed.
End stored.
