(* ===== verification/GrantSql.v ===== *)
(** The grants repository as the SQL it sends ([grant_repo.py]): each method's INSERT,
    UPDATE or SELECT over the table the migrations create ([Migrations]), with the
    conditions and constraints of [SqlStmt]; and the proof that the map of [GrantRepo], which
    the other files reason with, is what these statements do. *)
From S2P Require Import Prelude PyStr PyTime Json PyRepr Sql Migrations SqlStmt GrantRepo.

(** ** Rows of the grants table *)

Definition status_text (s : GrantStatus) : string :=
  match s with
  | GPENDING => "PENDING" | GAPPROVED => "APPROVED" | GCONSUMING => "CONSUMING" | GCONSUMED => "CONSUMED"
  | GREJECTED => "REJECTED" | GEXPIRED => "EXPIRED" | GFAILED => "FAILED" | GUNKNOWN => "UNKNOWN"
  | GRECONCILIATION_REQUIRED => "RECONCILIATION_REQUIRED"
  end.

Definition all_statuses : list GrantStatus :=
  [GPENDING; GAPPROVED; GCONSUMING; GCONSUMED; GREJECTED; GEXPIRED; GFAILED; GUNKNOWN; GRECONCILIATION_REQUIRED].

(** The column admits no other text. *)
Definition status_of_text (s : string) : GrantStatus :=
  default GPENDING (List.find (fun st => String.eqb (status_text st) s) all_statuses).

Definition grant_cs : list Column := t_columns grants_v5.

Definition grant_row (g : GrantRecord) : row :=
  [VText (g_session_id g); VText (g_requesting_user_id g); VText (g_approving_actor_id g); VText (g_thread_id g);
   opt_value (g_run_id g); opt_value (g_checkpoint_id g); VText (g_tool_call_id g); VText (g_tool_name g);
   VText (g_canonical_tool_args g); VText (g_argument_digest g); VText (g_idempotency_key g); VText (g_decision g);
   VText (status_text (g_status g)); VText (g_created_at g); opt_value (g_approved_at g); opt_value (g_expires_at g);
   opt_value (g_consuming_at g); opt_value (g_consumed_at g); opt_value (g_failed_at g); VInt (g_version g)].

(** [_row_to_grant]: columns by name. *)
Definition row_to_grant (r : row) : GrantRecord :=
  let col c := cell grant_cs c r in
  {| g_session_id := value_text (col "session_id"); g_requesting_user_id := value_text (col "requesting_user_id");
     g_approving_actor_id := value_text (col "approving_actor_id"); g_thread_id := value_text (col "thread_id");
     g_run_id := value_opt (col "run_id"); g_checkpoint_id := value_opt (col "checkpoint_id");
     g_tool_call_id := value_text (col "tool_call_id"); g_tool_name := value_text (col "tool_name");
     g_canonical_tool_args := value_text (col "canonical_tool_args");
     g_argument_digest := value_text (col "argument_digest"); g_idempotency_key := value_text (col "idempotency_key");
     g_decision := value_text (col "decision"); g_status := status_of_text (value_text (col "status"));
     g_created_at := value_text (col "created_at"); g_approved_at := value_opt (col "approved_at");
     g_expires_at := value_opt (col "expires_at"); g_consuming_at := value_opt (col "consuming_at");
     g_consumed_at := value_opt (col "consumed_at"); g_failed_at := value_opt (col "failed_at");
     g_version := value_int (col "version") |}.

(** ** The methods *)

Definition sql_insert_pending (g : GrantRecord) (t : Table) : result Table :=
  sql_insert
    [("session_id", VText (g_session_id g)); ("requesting_user_id", VText (g_requesting_user_id g));
     ("approving_actor_id", VText (g_approving_actor_id g)); ("thread_id", VText (g_thread_id g));
     ("run_id", opt_value (g_run_id g)); ("checkpoint_id", opt_value (g_checkpoint_id g));
     ("tool_call_id", VText (g_tool_call_id g)); ("tool_name", VText (g_tool_name g));
     ("canonical_tool_args", VText (g_canonical_tool_args g)); ("argument_digest", VText (g_argument_digest g));
     ("idempotency_key", VText (g_idempotency_key g)); ("decision", VText (g_decision g));
     ("status", VText "PENDING"); ("created_at", VText (g_created_at g)); ("expires_at", opt_value (g_expires_at g));
     ("version", VInt 1)] t.

(** [(col=? OR col IS NULL OR ?='')]. *)
Definition null_or_is (c v : string) : cond :=
  COr (COr (text_is c v) (CIsNull (Col c))) (CEq (Val (VText v)) (Val (VText ""))).

Definition claim_where (now : string) (a : ConsumeArgs) : cond :=
  all_of (text_is "session_id" (ca_session_id a))
    [text_is "status" "APPROVED"; int_is "version" (ca_version a);
     text_is "requesting_user_id" (ca_user_id a); text_is "thread_id" (ca_thread_id a);
     COr (COr (text_is "approving_actor_id" (ca_approving_actor_id a)) (text_is "approving_actor_id" ""))
       (CEq (Val (VText (ca_approving_actor_id a))) (Val (VText "")));
     null_or_is "run_id" (ca_run_id a); null_or_is "checkpoint_id" (ca_checkpoint_id a);
     text_is "tool_call_id" (ca_tool_call_id a); text_is "tool_name" (ca_tool_name a);
     text_is "argument_digest" (digest (ca_tool_args a)); text_is "idempotency_key" (ca_idempotency_key a);
     COr (CIsNull (Col "expires_at")) (CGt (Col "expires_at") (Val (VText now)))].

Definition sql_claim (now : Z) (a : ConsumeArgs) (t : Table) : result (bool * Table) :=
  let* (n, t') := sql_update [("status", Val (VText "CONSUMING")); ("consuming_at", Val (VText (isoformat now)))]
                    (claim_where (isoformat now) a) t in
  Ok (negb (Nat.eqb n 0), t').

Definition sql_claimed (id : string) (t : Table) : option GrantRecord :=
  row_to_grant <$> sql_select_one (CAnd (text_is "session_id" id) (text_is "status" "CONSUMING")) t.

Definition sql_atomic_consume (now : Z) (a : ConsumeArgs) (t : Table) : result (option GrantRecord * Table) :=
  let* (won, t') := sql_claim now a t in
  if won : bool then Ok (sql_claimed (ca_session_id a) t', t') else Ok (None, t').

(** The marks: a new status with one timestamp, from given statuses. *)
Definition sql_mark (status stamp : string) (from : cond) (now : Z) (id : string) (t : Table) : result (nat * Table) :=
  sql_update [("status", Val (VText status)); (stamp, Val (VText (isoformat now)))] (CAnd (text_is "session_id" id) from) t.

Definition sql_mark_consumed := sql_mark "CONSUMED" "consumed_at" (text_is "status" "CONSUMING").
Definition sql_mark_failed := sql_mark "FAILED" "failed_at" (text_is "status" "CONSUMING").
Definition sql_mark_rejected := sql_mark "REJECTED" "failed_at" (CIn (Col "status") ["PENDING"; "APPROVED"]).
Definition sql_mark_reconciliation_required :=
  sql_mark "RECONCILIATION_REQUIRED" "failed_at" (text_is "status" "PENDING").
Definition sql_mark_unknown := sql_mark "UNKNOWN" "failed_at" (text_is "status" "CONSUMING").

Definition sql_approve_pending (now : Z) (id actor : string) (expected_version : Z) (t : Table) : result (bool * Table) :=
  let* (n, t') := sql_update
    [("status", Val (VText "APPROVED")); ("approving_actor_id", Val (VText actor)); ("approved_at", Val (VText (isoformat now)))]
    (all_of (text_is "session_id" id) [text_is "status" "PENDING"; int_is "version" expected_version]) t in
  Ok (Nat.eqb n 1, t').

Definition sql_get_by_session (id : string) (t : Table) : option GrantRecord :=
  row_to_grant <$> sql_select_one (text_is "session_id" id) t.

(** ** Lemmas: conditions *)

Lemma status_text_eqb s s' : String.eqb (status_text s) (status_text s') = bool_decide (s = s').
Proof. by destruct s, s'. Qed.

Lemma status_roundtrip s : status_of_text (status_text s) = s.
Proof. by destruct s. Qed.

Section row.
Context (g : GrantRecord).
Notation r := (grant_row g).

(** The status, a nullable column, the actor and the expiry, as conditions see them. *)
Lemma holds_status s : holds grant_cs r (text_is "status" (status_text s)) = Some (is_status s g).
Proof. rewrite (holds_text _ _ _ (status_text (g_status g))) by reflexivity. by rewrite status_text_eqb. Qed.

Lemma holds_nullable c o v : cell grant_cs c r = opt_value o -> holds grant_cs r (null_or_is c v) = Some (null_or_eq o v).
Proof.
  cbn [null_or_is text_is holds eval]. intros ->. unfold null_or_eq.
  destruct o as [x|]; cbn; [by destruct (String.eqb x v), (String.eqb v "")|by destruct (String.eqb v "")].
Qed.

Lemma holds_actor v :
  holds grant_cs r (COr (COr (text_is "approving_actor_id" v) (text_is "approving_actor_id" "")) (CEq (Val (VText v)) (Val (VText ""))))
  = Some (String.eqb (g_approving_actor_id g) v || String.eqb (g_approving_actor_id g) "" || String.eqb v "").
Proof.
  cbn [text_is holds eval]. change (cell grant_cs "approving_actor_id" r) with (VText (g_approving_actor_id g)).
  cbn [compare value_eq]. by rewrite !or3_known.
Qed.

Lemma holds_unexpired now :
  holds grant_cs r (COr (CIsNull (Col "expires_at")) (CGt (Col "expires_at") (Val (VText now))))
  = Some (match g_expires_at g with Some e => text_lt now e | None => true end).
Proof.
  cbn [holds eval]. change (cell grant_cs "expires_at" r) with (opt_value (g_expires_at g)).
  by destruct (g_expires_at g) as [e|]; cbn; [destruct (text_lt now e)|].
Qed.

Lemma holds_pending_or_approved :
  holds grant_cs r (CIn (Col "status") ["PENDING"; "APPROVED"]) = Some (is_status GPENDING g || is_status GAPPROVED g).
Proof.
  cbn [holds eval]. change (cell grant_cs "status" r) with (VText (status_text (g_status g))). cbn [compare].
  unfold is_status. by destruct (g_status g).
Qed.

(** The claim selects exactly the row the typed guard accepts. *)
Lemma claim_selects now a :
  selected grant_cs (claim_where now a) r = String.eqb (g_session_id g) (ca_session_id a) && consume_guard now a g.
Proof.
  apply selected_known. unfold claim_where.
  rewrite (holds_all_of grant_cs r _ (String.eqb (g_session_id g) (ca_session_id a)) _
    [is_status GAPPROVED g; g_version g =? ca_version a; String.eqb (g_requesting_user_id g) (ca_user_id a);
     String.eqb (g_thread_id g) (ca_thread_id a);
     String.eqb (g_approving_actor_id g) (ca_approving_actor_id a)
       || String.eqb (g_approving_actor_id g) "" || String.eqb (ca_approving_actor_id a) "";
     null_or_eq (g_run_id g) (ca_run_id a); null_or_eq (g_checkpoint_id g) (ca_checkpoint_id a);
     String.eqb (g_tool_call_id g) (ca_tool_call_id a); String.eqb (g_tool_name g) (ca_tool_name a);
     String.eqb (g_argument_digest g) (digest (ca_tool_args a)); String.eqb (g_idempotency_key g) (ca_idempotency_key a);
     match g_expires_at g with Some e => text_lt now e | None => true end]).
  - unfold consume_guard. cbn [fold_left]. by rewrite <-!andb_assoc.
  - by apply holds_text.
  - repeat (apply Forall2_cons; split); try (by apply holds_text); try apply (holds_status GAPPROVED);
      [by apply holds_int|apply holds_actor|by apply holds_nullable|by apply holds_nullable|apply holds_unexpired|constructor].
Qed.

Lemma mark_selects id from b :
  holds grant_cs r from = Some b ->
  selected grant_cs (CAnd (text_is "session_id" id) from) r = String.eqb (g_session_id g) id && b.
Proof.
  intros Hf. apply selected_known, holds_and; [by apply holds_text|done].
Qed.
End row.

(** ** Grants as stored records *)

(** What the table's constraints say of its grants. *)
Definition lawful_grants (gs : list GrantRecord) : Prop :=
  NoDup (map g_session_id gs) /\ NoDup (map g_idempotency_key gs) /\
  Forall (fun g => decision_allowed (g_decision g) = true) gs.

Lemma grant_row_ok g : row_ok grant_cs (t_checks grants_v5) (grant_row g) = decision_allowed (g_decision g).
Proof.
  assert (Hs : check_ok grant_cs (grant_row g) ("status", statuses_v3 ++ ["RECONCILIATION_REQUIRED"]) = true)
    by (unfold check_ok; cbn -[str_in]; by destruct (g_status g)).
  unfold row_ok. change (t_checks grants_v5) with
    [("decision", ["PENDING"; "approved"; "rejected"]); ("status", statuses_v3 ++ ["RECONCILIATION_REQUIRED"])].
  cbn [forallb]. rewrite Hs, !andb_true_r. reflexivity.
Qed.

Lemma grants_lawful gs :
  rows_ok grant_cs (t_keys grants_v5) (t_checks grants_v5) (map grant_row gs) = true <-> lawful_grants gs.
Proof.
  unfold rows_ok, lawful_grants. rewrite andb_true_iff.
  assert (forallb (row_ok grant_cs (t_checks grants_v5)) (map grant_row gs) = true <->
          Forall (fun g => decision_allowed (g_decision g) = true) gs) as ->.
  { rewrite forallb_forall, Forall_forall. setoid_rewrite in_map_iff. split.
    - intros H g Hg. rewrite <-grant_row_ok. apply H. exists g. by rewrite <-list_elem_of_In.
    - intros H r (g & <- & Hg%list_elem_of_In). rewrite grant_row_ok. auto. }
  change (t_keys grants_v5) with [["session_id"]; ["idempotency_key"]]. cbn [forallb].
  rewrite !andb_true_iff, (text_key_ok grant_cs grant_row g_session_id), (text_key_ok grant_cs grant_row g_idempotency_key) by done.
  tauto.
Qed.

Lemma lawful_app gs g :
  lawful_grants gs -> lawful_grants (gs ++ [g]) <->
  decision_allowed (g_decision g) = true /\ g_session_id g ∉ map g_session_id gs /\
  g_idempotency_key g ∉ map g_idempotency_key gs.
Proof.
  intros (Hs & Hk & Hd). unfold lawful_grants. rewrite !map_app, !NoDup_app, Forall_app, Forall_singleton. cbn [map].
  split.
  - intros ((_ & H1 & _) & (_ & H2 & _) & _ & H3). split; [done|]. split; intros H; [apply (H1 _ H)|apply (H2 _ H)]; by left.
  - intros (H1 & H2 & H3). split_and!; try done; try apply NoDup_singleton; intros x Hx ->%list_elem_of_singleton; done.
Qed.

#[export, refine] Instance stored_grant : Stored GrantRecord :=
  {| schema := grants_v5; to_row := grant_row; row_key := g_session_id; lawful := lawful_grants |}.
Proof.
  - reflexivity.
  - split_and!; constructor.
  - apply grants_lawful.
  - by intros gs (? & _).
Defined.

(** What an UPDATE of a grant keeps, the constraints do not notice. *)
Lemma lawful_moved hit s w gs : lawful gs -> lawful (map (moved hit (fun g => set_grant g s w)) gs).
Proof.
  intros (Hs & Hk & Hd). split_and!.
  - rewrite map_map, (List.map_ext _ g_session_id); [done|]. intros g. unfold moved. by destruct (hit g).
  - rewrite map_map, (List.map_ext _ g_idempotency_key); [done|]. intros g. unfold moved. by destruct (hit g).
  - rewrite Forall_map. eapply Forall_impl; [exact Hd|]. intros g. cbn. unfold moved. by destruct (hit g).
Qed.

Lemma insert_row_pending g :
  insert_row grant_cs
    [("session_id", VText (g_session_id g)); ("requesting_user_id", VText (g_requesting_user_id g));
     ("approving_actor_id", VText (g_approving_actor_id g)); ("thread_id", VText (g_thread_id g));
     ("run_id", opt_value (g_run_id g)); ("checkpoint_id", opt_value (g_checkpoint_id g));
     ("tool_call_id", VText (g_tool_call_id g)); ("tool_name", VText (g_tool_name g));
     ("canonical_tool_args", VText (g_canonical_tool_args g)); ("argument_digest", VText (g_argument_digest g));
     ("idempotency_key", VText (g_idempotency_key g)); ("decision", VText (g_decision g));
     ("status", VText "PENDING"); ("created_at", VText (g_created_at g)); ("expires_at", opt_value (g_expires_at g));
     ("version", VInt 1)] = grant_row (pending_grant g).
Proof. reflexivity. Qed.

(** The INSERT succeeds exactly when the map's does. *)
Lemma insert_simulated g tbl t :
  represents tbl t ->
  match insert_pending g t, sql_insert_pending g tbl with
  | Ok t', Ok tbl' => represents tbl' t'
  | Raise (IntegrityError _), Raise (IntegrityError _) => True
  | _, _ => False
  end.
Proof.
  intros Hr. unfold sql_insert_pending, sql_insert.
  assert (t_columns tbl = grant_cs) as -> by (by destruct Hr as (gs & -> & _)). rewrite insert_row_pending.
  unfold insert_pending. set (b := decision_allowed (g_decision g) &&
    negb (existsb (fun kv => String.eqb (g_idempotency_key (snd kv)) (g_idempotency_key g)) (map_to_list t))).
  destruct (t !! g_session_id g) as [h|] eqn:Es.
  { change (grant_row (pending_grant g)) with (to_row (pending_grant g)). rewrite (insert_taken (pending_grant g) h tbl t Hr Es). clear b.
    by destruct (decision_allowed (g_decision g)). }
  pose proof (insert_represented (pending_grant g) tbl t b Hr Es) as H. cbn [to_row stored_grant] in H.
  lapply H; clear H.
  - subst b. destruct (decision_allowed _); cbn [negb andb]; [|by intros ->].
    destruct (existsb _ _); cbn [negb]; [by intros ->|]. intros (tbl' & -> & H). exact H.
  - intros gs Hc. pose proof Hc as [Hl Ht]. cbn [lawful stored_grant]. rewrite (lawful_app gs) by done.
    cbn [g_decision g_session_id g_idempotency_key pending_grant].
    assert (Hkey : existsb (fun kv => String.eqb (g_idempotency_key (snd kv)) (g_idempotency_key g)) (map_to_list t) = true <->
                   g_idempotency_key g ∈ map g_idempotency_key gs).
    { rewrite existsb_exists, (contents_perm gs t Hc), map_map, list_elem_of_fmap. setoid_rewrite <-list_elem_of_In.
      split; intros (kv & H1 & H2); exists kv; [by apply String.eqb_eq in H2|]. by rewrite H1, String.eqb_refl. }
    subst b. rewrite andb_true_iff, negb_true_iff, <-not_true_iff_false, Hkey. split; [tauto|]. intros [H1 H2].
    split_and!; [done| |done]. intros (h & He & Hh)%list_elem_of_fmap.
    assert (t !! g_session_id g = Some h) by (by apply Ht). congruence.
Qed.

(** A refused INSERT names the constraint the map names. *)
Lemma insert_refused g tbl t e :
  represents tbl t -> insert_pending g t = Raise e ->
  violation "approved_operation_grants" tbl (grant_row (pending_grant g)) = e.
Proof.
  intros Hr Hi. pose proof (insert_simulated g tbl t Hr) as Hsim. rewrite Hi in Hsim.
  destruct (represents_schema tbl t Hr) as (Ec & Ek & Eh). unfold violation. rewrite Ec, Ek, Eh.
  change (t_checks schema) with [("decision", ["PENDING"; "approved"; "rejected"]); ("status", statuses_v3 ++ ["RECONCILIATION_REQUIRED"])].
  change (t_keys schema) with [["session_id"]; ["idempotency_key"]]. cbn [List.find].
  change (check_ok (t_columns schema) (grant_row (pending_grant g)) ("decision", ["PENDING"; "approved"; "rejected"]))
    with (decision_allowed (g_decision g)).
  change (check_ok (t_columns schema) (grant_row (pending_grant g)) ("status", statuses_v3 ++ ["RECONCILIATION_REQUIRED"])) with true.
  unfold insert_pending in Hi. destruct (decision_allowed (g_decision g)) eqn:Ed; cbn [negb] in *; [|by injection Hi as <-].
  pose proof (primary_key_taken (pending_grant g) tbl t "session_id" (fun _ => eq_refl) Hr) as Hk1.
  cbn [to_row stored_grant row_key] in Hk1. change (g_session_id (pending_grant g)) with (g_session_id g) in Hk1. rewrite Hk1.
  destruct (t !! g_session_id g) as [h|] eqn:E; cbn [is_some negb] in *; [by injection Hi as <-|].
  assert (sql_insert_pending g tbl = add_rows tbl [to_row (pending_grant g)]) as Es.
  { unfold sql_insert_pending, sql_insert. rewrite Ec. by rewrite <-insert_row_pending. }
  destruct (existsb _ _); [|done]. injection Hi as <-. rewrite Es in Hsim.
  destruct (add_rows tbl _) as [|e'] eqn:Ea; [done|].
  assert (Hrow : row_ok (t_columns schema) (t_checks schema) (to_row (pending_grant g)) = true) by (etransitivity; [apply (grant_row_ok (pending_grant g))|exact Ed]).
  pose proof (refused_key (pending_grant g) tbl t e' Hr Hrow Ea) as Hk.
  change (t_keys schema) with [["session_id"]; ["idempotency_key"]] in Hk. cbn [forallb to_row stored_grant] in Hk.
  rewrite Hk1 in Hk. cbn [andb] in Hk. rewrite andb_true_r in Hk. by rewrite Hk.
Qed.

(** One conditional UPDATE is the map's. *)
Lemma update_simulated id guard s w sets c tbl t :
  (forall g, selected grant_cs c (grant_row g) = String.eqb (g_session_id g) id && guard g) ->
  (forall g, set_cells grant_cs sets (grant_row g) = grant_row (set_grant g s w)) ->
  represents tbl t ->
  exists tbl', sql_update sets c tbl = Ok (if fst (update_grant id guard s w t) then 1%nat else 0%nat, tbl') /\
    represents tbl' (snd (update_grant id guard s w t)).
Proof.
  intros Hc Hs. apply (update_one id guard (fun g => set_grant g s w)); [done..|]. apply lawful_moved.
Qed.

Lemma grant_row_roundtrip g : row_to_grant (grant_row g) = g.
Proof.
  unfold row_to_grant. destruct g. cbn -[status_of_text status_text]. by rewrite status_roundtrip, !value_opt_back.
Qed.

(** ** Properties *)

(** One call of the repository on the table: the answer it gives, and the table. *)
Inductive Reply : Type := Nothing | Refusal | Changed (b : bool) | Claimed (g : option GrantRecord).

Definition sql_step (op : GrantOp) (tbl : Table) : Reply * Table :=
  let run {A} (m : result (A * Table)) (f : A -> Reply) :=
    match m with Ok (a, tbl') => (f a, tbl') | Raise _ => (Refusal, tbl) end in
  match op with
  | GInsert g => match sql_insert_pending g tbl with Ok tbl' => (Nothing, tbl') | Raise _ => (Refusal, tbl) end
  | GApprove now id actor v => run (sql_approve_pending now id actor v tbl) Changed
  | GConsume now a => run (sql_atomic_consume now a tbl) Claimed
  | GConsumed now id => run (sql_mark_consumed now id tbl) (fun _ => Nothing)
  | GFail now id => run (sql_mark_failed now id tbl) (fun _ => Nothing)
  | GReject now id => run (sql_mark_rejected now id tbl) (fun _ => Nothing)
  | GReconcile now id => run (sql_mark_reconciliation_required now id tbl) (fun _ => Nothing)
  | GUnknown now id => run (sql_mark_unknown now id tbl) (fun _ => Nothing)
  end.

(** The same call on the map. *)
Definition map_step (op : GrantOp) (t : GrantTable) : Reply * GrantTable :=
  match op with
  | GInsert g => match insert_pending g t with Ok t' => (Nothing, t') | Raise _ => (Refusal, t) end
  | GApprove now id actor v => let '(b, t') := approve_pending now id actor v t in (Changed b, t')
  | GConsume now a => let '(g, t') := atomic_consume now a t in (Claimed g, t')
  | _ => (Nothing, snd (grant_step op t))
  end.

Lemma map_step_step op t : snd (map_step op t) = snd (grant_step op t).
Proof.
  destruct op; cbn [map_step grant_step]; try done.
  - by destruct (insert_pending g t).
  - by destruct (approve_pending _ _ _ _ _).
  - by destruct (atomic_consume _ _ _).
Qed.

Lemma mark_simulated status stamp from b s w now id tbl t :
  (forall g, holds grant_cs (grant_row g) from = Some (b g)) ->
  (forall g, set_cells grant_cs [("status", Val (VText status)); (stamp, Val (VText (isoformat now)))] (grant_row g)
             = grant_row (set_grant g s w)) ->
  represents tbl t ->
  exists n tbl', sql_mark status stamp from now id tbl = Ok (n, tbl') /\ represents tbl' (snd (update_grant id b s w t)).
Proof.
  intros Hf Hset Hr. destruct (update_simulated id b s w [("status", Val (VText status)); (stamp, Val (VText (isoformat now)))]
    (CAnd (text_is "session_id" id) from) tbl t) as (tbl' & E & Hr'); [intros g; by apply mark_selects|done|done|].
  unfold sql_mark. rewrite E. eauto.
Qed.

Lemma status_is g s : holds grant_cs (grant_row g) (text_is "status" (status_text s)) = Some (is_status s g).
Proof. apply holds_status. Qed.

Lemma approve_simulated now id actor v tbl t :
  represents tbl t ->
  exists tbl', sql_approve_pending now id actor v tbl = Ok (fst (approve_pending now id actor v t), tbl') /\
    represents tbl' (snd (approve_pending now id actor v t)).
Proof.
  intros Hr. unfold sql_approve_pending, approve_pending.
  match goal with |- context [update_grant id ?b ?s ?w t] =>
    destruct (update_simulated id b s w
      [("status", Val (VText "APPROVED")); ("approving_actor_id", Val (VText actor)); ("approved_at", Val (VText (isoformat now)))]
      (all_of (text_is "session_id" id) [text_is "status" "PENDING"; int_is "version" v]) tbl t)
      as (tbl' & E & Hr'); [| |exact Hr|] end.
  - intros g. apply selected_known.
    rewrite (holds_all_of grant_cs (grant_row g) _ (String.eqb (g_session_id g) id) _ [is_status GPENDING g; g_version g =? v]).
    + cbn [fold_left]. by rewrite <-andb_assoc.
    + by apply holds_text.
    + constructor; [apply (status_is g GPENDING)|]. constructor; [by apply holds_int|constructor].
  - reflexivity.
  - rewrite E. cbn [res_bind]. exists tbl'. split; [|done]. by destruct (fst (update_grant _ _ _ _ _)).
Qed.

Lemma claim_simulated now a tbl t :
  represents tbl t ->
  exists tbl', sql_claim now a tbl = Ok (fst (claim now a t), tbl') /\ represents tbl' (snd (claim now a t)).
Proof.
  intros Hr. unfold sql_claim, claim.
  match goal with |- context [update_grant (ca_session_id a) ?b ?s ?w t] =>
    destruct (update_simulated (ca_session_id a) b s w [("status", Val (VText "CONSUMING")); ("consuming_at", Val (VText (isoformat now)))]
      (claim_where (isoformat now) a) tbl t) as (tbl' & E & Hr');
      [intros g; apply claim_selects|reflexivity|exact Hr|] end.
  rewrite E. cbn [res_bind]. exists tbl'. split; [|done]. by destruct (fst _).
Qed.

Lemma claimed_simulated id tbl t : represents tbl t -> sql_claimed id tbl = claimed id t.
Proof.
  intros Hr. unfold sql_claimed, claimed. rewrite (select_one _ id (is_status GCONSUMING) tbl t).
  - destruct (t !! id) as [g|]; [|done]. destruct (is_status GCONSUMING g); [|done]. cbn. by rewrite grant_row_roundtrip.
  - intros g. apply mark_selects, (status_is g GCONSUMING).
  - done.
Qed.

Lemma consume_simulated now a tbl t :
  represents tbl t ->
  exists tbl', sql_atomic_consume now a tbl = Ok (fst (atomic_consume now a t), tbl') /\
    represents tbl' (snd (atomic_consume now a t)).
Proof.
  intros Hr. unfold sql_atomic_consume, atomic_consume. destruct (claim_simulated now a tbl t Hr) as (tbl' & -> & Hr').
  destruct (claim now a t) as [[] t']; cbn [res_bind fst snd] in *; exists tbl'; [|done].
  by rewrite (claimed_simulated _ tbl' t').
Qed.

Lemma get_simulated id tbl t : represents tbl t -> sql_get_by_session id tbl = get_by_session id t.
Proof.
  intros Hr. unfold sql_get_by_session, get_by_session. rewrite (select_one _ id (fun _ => true) tbl t); [| |done].
  - destruct (t !! id) as [g|]; [|done]. cbn. by rewrite grant_row_roundtrip.
  - intros g. rewrite andb_true_r. apply selected_known. by apply holds_text.
Qed.

Lemma step_simulated op tbl t :
  represents tbl t ->
  fst (sql_step op tbl) = fst (map_step op t) /\ represents (snd (sql_step op tbl)) (snd (map_step op t)).
Proof.
  intros Hr. destruct op as [g|now id actor v|now a|now id|now id|now id|now id|now id]; cbn [sql_step map_step].
  - pose proof (insert_simulated g tbl t Hr) as H.
    destruct (insert_pending g t) as [t'|e], (sql_insert_pending g tbl) as [tbl'|e']; try done; by destruct e.
  - destruct (approve_simulated now id actor v tbl t Hr) as (tbl' & -> & Hr'). by destruct (approve_pending _ _ _ _ _).
  - destruct (consume_simulated now a tbl t Hr) as (tbl' & -> & Hr'). by destruct (atomic_consume _ _ _).
  - destruct (mark_simulated "CONSUMED" "consumed_at" (text_is "status" "CONSUMING") (is_status GCONSUMING) GCONSUMED
      {| st_approving_actor := None; st_approved_at := None; st_consuming_at := None;
         st_consumed_at := Some (isoformat now); st_failed_at := None |} now id tbl t
      (fun g => status_is g GCONSUMING) (fun _ => eq_refl) Hr) as (n & tbl' & E & Hr').
    unfold sql_mark_consumed. by rewrite E.
  - destruct (mark_simulated "FAILED" "failed_at" (text_is "status" "CONSUMING") (is_status GCONSUMING) GFAILED
      (failed_stamp now) now id tbl t (fun g => status_is g GCONSUMING) (fun _ => eq_refl) Hr) as (n & tbl' & E & Hr').
    unfold sql_mark_failed. by rewrite E.
  - destruct (mark_simulated "REJECTED" "failed_at" (CIn (Col "status") ["PENDING"; "APPROVED"]) _ GREJECTED
      (failed_stamp now) now id tbl t holds_pending_or_approved (fun _ => eq_refl) Hr) as (n & tbl' & E & Hr').
    unfold sql_mark_rejected. by rewrite E.
  - destruct (mark_simulated "RECONCILIATION_REQUIRED" "failed_at" (text_is "status" "PENDING") (is_status GPENDING)
      GRECONCILIATION_REQUIRED (failed_stamp now) now id tbl t (fun g => status_is g GPENDING) (fun _ => eq_refl) Hr)
      as (n & tbl' & E & Hr').
    unfold sql_mark_reconciliation_required. by rewrite E.
  - destruct (mark_simulated "UNKNOWN" "failed_at" (text_is "status" "CONSUMING") (is_status GCONSUMING) GUNKNOWN
      (failed_stamp now) now id tbl t (fun g => status_is g GCONSUMING) (fun _ => eq_refl) Hr) as (n & tbl' & E & Hr').
    unfold sql_mark_unknown. by rewrite E.
Qed.

(** C9: The repository's SQL does what the map of the model does.  From the table the
    migrations create in a fresh database, any sequence of calls gives the same answers as the calls on the map, and
    the table then holds exactly the map's grants, within every constraint of the schema:
    no UPDATE can violate one, and an INSERT fails exactly when the map refuses it; reading a
    session back gives its grant, column for column. *)
Theorem repository_sql_refines_map ops :
  oget (tables (snd (start empty_db))) "approved_operation_grants" = Some grants_v5 /\
  let '(replies, tbl) := answers sql_step ops grants_v5 in
  let '(replies', t) := answers map_step ops ∅ in
  replies = replies' /\ represents tbl t /\ grants_ok grants_v5 (t_rows tbl) = true /\
  forall id, sql_get_by_session id tbl = get_by_session id t.
Proof.
  split; [vm_compute; reflexivity|].
  destruct (answers_simulated sql_step map_step represents ops grants_v5 ∅ step_simulated represents_empty) as [E Hr].
  destruct (answers sql_step ops grants_v5) as [rs tbl], (answers map_step ops ∅) as [rs' t]. cbn in E, Hr. split; [done|]. split; [done|]. split.
  - apply (represents_ok tbl t Hr).
  - intros id. by apply get_simulated.
Qed.
