(* ===== verification/IdempotencySql.v ===== *)
(** The idempotency store as the SQL it sends ([idempotency_store.py]) over the table the
    migrations create, and the proof that the map of [IdempotencyStore] is what these
    statements do. *)
From S2P Require Import Prelude PyStr PyTime Json PyRepr Sql Migrations SqlStmt IdempotencyStore.

(** ** Rows *)

Definition idem_cs : list Column := t_columns idempotency_records_table.

Definition idem_row (r : IdemRow) : row :=
  [VText (iw_key r); VText (iw_status r); VText (iw_tool_name r); opt_value (iw_tool_args r); opt_value (iw_result r);
   opt_value (iw_error r); VText (iw_created_at r); opt_value (iw_completed_at r)].

(** Columns by name. *)
Definition row_to_idem (r : row) : IdemRow :=
  let col c := cell idem_cs c r in
  {| iw_key := value_text (col "idempotency_key"); iw_status := value_text (col "status");
     iw_tool_name := value_text (col "tool_name"); iw_tool_args := value_opt (col "tool_args");
     iw_result := value_opt (col "result"); iw_error := value_opt (col "error");
     iw_created_at := value_text (col "created_at"); iw_completed_at := value_opt (col "completed_at") |}.

(** ** The methods *)

Definition by_idempotency_key (key : string) : cond := text_is "idempotency_key" key.

Definition sql_reserve_row (now : Z) (key tool_name : string) (tool_args : json) : Table -> Table :=
  sql_insert_or_ignore
    [("idempotency_key", VText key); ("status", VText "RESERVED"); ("tool_name", VText tool_name);
     ("tool_args", VText (dumps false (args_or_empty tool_args))); ("created_at", VText (isoformat now))].

Definition sql_reserved (key : string) (t : Table) : result IdempotencyRecord :=
  match sql_select_one (by_idempotency_key key) t with
  | Some r => row_to_record (row_to_idem r)
  | None => Raise (TypeError "'NoneType' object is not subscriptable")
  end.

Definition sql_reserve (now : Z) (key tool_name : string) (tool_args : json) (t : Table)
    : result IdempotencyRecord * Table :=
  let t' := sql_reserve_row now key tool_name tool_args t in (sql_reserved key t', t').

Definition idem_update (sets : list (string * expr)) (c : cond) (t : Table) : result (bool * Table) :=
  let* (n, t') := sql_update sets c t in Ok (Nat.eqb n 1, t').

Definition sql_mark_executing (key : string) : Table -> result (bool * Table) :=
  idem_update [("status", Val (VText "EXECUTING"))] (CAnd (by_idempotency_key key) (text_is "status" "RESERVED")).

Definition sql_mark_succeeded (now : Z) (key res : string) : Table -> result (bool * Table) :=
  idem_update [("status", Val (VText "SUCCEEDED")); ("result", Val (VText res)); ("completed_at", Val (VText (isoformat now)))]
    (CAnd (by_idempotency_key key) (text_is "status" "EXECUTING")).

Definition sql_mark_failed (now : Z) (key error : string) : Table -> result (bool * Table) :=
  idem_update [("status", Val (VText "FAILED")); ("error", Val (VText error)); ("completed_at", Val (VText (isoformat now)))]
    (by_idempotency_key key).

Definition sql_mark_unknown (key : string) : Table -> result (bool * Table) :=
  idem_update [("status", Val (VText "UNKNOWN"))]
    (CAnd (by_idempotency_key key) (CIn (Col "status") ["RESERVED"; "EXECUTING"])).

Definition sql_idem_get (key : string) (t : Table) : result (option IdempotencyRecord) :=
  match sql_select_one (by_idempotency_key key) t with
  | None => Ok None
  | Some r => let* x := row_to_record (row_to_idem r) in Ok (Some x)
  end.

(** ** Calls *)

Inductive IdemReply : Type := Recorded (r : result IdempotencyRecord) | Marked (b : bool) | Refused.

Definition sql_idem_step (op : IdemOp) (t : Table) : IdemReply * Table :=
  let mark (m : result (bool * Table)) := match m with Ok (b, t') => (Marked b, t') | Raise _ => (Refused, t) end in
  match op with
  | IReserve now key name args => let '(r, t') := sql_reserve now key name args t in (Recorded r, t')
  | IExecuting key => mark (sql_mark_executing key t)
  | ISucceeded now key res => mark (sql_mark_succeeded now key res t)
  | IFail now key error => mark (sql_mark_failed now key error t)
  | IUnknown key => mark (sql_mark_unknown key t)
  end.

Definition map_idem_step (op : IdemOp) (t : IdemTable) : IdemReply * IdemTable :=
  let mark (m : bool * IdemTable) := let '(b, t') := m in (Marked b, t') in
  match op with
  | IReserve now key name args => let '(r, t') := reserve now key name args t in (Recorded r, t')
  | IExecuting key => mark (mark_executing key t)
  | ISucceeded now key res => mark (mark_succeeded now key res t)
  | IFail now key error => mark (mark_failed now key error t)
  | IUnknown key => mark (mark_unknown key t)
  end.

(** ** Rows as stored records *)

Definition lawful_records (rs : list IdemRow) : Prop := NoDup (map iw_key rs).

Lemma idem_row_ok r : row_ok idem_cs [] (idem_row r) = true.
Proof. by destruct r as [k st n [] [] [] c []]. Qed.

Lemma records_lawful rs :
  rows_ok idem_cs (t_keys idempotency_records_table) [] (map idem_row rs) = true <-> lawful_records rs.
Proof.
  unfold rows_ok, lawful_records. change (t_keys idempotency_records_table) with [["idempotency_key"]]. cbn [forallb].
  rewrite !andb_true_iff, (text_key_ok idem_cs idem_row iw_key) by done.
  assert (forallb (row_ok idem_cs []) (map idem_row rs) = true) as ->; [|tauto].
  rewrite forallb_forall. intros x (r & <- & _)%in_map_iff. apply idem_row_ok.
Qed.

#[export, refine] Instance stored_record : Stored IdemRow :=
  {| schema := idempotency_records_table; to_row := idem_row; row_key := iw_key; lawful := lawful_records |}.
Proof.
  - reflexivity.
  - constructor.
  - apply records_lawful.
  - done.
Defined.

Lemma idem_row_roundtrip r : row_to_idem (idem_row r) = r.
Proof. destruct r. unfold row_to_idem. cbn. by rewrite !value_opt_back. Qed.

(** ** Lemmas *)

(** One conditional UPDATE is the map's. *)
Lemma idem_update_simulated key guard f sets c tbl t :
  (forall r, selected idem_cs c (idem_row r) = String.eqb (iw_key r) key && guard (iw_status r)) ->
  (forall r, set_cells idem_cs sets (idem_row r) = idem_row (f r)) ->
  (forall r, iw_key (f r) = iw_key r) ->
  represents tbl t ->
  exists tbl', idem_update sets c tbl = Ok (fst (update_idem key guard f t), tbl') /\
    represents tbl' (snd (update_idem key guard f t)).
Proof.
  intros Hc Hs Hk Hr. destruct (@update_one IdemRow stored_record key (fun r => guard (iw_status r)) f sets c tbl t Hc Hs Hk) as (tbl' & E & Hr').
  - intros rs Hl. cbn [lawful stored_record] in *. unfold lawful_records in *.
    rewrite map_map, (List.map_ext _ iw_key); [done|]. intros r. unfold moved. by destruct (_ && _).
  - done.
  - exists tbl'. unfold idem_update. rewrite E. cbn [res_bind]. change (update_idem key guard f t) with (map_update key (fun r => guard (iw_status r)) f t).
    split; [|done]. by destruct (fst _).
Qed.

Lemma by_key_selects key r : holds idem_cs (idem_row r) (by_idempotency_key key) = Some (String.eqb (iw_key r) key).
Proof. by apply holds_text. Qed.

Lemma status_selects key s r :
  selected idem_cs (CAnd (by_idempotency_key key) (text_is "status" s)) (idem_row r)
  = String.eqb (iw_key r) key && String.eqb (iw_status r) s.
Proof. apply selected_known, holds_and; [apply by_key_selects|by apply holds_text]. Qed.

Lemma select_record key tbl t : represents tbl t -> sql_select_one (by_idempotency_key key) tbl = idem_row <$> t !! key.
Proof.
  intros Hr. rewrite (select_one _ key (fun _ => true) tbl t); [by destruct (t !! key)| |done].
  intros r. rewrite andb_true_r. apply selected_known, by_key_selects.
Qed.

Lemma idem_get_simulated key tbl t : represents tbl t -> sql_idem_get key tbl = idem_get key t.
Proof.
  intros Hr. unfold sql_idem_get, idem_get. rewrite (select_record key tbl t Hr). destruct (t !! key) as [r|]; [|done]. cbn.
  by rewrite idem_row_roundtrip.
Qed.

Lemma reserve_simulated now key name args tbl t :
  represents tbl t ->
  fst (sql_reserve now key name args tbl) = fst (reserve now key name args t) /\
  represents (snd (sql_reserve now key name args tbl)) (snd (reserve now key name args t)).
Proof.
  intros Hr. unfold sql_reserve, sql_reserved, sql_reserve_row, sql_insert_or_ignore, sql_insert, reserve. cbn [fst snd].
  assert (t_columns tbl = idem_cs) as -> by (by destruct Hr as (rs & -> & _)).
  change (insert_row idem_cs _) with (to_row (reserved_row now key name args)).
  destruct (t !! key) as [r|] eqn:E.
  - rewrite (insert_taken (reserved_row now key name args) r tbl t Hr E), (select_record key tbl t Hr), E. cbn.
    by rewrite idem_row_roundtrip.
  - destruct (insert_represented (reserved_row now key name args) tbl t true Hr E) as (tbl' & -> & Hr').
    + intros rs [Hl Ht]. split; [done|]. intros _. cbn [lawful stored_record] in *. unfold lawful_records in *.
      rewrite map_app, NoDup_app. split; [done|]. split; [|apply NoDup_singleton].
      intros k (r & Hk & Hin)%list_elem_of_fmap Hk'%list_elem_of_singleton. cbn in Hk'.
      assert (t !! key = Some r) by (apply Ht; split; [done|cbn; congruence]). congruence.
    + cbn [row_key stored_record reserved_row iw_key] in Hr'. rewrite (select_record key tbl' _ Hr'), lookup_insert_eq.
      cbn [fmap option_fmap option_map fst snd]. by rewrite idem_row_roundtrip.
Qed.

(** The SELECT alone. *)
Lemma reserved_simulated key tbl t : represents tbl t -> sql_reserved key tbl = reserved key t.
Proof.
  intros Hr. unfold sql_reserved, reserved. rewrite (select_record key tbl t Hr). destruct (t !! key) as [r|]; [|done]. cbn.
  by rewrite idem_row_roundtrip.
Qed.

Lemma idem_step_simulated op tbl t :
  represents tbl t ->
  fst (sql_idem_step op tbl) = fst (map_idem_step op t) /\ represents (snd (sql_idem_step op tbl)) (snd (map_idem_step op t)).
Proof.
  intros Hr. destruct op as [now key name args|key|now key res|now key error|key]; cbn [sql_idem_step map_idem_step].
  - destruct (reserve_simulated now key name args tbl t Hr) as [E Hr'].
    destruct (sql_reserve _ _ _ _ _), (reserve _ _ _ _ _). cbn [fst snd] in *. by subst.
  - unfold sql_mark_executing, mark_executing.
    match goal with |- context [update_idem key ?g ?f t] =>
      destruct (idem_update_simulated key g f [("status", Val (VText "EXECUTING"))]
        (CAnd (by_idempotency_key key) (text_is "status" "RESERVED")) tbl t) as (tbl' & -> & Hr') end;
      [intros r; apply status_selects|done|done|done|].
    by destruct (update_idem _ _ _ t).
  - unfold sql_mark_succeeded, mark_succeeded.
    match goal with |- context [update_idem key ?g ?f t] =>
      destruct (idem_update_simulated key g f [("status", Val (VText "SUCCEEDED")); ("result", Val (VText res));
        ("completed_at", Val (VText (isoformat now)))]
        (CAnd (by_idempotency_key key) (text_is "status" "EXECUTING")) tbl t) as (tbl' & -> & Hr') end;
      [intros r; apply status_selects|done|done|done|].
    by destruct (update_idem _ _ _ t).
  - unfold sql_mark_failed, mark_failed.
    match goal with |- context [update_idem key ?g ?f t] =>
      destruct (idem_update_simulated key g f [("status", Val (VText "FAILED")); ("error", Val (VText error));
        ("completed_at", Val (VText (isoformat now)))] (by_idempotency_key key) tbl t) as (tbl' & -> & Hr') end;
      [intros r; rewrite andb_true_r; apply selected_known, by_key_selects|done|done|done|].
    by destruct (update_idem _ _ _ t).
  - unfold sql_mark_unknown, mark_unknown.
    match goal with |- context [update_idem key ?g ?f t] =>
      destruct (idem_update_simulated key g f [("status", Val (VText "UNKNOWN"))]
        (CAnd (by_idempotency_key key) (CIn (Col "status") ["RESERVED"; "EXECUTING"])) tbl t) as (tbl' & -> & Hr') end;
      [|done|done|done|].
    + intros r. apply selected_known, holds_and; [apply by_key_selects|]. cbn [holds eval].
      change (cell idem_cs "status" (idem_row r)) with (VText (iw_status r)). cbn [compare]. unfold str_in. cbn [existsb]. by rewrite orb_false_r.
    + by destruct (update_idem _ _ _ t).
Qed.

(** ** Properties *)

(** The idempotency store's SQL does what its map does.  From the table the migrations
    create, any sequence of calls gives the same answers in SQL as on the map: a reservation
    inserts a row or reads the one that is there, a mark tells whether a row changed; no
    statement is refused, the table holds exactly the records of the map, and reading a key gives
    its record. *)
Theorem idempotency_sql_refines_map ops :
  oget (tables (snd (start empty_db))) "idempotency_records" = Some idempotency_records_table /\
  let '(replies, tbl) := answers sql_idem_step ops idempotency_records_table in
  let '(replies', t) := answers map_idem_step ops ∅ in
  replies = replies' /\ represents tbl t /\ forall key, sql_idem_get key tbl = idem_get key t.
Proof.
  split; [vm_compute; reflexivity|].
  destruct (answers_simulated sql_idem_step map_idem_step represents ops idempotency_records_table ∅ idem_step_simulated represents_empty) as [E Hr].
  destruct (answers sql_idem_step ops _) as [rs tbl], (answers map_idem_step ops ∅) as [rs' t]. cbn in E, Hr. split; [done|]. split; [done|].
  intros key. by apply idem_get_simulated.
Qed.
