(* ===== verification/HitlSql.v ===== *)
(** The approval sessions as the SQL the store sends ([hitl_store.py]) over the table the
    migrations create and extend, and the proof that the map of [HitlStore] is what these
    statements do. *)
From S2P Require Import Prelude PyStr PyTime Json PyRepr Sql Migrations SqlStmt HitlStore.

(** ** Rows *)

(** The first migration's table with the column of the fourth. *)
Definition hitl_sessions_v4 : Table :=
  new_table (t_columns hitl_sessions_table ++ [text_default "tool_call_id" ""]) (t_keys hitl_sessions_table) [].

Definition session_cs : list Column := t_columns hitl_sessions_v4.

Definition session_row (r : HITLRow) : row :=
  [VText (hr_session_id r); VText (hr_user_id r); VText (hr_thread_id r); VText (hr_status r); VText (hr_tool_name r);
   VText (hr_tool_args r); opt_value (hr_authorization_decision r); opt_value (hr_approval_requirement r);
   opt_value (hr_idempotency_key r); VInt (hr_version r); VText (hr_created_at r); VText (hr_updated_at r);
   opt_value (hr_expires_at r); VText (hr_tool_call_id r)].

(** Columns by name. *)
Definition row_to_session (r : row) : HITLRow :=
  let col c := cell session_cs c r in
  {| hr_session_id := value_text (col "session_id"); hr_user_id := value_text (col "user_id");
     hr_thread_id := value_text (col "thread_id"); hr_status := value_text (col "status");
     hr_tool_name := value_text (col "tool_name"); hr_tool_args := value_text (col "tool_args");
     hr_authorization_decision := value_opt (col "authorization_decision");
     hr_approval_requirement := value_opt (col "approval_requirement");
     hr_idempotency_key := value_opt (col "idempotency_key"); hr_version := value_int (col "version");
     hr_created_at := value_text (col "created_at"); hr_updated_at := value_text (col "updated_at");
     hr_expires_at := value_opt (col "expires_at"); hr_tool_call_id := value_text (col "tool_call_id") |}.

(** ** The methods *)

Definition sql_hitl_insert (s : HITLSession) (t : Table) : result Table :=
  sql_insert
    [("session_id", VText (hs_session_id s)); ("user_id", VText (hs_user_id s)); ("thread_id", VText (hs_thread_id s));
     ("status", VText (hitl_value (hs_status s))); ("tool_name", VText (hs_tool_name s));
     ("tool_args", VText (dumps false (hs_tool_args s))); ("tool_call_id", VText (hs_tool_call_id s));
     ("authorization_decision", opt_value (hs_authorization_decision s));
     ("approval_requirement", opt_value (hs_approval_requirement s));
     ("idempotency_key", opt_value (hs_idempotency_key s)); ("version", VInt (hs_version s));
     ("created_at", VText (hs_created_at s)); ("updated_at", VText (hs_updated_at s));
     ("expires_at", opt_value (hs_expires_at s))] t.

Definition sql_hitl_get (id : string) (t : Table) : result (option HITLSession) :=
  match sql_select_one (text_is "session_id" id) t with
  | None => Ok None
  | Some r => let* s := row_to_hitl_session (row_to_session r) in Ok (Some s)
  end.

Definition sql_hitl_update_status (now : Z) (id : string) (st : HITLSessionStatus) (expected_version : Z) (t : Table)
    : result (bool * Table) :=
  let* (n, t') := sql_update
    [("status", Val (VText (hitl_value st))); ("updated_at", Val (VText (isoformat now)));
     ("version", Plus (Col "version") (Val (VInt 1)))]
    (CAnd (text_is "session_id" id) (int_is "version" expected_version)) t in
  Ok (Nat.eqb n 1, t').

Definition sql_expire_stale_sessions (now : Z) (t : Table) : result (Z * Table) :=
  let text := isoformat now in
  let* (n, t') := sql_update [("status", Val (VText "EXPIRED")); ("updated_at", Val (VText text))]
    (all_of (text_is "status" "PENDING") [CNotNull (Col "expires_at"); CGt (Val (VText text)) (Col "expires_at")]) t in
  Ok (Z.of_nat n, t').

(** The rows [list_pending] decodes. *)
Definition sql_pending_rows (user_id : option string) (t : Table) : list row :=
  sql_select (if opt_str_true user_id then CAnd (text_is "status" "PENDING") (text_is "user_id" (opt_or user_id ""))
              else text_is "status" "PENDING") t.

(** ** Calls *)

Inductive SessionOp : Type :=
  | SInsert (s : HITLSession)
  | SUpdate (now : Z) (id : string) (st : HITLSessionStatus) (expected_version : Z)
  | SExpire (now : Z).

Inductive SessionReply : Type := Inserted | Won (b : bool) | Swept (n : Z) | Violation.

Definition sql_session_step (op : SessionOp) (t : Table) : SessionReply * Table :=
  match op with
  | SInsert s => match sql_hitl_insert s t with Ok t' => (Inserted, t') | Raise _ => (Violation, t) end
  | SUpdate now id st v =>
      match sql_hitl_update_status now id st v t with Ok (b, t') => (Won b, t') | Raise _ => (Violation, t) end
  | SExpire now => match sql_expire_stale_sessions now t with Ok (n, t') => (Swept n, t') | Raise _ => (Violation, t) end
  end.

Definition map_session_step (op : SessionOp) (t : HITLTable) : SessionReply * HITLTable :=
  match op with
  | SInsert s => match hitl_insert s t with Ok t' => (Inserted, t') | Raise _ => (Violation, t) end
  | SUpdate now id st v => let '(b, t') := hitl_update_status now id st v t in (Won b, t')
  | SExpire now => let '(n, t') := expire_stale_sessions now t in (Swept n, t')
  end.

(** ** Rows as stored records *)

Definition lawful_sessions (rs : list HITLRow) : Prop :=
  NoDup (map hr_session_id rs) /\ NoDup (omap hr_idempotency_key rs).

Lemma session_row_ok r : row_ok session_cs [] (session_row r) = true.
Proof. reflexivity. Qed.

Lemma sessions_lawful rs :
  rows_ok session_cs (t_keys hitl_sessions_v4) [] (map session_row rs) = true <-> lawful_sessions rs.
Proof.
  unfold rows_ok, lawful_sessions. change (t_keys hitl_sessions_v4) with [["session_id"]; ["idempotency_key"]]. cbn [forallb].
  rewrite !andb_true_iff, (text_key_ok session_cs session_row hr_session_id),
    (nullable_key_ok session_cs session_row hr_idempotency_key) by done.
  assert (forallb (row_ok session_cs []) (map session_row rs) = true) as ->; [|tauto].
  rewrite forallb_forall. intros x (r & <- & _)%in_map_iff. apply session_row_ok.
Qed.

#[export, refine] Instance stored_session : Stored HITLRow :=
  {| schema := hitl_sessions_v4; to_row := session_row; row_key := hr_session_id; lawful := lawful_sessions |}.
Proof.
  - reflexivity.
  - split; constructor.
  - apply sessions_lawful.
  - by intros rs [? _].
Defined.

Lemma session_row_roundtrip r : row_to_session (session_row r) = r.
Proof. destruct r. unfold row_to_session. cbn. by rewrite !value_opt_back. Qed.

(** ** Lemmas *)

(** An UPDATE of status, time and version leaves the keys alone. *)
Lemma lawful_sessions_moved hit f rs :
  (forall r, hr_session_id (f r) = hr_session_id r) -> (forall r, hr_idempotency_key (f r) = hr_idempotency_key r) ->
  lawful rs -> lawful (map (moved hit f) rs).
Proof.
  intros Hs Hk [H1 H2]. cbn [lawful stored_session]. unfold lawful_sessions. rewrite map_map.
  rewrite (List.map_ext (fun r => hr_session_id (moved hit f r)) hr_session_id) by (intros r; unfold moved; by destruct (hit r)).
  assert (omap hr_idempotency_key (map (moved hit f) rs) = omap hr_idempotency_key rs) as ->; [|done]. clear -Hk.
  induction rs as [|r rs IH]; [done|]. cbn. rewrite IH. unfold moved. destruct (hit r); [by rewrite Hk|done].
Qed.

Lemma hitl_insert_simulated s tbl t :
  represents tbl t ->
  match hitl_insert s t, sql_hitl_insert s tbl with
  | Ok t', Ok tbl' => represents tbl' t'
  | Raise (IntegrityError _), Raise (IntegrityError _) => True
  | _, _ => False
  end.
Proof.
  intros Hr. unfold sql_hitl_insert, sql_insert, hitl_insert.
  assert (t_columns tbl = session_cs) as -> by (by destruct Hr as (rs & -> & _)).
  change (insert_row session_cs _) with (to_row (session_to_row s)).
  destruct (t !! hs_session_id s) as [r|] eqn:E.
  { by rewrite (insert_taken (session_to_row s) r tbl t Hr E). }
  pose proof (insert_represented (session_to_row s) tbl t (negb (key_taken t (hs_idempotency_key s))) Hr E) as H.
  lapply H; clear H.
  - destruct (key_taken t (hs_idempotency_key s)); cbn [negb]; [by intros ->|]. intros (tbl' & -> & H). exact H.
  - intros rs Hc. pose proof Hc as [[H1 H2] Ht]. cbn [lawful stored_session]. unfold lawful_sessions.
    rewrite negb_true_iff, key_taken_spec, map_app, omap_app, !NoDup_app. cbn [map].
    assert (Hs : forall x, x ∈ map hr_session_id rs -> x ∉ [hr_session_id (session_to_row s)]).
    { intros x (r & -> & Hin)%list_elem_of_fmap Hx%list_elem_of_singleton. cbn in Hx.
      assert (t !! hs_session_id s = Some r) by (apply Ht; by split). congruence. }
    split.
    + intros [_ (_ & Hd & _)]. destruct (hs_idempotency_key s) as [k|] eqn:Ek; [|by left]. right.
      intros id r [Hin _]%Ht Hk. apply (Hd k); [apply list_elem_of_omap; eauto|]. cbn. rewrite Ek. by left.
    + intros Hk. split; [split_and!; [done|done|apply NoDup_singleton]|]. split; [done|]. split.
      * intros k (r & Hin & Hr')%list_elem_of_omap Hx. cbn in Hx. destruct Hk as [Hk|Hk]; [rewrite Hk in Hx; by apply not_elem_of_nil in Hx|].
        destruct (hs_idempotency_key s) as [k'|]; [|by apply not_elem_of_nil in Hx]. apply list_elem_of_singleton in Hx as ->.
        apply (Hk (hr_session_id r) r); [by apply Ht|done].
      * cbn. destruct (hs_idempotency_key s); [apply NoDup_singleton|constructor].
Qed.

Lemma hitl_get_simulated id tbl t : represents tbl t -> sql_hitl_get id tbl = hitl_get id t.
Proof.
  intros Hr. unfold sql_hitl_get, hitl_get. rewrite (select_one _ id (fun _ => true) tbl t); [| |done].
  - destruct (t !! id) as [r|]; [|done]. change (to_row r) with (session_row r). by rewrite session_row_roundtrip.
  - intros r. rewrite andb_true_r. apply selected_known. by apply holds_text.
Qed.

(** A refused INSERT names the constraint the map names. *)
Lemma hitl_insert_refused s tbl t e :
  represents tbl t -> hitl_insert s t = Raise e -> violation "hitl_sessions" tbl (session_row (session_to_row s)) = e.
Proof.
  intros Hr Hi. pose proof (hitl_insert_simulated s tbl t Hr) as Hsim. rewrite Hi in Hsim.
  destruct (represents_schema tbl t Hr) as (Ec & Ek & Eh). unfold violation. rewrite Ec, Ek, Eh.
  change (t_checks schema) with (@nil (string * list string)).
  change (t_keys schema) with [["session_id"]; ["idempotency_key"]]. cbn [List.find].
  pose proof (primary_key_taken (session_to_row s) tbl t "session_id" (fun _ => eq_refl) Hr) as Hk1.
  cbn [to_row stored_session row_key] in Hk1. rewrite Hk1. unfold hitl_insert in Hi.
  change (hr_session_id (session_to_row s)) with (hs_session_id s) in *.
  destruct (t !! hs_session_id s) as [r|] eqn:E; cbn [is_some negb] in *; [by injection Hi as <-|].
  assert (sql_hitl_insert s tbl = add_rows tbl [to_row (session_to_row s)]) as Es.
  { unfold sql_hitl_insert, sql_insert. by rewrite Ec. }
  destruct (key_taken _ _); [|done]. injection Hi as <-. rewrite Es in Hsim.
  destruct (add_rows tbl _) as [|e'] eqn:Ea; [done|].
  pose proof (refused_key (session_to_row s) tbl t e' Hr (session_row_ok _) Ea) as Hk.
  change (t_keys schema) with [["session_id"]; ["idempotency_key"]] in Hk. cbn [forallb to_row stored_session] in Hk.
  rewrite Hk1 in Hk. cbn [andb] in Hk. rewrite andb_true_r in Hk. by rewrite Hk.
Qed.

Lemma hitl_update_simulated now id st v tbl t :
  represents tbl t ->
  exists tbl', sql_hitl_update_status now id st v tbl = Ok (fst (hitl_update_status now id st v t), tbl') /\
    represents tbl' (snd (hitl_update_status now id st v t)).
Proof.
  intros Hr. set (f := fun r => set_row_status r (hitl_value st) (isoformat now) (hr_version r + 1)).
  destruct (@update_one HITLRow stored_session id (fun r => hr_version r =? v) f
    [("status", Val (VText (hitl_value st))); ("updated_at", Val (VText (isoformat now)));
     ("version", Plus (Col "version") (Val (VInt 1)))]
    (CAnd (text_is "session_id" id) (int_is "version" v)) tbl t) as (tbl' & E & Hr').
  - intros r. apply selected_known, holds_and; [by apply holds_text|by apply holds_int].
  - done.
  - done.
  - intros rs. by apply lawful_sessions_moved.
  - done.
  - exists tbl'. unfold sql_hitl_update_status. rewrite E. cbn [res_bind].
    change (hitl_update_status now id st v t) with (map_update id (fun r => hr_version r =? v) f t). split; [|done].
    by destruct (fst _).
Qed.

Lemma stale_selects text r :
  selected session_cs (all_of (text_is "status" "PENDING") [CNotNull (Col "expires_at"); CGt (Val (VText text)) (Col "expires_at")])
    (session_row r) = stale text r.
Proof.
  unfold stale, selected. cbn [all_of holds text_is eval].
  change (cell session_cs "status" (session_row r)) with (VText (hr_status r)).
  change (cell session_cs "expires_at" (session_row r)) with (opt_value (hr_expires_at r)). cbn [compare value_eq].
  destruct (String.eqb (hr_status r) "PENDING"), (hr_expires_at r) as [e|]; cbn; try done. by destruct (text_lt e text).
Qed.

Lemma expire_simulated now tbl t :
  represents tbl t ->
  exists tbl', sql_expire_stale_sessions now tbl = Ok (fst (expire_stale_sessions now t), tbl') /\
    represents tbl' (snd (expire_stale_sessions now t)).
Proof.
  intros Hr. set (text := isoformat now). set (f := fun r => set_row_status r "EXPIRED" text (hr_version r)).
  destruct (@update_represented HITLRow stored_session (stale text) f
    [("status", Val (VText "EXPIRED")); ("updated_at", Val (VText text))]
    (all_of (text_is "status" "PENDING") [CNotNull (Col "expires_at"); CGt (Val (VText text)) (Col "expires_at")])
    (stale_selects text) (fun _ _ => eq_refl) (fun _ => eq_refl)
    (fun rs => lawful_sessions_moved (stale text) f rs (fun _ => eq_refl) (fun _ => eq_refl)) tbl t Hr) as (tbl' & E & Hr').
  exists tbl'. unfold sql_expire_stale_sessions, expire_stale_sessions. cbn zeta. fold text. rewrite E. cbn [res_bind fst snd].
  by split.
Qed.

Lemma session_step_simulated op tbl t :
  represents tbl t ->
  fst (sql_session_step op tbl) = fst (map_session_step op t) /\
  represents (snd (sql_session_step op tbl)) (snd (map_session_step op t)).
Proof.
  intros Hr. destruct op as [s|now id st v|now]; cbn [sql_session_step map_session_step].
  - pose proof (hitl_insert_simulated s tbl t Hr) as H.
    destruct (hitl_insert s t) as [t'|e], (sql_hitl_insert s tbl) as [tbl'|e']; try done; by destruct e.
  - destruct (hitl_update_simulated now id st v tbl t Hr) as (tbl' & -> & Hr'). by destruct (hitl_update_status _ _ _ _ _).
  - destruct (expire_simulated now tbl t Hr) as (tbl' & -> & Hr'). by destruct (expire_stale_sessions _ _).
Qed.

Lemma pending_selects user r :
  selected session_cs (if opt_str_true user then CAnd (text_is "status" "PENDING") (text_is "user_id" (opt_or user ""))
                       else text_is "status" "PENDING") (session_row r) = pending_row user r.
Proof.
  unfold pending_row. apply selected_known. destruct (opt_str_true user).
  - apply holds_and; by apply holds_text.
  - rewrite andb_true_r. by apply holds_text.
Qed.

(** ** Properties *)

(** The session store's SQL does what its map does.  From the table the migrations leave
    in a fresh database, any sequence of insertions, optimistic updates and expiry sweeps gives the
    same answers in SQL as on the map, constraint violations and counts of changed rows included;
    the table then holds exactly the map's sessions, a lookup decodes the same session, and
    the pending rows are the map's, in some order. *)
Theorem sessions_sql_refine_map ops :
  oget (tables (snd (start empty_db))) "hitl_sessions" = Some hitl_sessions_v4 /\
  let '(replies, tbl) := answers sql_session_step ops hitl_sessions_v4 in
  let '(replies', t) := answers map_session_step ops ∅ in
  replies = replies' /\ represents tbl t /\
  (forall id, sql_hitl_get id tbl = hitl_get id t) /\
  (forall user, map row_to_session (sql_pending_rows user tbl) ≡ₚ List.filter (pending_row user) (map snd (map_to_list t))).
Proof.
  split; [vm_compute; reflexivity|].
  destruct (answers_simulated sql_session_step map_session_step represents ops hitl_sessions_v4 ∅ session_step_simulated represents_empty) as [E Hr].
  destruct (answers sql_session_step ops _) as [rs tbl], (answers map_session_step ops ∅) as [rs' t]. cbn in E, Hr. split; [done|]. split; [done|]. split.
  - intros id. by apply hitl_get_simulated.
  - intros user. unfold sql_pending_rows.
    rewrite (@select_represented HITLRow stored_session _ (pending_row user) tbl t (pending_selects user) Hr), map_map.
    rewrite (List.map_ext _ id), List.map_id; [done|]. apply session_row_roundtrip.
Qed.
