(* ===== verification/Checkpoints.v ===== *)
(** The checkpoint saver ([checkpoint_store.py]): graph states kept in SQLite as JSON texts
    of a type name and a base64 payload.

    LangGraph's serializer is a parameter, as are the two members the code reads of a
    checkpoint.  Base64 is written out for the texts the encoder produces, which are the
    only ones the saver stores.  [CheckpointSql] has the SQL these lists stand for. *)
From S2P Require Import Prelude PyStr Json PyRepr.

(** ** Base64 *)

Definition b64_char (d : Z) : Ascii.ascii :=
  chr (if d <? 26 then 65 + d else if d <? 52 then 71 + d else if d <? 62 then d - 4
       else if d =? 62 then 43 else 47).

Definition b64_val (c : Ascii.ascii) : option Z :=
  let n := code c in
  if (65 <=? n) && (n <=? 90) then Some (n - 65)
  else if (97 <=? n) && (n <=? 122) then Some (n - 71)
  else if (48 <=? n) && (n <=? 57) then Some (n + 4)
  else if n =? 43 then Some 62
  else if n =? 47 then Some 63
  else None.

Definition pad_char : Ascii.ascii := "="%char.

Fixpoint b64encode (s : string) : string :=
  match s with
  | EmptyString => ""
  | String a EmptyString =>
      let n := code a * 65536 in
      String (b64_char (n / 262144)) (String (b64_char (n / 4096 mod 64)) (String pad_char (String pad_char "")))
  | String a (String b EmptyString) =>
      let n := code a * 65536 + code b * 256 in
      String (b64_char (n / 262144)) (String (b64_char (n / 4096 mod 64))
        (String (b64_char (n / 64 mod 64)) (String pad_char "")))
  | String a (String b (String c s')) =>
      let n := code a * 65536 + code b * 256 + code c in
      String (b64_char (n / 262144)) (String (b64_char (n / 4096 mod 64))
        (String (b64_char (n / 64 mod 64)) (String (b64_char (n mod 64)) (b64encode s'))))
  end.

Fixpoint b64decode (s : string) : option string :=
  match s with
  | EmptyString => Some ""
  | String w (String x (String y (String z s'))) =>
      w ← b64_val w; x ← b64_val x;
      if Ascii.eqb z pad_char then
        if negb (String.eqb s' "") then None
        else if Ascii.eqb y pad_char then Some (String (chr ((w * 64 + x) / 16)) "")
        else
          y ← b64_val y;
          let n := ((w * 64 + x) * 64 + y) * 64 in
          Some (String (chr (n / 65536)) (String (chr (n / 256 mod 256)) ""))
      else
        y ← b64_val y; z ← b64_val z;
        let n := ((w * 64 + x) * 64 + y) * 64 + z in
        rest ← b64decode s';
        Some (String (chr (n / 65536)) (String (chr (n / 256 mod 256)) (String (chr (n mod 256)) rest)))
  | _ => None
  end.

Lemma b64_val_char d : 0 <= d < 64 -> b64_val (b64_char d) = Some d.
Proof.
  intros Hd. assert (H : forallb (fun n => bool_decide (b64_val (b64_char (Z.of_nat n)) = Some (Z.of_nat n))) (seq 0 64) = true)
    by (vm_compute; reflexivity).
  rewrite forallb_forall in H. specialize (H (Z.to_nat d) ltac:(apply in_seq; lia)).
  apply bool_decide_eq_true in H. by rewrite Z2Nat.id in H by lia.
Qed.

Lemma b64_char_ascii d : 0 <= d < 64 -> code (b64_char d) < 128 /\ Ascii.eqb (b64_char d) pad_char = false.
Proof.
  intros Hd. assert (H : forallb (fun n => (code (b64_char (Z.of_nat n)) <? 128) && negb (Ascii.eqb (b64_char (Z.of_nat n)) pad_char))
                          (seq 0 64) = true) by (vm_compute; reflexivity).
  rewrite forallb_forall in H. specialize (H (Z.to_nat d) ltac:(apply in_seq; lia)). rewrite Z2Nat.id in H by lia.
  bool_hyps. done.
Qed.

Lemma chr_code c : chr (code c) = c.
Proof. unfold chr, code. by rewrite Nat2Z.id, Ascii.ascii_nat_embedding. Qed.

(** Induction three characters at a time. *)
Lemma triples_ind (P : string -> Prop) :
  P "" -> (forall a, P (String a "")) -> (forall a b, P (String a (String b ""))) ->
  (forall a b c s, P s -> P (String a (String b (String c s)))) -> forall s, P s.
Proof.
  intros H0 H1 H2 H3. assert (H : forall n s, (String.length s <= n)%nat -> P s); [|eauto].
  induction n as [|n IH]; intros [|a [|b [|c s]]] Hn; cbn in Hn; auto; try lia. apply H3, IH. lia.
Qed.

(** The digits of a 24-bit group and the group of its digits. *)
Lemma b64_digits n : 0 <= n < 16777216 ->
  0 <= n / 262144 < 64 /\ 0 <= n / 4096 mod 64 < 64 /\ 0 <= n / 64 mod 64 < 64 /\ 0 <= n mod 64 < 64 /\
  ((n / 262144 * 64 + n / 4096 mod 64) * 64 + n / 64 mod 64) * 64 + n mod 64 = n.
Proof. intros Hn. split_and!; Z.div_mod_to_equations; lia. Qed.

Lemma b64_roundtrip s : b64decode (b64encode s) = Some s.
Proof.
  induction s as [|a|a b|a b c s IH] using triples_ind; [done|..]; cbn [b64encode b64decode].
  - pose proof (code_bounds a). set (n := code a * 65536).
    destruct (b64_digits n) as (Hw & Hx & _); [lia|]. rewrite !b64_val_char by done. cbn.
    replace ((n / 262144 * 64 + n / 4096 mod 64) / 16) with (code a) by (subst n; Z.div_mod_to_equations; lia).
    by rewrite chr_code.
  - pose proof (code_bounds a). pose proof (code_bounds b). set (n := code a * 65536 + code b * 256).
    destruct (b64_digits n) as (Hw & Hx & Hy & Hz & Hn); [lia|]. rewrite !b64_val_char by done. cbn.
    rewrite (proj2 (b64_char_ascii _ Hy)). 
    replace (n mod 64) with 0 in Hn by (subst n; Z.div_mod_to_equations; lia). rewrite Z.add_0_r in Hn. rewrite Hn.
    replace (n / 65536) with (code a) by (subst n; Z.div_mod_to_equations; lia).
    replace (n / 256 mod 256) with (code b) by (subst n; Z.div_mod_to_equations; lia).
    by rewrite !chr_code.
  - pose proof (code_bounds a). pose proof (code_bounds b). pose proof (code_bounds c).
    set (n := code a * 65536 + code b * 256 + code c).
    destruct (b64_digits n) as (Hw & Hx & Hy & Hz & Hn); [lia|]. rewrite !b64_val_char by done. cbn.
    rewrite (proj2 (b64_char_ascii _ Hz)), IH. cbn. rewrite Hn.
    replace (n / 65536) with (code a) by (subst n; Z.div_mod_to_equations; lia).
    replace (n / 256 mod 256) with (code b) by (subst n; Z.div_mod_to_equations; lia).
    replace (n mod 256) with (code c) by (subst n; Z.div_mod_to_equations; lia).
    by rewrite !chr_code.
Qed.

Lemma b64_ascii s : ascii_text (b64encode s) = true.
Proof.
  assert (Hc : forall d t, 0 <= d < 64 -> ascii_text (String (b64_char d) t) = ascii_text t).
  { intros d t Hd. cbn. by rewrite (proj2 (Z.ltb_lt _ _) (proj1 (b64_char_ascii d Hd))). }
  induction s as [|a|a b|a b c s IH] using triples_ind; [done|..]; cbn [b64encode].
  all: pose proof (code_bounds a); try (pose proof (code_bounds b)); try (pose proof (code_bounds c)).
  - destruct (b64_digits (code a * 65536)) as (Hw & Hx & _); [lia|]. by rewrite !Hc.
  - destruct (b64_digits (code a * 65536 + code b * 256)) as (Hw & Hx & Hy & _); [lia|]. by rewrite !Hc.
  - destruct (b64_digits (code a * 65536 + code b * 256 + code c)) as (Hw & Hx & Hy & Hz & _); [lia|]. by rewrite !Hc.
Qed.

(** ** The saver *)

(** A stored column: a text, or the bytes older databases hold. *)
Inductive stored : Type := Text (s : string) | Blob (s : string).

Record CheckpointRow : Type := {
  c_thread_id : string;
  c_checkpoint_ns : string;
  c_checkpoint_id : string;
  c_parent_checkpoint_id : option string;
  c_type : string;
  c_checkpoint : stored;
  c_metadata : option stored;
  c_created_at : string;
}.

Record WriteRow : Type := {
  w_thread_id : string;
  w_checkpoint_ns : string;
  w_checkpoint_id : string;
  w_task_id : string;
  w_task_path : string;
  w_idx : nat;
  w_channel : string;
  w_value : string;
  w_created_at : string;
}.

Record CheckpointDB : Type := { checkpoints : list CheckpointRow; channel_writes : list WriteRow }.

(** [config\["configurable"\]] *)
Record Config : Type := { thread_id : string; checkpoint_ns : option string; checkpoint_id : option string }.

Definition ns_of (c : Config) : string := default "" (checkpoint_ns c).

Definition same_checkpoint (thread ns id : string) (r : CheckpointRow) : bool :=
  String.eqb (c_thread_id r) thread && String.eqb (c_checkpoint_ns r) ns && String.eqb (c_checkpoint_id r) id.

Definition in_namespace (thread ns : string) (r : CheckpointRow) : bool :=
  String.eqb (c_thread_id r) thread && String.eqb (c_checkpoint_ns r) ns.

Definition newest_first (a b : CheckpointRow) : bool := String.leb (c_created_at b) (c_created_at a).

Definition same_write (a b : WriteRow) : bool :=
  String.eqb (w_thread_id a) (w_thread_id b) && String.eqb (w_checkpoint_ns a) (w_checkpoint_ns b) &&
  String.eqb (w_checkpoint_id a) (w_checkpoint_id b) && String.eqb (w_task_id a) (w_task_id b) &&
  Nat.eqb (w_idx a) (w_idx b).

Section saver.
(** Checkpoints, metadata and channel values, with the serializer. *)
Context {V : Type}.
Context (dumps_typed : V -> string * string) (loads_typed : string * string -> result V).
Context (id_of : V -> string) (parent_of : V -> option string) (no_metadata : V).

Record CheckpointTuple : Type := {
  tup_thread_id : string;
  tup_checkpoint_ns : string;
  tup_checkpoint_id : string;
  tup_checkpoint : V;
  tup_metadata : V;
  tup_parent : option (string * string);
}.

Definition encode (v : V) : string :=
  let typed := dumps_typed v in dumps false (JArr [JStr (fst typed); JStr (b64encode (snd typed))]).

(** [parts\[i\]] *)
Definition part (parts : json) (i : nat) : result json :=
  match parts with
  | JArr l => match l !! i with Some v => Ok v | None => Raise (IndexError "list index out of range") end
  | _ => Raise (TypeError (repr_str (type_name parts) +:+ " object is not subscriptable"))
  end.

Definition decode (raw : stored) : result V :=
  match raw with
  | Text s =>
      let* parts := loads s in
      let* t := part parts 0 in
      let* b := part parts 1 in
      match b with
      | JStr text =>
          match b64decode text with
          | Some bytes => loads_typed (py_str t, bytes)
          | None => Raise (ValueError "Incorrect padding")
          end
      | _ => Raise (TypeError "argument should be a bytes-like object or ASCII string")
      end
  | Blob s => loads_typed ("json", s)
  end.

Definition stored_true (m : option stored) : option stored :=
  match m with
  | Some (Text s) => if str_true s then Some (Text s) else None
  | Some (Blob s) => if str_true s then Some (Blob s) else None
  | None => None
  end.

Definition row_to_tuple (r : CheckpointRow) : result CheckpointTuple :=
  let* checkpoint := decode (c_checkpoint r) in
  let* metadata := match stored_true (c_metadata r) with Some m => decode m | None => Ok no_metadata end in
  Ok {| tup_thread_id := c_thread_id r; tup_checkpoint_ns := c_checkpoint_ns r; tup_checkpoint_id := c_checkpoint_id r;
        tup_checkpoint := checkpoint; tup_metadata := metadata;
        tup_parent := match c_parent_checkpoint_id r with
                      | Some p => if str_true p then Some (c_thread_id r, p) else None
                      | None => None
                      end |}.

Definition newest (thread ns : string) (db : CheckpointDB) : option CheckpointRow :=
  head (order_by newest_first (List.filter (in_namespace thread ns) (checkpoints db))).

Definition select_row (c : Config) (db : CheckpointDB) : option CheckpointRow :=
  match checkpoint_id c with
  | Some id =>
      if str_true id then List.find (same_checkpoint (thread_id c) (ns_of c) id) (checkpoints db)
      else newest (thread_id c) (ns_of c) db
  | None => newest (thread_id c) (ns_of c) db
  end.

Definition aget_tuple (c : Config) (db : CheckpointDB) : result (option CheckpointTuple) :=
  match select_row c db with
  | None => Ok None
  | Some r => let* t := row_to_tuple r in Ok (Some t)
  end.

Definition alist (c : option Config) (db : CheckpointDB) : result (list CheckpointTuple) :=
  match c with
  | None => Ok []
  | Some c => let* t := aget_tuple c db in Ok (match t with Some t => [t] | None => [] end)
  end.

Definition new_row (c : Config) (checkpoint metadata : V) (now : string) : CheckpointRow :=
  {| c_thread_id := thread_id c; c_checkpoint_ns := ns_of c; c_checkpoint_id := id_of checkpoint;
     c_parent_checkpoint_id := parent_of checkpoint; c_type := "checkpoint";
     c_checkpoint := Text (encode checkpoint); c_metadata := Some (Text (encode metadata)); c_created_at := now |}.

(** INSERT OR REPLACE *)
Definition replace_row (r : CheckpointRow) (rows : list CheckpointRow) : list CheckpointRow :=
  List.filter (fun r' => negb (same_checkpoint (c_thread_id r) (c_checkpoint_ns r) (c_checkpoint_id r) r')) rows ++ [r].

Definition aput (c : Config) (checkpoint metadata : V) (now : string) (db : CheckpointDB) : Config * CheckpointDB :=
  (c, {| checkpoints := replace_row (new_row c checkpoint metadata now) (checkpoints db);
         channel_writes := channel_writes db |}).

Definition replace_write (w : WriteRow) (ws : list WriteRow) : list WriteRow :=
  List.filter (fun w' => negb (same_write w w')) ws ++ [w].

Fixpoint put_writes (c : Config) (idx : nat) (writes : list (string * V)) (task_id task_path now : string)
    (ws : list WriteRow) : list WriteRow :=
  match writes with
  | [] => ws
  | (channel, value) :: writes' =>
      let w := {| w_thread_id := thread_id c; w_checkpoint_ns := ns_of c;
                  w_checkpoint_id := default "" (checkpoint_id c); w_task_id := task_id; w_task_path := task_path;
                  w_idx := idx; w_channel := channel; w_value := encode value; w_created_at := now |} in
      put_writes c (S idx) writes' task_id task_path now (replace_write w ws)
  end.

Definition aput_writes (c : Config) (writes : list (string * V)) (task_id task_path now : string) (db : CheckpointDB)
    : CheckpointDB :=
  {| checkpoints := checkpoints db;
     channel_writes := put_writes c 0 writes task_id task_path now (channel_writes db) |}.

Definition adelete_thread (thread : string) (db : CheckpointDB) : CheckpointDB :=
  {| checkpoints := List.filter (fun r => negb (String.eqb (c_thread_id r) thread)) (checkpoints db);
     channel_writes := List.filter (fun w => negb (String.eqb (w_thread_id w) thread)) (channel_writes db) |}.

(** The changes the saver makes to the database. *)
Inductive saver_step : CheckpointDB -> CheckpointDB -> Prop :=
  | StepPut c ck md now db : saver_step db (snd (aput c ck md now db))
  | StepWrites c ws task path now db : saver_step db (aput_writes c ws task path now db)
  | StepDelete thread db : saver_step db (adelete_thread thread db).

(** ** Lemmas *)

(** The serializer reads back what it writes, and names types in ASCII. *)
Hypothesis serde_roundtrip : forall v, loads_typed (dumps_typed v) = Ok v.
Hypothesis type_ascii : forall v, ascii_text (fst (dumps_typed v)) = true.

Lemma decode_encode v : decode (Text (encode v)) = Ok v.
Proof.
  unfold decode, encode. rewrite loads_dumps by (apply json_ok_spec; split; [cbn; by rewrite type_ascii, b64_ascii|done]). cbn.
  rewrite b64_roundtrip, <-(serde_roundtrip v). by destruct (dumps_typed v).
Qed.

Lemma encode_nonempty v : str_true (encode v) = true.
Proof. reflexivity. Qed.

(** A checkpoint and its metadata as a row gives them back. *)
Definition tuple_of (c : Config) (checkpoint metadata : V) : CheckpointTuple :=
  {| tup_thread_id := thread_id c; tup_checkpoint_ns := ns_of c; tup_checkpoint_id := id_of checkpoint;
     tup_checkpoint := checkpoint; tup_metadata := metadata;
     tup_parent := match parent_of checkpoint with
                   | Some p => if str_true p then Some (thread_id c, p) else None
                   | None => None
                   end |}.

Lemma row_to_tuple_new c ck md now : row_to_tuple (new_row c ck md now) = Ok (tuple_of c ck md).
Proof.
  unfold row_to_tuple. cbn [c_checkpoint c_metadata new_row]. rewrite decode_encode. cbn [res_bind stored_true].
  rewrite encode_nonempty, decode_encode. reflexivity.
Qed.

Lemma same_checkpoint_spec thread ns id r :
  same_checkpoint thread ns id r = true <-> c_thread_id r = thread /\ c_checkpoint_ns r = ns /\ c_checkpoint_id r = id.
Proof. unfold same_checkpoint. rewrite !andb_true_iff, !String.eqb_eq. tauto. Qed.

Lemma find_filter_none {A} (p : A -> bool) l : List.find p (List.filter (fun x => negb (p x)) l) = None.
Proof. induction l as [|x l IH]; [done|]. cbn. destruct (p x) eqn:E; cbn; [done|]. by rewrite E. Qed.
Lemma find_filter_other {A} (p q : A -> bool) l :
  (forall x, p x = true -> q x = true) -> List.find p (List.filter q l) = List.find p l.
Proof.
  intros H. induction l as [|x l IH]; [done|]. cbn. destruct (p x) eqn:E; [by rewrite (H x E); cbn; rewrite E|].
  destruct (q x); cbn; [by rewrite E|done].
Qed.

Lemma filter_app_one {A} (p : A -> bool) l x : List.filter p (l ++ [x]) = List.filter p l ++ (if p x then [x] else []).
Proof. rewrite List.filter_app. cbn. by destruct (p x). Qed.

Lemma list_filter_none {A} (p : A -> bool) l : (forall x, In x l -> p x = false) -> List.filter p l = [].
Proof.
  induction l as [|x l IH]; intros H; [done|]. cbn. rewrite (H x) by (by left). apply IH. intros y Hy. apply H. by right.
Qed.

Lemma filter_filter {A} (p q : A -> bool) l :
  (forall x, p x = true -> q x = true) -> List.filter p (List.filter q l) = List.filter p l.
Proof.
  intros H. induction l as [|x l IH]; [done|]. cbn. destruct (p x) eqn:E; [rewrite (H x E); cbn; by rewrite E, IH|].
  destruct (q x); cbn; [by rewrite E|done].
Qed.

(** A row later than all the others comes first. *)
Lemma order_by_latest r l :
  r ∈ l -> (forall x, x ∈ l -> x = r \/ String.ltb (c_created_at x) (c_created_at r) = true) ->
  head (order_by newest_first l) = Some r.
Proof.
  intros Hr Hl. pose proof (elem_of_order_by newest_first) as Hin.
  pose proof (order_by_sorted newest_first (fun a b => leb_total (c_created_at b) (c_created_at a)) l) as Hs.
  destruct (order_by newest_first l) as [|x l'] eqn:E.
  { exfalso. apply (not_elem_of_nil r). rewrite <-E. by apply Hin. }
  cbn. f_equal. assert (Hx : x ∈ l) by (apply Hin; rewrite E; by left).
  destruct (Hl x Hx) as [->|Hlt]; [done|]. exfalso.
  assert (Hr' : r ∈ x :: l') by (rewrite <-E; by apply Hin).
  assert (Hle : String.leb (c_created_at r) (c_created_at x) = true).
  { apply elem_of_cons in Hr' as [->|Hr']; [destruct (leb_total (c_created_at x) (c_created_at x)); done|].
    apply Sorted_StronglySorted in Hs; [|intros a b c Hab Hbc; unfold newest_first in *; by eapply leb_trans].
    apply StronglySorted_inv in Hs as [_ Hall]. rewrite List.Forall_forall in Hall. apply Hall. by apply list_elem_of_In. }
  revert Hlt Hle. unfold String.ltb, String.leb. rewrite (String.compare_antisym (c_created_at r)).
  by destruct (String.compare (c_created_at x) (c_created_at r)).
Qed.

Lemma in_namespace_same thread ns id r : same_checkpoint thread ns id r = true -> in_namespace thread ns r = true.
Proof. unfold same_checkpoint, in_namespace. by intros [-> _]%andb_true_iff. Qed.

(** ** Properties *)

(** C21: What is saved is read back: after a put, asking for that checkpoint by its id gives
    the saved checkpoint, its metadata and its parent's id, however many others the
    database holds and whether or not the id was saved before; and every checkpoint of
    another thread, namespace or id is found as before. *)
Theorem checkpoint_roundtrip c ck md now db :
  id_of ck <> "" ->
  let db' := snd (aput c ck md now db) in
  aget_tuple {| thread_id := thread_id c; checkpoint_ns := checkpoint_ns c; checkpoint_id := Some (id_of ck) |} db' =
    Ok (Some (tuple_of c ck md)) /\
  forall c', default "" (checkpoint_id c') <> "" ->
    ~ (thread_id c' = thread_id c /\ ns_of c' = ns_of c /\ checkpoint_id c' = Some (id_of ck)) ->
    aget_tuple c' db' = aget_tuple c' db.
Proof.
  intros Hid db'. split.
  - unfold aget_tuple, select_row. cbn [checkpoint_id thread_id]. rewrite (proj2 (str_true_spec _) Hid).
    subst db'. cbn [aput snd checkpoints]. unfold replace_row. rewrite find_app.
    change (ns_of _) with (ns_of c). cbn [c_thread_id c_checkpoint_ns c_checkpoint_id new_row].
    rewrite find_filter_none. cbn [List.find].
    rewrite (proj2 (same_checkpoint_spec (thread_id c) (ns_of c) (id_of ck) _)) by done. by rewrite row_to_tuple_new.
  - intros c' Hc' Hne. unfold aget_tuple, select_row. destruct (checkpoint_id c') as [id|] eqn:E; [|done]. cbn in Hc'.
    rewrite (proj2 (str_true_spec _) Hc'). subst db'. cbn [aput snd checkpoints]. unfold replace_row.
    rewrite find_app, find_filter_other.
    + cbn [List.find c_thread_id c_checkpoint_ns c_checkpoint_id new_row].
      destruct (List.find _ _); [done|]. destruct (same_checkpoint _ _ _ _) eqn:Es; [|done].
      apply same_checkpoint_spec in Es as (Ht & Hn & Hi). cbn in *. destruct Hne. split_and!; congruence.
    + intros r (Ht & Hn & Hi)%same_checkpoint_spec. apply negb_true_iff, not_true_iff_false.
      intros (Ht' & Hn' & Hi')%same_checkpoint_spec. cbn in *. apply Hne. split_and!; congruence.
Qed.

(** A thread resumes from the checkpoint saved last: when a checkpoint is saved at a time
    later than those of the thread's others, asking for the thread without an id gives it;
    saving changes what no other thread or namespace resumes from; and once a thread is
    deleted, it has no checkpoint and no pending write left, and the others keep theirs. *)
Theorem thread_resumes_latest c ck md now db thread ns :
  (forall r, r ∈ checkpoints db -> in_namespace (thread_id c) (ns_of c) r = true ->
     String.ltb (c_created_at r) now = true) ->
  let db' := snd (aput c ck md now db) in
  let unnamed t n := {| thread_id := t; checkpoint_ns := Some n; checkpoint_id := None |} in
  aget_tuple (unnamed (thread_id c) (ns_of c)) db' = Ok (Some (tuple_of c ck md)) /\
  ((thread, ns) <> (thread_id c, ns_of c) -> aget_tuple (unnamed thread ns) db' = aget_tuple (unnamed thread ns) db) /\
  (forall n, aget_tuple (unnamed thread n) (adelete_thread thread db) = Ok None) /\
  (forall w, w ∈ channel_writes (adelete_thread thread db) -> w_thread_id w <> thread) /\
  (forall t n, t <> thread -> aget_tuple (unnamed t n) (adelete_thread thread db) = aget_tuple (unnamed t n) db).
Proof.
  intros Hnew db' unnamed. unfold aget_tuple, select_row, newest. cbn [checkpoint_id thread_id unnamed ns_of checkpoint_ns default id].
  split_and!.
  - subst db'. cbn [aput snd checkpoints]. unfold replace_row. rewrite filter_app_one.
    unfold in_namespace at 2. cbn [c_thread_id c_checkpoint_ns new_row]. rewrite !String.eqb_refl. cbn [andb].
    rewrite (order_by_latest (new_row c ck md now)); [by rewrite row_to_tuple_new|set_solver|].
    intros x [Hx|Hx]%elem_of_app; [right|left; by apply list_elem_of_singleton in Hx].
    apply list_elem_of_In, List.filter_In in Hx as [Hx Hns]. apply List.filter_In in Hx as [Hx _].
    cbn. apply Hnew; [by apply list_elem_of_In|done].
  - intros Hne. subst db'. cbn [aput snd checkpoints]. unfold replace_row. rewrite filter_app_one, filter_filter.
    + replace (in_namespace thread ns (new_row c ck md now)) with false; [cbv iota; by rewrite List.app_nil_r|].
      symmetry. apply not_true_iff_false. unfold in_namespace. cbn. intros H. bool_hyps. congruence.
    + intros r Hr. apply negb_true_iff, not_true_iff_false. intros (Ht & Hn & _)%same_checkpoint_spec. cbn in Ht, Hn.
      unfold in_namespace in Hr. bool_hyps. congruence.
  - intros n. cbn [adelete_thread checkpoints]. replace (List.filter _ _) with (@nil CheckpointRow); [done|]. symmetry.
    apply list_filter_none. intros r (_ & Ht)%List.filter_In. unfold in_namespace. bool_hyps.
    by apply andb_false_iff; left; apply String.eqb_neq.
  - intros w (_ & Hw)%list_elem_of_In%List.filter_In. by bool_hyps.
  - intros t n Ht. cbn [adelete_thread checkpoints]. rewrite filter_filter; [done|].
    intros r Hr. unfold in_namespace in Hr. bool_hyps. subst. by apply negb_true_iff, String.eqb_neq.
Qed.
End saver.

(** ** Witnesses *)

(** A serializer of texts: a type name and the text itself. *)
Definition text_dumps (s : string) : string * string := ("json", s).
Definition text_loads (p : string * string) : result string := Ok (snd p).

Definition thread_config : Config := {| thread_id := "th1"; checkpoint_ns := None; checkpoint_id := None |}.

Definition saved : CheckpointDB :=
  snd (aput text_dumps (fun v => v) (fun _ => Some "p") thread_config "ck1" "md" "2026-06-25T12:00:00+00:00"
         {| checkpoints := []; channel_writes := [] |}).

Example checkpoint_roundtrip_witness :
  let db' := snd (aput text_dumps (fun v => v) (fun _ => Some "p") thread_config "ck2" "md" "2026-06-25T12:00:01+00:00" saved) in
  aget_tuple text_loads "" {| thread_id := "th1"; checkpoint_ns := None; checkpoint_id := Some "ck2" |} db' =
    Ok (Some (tuple_of (fun v => v) (fun _ => Some "p") thread_config "ck2" "md")) /\
  forall c', default "" (checkpoint_id c') <> "" ->
    ~ (thread_id c' = "th1" /\ ns_of c' = "" /\ checkpoint_id c' = Some "ck2") ->
    aget_tuple text_loads "" c' db' = aget_tuple text_loads "" c' saved.
Proof.
  apply (checkpoint_roundtrip text_dumps text_loads (fun v => v) (fun _ => Some "p") "" ltac:(done) ltac:(done)
           thread_config "ck2" "md" _ saved). done.
Defined.

Example thread_resumes_latest_witness :
  let db' := snd (aput text_dumps (fun v => v) (fun _ => None) thread_config "ck2" "md" "2026-06-25T12:00:01+00:00" saved) in
  aget_tuple text_loads "" {| thread_id := "th1"; checkpoint_ns := Some ""; checkpoint_id := None |} db' =
    Ok (Some (tuple_of (fun v => v) (fun _ => None) thread_config "ck2" "md")).
Proof.
  apply (thread_resumes_latest text_dumps text_loads (fun v => v) (fun _ => None) "" ltac:(done) ltac:(done)
           thread_config "ck2" "md" "2026-06-25T12:00:01+00:00" saved "th2" "").
  intros r ->%list_elem_of_singleton _. vm_compute. reflexivity.
Defined.
