(* ===== verification/CheckpointSql.v ===== *)
(** The checkpoint saver as the SQL it sends ([checkpoint_store.py]) over the two tables the
    migrations create, and the proof that the lists of [Checkpoints] are what these statements
    keep.

    A thread is resumed from the first row of an [ORDER BY created_at DESC]: rows of the same
    time come in any order, so that query has a set of possible answers. *)
From stdpp Require Import sorting.
From S2P Require Import Prelude PyStr Json PyRepr Sql Migrations SqlStmt Checkpoints.

(** ** Rows *)

Definition checkpoint_cs : list Column := t_columns checkpoints_table.
Definition write_cs : list Column := t_columns channel_writes_table.

Definition stored_value (s : stored) : value := match s with Text t => VText t | Blob b => VBlob b end.
Definition value_stored (v : value) : stored := match v with VBlob b => Blob b | _ => Text (value_text v) end.

Definition checkpoint_cells (r : CheckpointRow) : row :=
  [VText (c_thread_id r); VText (c_checkpoint_ns r); VText (c_checkpoint_id r); opt_value (c_parent_checkpoint_id r);
   VText (c_type r); stored_value (c_checkpoint r); match c_metadata r with Some m => stored_value m | None => VNull end;
   VText (c_created_at r)].

(** Columns by name. *)
Definition checkpoint_of_cells (r : row) : CheckpointRow :=
  let col c := cell checkpoint_cs c r in
  {| c_thread_id := value_text (col "thread_id"); c_checkpoint_ns := value_text (col "checkpoint_ns");
     c_checkpoint_id := value_text (col "checkpoint_id"); c_parent_checkpoint_id := value_opt (col "parent_checkpoint_id");
     c_type := value_text (col "type"); c_checkpoint := value_stored (col "checkpoint");
     c_metadata := if is_null (col "metadata") then None else Some (value_stored (col "metadata"));
     c_created_at := value_text (col "created_at") |}.

Definition write_cells (w : WriteRow) : row :=
  [VText (w_thread_id w); VText (w_checkpoint_ns w); VText (w_checkpoint_id w); VText (w_task_id w); VText (w_task_path w);
   VInt (Z.of_nat (w_idx w)); VText (w_channel w); VText (w_value w); VText (w_created_at w)].

Definition in_thread (thread : string) : cond := text_is "thread_id" thread.

(** ** The methods *)

Section saver.
Context {V : Type}.
Context (dumps_typed : V -> string * string) (loads_typed : string * string -> result V).
Context (id_of : V -> string) (parent_of : V -> option string) (no_metadata : V).

Definition sql_aput (c : Config) (checkpoint metadata : V) (now : string) (db : Db) : result Db :=
  on_table db "checkpoints" (sql_replace
    [("thread_id", VText (thread_id c)); ("checkpoint_ns", VText (ns_of c)); ("checkpoint_id", VText (id_of checkpoint));
     ("parent_checkpoint_id", opt_value (parent_of checkpoint)); ("type", VText "checkpoint");
     ("checkpoint", VText (encode dumps_typed checkpoint)); ("metadata", VText (encode dumps_typed metadata));
     ("created_at", VText now)]).

Fixpoint sql_put_writes (c : Config) (idx : nat) (writes : list (string * V)) (task_id task_path now : string) (db : Db)
    : result Db :=
  match writes with
  | [] => Ok db
  | (channel, value) :: writes' =>
      let* db' := on_table db "channel_writes" (sql_replace
        [("thread_id", VText (thread_id c)); ("checkpoint_ns", VText (ns_of c));
         ("checkpoint_id", VText (default "" (checkpoint_id c))); ("task_id", VText task_id); ("task_path", VText task_path);
         ("idx", VInt (Z.of_nat idx)); ("channel", VText channel); ("value", VText (encode dumps_typed value));
         ("created_at", VText now)]) in
      sql_put_writes c (S idx) writes' task_id task_path now db'
  end.

Definition sql_aput_writes (c : Config) (writes : list (string * V)) (task_id task_path now : string) : Db -> result Db :=
  sql_put_writes c 0 writes task_id task_path now.

Definition sql_adelete_thread (thread : string) (db : Db) : result Db :=
  let* db1 := on_table db "channel_writes" (fun t => Ok (sql_delete (in_thread thread) t)) in
  on_table db1 "checkpoints" (fun t => Ok (sql_delete (in_thread thread) t)).

(** ** Reading *)

Definition read_checkpoint (r : option row) : result (option (CheckpointTuple (V := V))) :=
  match r with
  | None => Ok None
  | Some r => let* t := row_to_tuple loads_typed no_metadata (checkpoint_of_cells r) in Ok (Some t)
  end.

Definition in_namespace_conditions (c : Config) : list cond := [in_thread (thread_id c); text_is "checkpoint_ns" (ns_of c)].

(** The answers SQLite may give: with an identifier the row of that key, else the first row of
    some order by descending time. *)
Definition sql_aget_tuple (c : Config) (db : Db) (answer : result (option CheckpointTuple)) : Prop :=
  match oget (tables db) "checkpoints" with
  | None => answer = no_such_table "checkpoints"
  | Some t =>
      match checkpoint_id c with
      | Some id =>
          if str_true id
          then answer = read_checkpoint (head (select_where (in_namespace_conditions c ++ [text_is "checkpoint_id" id]) t))
          else exists out, ordered (descending checkpoint_cs "created_at") (select_where (in_namespace_conditions c) t) out /\
            answer = read_checkpoint (head out)
      | None =>
          exists out, ordered (descending checkpoint_cs "created_at") (select_where (in_namespace_conditions c) t) out /\
            answer = read_checkpoint (head out)
      end
  end.

(** ** Calls *)

Inductive SaverOp : Type :=
  | SvPut (c : Config) (checkpoint metadata : V) (now : string)
  | SvWrites (c : Config) (writes : list (string * V)) (task_id task_path now : string)
  | SvDelete (thread : string).

(** Whether the call raised, and the database after it. *)
Definition sql_saver_step (op : SaverOp) (db : Db) : option exn * Db :=
  match match op with
        | SvPut c ck md now => sql_aput c ck md now db
        | SvWrites c ws task path now => sql_aput_writes c ws task path now db
        | SvDelete thread => sql_adelete_thread thread db
        end with
  | Ok db' => (None, db')
  | Raise e => (Some e, db)
  end.

Definition list_saver_step (op : SaverOp) (s : CheckpointDB) : option exn * CheckpointDB :=
  (None, match op with
         | SvPut c ck md now => snd (aput dumps_typed id_of parent_of c ck md now s)
         | SvWrites c ws task path now => aput_writes dumps_typed c ws task path now s
         | SvDelete thread => adelete_thread thread s
         end).
End saver.

(** ** The tables of the lists *)

Definition checkpoint_key (r : CheckpointRow) : list value :=
  [VText (c_thread_id r); VText (c_checkpoint_ns r); VText (c_checkpoint_id r)].

Definition write_key (w : WriteRow) : list value :=
  [VText (w_thread_id w); VText (w_checkpoint_ns w); VText (w_checkpoint_id w); VText (w_task_id w); VInt (Z.of_nat (w_idx w))].

Definition holds_saved (db : Db) (s : CheckpointDB) : Prop :=
  NoDup (map checkpoint_key (checkpoints s)) /\ NoDup (map write_key (channel_writes s)) /\
  oget (tables db) "checkpoints" = Some (listed checkpoints_table checkpoint_cells (checkpoints s)) /\
  oget (tables db) "channel_writes" = Some (listed channel_writes_table write_cells (channel_writes s)).

(** ** Lemmas *)

Lemma checkpoint_of_cells_back r : checkpoint_of_cells (checkpoint_cells r) = r.
Proof. by destruct r as [? ? ? [] ? [] [[]|] ?]. Qed.

Lemma checkpoint_row_ok r : row_ok checkpoint_cs [] (checkpoint_cells r) = true.
Proof. by destruct r as [? ? ? [] ? [] [[]|] ?]. Qed.

Lemma replace_checkpoint vals x xs :
  insert_row checkpoint_cs vals = checkpoint_cells x -> NoDup (map checkpoint_key xs) ->
  sql_replace vals (listed checkpoints_table checkpoint_cells xs)
    = Ok (listed checkpoints_table checkpoint_cells (replace_row x xs)) /\
  NoDup (map checkpoint_key (replace_row x xs)).
Proof.
  intros Hx Hnd. unfold replace_row.
  destruct (replace_listed checkpoints_table checkpoint_cells ["thread_id"; "checkpoint_ns"; "checkpoint_id"] checkpoint_key
    eq_refl (fun _ => eq_refl) (fun _ => eq_refl) checkpoint_row_ok vals x xs Hx Hnd) as [E Hnd'].
  rewrite <-(List.filter_ext (fun y => negb (same_keyed checkpoint_key x y))); [by split|].
  intros y. f_equal. apply eq_true_iff_eq. unfold same_keyed, same_checkpoint, checkpoint_key.
  rewrite bool_decide_eq_true, !andb_true_iff, !String.eqb_eq. split; [intros [= -> -> ->]; done|by intros ((-> & ->) & ->)].
Qed.

Lemma replace_write_row vals x xs :
  insert_row write_cs vals = write_cells x -> NoDup (map write_key xs) ->
  sql_replace vals (listed channel_writes_table write_cells xs)
    = Ok (listed channel_writes_table write_cells (replace_write x xs)) /\
  NoDup (map write_key (replace_write x xs)).
Proof.
  intros Hx Hnd. unfold replace_write.
  destruct (replace_listed channel_writes_table write_cells ["thread_id"; "checkpoint_ns"; "checkpoint_id"; "task_id"; "idx"]
    write_key eq_refl (fun _ => eq_refl) (fun _ => eq_refl) (fun _ => eq_refl) vals x xs Hx Hnd) as [E Hnd'].
  rewrite <-(List.filter_ext (fun y => negb (same_keyed write_key x y))); [by split|].
  intros y. f_equal. apply eq_true_iff_eq. unfold same_keyed, same_write, write_key.
  rewrite bool_decide_eq_true, !andb_true_iff, !String.eqb_eq, Nat.eqb_eq. split.
  - intros [= -> -> -> -> ->%Nat2Z.inj]. done.
  - by intros ((((-> & ->) & ->) & ->) & ->).
Qed.

Lemma thread_selects_checkpoint thread r :
  selected checkpoint_cs (in_thread thread) (checkpoint_cells r) = String.eqb (c_thread_id r) thread.
Proof. by apply selected_known, holds_text. Qed.

Lemma thread_selects_write thread w :
  selected write_cs (in_thread thread) (write_cells w) = String.eqb (w_thread_id w) thread.
Proof. by apply selected_known, holds_text. Qed.

Lemma namespace_selects c r :
  forallb (fun d => selected checkpoint_cs d (checkpoint_cells r)) (in_namespace_conditions c)
  = in_namespace (thread_id c) (ns_of c) r.
Proof.
  cbn [in_namespace_conditions forallb]. rewrite andb_true_r, thread_selects_checkpoint. unfold in_namespace.
  f_equal. by apply selected_known, holds_text.
Qed.

Lemma key_selects c id r :
  forallb (fun d => selected checkpoint_cs d (checkpoint_cells r)) (in_namespace_conditions c ++ [text_is "checkpoint_id" id])
  = same_checkpoint (thread_id c) (ns_of c) id r.
Proof.
  rewrite forallb_app, namespace_selects. cbn [forallb]. rewrite andb_true_r. unfold same_checkpoint, in_namespace.
  f_equal. by apply selected_known, holds_text.
Qed.

Lemma find_head {A} (p : A -> bool) l : List.find p l = head (List.filter p l).
Proof. induction l as [|x l IH]; [done|]. cbn. by destruct (p x). Qed.

Section steps.
Context {V : Type}.
Context (dumps_typed : V -> string * string) (loads_typed : string * string -> result V).
Context (id_of : V -> string) (parent_of : V -> option string) (no_metadata : V).

Notation sql_step := (sql_saver_step dumps_typed id_of parent_of).
Notation list_step := (list_saver_step dumps_typed id_of parent_of).

Lemma put_writes_simulated c idx ws task path now db s :
  holds_saved db s ->
  exists db', sql_put_writes dumps_typed c idx ws task path now db = Ok db' /\
    holds_saved db' {| checkpoints := checkpoints s;
                       channel_writes := put_writes dumps_typed c idx ws task path now (channel_writes s) |}.
Proof.
  revert idx db s. induction ws as [|[channel v] ws IH]; intros idx db s Hs; [by exists db; destruct s|].
  destruct Hs as (Hc & Hw & Tc & Tw). cbn [sql_put_writes put_writes]. unfold on_table. rewrite Tw.
  set (w := {| w_thread_id := _ |}).
  match goal with |- context [sql_replace ?vals _] => destruct (replace_write_row vals w (channel_writes s) eq_refl Hw) as [E Hw'] end.
  rewrite E. cbn [res_bind].
  apply (IH (S idx) _ {| checkpoints := checkpoints s; channel_writes := replace_write w (channel_writes s) |}).
  split; [done|]. split; [done|]. cbn [set_tables tables]. by rewrite oget_oset_ne, oget_oset_eq.
Qed.

Lemma saver_step_simulated op db s :
  holds_saved db s ->
  fst (sql_step op db) = fst (list_step op s) /\ holds_saved (snd (sql_step op db)) (snd (list_step op s)).
Proof.
  intros Hs. pose proof Hs as (Hc & Hw & Tc & Tw). destruct op as [c ck md now|c ws task path now|thread];
    unfold sql_saver_step, list_saver_step.
  - unfold sql_aput, on_table. rewrite Tc.
    match goal with |- context [sql_replace ?vals _] =>
      destruct (replace_checkpoint vals (new_row dumps_typed id_of parent_of c ck md now) (checkpoints s) eq_refl Hc) as [E Hc'] end.
    rewrite E. cbn [res_bind fst snd]. split; [done|]. split; [done|]. split; [done|]. cbn [set_tables tables].
    by rewrite oget_oset_eq, oget_oset_ne.
  - unfold sql_aput_writes. destruct (put_writes_simulated c 0 ws task path now db s Hs) as (db' & -> & Hs'). by split.
  - unfold sql_adelete_thread, on_table. rewrite Tw. cbn [res_bind set_tables tables].
    rewrite oget_oset_ne, Tc by done. cbn [res_bind fst snd]. split; [done|].
    rewrite (delete_listed _ _ _ _ _ (thread_selects_write thread)), (delete_listed _ _ _ _ _ (thread_selects_checkpoint thread)).
    split; [|split]; cbn [adelete_thread checkpoints channel_writes]; [by apply NoDup_map_filter..|].
    cbn [set_tables tables]. rewrite oget_oset_eq, oget_oset_ne, oget_oset_eq by done. done.
Qed.

(** *** Reading *)

Lemma newest_first_total a b : newest_first a b = true \/ newest_first b a = true.
Proof. apply leb_total. Qed.

Lemma newest_first_trans a b c : newest_first a b = true -> newest_first b c = true -> newest_first a c = true.
Proof. unfold newest_first. intros H1 H2. by eapply leb_trans. Qed.

(** The rows a thread may be resumed from: no other is later. *)
Definition resumable (mine : list CheckpointRow) (o : option CheckpointRow) : Prop :=
  match o with None => mine = [] | Some r => r ∈ mine /\ forall x, x ∈ mine -> newest_first r x = true end.

Definition tuple_answer (o : option CheckpointRow) : result (option (CheckpointTuple (V := V))) :=
  match o with None => Ok None | Some r => let* t := row_to_tuple loads_typed no_metadata r in Ok (Some t) end.

Notation mine c s := (List.filter (in_namespace (thread_id c) (ns_of c)) (checkpoints s)).

Lemma read_cells o : read_checkpoint loads_typed no_metadata (checkpoint_cells <$> o) = tuple_answer o.
Proof. destruct o as [r|]; [|done]. cbn. by rewrite checkpoint_of_cells_back. Qed.

Lemma newest_answer c db s answer :
  holds_saved db s ->
  (exists out, ordered (descending checkpoint_cs "created_at") (select_where (in_namespace_conditions c)
     (listed checkpoints_table checkpoint_cells (checkpoints s))) out /\
     answer = read_checkpoint loads_typed no_metadata (head out)) <->
  exists o, resumable (mine c s) o /\ answer = tuple_answer o.
Proof.
  intros _. rewrite (select_listed _ _ _ _ _ (namespace_selects c)).
  setoid_rewrite (ordered_map checkpoint_cells _ newest_first); [|done].
  assert (Hhead : forall l, head (map checkpoint_cells l) = checkpoint_cells <$> head l) by (by intros []).
  pose proof (fun o => sorted_head newest_first (mine c s) o newest_first_total newest_first_trans) as Hs. split.
  - intros (out & (l & -> & Hp & Hl) & ->). exists (head l). rewrite Hhead, read_cells. split; [|done]. apply Hs. by exists l.
  - intros (o & (l & Hp & Hl & <-)%Hs & ->). exists (map checkpoint_cells l). rewrite Hhead, read_cells. split; [by exists l|done].
Qed.

(** What the saver answers on the lists is one of the answers of SQL. *)
Lemma newest_resumable c s : resumable (mine c s) (newest (thread_id c) (ns_of c) s).
Proof.
  apply (sorted_head newest_first _ _ newest_first_total newest_first_trans). unfold newest. eexists.
  split; [apply order_by_perm|]. split; [|done]. apply order_by_strongly_sorted; [apply newest_first_total|apply newest_first_trans].
Qed.

Lemma resumable_unique (l : list CheckpointRow) o o' :
  NoDup (map c_created_at l) -> resumable l o -> resumable l o' -> o = o'.
Proof.
  intros Hnd. destruct o as [r|], o' as [r'|]; cbn; try done.
  - intros [Hr Hm] [Hr' Hm']. f_equal. pose proof (String.leb_antisym _ _ (Hm r' Hr') (Hm' r Hr)) as E.
    apply list_elem_of_lookup in Hr as [i Hi], Hr' as [j Hj]. assert (i = j) as <-; [|congruence].
    eapply (NoDup_lookup (c_created_at <$> l)); [done|rewrite list_lookup_fmap, Hi; done|].
    rewrite list_lookup_fmap, Hj. cbn. congruence.
  - intros [Hr _] ->. by apply not_elem_of_nil in Hr.
  - intros -> [Hr _]. by apply not_elem_of_nil in Hr.
Qed.

Lemma aget_answer c db s answer :
  holds_saved db s ->
  sql_aget_tuple loads_typed no_metadata c db answer <->
  if str_true (default "" (checkpoint_id c)) then answer = aget_tuple loads_typed no_metadata c s
  else exists o, resumable (mine c s) o /\ answer = tuple_answer o.
Proof.
  intros Hs. pose proof Hs as (_ & _ & Tc & _). unfold sql_aget_tuple. rewrite Tc.
  destruct (checkpoint_id c) as [cid|] eqn:E; [|by apply (newest_answer c db)].
  change (default "" (Some cid)) with cid. destruct (str_true cid) eqn:Eid; [|by apply (newest_answer c db)].
  rewrite (select_listed _ _ _ _ _ (key_selects c cid)). unfold aget_tuple, select_row. rewrite E, Eid, find_head.
  destruct (List.filter _ _) as [|r l]; [done|]. cbn [map head read_checkpoint]. by rewrite checkpoint_of_cells_back.
Qed.

(** ** Properties *)

(** C37: The saver's SQL keeps what its lists keep.  From the database the migrations leave, no
    statement of any sequence of saves, channel writes and deletions fails, and the two tables
    hold exactly the checkpoints and writes of the lists.  Asking for a checkpoint by its id has
    exactly one answer, that of the lists.  Asking for a thread's latest may give any of its
    checkpoints that no other is later than, or none when it has none; the lists' answer is one
    of these, and the only one when the thread's checkpoints were saved at different times. *)
Theorem saver_sql_refines_lists ops :
  let '(raised, db) := answers sql_step ops (snd (start empty_db)) in
  let '(_, s) := answers list_step ops {| checkpoints := []; channel_writes := [] |} in
  Forall (fun r => r = None) raised /\ holds_saved db s /\
  forall c,
    let the_answer := aget_tuple loads_typed no_metadata c s in
    (forall answer, sql_aget_tuple loads_typed no_metadata c db answer <->
       if str_true (default "" (checkpoint_id c)) then answer = the_answer
       else exists o, resumable (mine c s) o /\ answer = tuple_answer o) /\
    sql_aget_tuple loads_typed no_metadata c db the_answer /\
    (NoDup (map c_created_at (mine c s)) ->
     forall answer, sql_aget_tuple loads_typed no_metadata c db answer -> answer = the_answer).
Proof.
  destruct (answers_simulated sql_step list_step holds_saved ops (snd (start empty_db))
    {| checkpoints := []; channel_writes := [] |} saver_step_simulated) as [E Hs].
  { split; [constructor|]. split; [constructor|]. by split; vm_compute. }
  assert (Hnone : forall s, Forall (fun r : option exn => r = None) (fst (answers list_step ops s))).
  { clear. induction ops as [|op ops IH]; intros s; [constructor|]. cbn [answers].
    specialize (IH (snd (list_step op s))). unfold list_saver_step at 1. cbn [snd list_saver_step] in IH.
    destruct (answers _ _ _). constructor; [done|exact IH]. }
  specialize (Hnone {| checkpoints := []; channel_writes := [] |}).
  destruct (answers sql_step ops _) as [rs db], (answers list_step ops _) as [rs' s]. cbn [fst snd] in E, Hs, Hnone. subst rs.
  split; [done|]. split; [done|]. intros c the_answer.
  assert (Hq := fun answer => aget_answer c db s answer Hs). split; [exact Hq|].
  assert (Hlist : str_true (default "" (checkpoint_id c)) = false -> the_answer = tuple_answer (newest (thread_id c) (ns_of c) s)).
  { intros Hid. subst the_answer. unfold aget_tuple, select_row. destruct (checkpoint_id c) as [id|]; [|by destruct (newest _ _ _)].
    cbn in Hid. rewrite Hid. by destruct (newest _ _ _). }
  setoid_rewrite Hq. destruct (str_true _); [by split|]. rewrite Hlist by done. split.
  - eexists. split; [apply newest_resumable|done].
  - intros Hnd answer (o & Ho & ->). by rewrite (resumable_unique _ _ _ Hnd Ho (newest_resumable c s)).
Qed.
End steps.
