(* ===== verification/EventStore.v ===== *)
(** The event log of agent runs ([persistence.py]): an append-only table with a
    UNIQUE (run_id, seq) constraint, and its two queries.  [EventSql] has the
    SQL they stand for. *)
From Stdlib Require Import Sorted.
From S2P Require Import Prelude PyStr PyFloat PyTime Json PyRepr.

Inductive EventKind : Type :=
  | USER_MESSAGE | AGENT_MESSAGE | TOOL_CALL | TOOL_RESULT | ERROR | CHECKPOINT | RECONCILIATION_REQUIRED.

#[export] Instance EventKind_eq_dec : EqDecision EventKind.
Proof. solve_decision. Defined.

Definition event_value (k : EventKind) : string :=
  match k with
  | USER_MESSAGE => "user_message" | AGENT_MESSAGE => "agent_message" | TOOL_CALL => "tool_call"
  | TOOL_RESULT => "tool_result" | ERROR => "error" | CHECKPOINT => "checkpoint"
  | RECONCILIATION_REQUIRED => "reconciliation_required"
  end.

Definition event_kind_of (text : string) : result EventKind :=
  match oget (map (fun k => (event_value k, k))
          [USER_MESSAGE; AGENT_MESSAGE; TOOL_CALL; TOOL_RESULT; ERROR; CHECKPOINT; RECONCILIATION_REQUIRED])
          text with
  | Some k => Ok k
  | None => Raise (ValueError (repr_str text +:+ " is not a valid EventKind"))
  end.

Record AgentEvent : Type := {
  ev_run_id : string;
  ev_seq : Z;
  ev_kind : EventKind;
  ev_payload : json;
  ev_timestamp : string;
}.

(** A row, in insertion order (the AUTOINCREMENT id). *)
Record EventRow : Type := {
  er_run_id : string;
  er_seq : Z;
  er_kind : string;
  er_payload : string;
  er_timestamp : string;
}.

(** The store: [None] before [connect] and after [close]. *)
Notation EventDB := (option (list EventRow)).

Definition not_connected : exn := RuntimeError "SqliteEventStore not connected".

Definition event_to_row (e : AgentEvent) : EventRow :=
  {| er_run_id := ev_run_id e; er_seq := ev_seq e; er_kind := event_value (ev_kind e);
     er_payload := dumps false (ev_payload e); er_timestamp := ev_timestamp e |}.

Definition row_to_event (r : EventRow) : result AgentEvent :=
  let* k := event_kind_of (er_kind r) in
  let* p := loads (er_payload r) in
  Ok {| ev_run_id := er_run_id r; ev_seq := er_seq r; ev_kind := k; ev_payload := p;
        ev_timestamp := er_timestamp r |}.

Definition same_slot (run_id : string) (seq : Z) (r : EventRow) : bool :=
  String.eqb (er_run_id r) run_id && (er_seq r =? seq).

Definition event_insert (e : AgentEvent) (db : EventDB) : result EventDB :=
  match db with
  | None => Raise not_connected
  | Some rows =>
      if existsb (same_slot (ev_run_id e) (ev_seq e)) rows
      then Raise (IntegrityError "UNIQUE constraint failed: events.run_id, events.seq")
      else Ok (Some (rows ++ [event_to_row e]))
  end.

Definition by_seq (a b : EventRow) : bool := er_seq a <=? er_seq b.
Definition by_timestamp_desc (a b : EventRow) : bool := String.leb (er_timestamp b) (er_timestamp a).

Definition query_run (run_id : string) (db : EventDB) : result (list AgentEvent) :=
  match db with
  | None => Raise not_connected
  | Some rows =>
      res_mapM row_to_event
        (order_by by_seq (List.filter (fun r => String.eqb (er_run_id r) run_id) rows))
  end.

(** [LIMIT n]: a negative limit is no limit in SQLite. *)
Definition sql_limit {A} (n : Z) (l : list A) : list A := if n <? 0 then l else take (Z.to_nat n) l.

(** The optional filters: an empty run identifier is no filter. *)
Definition event_matches (run_id : option string) (kind : option EventKind) (r : EventRow) : bool :=
  (if opt_str_true run_id then String.eqb (er_run_id r) (opt_or run_id "") else true) &&
  match kind with Some k => String.eqb (er_kind r) (event_value k) | None => true end.

Definition event_query (run_id : option string) (kind : option EventKind) (limit : Z) (db : EventDB)
    : result (list AgentEvent) :=
  match db with
  | None => Raise not_connected
  | Some rows =>
      res_mapM row_to_event (sql_limit limit (order_by by_timestamp_desc (List.filter (event_matches run_id kind) rows)))
  end.

(** ** Lemmas *)

Lemma event_roundtrip e : json_ok (ev_payload e) = true -> row_to_event (event_to_row e) = Ok e.
Proof.
  intros He. unfold row_to_event. cbn [event_to_row er_kind er_payload].
  assert (event_kind_of (event_value (ev_kind e)) = Ok (ev_kind e)) as -> by (by destruct (ev_kind e)).
  cbn [res_bind]. rewrite loads_dumps, canon_false by done. by destruct e.
Qed.

Lemma order_by_seq_sorted l : Sorted (fun a b => er_seq a <= er_seq b) (order_by by_seq l).
Proof.
  eapply Sorted_weaken; [|apply order_by_sorted]; unfold by_seq.
  - intros a b. apply Z.leb_le.
  - intros a b. rewrite !Z.leb_le. lia.
Qed.

(** The rows of distinct slots, all written by [event_insert]. *)
Definition log_ok (rows : list EventRow) : Prop :=
  NoDup (map (fun r => (er_run_id r, er_seq r)) rows) /\
  Forall (fun r => exists e, json_ok (ev_payload e) = true /\ r = event_to_row e) rows.

Lemma event_insert_log e rows db :
  json_ok (ev_payload e) = true -> event_insert e (Some rows) = Ok db -> log_ok rows ->
  exists rows', db = Some rows' /\ log_ok rows' /\ rows' = rows ++ [event_to_row e].
Proof.
  intros He H [Hnd Hf]. cbn in H. destruct (existsb _ rows) eqn:E; simplify_eq.
  eexists. split; [done|]. split; [|done]. split.
  - rewrite map_app. apply NoDup_app. split; [done|]. split; [|apply NoDup_singleton].
    intros p (r & -> & Hr)%list_elem_of_fmap. cbn. intros Hp%list_elem_of_singleton. simplify_eq.
    rewrite <-not_true_iff_false in E. apply E. apply existsb_exists. exists r.
    split; [by apply list_elem_of_In|]. unfold same_slot.
    apply andb_true_iff. rewrite String.eqb_eq, Z.eqb_eq. cbn in *. done.
  - apply Forall_app. split; [done|]. constructor; [by exists e|constructor].
Qed.

Lemma query_run_ok run_id rows :
  log_ok rows -> exists evs, query_run run_id (Some rows) = Ok evs /\
    map event_to_row evs = order_by by_seq (List.filter (fun r => String.eqb (er_run_id r) run_id) rows).
Proof.
  intros [_ Hf]. cbn [query_run].
  set (l := order_by _ _). assert (Forall (fun r => exists e, json_ok (ev_payload e) = true /\ r = event_to_row e) l) as Hl.
  { rewrite Forall_forall in Hf |- *. intros r Hr. apply Hf. unfold l in Hr. rewrite order_by_perm in Hr.
    rewrite list_elem_of_In in *. by apply List.filter_In in Hr as [? _]. }
  clearbody l. clear Hf rows. induction Hl as [|r l (e & He & ->) _ (evs & Hevs & <-)]; [by exists []|].
  exists (e :: evs). cbn. by rewrite event_roundtrip, Hevs by done.
Qed.

Definition witness_event (seq : Z) : AgentEvent :=
  {| ev_run_id := "run-1"; ev_seq := seq; ev_kind := CHECKPOINT;
     ev_payload := JObj [("kind", JStr "GRANT_CLAIMED")]; ev_timestamp := isoformat noon_2026 |}.

(** ** Properties *)

(** The log never holds two events of one (run, seq) slot. An insertion appends
    exactly its event or raises; querying any run then returns, ordered by sequence
    number, exactly the run's stored events and never raises. *)
Theorem event_log_correct e rows db run_id :
  log_ok rows -> json_ok (ev_payload e) = true -> event_insert e (Some rows) = Ok db ->
  exists rows' evs, db = Some rows' /\ log_ok rows' /\ rows' = rows ++ [event_to_row e] /\
    query_run run_id db = Ok evs /\
    map event_to_row evs ≡ₚ List.filter (fun r => String.eqb (er_run_id r) run_id) rows' /\
    Sorted (fun a b => ev_seq a <= ev_seq b) evs /\
    (ev_run_id e = run_id -> e ∈ evs).
Proof.
  intros Hlog He Hi. destruct (event_insert_log e rows db He Hi Hlog) as (rows' & -> & Hlog' & Hrows).
  destruct (query_run_ok run_id rows' Hlog') as (evs & Hq & Hmap).
  exists rows', evs. split; [done|]. split; [done|]. split; [done|]. split; [done|].
  split; [by rewrite Hmap, order_by_perm|]. split.
  - pose proof (order_by_seq_sorted (List.filter (fun r => String.eqb (er_run_id r) run_id) rows')) as Hs.
    rewrite <-Hmap in Hs. clear -Hs. induction evs as [|a evs IH]; [constructor|].
    inversion Hs as [|x l Hl Hx]; subst. constructor; [by apply IH|].
    destruct evs as [|b evs]; [constructor|]. inversion Hx; subst. by constructor.
  - intros Hrun. unfold query_run in Hq. apply res_mapM_ok in Hq.
    assert (event_to_row e ∈ order_by by_seq (List.filter (fun r => String.eqb (er_run_id r) run_id) rows')) as Hin.
    { rewrite order_by_perm. apply list_elem_of_In, List.filter_In. split; [|by apply String.eqb_eq].
      apply list_elem_of_In. subst rows'. set_solver. }
    destruct (list_elem_of_lookup_1 _ _ Hin) as [i Hi'].
    destruct (Forall2_lookup_l _ _ _ _ _ Hq Hi') as (x & Hx & Hr).
    rewrite event_roundtrip in Hr by done. simplify_eq. by eapply list_elem_of_lookup_2.
Qed.

Lemma event_log_correct_witness :
  exists rows' evs, event_insert (witness_event 1) (Some [event_to_row (witness_event 2)]) = Ok (Some rows') /\
    query_run "run-1" (Some rows') = Ok evs /\ Sorted (fun a b => ev_seq a <= ev_seq b) evs.
Proof.
  destruct (event_log_correct (witness_event 1) [event_to_row (witness_event 2)]
    (Some [event_to_row (witness_event 2); event_to_row (witness_event 1)]) "run-1")
    as (rows' & evs & Hdb & _ & _ & Hq & _ & Hs & _).
  - split; [apply NoDup_singleton|]. constructor; [|constructor].
    exists (witness_event 2). split; reflexivity.
  - reflexivity.
  - reflexivity.
  - exists rows', evs. rewrite <-Hdb. split; [reflexivity|]. split; [exact Hq|exact Hs].
Defined.
