(* ===== verification/EventSql.v ===== *)
(** The event log as the SQL the store sends ([persistence.py]): the schema script a
    connection runs, the INSERT, and the two ordered SELECTs; and the proof that the log of
    [EventStore] is what they do.

    [ORDER BY] promises the order of the sorting column only: rows that agree on it come in any
    order.  A query therefore has a set of possible answers.

    What becomes of a connection the program drops without closing it is the driver's affair and
    an argument, [keeps_dropped]: aiosqlite up to 0.21 keeps its thread, and so the connection;
    from 0.22 on it is finalised. *)
From stdpp Require Import sorting.
From S2P Require Import Prelude PyStr PyFloat PyTime Json PyRepr Sql Migrations SqlStmt EventStore.

(** ** Rows *)

Definition event_cs : list Column := t_columns events_table.

(** The row [r] under the identifier [id]. *)
Definition event_cells (id : Z) (r : EventRow) : row :=
  [VInt id; VText (er_run_id r); VInt (er_seq r); VText (er_kind r); VText (er_payload r); VText (er_timestamp r)].

(** Columns by name. *)
Definition event_of_cells (r : row) : EventRow :=
  let col c := cell event_cs c r in
  {| er_run_id := value_text (col "run_id"); er_seq := value_int (col "seq"); er_kind := value_text (col "kind");
     er_payload := value_text (col "payload"); er_timestamp := value_text (col "timestamp") |}.

(** ** The database file and its connection *)

(** The file, whether the store has a connection, and what refused INSERTs have left: [ef_tx],
    the connection is still in the transaction Python opened before the INSERT, and holds the
    write lock of the file; [ef_orphan], a connection that was replaced without being closed, and
    that the driver keeps, does, for good. *)
Record EventFile : Type := { ef_db : Db; ef_open : bool; ef_tx : bool; ef_orphan : bool }.

Definition new_file (db : Db) : EventFile := {| ef_db := db; ef_open := false; ef_tx := false; ef_orphan := false |}.

Definition event_schema : list stmt :=
  [CreateTable true "events" events_table;
   CreateIndex "idx_events_run_id" (index_on "events" "run_id");
   CreateIndex "idx_events_kind" (index_on "events" "kind");
   Commit].

(** The handle is set before the script runs.  A connection that is there already is
    forgotten, not closed: where the driver keeps it, its transaction goes on.  The script needs
    the write lock only for what it has to create. *)
Definition sql_event_connect (keeps_dropped : bool) (f : EventFile) : result unit * EventFile :=
  let '(r, c) := perform (map Exec event_schema) (connect (ef_db f)) in
  let orphan := ef_orphan f || (keeps_dropped && (ef_open f && ef_tx f)) in
  if orphan && negb (bool_decide (committed c = ef_db f))
  then (Raise database_locked, {| ef_db := ef_db f; ef_open := true; ef_tx := false; ef_orphan := orphan |})
  else (r, {| ef_db := committed c; ef_open := true; ef_tx := false; ef_orphan := orphan |}).

(** Closing a connection rolls its transaction back. *)
Definition sql_event_close (f : EventFile) : EventFile :=
  {| ef_db := ef_db f; ef_open := false; ef_tx := false; ef_orphan := ef_orphan f |}.

(** [AUTOINCREMENT]: one more than any identifier given before; rows are never deleted. *)
Definition next_id (t : Table) : Z :=
  1 + fold_right Z.max 0 (map (fun r => value_int (cell (t_columns t) "id" r)) (t_rows t)).

Definition insert_event (e : AgentEvent) (t : Table) : result Table :=
  sql_insert
    [("id", VInt (next_id t)); ("run_id", VText (ev_run_id e)); ("seq", VInt (ev_seq e));
     ("kind", VText (event_value (ev_kind e))); ("payload", VText (dumps false (ev_payload e)));
     ("timestamp", VText (ev_timestamp e))] t.

Definition sql_event_insert (e : AgentEvent) (f : EventFile) : result unit * EventFile :=
  if negb (ef_open f) then (Raise not_connected, f)
  else if ef_orphan f then (Raise database_locked, f)
  else
    match on_table (ef_db f) "events" (insert_event e) with
    | Ok db => (Ok tt, {| ef_db := db; ef_open := true; ef_tx := false; ef_orphan := false |})
    | Raise x => (Raise x, {| ef_db := ef_db f; ef_open := true; ef_tx := true; ef_orphan := false |})
    end.

(** ** Queries *)

Definition read_events (rows : list row) : result (list AgentEvent) :=
  res_mapM (fun r => row_to_event (event_of_cells r)) rows.

(** The answers SQLite may give to a SELECT whose rows come in the order [le]. *)
Definition sql_event_answer (cs : list cond) (le : row -> row -> bool) (cut : list row -> list row) (f : EventFile)
    (answer : result (list AgentEvent)) : Prop :=
  if ef_open f then
    match oget (tables (ef_db f)) "events" with
    | Some t => exists out, ordered le (select_where cs t) out /\ answer = read_events (cut out)
    | None => answer = no_such_table "events"
    end
  else answer = Raise not_connected.

Definition sql_query_run (run_id : string) : EventFile -> result (list AgentEvent) -> Prop :=
  sql_event_answer [text_is "run_id" run_id] (ascending event_cs "seq") (fun out => out).

Definition query_conditions (run_id : option string) (kind : option EventKind) : list cond :=
  (if opt_str_true run_id then [text_is "run_id" (opt_or run_id "")] else []) ++
  match kind with Some k => [text_is "kind" (event_value k)] | None => [] end.

Definition sql_query (run_id : option string) (kind : option EventKind) (limit : Z)
    : EventFile -> result (list AgentEvent) -> Prop :=
  sql_event_answer (query_conditions run_id kind) (descending event_cs "timestamp") (sql_limit limit).

(** ** Calls *)

Inductive EventOp : Type := EvConnect | EvClose | EvInsert (e : AgentEvent).

Inductive EventReply : Type := EvDone | EvDuplicate | EvError (e : exn).

Definition event_reply (r : result unit) : EventReply :=
  match r with Ok _ => EvDone | Raise (IntegrityError _) => EvDuplicate | Raise e => EvError e end.

Definition sql_event_step (keeps_dropped : bool) (op : EventOp) (f : EventFile) : EventReply * EventFile :=
  match op with
  | EvConnect => let '(r, f') := sql_event_connect keeps_dropped f in (event_reply r, f')
  | EvClose => (EvDone, sql_event_close f)
  | EvInsert e => let '(r, f') := sql_event_insert e f in (event_reply r, f')
  end.

(** The log and whether it is open: what is logged outlives the connection.  A refused event
    leaves a transaction, which ends with the next event that is stored or with a close;
    connecting over it shuts the log for good where the driver keeps dropped connections. *)
Record EventLog : Type := { el_rows : list EventRow; el_open : bool; el_tx : bool; el_shut : bool }.

Definition new_log : EventLog := {| el_rows := []; el_open := false; el_tx := false; el_shut := false |}.

Definition log_view (s : EventLog) : EventDB := if el_open s then Some (el_rows s) else None.

Definition log_step (keeps_dropped : bool) (op : EventOp) (s : EventLog) : EventReply * EventLog :=
  match op with
  | EvConnect =>
      (EvDone, {| el_rows := el_rows s; el_open := true; el_tx := false;
                  el_shut := el_shut s || (keeps_dropped && (el_open s && el_tx s)) |})
  | EvClose => (EvDone, {| el_rows := el_rows s; el_open := false; el_tx := false; el_shut := el_shut s |})
  | EvInsert e =>
      if el_open s && el_shut s then (EvError database_locked, s)
      else
        match event_insert e (log_view s) with
        | Ok db => (EvDone, {| el_rows := default (el_rows s) db; el_open := el_open s; el_tx := false; el_shut := el_shut s |})
        | Raise x =>
            (event_reply (Raise x), {| el_rows := el_rows s; el_open := el_open s; el_tx := el_open s || el_tx s; el_shut := el_shut s |})
        end
  end.

(** ** The table of a log *)

(** Rows under consecutive identifiers. *)
Fixpoint numbered (n : Z) (rows : list EventRow) : list (Z * EventRow) :=
  match rows with [] => [] | r :: rows' => (n, r) :: numbered (n + 1) rows' end.

Definition numbered_cells (p : Z * EventRow) : row := event_cells (fst p) (snd p).

Definition log_table (rows : list EventRow) : Table := listed events_table numbered_cells (numbered 1 rows).

Definition slot (r : EventRow) : string * Z := (er_run_id r, er_seq r).

Definition slot_cells (p : string * Z) : list value := [VText (fst p); VInt (snd p)].

(** The schema script has nothing to create. *)
Definition indexed (db : Db) : bool :=
  is_some (oget (indexes db) "idx_events_run_id") && is_some (oget (indexes db) "idx_events_kind").

(** The file holds the log. *)
Record holds_log (f : EventFile) (s : EventLog) : Prop := {
  hl_open : ef_open f = el_open s;
  hl_tx : ef_tx f = el_tx s;
  hl_shut : ef_orphan f = el_shut s;
  hl_slots : NoDup (map slot (el_rows s));
  hl_table : match oget (tables (ef_db f)) "events" with
             | Some t => t = log_table (el_rows s)
             | None => el_rows s = [] /\ el_open s = false /\ el_shut s = false
             end;
  hl_indexed : el_open s || el_shut s = true -> indexed (ef_db f) = true;
}.

(** ** Lemmas: rows *)

Lemma event_of_cells_back n r : event_of_cells (event_cells n r) = r.
Proof. by destruct r. Qed.

Lemma numbered_rows n rows : map snd (numbered n rows) = rows.
Proof. revert n. induction rows as [|r rows IH]; intros n; cbn; [done|]. by rewrite IH. Qed.

Lemma numbered_ids n rows : map fst (numbered n rows) = seqZ n (Z.of_nat (length rows)).
Proof.
  revert n. induction rows as [|r rows IH]; intros n; [done|]. cbn [numbered length map fst].
  rewrite seqZ_cons by lia. by rewrite Nat2Z.inj_succ, Z.pred_succ, <-Z.add_1_r, <-IH.
Qed.

Lemma numbered_snoc n rows r : numbered n (rows ++ [r]) = numbered n rows ++ [(n + Z.of_nat (length rows), r)].
Proof.
  revert n. induction rows as [|x rows IH]; intros n; cbn [numbered app length]; [by rewrite Z.add_0_r|].
  rewrite IH. by replace (n + 1 + Z.of_nat (length rows)) with (n + Z.of_nat (S (length rows))) by lia.
Qed.

Lemma next_id_log rows : next_id (log_table rows) = 1 + Z.of_nat (length rows).
Proof.
  unfold next_id. f_equal. cbn [log_table listed with_rows t_rows t_columns]. rewrite map_map.
  change (map _ (numbered 1 rows)) with (map fst (numbered 1 rows)). rewrite numbered_ids.
  assert (H : forall k n, 1 <= n -> fold_right Z.max 0 (seqZ n (Z.of_nat (S k))) = n + Z.of_nat k).
  { induction k as [|k IH]; intros n Hn; rewrite seqZ_cons by lia; cbn [fold_right]; [change (seqZ _ _) with (@nil Z); cbn; lia|].
    replace (Z.pred (Z.of_nat (S (S k)))) with (Z.of_nat (S k)) by lia. rewrite IH by lia. lia. }
  destruct rows as [|r rows]; [done|]. cbn [length]. rewrite H by lia. lia.
Qed.

Lemma log_rows_ok rows :
  rows_ok event_cs (t_keys events_table) [] (t_rows (log_table rows)) = true <-> NoDup (map slot rows).
Proof.
  cbn [log_table listed with_rows t_rows]. unfold rows_ok. change (t_keys events_table) with [["id"]; ["run_id"; "seq"]].
  assert (forallb (row_ok event_cs []) (map numbered_cells (numbered 1 rows)) = true) as ->.
  { apply forallb_forall. by intros x (p & <- & _)%in_map_iff. }
  cbn [forallb]. rewrite andb_true_r, andb_true_l, andb_true_iff.
  rewrite (key_values_ok event_cs _ ["id"] (fun i => [VInt i]) (seqZ 1 (Z.of_nat (length rows)))).
  2: { by intros ?? [= ?]. } 2: done. 2: { by rewrite <-numbered_ids, !map_map. }
  rewrite (key_values_ok event_cs _ ["run_id"; "seq"] slot_cells (map slot rows)).
  - split; [tauto|]. split; [apply NoDup_seqZ|done].
  - intros [a b] [c d] [= -> ->]. done.
  - done.
  - rewrite <-(numbered_rows 1 rows) at 2. by rewrite !map_map.
Qed.

Lemma same_slot_elem run_id seq rows : existsb (same_slot run_id seq) rows = true <-> (run_id, seq) ∈ map slot rows.
Proof.
  rewrite existsb_exists, list_elem_of_fmap. unfold same_slot, slot. split.
  - intros (r & Hr & [<-%String.eqb_eq <-%Z.eqb_eq]%andb_true_iff). exists r. split; [done|by apply list_elem_of_In].
  - intros (r & [= -> ->] & Hr). exists r. rewrite String.eqb_refl, Z.eqb_refl. split; [by apply list_elem_of_In|done].
Qed.

(** ** Lemmas: connecting and inserting *)

Lemma insert_event_log e rows :
  NoDup (map slot rows) ->
  insert_event e (log_table rows) =
  if existsb (same_slot (ev_run_id e) (ev_seq e)) rows then Raise (IntegrityError "constraint failed")
  else Ok (log_table (rows ++ [event_to_row e])).
Proof.
  intros Hnd. unfold insert_event, sql_insert, add_rows. rewrite next_id_log.
  change (insert_row _ _) with (numbered_cells (1 + Z.of_nat (length rows), event_to_row e)).
  assert (Happ : t_rows (log_table rows) ++ [numbered_cells (1 + Z.of_nat (length rows), event_to_row e)]
                 = t_rows (log_table (rows ++ [event_to_row e]))).
  { unfold log_table. cbn [listed with_rows t_rows]. by rewrite numbered_snoc, map_app. }
  rewrite Happ.
  assert (Hnew : NoDup (map slot (rows ++ [event_to_row e])) <-> existsb (same_slot (ev_run_id e) (ev_seq e)) rows = false).
  { rewrite <-not_true_iff_false, same_slot_elem, map_app, NoDup_app. cbn [map].
    setoid_rewrite list_elem_of_singleton. change (slot (event_to_row e)) with (ev_run_id e, ev_seq e).
    pose proof (NoDup_singleton (ev_run_id e, ev_seq e)). naive_solver. }
  rewrite <-log_rows_ok in Hnew. change (t_columns (new_table _ _ _)) with event_cs.
  change (t_columns events_table) with event_cs. change (t_checks events_table) with (@nil (string * list string)).
  destruct (existsb _ _), (rows_ok _ _ _ _); try by intuition.
Qed.

(** A new slot. *)
Lemma slots_snoc e rows :
  NoDup (map slot rows) -> existsb (same_slot (ev_run_id e) (ev_seq e)) rows = false ->
  NoDup (map slot (rows ++ [event_to_row e])).
Proof.
  intros Hnd Hnew. rewrite <-not_true_iff_false, same_slot_elem in Hnew. rewrite map_app, NoDup_app. split; [done|].
  split; [|apply NoDup_singleton]. intros p Hp Hp'%list_elem_of_singleton. by subst p.
Qed.

(** The schema script keeps a log table that is there, and creates an empty one. *)
Lemma add_index_kept name column db t :
  oget (tables db) "events" = Some t ->
  exists db', apply (CreateIndex name (index_on "events" column)) db = Ok db' /\ tables db' = tables db /\
    is_some (oget (indexes db') name) = true /\
    (forall other, is_some (oget (indexes db) other) = true -> is_some (oget (indexes db') other) = true) /\
    (is_some (oget (indexes db) name) = true -> db' = db).
Proof.
  intros Ht. cbn [apply index_on ix_table ix_unique]. destruct (oget (indexes db) name) as [ix|] eqn:E.
  { exists db. by rewrite E. }
  rewrite Ht. eexists. split; [done|]. cbn [tables indexes]. split; [done|]. rewrite oget_app, E. cbn. rewrite String.eqb_refl.
  split; [done|]. split; [|done]. intros other. rewrite oget_app. by destruct (oget (indexes db) other).
Qed.

Lemma perform_schema st acts db db' :
  writes_rows st = false -> st <> Commit -> apply st db = Ok db' ->
  perform (Exec st :: acts) (connect db) = perform acts (connect db').
Proof.
  intros Hw Hc Hs. apply perform_exec. unfold execute. change (view (connect db)) with db.
  rewrite Hs, Hw. by destruct st.
Qed.

Lemma event_script db rows :
  (oget (tables db) "events" = None /\ rows = []) \/ oget (tables db) "events" = Some (log_table rows) ->
  exists db', perform (map Exec event_schema) (connect db) = (Ok tt, connect db') /\
    oget (tables db') "events" = Some (log_table rows) /\ indexed db' = true /\
    (is_some (oget (tables db) "events") = true -> indexed db = true -> db' = db).
Proof.
  intros Hdb. cbn [event_schema map].
  assert (exists db1, apply (CreateTable true "events" events_table) db = Ok db1 /\ oget (tables db1) "events" = Some (log_table rows) /\
    (is_some (oget (tables db) "events") = true -> db1 = db)) as (db1 & E1 & Ht1 & Eq1).
  { cbn [apply]. destruct Hdb as [[E ->]|E]; rewrite E; [|by exists db]. eexists. split; [done|]. cbn [set_tables tables].
    by rewrite oget_app, E. }
  destruct (add_index_kept "idx_events_run_id" "run_id" db1 _ Ht1) as (db2 & E2 & T2 & I2 & M2 & Eq2).
  destruct (add_index_kept "idx_events_kind" "kind" db2 (log_table rows)) as (db3 & E3 & T3 & I3 & M3 & Eq3); [by rewrite T2|].
  exists db3. split; [by rewrite (perform_schema _ _ _ db1), (perform_schema _ _ _ db2), (perform_schema _ _ _ db3)|].
  split; [by rewrite T3, T2|]. unfold indexed. split; [by rewrite (M3 _ I2), I3|].
  intros Hev [H1 H2]%andb_true_iff. specialize (Eq1 Hev). subst db1. specialize (Eq2 H1). subst db2. by apply Eq3.
Qed.

Lemma event_step_simulated kept op f s :
  holds_log f s ->
  fst (sql_event_step kept op f) = fst (log_step kept op s) /\
  holds_log (snd (sql_event_step kept op f)) (snd (log_step kept op s)).
Proof.
  intros Hfs. pose proof Hfs as [Ho Hx Hsh Hnd Ht Hi]. destruct op as [| |e]; cbn [sql_event_step log_step].
  - destruct (event_script (ef_db f) (el_rows s)) as (db & E & Hdb & Hidx & Hsame).
    { destruct (oget _ _) as [t|]; [right; by rewrite Ht|left; naive_solver]. }
    unfold sql_event_connect. rewrite E, Ho, Hx, Hsh. change (committed (connect db)) with db.
    set (orphan := el_shut s || _).
    assert (Hok : orphan && negb (bool_decide (db = ef_db f)) = false).
    { destruct orphan eqn:Eo; [|done]. cbn [andb]. apply negb_false_iff, bool_decide_eq_true.
      assert (Hor : el_open s || el_shut s = true) by (subst orphan; by destruct kept, (el_open s), (el_shut s)).
      apply Hsame; [|by apply Hi]. destruct (oget _ _); [done|]. destruct Ht as (_ & H1 & H2). by rewrite H1, H2 in Hor. }
    rewrite Hok. split; [done|]. split; try done. cbn. by rewrite Hdb.
  - split; [done|]. split; try done.
    + cbn. destruct (oget _ _); [done|]. naive_solver.
    + cbn. intros H. apply Hi. rewrite H. apply orb_true_r.
  - unfold sql_event_insert, log_view, event_insert. rewrite Ho.
    destruct (el_open s) eqn:Eo; cbn [negb andb]; [|split; [done|by split; cbn [snd el_open el_tx el_shut el_rows orb]; rewrite ?Eo]].
    rewrite Hsh. destruct (el_shut s) eqn:Esh; [by split|].
    unfold on_table. destruct (oget (tables (ef_db f)) "events") as [t|] eqn:Et; [|naive_solver]. subst t.
    rewrite insert_event_log by done. destruct (existsb _ _) eqn:Edup; cbn [res_bind fst snd].
    { split; [done|]. split; try done. cbn. by rewrite Et. }
    split; [done|]. split; try done; [|cbn [snd ef_db set_tables tables]; by rewrite oget_oset_eq].
    by apply (slots_snoc e).
Qed.

(** ** Lemmas: queries *)

Lemma read_events_map out : read_events out = res_mapM row_to_event (map event_of_cells out).
Proof.
  unfold read_events. induction out as [|r out IH]; [done|]. cbn [res_mapM map]. by rewrite IH.
Qed.

Lemma sql_limit_map {A B} (f : A -> B) n l : map f (sql_limit n l) = sql_limit n (map f l).
Proof. unfold sql_limit. destruct (n <? 0); [done|]. exact (fmap_take f _ _). Qed.

Section ordering.
Context (le : row -> row -> bool) (le' : EventRow -> EventRow -> bool).
Hypothesis same_order : forall n r m r', le (event_cells n r) (event_cells m r') = le' r r'.

(** The orders a SELECT allows are the sorted orders of the log's part. *)
Lemma ordered_log cs p rows l :
  (forall n r, forallb (fun c => selected event_cs c (event_cells n r)) cs = p r) ->
  (exists out, ordered le (select_where cs (log_table rows)) out /\ map event_of_cells out = l) <->
  l ≡ₚ List.filter p rows /\ StronglySorted (fun a b => le' a b = true) l.
Proof using same_order.
  intros Hp. unfold log_table. rewrite (select_listed events_table numbered_cells cs (fun q => p (snd q))) by (intros []; apply Hp).
  setoid_rewrite (ordered_map numbered_cells le (fun a b => le' (snd a) (snd b))); [|intros x y; apply same_order].
  assert (Hsel : List.filter p rows = map snd (List.filter (fun q => p (snd q)) (numbered 1 rows))).
  { rewrite <-(numbered_rows 1 rows) at 1. generalize (numbered 1 rows). intros qs.
    induction qs as [|q qs IH]; [done|]. cbn [map List.filter]. rewrite IH. by destruct (p (snd q)). }
  assert (Hback : forall qs, map event_of_cells (map numbered_cells qs) = map snd qs).
  { intros qs. rewrite map_map. apply List.map_ext. intros []. apply event_of_cells_back. }
  pose proof (fun qs => sorted_map snd le' (fun a b : Z * EventRow => le' (snd a) (snd b)) qs (fun _ _ => eq_refl)) as Hsort.
  rewrite Hsel. split.
  - intros (out & (qs & -> & Hperm & Hs) & <-). rewrite Hback. split; [by apply Permutation_map|by apply Hsort].
  - intros [Hperm Hs]. destruct (Permutation_map_inv _ _ Hperm) as (qs & -> & Hqs). exists (map numbered_cells qs).
    split; [|apply Hback]. exists qs. split; [done|]. split; [by symmetry|by apply Hsort].
Qed.

(** A store's answers are those of the log. *)
Lemma event_answer_log cs p (cut : forall A, list A -> list A) f s answer :
  (forall A B (g : A -> B) l, map g (cut A l) = cut B (map g l)) ->
  (forall n r, forallb (fun c => selected event_cs c (event_cells n r)) cs = p r) -> holds_log f s ->
  sql_event_answer cs le (cut row) f answer <->
  if el_open s then
    exists l, l ≡ₚ List.filter p (el_rows s) /\ StronglySorted (fun a b => le' a b = true) l /\
      answer = res_mapM row_to_event (cut EventRow l)
  else answer = Raise not_connected.
Proof using same_order.
  intros Hcut Hp [Ho _ _ _ Ht _]. unfold sql_event_answer. rewrite Ho. destruct (el_open s); [|done].
  destruct (oget _ _) as [t|]; [subst t|naive_solver]. split.
  - intros (out & Hout & ->). exists (map event_of_cells out).
    destruct (proj1 (ordered_log cs p (el_rows s) (map event_of_cells out) Hp)) as [? ?]; [by exists out|].
    split; [done|]. split; [done|]. by rewrite read_events_map, Hcut.
  - intros (l & Hperm & Hs & ->). destruct (proj2 (ordered_log cs p (el_rows s) l Hp) (conj Hperm Hs)) as (out & Hout & <-).
    exists out. split; [done|]. by rewrite read_events_map, Hcut.
Qed.
End ordering.

Lemma seq_order n r m r' : ascending event_cs "seq" (event_cells n r) (event_cells m r') = by_seq r r'.
Proof. done. Qed.

Lemma timestamp_order n r m r' : descending event_cs "timestamp" (event_cells n r) (event_cells m r') = by_timestamp_desc r r'.
Proof. done. Qed.

Lemma run_filter run_id n r :
  forallb (fun c => selected event_cs c (event_cells n r)) [text_is "run_id" run_id] = String.eqb (er_run_id r) run_id.
Proof. cbn [forallb]. rewrite andb_true_r. by apply selected_known, holds_text. Qed.

Lemma query_filter run_id kind n r :
  forallb (fun c => selected event_cs c (event_cells n r)) (query_conditions run_id kind) = event_matches run_id kind r.
Proof.
  unfold query_conditions, event_matches. rewrite forallb_app. f_equal.
  - destruct (opt_str_true run_id); [apply run_filter|done].
  - destruct kind as [k|]; [|done]. cbn [forallb]. rewrite andb_true_r. by apply selected_known, holds_text.
Qed.

(** Sorted lists of the same rows whose sorting keys differ are the same list. *)
Lemma sorted_unique {K} (le : EventRow -> EventRow -> bool) (key : EventRow -> K) l l' :
  (forall a b, le a b = true -> le b a = true -> key a = key b) ->
  NoDup (map key l) -> l ≡ₚ l' ->
  StronglySorted (fun a b => le a b = true) l -> StronglySorted (fun a b => le a b = true) l' -> l = l'.
Proof.
  intros Hkey Hnd Hp Hs Hs'. apply (StronglySorted_unique_strong (fun a b => le a b = true)); try done.
  intros a b Ha Hb Hab Hba. rewrite <-Hp in Hb. pose proof (Hkey a b Hab Hba) as E.
  apply list_elem_of_lookup in Ha as [i Hi], Hb as [j Hj].
  assert (i = j) as <-; [|congruence]. eapply (NoDup_lookup (key <$> l)); [done|rewrite list_lookup_fmap, Hi; done|].
  by rewrite list_lookup_fmap, Hj, E.
Qed.

(** Within one run the sequence numbers differ. *)
Lemma run_seqs_distinct run_id rows :
  NoDup (map slot rows) -> NoDup (map er_seq (List.filter (fun r => String.eqb (er_run_id r) run_id) rows)).
Proof.
  induction rows as [|r rows IH]; [constructor|]. cbn [map List.filter]. intros [Hr Hnd]%NoDup_cons.
  destruct (String.eqb_spec (er_run_id r) run_id) as [<-|]; [|by apply IH]. cbn [map]. constructor; [|by apply IH].
  intros (r' & Hseq & [Hin Hrun%String.eqb_eq]%list_elem_of_In%List.filter_In)%list_elem_of_fmap. apply Hr, list_elem_of_fmap.
  exists r'. split; [unfold slot; congruence|by apply list_elem_of_In].
Qed.

Lemma by_seq_sorted rows : StronglySorted (fun a b => by_seq a b = true) (order_by by_seq rows).
Proof. apply order_by_strongly_sorted; unfold by_seq; intros *; rewrite !Z.leb_le; lia. Qed.

Lemma by_timestamp_sorted rows : StronglySorted (fun a b => by_timestamp_desc a b = true) (order_by by_timestamp_desc rows).
Proof.
  apply order_by_strongly_sorted; unfold by_timestamp_desc; [intros a b; apply leb_total|].
  intros a b c H1 H2. by eapply leb_trans.
Qed.

(** A run has one answer. *)
Lemma query_run_answer run_id f s answer :
  holds_log f s -> sql_query_run run_id f answer <-> answer = query_run run_id (log_view s).
Proof.
  intros Hfs. unfold sql_query_run.
  rewrite (event_answer_log _ _ seq_order _ _ (fun _ l => l) f s answer (fun _ _ _ _ => eq_refl) (run_filter run_id) Hfs).
  unfold log_view. destruct (el_open s); [|done]. cbn [query_run]. split.
  - intros (l & Hp & Hs & ->). f_equal. apply (sorted_unique by_seq er_seq); [| | |done|apply by_seq_sorted].
    + unfold by_seq. intros a b. rewrite !Z.leb_le. lia.
    + destruct Hfs as [_ _ _ Hnd _ _]. rewrite Hp. by apply run_seqs_distinct.
    + by rewrite order_by_perm.
  - intros ->. eexists. split; [apply order_by_perm|]. split; [apply by_seq_sorted|done].
Qed.

Lemma query_answers run_id kind limit f s answer :
  holds_log f s ->
  sql_query run_id kind limit f answer <->
  if el_open s then
    exists l, l ≡ₚ List.filter (event_matches run_id kind) (el_rows s) /\
      StronglySorted (fun a b => by_timestamp_desc a b = true) l /\ answer = res_mapM row_to_event (sql_limit limit l)
  else answer = Raise not_connected.
Proof.
  intros Hfs. unfold sql_query.
  apply (event_answer_log _ _ timestamp_order _ _ (fun _ => sql_limit limit) f s answer); [|apply query_filter|done].
  intros A B g l. apply sql_limit_map.
Qed.

(** ** Properties *)

(** C38: The event store's SQL does what its log does.  From a database file with no events table,
    or with the empty one the migrations create, any sequence of connecting, closing and
    inserting gives the same replies in SQL as on the log: the table survives a close and a
    second connection, identifiers never collide, a second event of a (run, seq) slot is
    refused and leaves its transaction open, and connecting over such a transaction instead of
    closing makes every later INSERT fail with a locked database, if the driver keeps a dropped
    connection.  Reading a run then has exactly one possible answer, the log's, since ORDER BY
    seq leaves no choice.  The general query may cut any newest-first order of the matching events
    at its limit, the log's answer among them, and the log's answer is the only one
    when no two matching events have the same timestamp. *)
Theorem events_sql_refine_log keeps_dropped db ops :
  oget (tables db) "events" = None \/ oget (tables db) "events" = Some events_table ->
  let '(replies, f) := answers (sql_event_step keeps_dropped) ops (new_file db) in
  let '(replies', s) := answers (log_step keeps_dropped) ops new_log in
  replies = replies' /\
  (forall run_id answer, sql_query_run run_id f answer <-> answer = query_run run_id (log_view s)) /\
  forall run_id kind limit,
    let matching := List.filter (event_matches run_id kind) (el_rows s) in
    let the_answer := event_query run_id kind limit (log_view s) in
    (forall answer, sql_query run_id kind limit f answer <->
       if el_open s then
         exists l, l ≡ₚ matching /\ StronglySorted (fun a b => by_timestamp_desc a b = true) l /\
           answer = res_mapM row_to_event (sql_limit limit l)
       else answer = Raise not_connected) /\
    sql_query run_id kind limit f the_answer /\
    (NoDup (map er_timestamp matching) -> forall answer, sql_query run_id kind limit f answer -> answer = the_answer).
Proof.
  intros Hdb. destruct (answers_simulated (sql_event_step keeps_dropped) (log_step keeps_dropped)
    holds_log ops (new_file db) new_log (event_step_simulated keeps_dropped)) as [E Hfs].
  { split; try done; [constructor|]. cbn [ef_db new_file]. by destruct Hdb as [-> | ->]. }
  destruct (answers (sql_event_step _) ops _) as [rs f], (answers (log_step _) ops _) as [rs' s]. cbn [fst snd] in E, Hfs.
  split; [done|]. split; [intros; by apply query_run_answer|]. intros run_id kind limit matching the_answer.
  assert (Hq := fun answer => query_answers run_id kind limit f s answer Hfs). split; [exact Hq|].
  setoid_rewrite Hq. subst the_answer. unfold log_view. destruct (el_open s); [|done]. cbn [event_query]. split.
  - eexists. split; [apply order_by_perm|]. split; [apply by_timestamp_sorted|done].
  - intros Hnd answer (l & Hp & Hs & ->). do 2 f_equal.
    apply (sorted_unique by_timestamp_desc er_timestamp); [| | |done|apply by_timestamp_sorted].
    + unfold by_timestamp_desc. intros a b H1 H2. by apply String.leb_antisym.
    + by rewrite Hp.
    + by rewrite order_by_perm.
Qed.

(** Everything that can happen to the store, and a connection over a refused event at the end. *)
Definition witness_event_ops : list EventOp :=
  [EvInsert (witness_event 1); EvConnect; EvInsert (witness_event 2); EvInsert (witness_event 1);
   EvInsert (witness_event 2); EvClose; EvConnect; EvInsert (witness_event 2); EvConnect; EvInsert (witness_event 3)].

Lemma events_sql_refine_log_witness :
  oget (tables (snd (start empty_db))) "events" = Some events_table /\
  let '(replies, f) := answers (sql_event_step true) witness_event_ops (new_file (snd (start empty_db))) in
  replies = [EvError not_connected; EvDone; EvDone; EvDone; EvDuplicate; EvDone; EvDone; EvDuplicate; EvDone;
             EvError database_locked] /\
  forall answer, sql_query_run "run-1" f answer <-> answer = Ok [witness_event 1; witness_event 2].
Proof.
  assert (Hdb : oget (tables (snd (start empty_db))) "events" = Some events_table) by (vm_compute; reflexivity).
  split; [exact Hdb|].
  pose proof (events_sql_refine_log true (snd (start empty_db)) witness_event_ops (or_intror Hdb)) as H.
  destruct (answers (sql_event_step _) _ _) as [rs f].
  remember (answers (log_step _) _ _) as p eqn:Ep. vm_compute in Ep. subst p.
  destruct H as (-> & Hrun & _). split; [reflexivity|]. intros answer. rewrite Hrun. vm_compute. split; intros Ha; exact Ha.
Defined.
