(* ===== verification/AuditTrail.v ===== *)
(** The audit trail ([audit/models.py]): events chained by hashes, and the evidence bundle
    that verifies the chain. *)
From S2P Require Import Prelude PyStr Sha256.

Inductive AuditEventKind : Type :=
  | AGENT_RUN_STARTED | LLM_CALL | TOOL_PROPOSED | AUTHORIZATION_DECISION | APPROVAL_REQUESTED
  | APPROVAL_GRANTED | APPROVAL_REJECTED | TOOL_EXECUTED | TOOL_FAILED | FINAL_RESPONSE
  | ERROR_OCCURRED | CONFIG_CHANGED.

Definition kind_value (k : AuditEventKind) : string :=
  match k with
  | AGENT_RUN_STARTED => "agent_run_started"
  | LLM_CALL => "llm_call"
  | TOOL_PROPOSED => "tool_proposed"
  | AUTHORIZATION_DECISION => "authorization_decision"
  | APPROVAL_REQUESTED => "approval_requested"
  | APPROVAL_GRANTED => "approval_granted"
  | APPROVAL_REJECTED => "approval_rejected"
  | TOOL_EXECUTED => "tool_executed"
  | TOOL_FAILED => "tool_failed"
  | FINAL_RESPONSE => "final_response"
  | ERROR_OCCURRED => "error_occurred"
  | CONFIG_CHANGED => "config_changed"
  end.

Record AuditEvent : Type := {
  event_id : string;
  kind : AuditEventKind;
  actor_id : string;
  tenant_id : string;
  session_id : string;
  thread_id : string;
  timestamp : string;
  details : string;
  previous_hash : string;
  event_hash : string;
  prompt_version : string;
  model_version : string;
  tool_version : string;
}.

(** The text that is hashed. *)
Definition content (id ts k det prev : string) : string :=
  id +:+ "|" +:+ ts +:+ "|" +:+ k +:+ "|" +:+ det +:+ "|" +:+ prev.

Definition compute_hash (id ts k det prev : string) : string := Sha256.hexdigest (content id ts k det prev).

Record ComplianceEvidenceBundle : Type := {
  bundle_id : string;
  time_range_start : string;
  time_range_end : string;
  event_count : nat;
  hash_chain_verified : bool;
  generated_at : string;
  controls_covered : list string;
}.

Definition content_after (prev : string) (e : AuditEvent) : string :=
  content (event_id e) (timestamp e) (kind_value (kind e)) (details e) prev.

(** The loop over the events after the first, [prev] the hash of the event before. *)
Fixpoint chain_ok (prev : string) (events : list AuditEvent) : bool :=
  match events with
  | [] => true
  | e :: events' =>
      if String.eqb (event_hash e)
           (compute_hash (event_id e) (timestamp e) (kind_value (kind e)) (details e) prev)
      then chain_ok (event_hash e) events'
      else false
  end.

Definition verified (events : list AuditEvent) : bool :=
  match events with [] => true | e :: events' => chain_ok (event_hash e) events' end.

Definition build_evidence_bundle (now id : string) (events : list AuditEvent) (controls : option (list string))
    : ComplianceEvidenceBundle :=
  {| bundle_id := id;
     time_range_start := match events with [] => "" | e :: _ => timestamp e end;
     time_range_end := match last events with None => "" | Some e => timestamp e end;
     event_count := length events;
     hash_chain_verified := verified events;
     generated_at := now;
     controls_covered := match controls with Some c => c | None => [] end |}.

(** ** Lemmas: the hashed text determines its parts *)

Definition plain (s : string) : bool := lacks "|"%char s.

Lemma kind_plain k : plain (kind_value k) = true.
Proof. by destruct k. Qed.

Lemma kind_value_inj k k' : kind_value k = kind_value k' -> k = k'.
Proof. by destruct k, k'. Qed.

Lemma content_inj id ts k det prev id' ts' k' det' prev' :
  plain id = true -> plain ts = true -> plain prev = true ->
  plain id' = true -> plain ts' = true -> plain prev' = true ->
  content id ts (kind_value k) det prev = content id' ts' (kind_value k') det' prev' ->
  id = id' /\ ts = ts' /\ k = k' /\ det = det' /\ prev = prev'.
Proof.
  unfold content, plain. intros Hi Ht Hp Hi' Ht' Hp' H.
  apply split_first in H as [-> H]; [|done..]. apply split_first in H as [-> H]; [|done..].
  apply split_first in H as [Hk H]; [|apply (kind_plain k)|apply (kind_plain k')]. apply split_last in H as [-> ->]; [|done..].
  apply kind_value_inj in Hk. done.
Qed.

(** ** Lemmas: digests hold no separator *)

Lemma hex_char_plain d : 0 <= d < 16 -> Ascii.eqb (Sha256.hex_char d) "|"%char = false.
Proof.
  intros Hd. assert (H : forallb (fun n => negb (Ascii.eqb (Sha256.hex_char (Z.of_nat n)) "|"%char)) (seq 0 16) = true) by (vm_compute; reflexivity).
  rewrite forallb_forall in H. specialize (H (Z.to_nat d) ltac:(apply in_seq; lia)).
  rewrite Z2Nat.id in H by lia. by apply negb_true_iff.
Qed.

Lemma hex_word_plain w : plain (Sha256.hex_word w) = true.
Proof.
  unfold Sha256.hex_word. induction [0; 1; 2; 3; 4; 5; 6; 7] as [|i l IH]; [done|]. cbn [fold_right].
  unfold plain. rewrite lacks_cons, hex_char_plain; [exact IH|]. apply Z.mod_pos_bound. lia.
Qed.

Lemma hexdigest_plain s : plain (Sha256.hexdigest s) = true.
Proof.
  unfold Sha256.hexdigest. cbv zeta. induction (Sha256.blocks _ _ _) as [|w l IH]; [done|]. cbn [fold_right].
  unfold plain. rewrite lacks_app. apply andb_true_iff. split; [apply hex_word_plain|exact IH].
Qed.

(** ** Lemmas: chains *)

(** The texts hashed along a chain. *)
Fixpoint contents (prev : string) (events : list AuditEvent) : list string :=
  match events with
  | [] => []
  | e :: events' => content_after prev e :: contents (event_hash e) events'
  end.

(** No two of the texts have the same digest. *)
Definition collision_free (l : list string) : Prop :=
  forall a b, a ∈ l -> b ∈ l -> Sha256.hexdigest a = Sha256.hexdigest b -> a = b.

Definition collision_freeb (l : list string) : bool :=
  let hashed := map (fun a => (a, Sha256.hexdigest a)) l in
  forallb (fun a => forallb (fun b => negb (String.eqb (snd a) (snd b)) || String.eqb (fst a) (fst b)) hashed) hashed.

Lemma collision_freeb_sound l : collision_freeb l = true -> collision_free l.
Proof.
  unfold collision_freeb. cbv zeta. rewrite forallb_forall. intros H a b Ha%list_elem_of_In Hb%list_elem_of_In Heq.
  specialize (H (a, Sha256.hexdigest a)). rewrite forallb_forall in H.
  specialize (H ltac:(apply in_map_iff; eauto) (b, Sha256.hexdigest b) ltac:(apply in_map_iff; eauto)). cbn [fst snd] in H.
  rewrite Heq, String.eqb_refl in H. by apply String.eqb_eq.
Qed.

(** What a digest covers of an event. *)
Definition covered (e : AuditEvent) : string * string * AuditEventKind * string * string :=
  (event_id e, timestamp e, kind e, details e, event_hash e).

Definition fields_plain (e : AuditEvent) : bool := plain (event_id e) && plain (timestamp e).

Definition last_hash (prev : string) (events : list AuditEvent) : string :=
  match last events with Some e => event_hash e | None => prev end.

Lemma chain_ok_app prev es1 es2 :
  chain_ok prev (es1 ++ es2) = chain_ok prev es1 && chain_ok (last_hash prev es1) es2.
Proof.
  revert prev. induction es1 as [|e es1 IH]; intros prev; [done|]. cbn [app chain_ok].
  destruct (String.eqb _ _); [|done]. rewrite IH. unfold last_hash. rewrite last_cons. by destruct (last es1).
Qed.

Lemma chain_last_plain prev es : plain prev = true -> chain_ok prev es = true -> plain (last_hash prev es) = true.
Proof.
  revert prev. induction es as [|e es IH]; intros prev Hp; [done|]. cbn [chain_ok].
  destruct (String.eqb_spec (event_hash e) (compute_hash (event_id e) (timestamp e) (kind_value (kind e)) (details e) prev))
    as [Heq|]; [|done]. intros H.
  replace (last_hash prev (e :: es)) with (last_hash (event_hash e) es) by (unfold last_hash; rewrite last_cons; by destruct (last es)).
  apply IH; [|done]. rewrite Heq. apply hexdigest_plain.
Qed.

Lemma contents_app prev es1 es2 : contents prev (es1 ++ es2) = contents prev es1 ++ contents (last_hash prev es1) es2.
Proof.
  revert prev. induction es1 as [|e es1 IH]; intros prev; [done|]. cbn [app contents]. rewrite IH.
  unfold last_hash. rewrite last_cons. by destruct (last es1).
Qed.

Lemma last_hash_snoc prev es e : last_hash prev (es ++ [e]) = event_hash e.
Proof. unfold last_hash. by rewrite last_snoc. Qed.

Lemma chain_snoc prev es e :
  chain_ok prev (es ++ [e]) = true <->
  chain_ok prev es = true /\ event_hash e = Sha256.hexdigest (content_after (last_hash prev es) e).
Proof.
  rewrite chain_ok_app, andb_true_iff. cbn [chain_ok]. unfold compute_hash, content_after.
  destruct (String.eqb_spec (event_hash e) (Sha256.hexdigest (content (event_id e) (timestamp e) (kind_value (kind e)) (details e)
    (last_hash prev es)))); naive_solver.
Qed.

(** Two verified chains of the same length that end in the same digest agree on all that
    digests cover. *)
Lemma chain_binding prev prev' es es' :
  plain prev = true -> plain prev' = true ->
  forallb fields_plain es = true -> forallb fields_plain es' = true ->
  chain_ok prev es = true -> chain_ok prev' es' = true -> length es = length es' ->
  collision_free (contents prev es ++ contents prev' es') ->
  last_hash prev es = last_hash prev' es' ->
  prev = prev' /\ map covered es = map covered es'.
Proof.
  intros Hp Hp'. revert es'. induction es as [|e es IH] using rev_ind; intros es' He He' Hc Hc' Hlen Hfree Hlast.
  { destruct es'; [done|]. cbn in Hlen. lia. }
  destruct es' as [|e' es' _] using rev_ind; [rewrite length_app in Hlen; cbn in Hlen; lia|].
  rewrite !length_app in Hlen. cbn in Hlen. rewrite !forallb_app in He, He'. cbn in He, He'.
  apply andb_true_iff in He as [He (Hf & _)%andb_true_iff], He' as [He' (Hf' & _)%andb_true_iff].
  apply andb_true_iff in Hf as [Hf1 Hf2], Hf' as [Hf1' Hf2'].
  rewrite !last_hash_snoc in Hlast. rewrite !contents_app in Hfree. cbn [contents] in Hfree.
  apply chain_snoc in Hc as [Hc Hh], Hc' as [Hc' Hh'].
  assert (Heq : content_after (last_hash prev es) e = content_after (last_hash prev' es') e').
  { apply Hfree; [set_solver..|]. congruence. }
  assert (Hl1 := chain_last_plain prev es Hp Hc). assert (Hl2 := chain_last_plain prev' es' Hp' Hc').
  unfold content_after in Heq. apply content_inj in Heq as (Hi & Ht & Hk & Hd & Hl); [|done..].
  destruct (IH es') as [-> Hm]; [done..|lia| |done|].
  { intros a b Ha Hb. apply Hfree; set_solver. }
  split; [done|]. rewrite !map_app, Hm. cbn. unfold covered. by rewrite Hi, Ht, Hk, Hd, Hlast.
Qed.

(** ** Properties *)

(** The bundle reports a verified chain exactly when the digest of every event after the
    first is the SHA-256 of its id, timestamp, kind and details and of the digest of the
    event before it. *)
Theorem bundle_verification_exact now id events controls :
  hash_chain_verified (build_evidence_bundle now id events controls) = true <->
  forall i a b, events !! i = Some a -> events !! S i = Some b ->
    event_hash b = compute_hash (event_id b) (timestamp b) (kind_value (kind b)) (details b) (event_hash a).
Proof.
  unfold build_evidence_bundle, hash_chain_verified, verified. destruct events as [|e events]; [naive_solver|].
  revert e. induction events as [|e' events IH]; intros e; [cbn; split; [by intros _ [|i] a b|done]|]. cbn [chain_ok].
  destruct (String.eqb_spec (event_hash e') (compute_hash (event_id e') (timestamp e') (kind_value (kind e')) (details e') (event_hash e)))
    as [Heq|Hne].
  - rewrite IH. split; intros H.
    + intros [|i] a b; cbn [lookup list_lookup]; [by intros [= <-] [= <-]|]. apply H.
    + intros i a b. apply (H (S i)).
  - split; [done|]. intros H. destruct Hne. by apply (H 0%nat).
Qed.

(** C29: A verified trail whose ids, timestamps and first digest hold no separator, the character
    '|', is tamper-evident in what digests cover: two such trails of the same length that both
    verify and end in the same digest, with no SHA-256 collision among the texts hashed, agree on
    the id, timestamp, kind, details and digest of every event after the first, and on the
    digest of the first.  The code does not check for separators, and with them the conclusion
    fails: [separators_are_ambiguous]. *)
Theorem trail_tamper_evident now id id' controls first first' es es' :
  hash_chain_verified (build_evidence_bundle now id (first :: es) controls) = true ->
  hash_chain_verified (build_evidence_bundle now id' (first' :: es') controls) = true ->
  length es = length es' ->
  last_hash (event_hash first) es = last_hash (event_hash first') es' ->
  plain (event_hash first) = true -> plain (event_hash first') = true ->
  forallb fields_plain es = true -> forallb fields_plain es' = true ->
  collision_free (contents (event_hash first) es ++ contents (event_hash first') es') ->
  event_hash first = event_hash first' /\ map covered es = map covered es'.
Proof. cbn. intros. by apply chain_binding. Qed.

(** What verification does not see: any change to the fields outside the digest (actor,
    tenant, session, thread, the stored previous digest, versions), any change to the
    first event that keeps its digest, and the removal of events at either end. *)
Theorem trail_blind_spots now id controls first first' es es' before after :
  event_hash first = event_hash first' -> map covered es = map covered es' ->
  hash_chain_verified (build_evidence_bundle now id (first :: es) controls) =
  hash_chain_verified (build_evidence_bundle now id (first' :: es') controls) /\
  (hash_chain_verified (build_evidence_bundle now id (before ++ (first :: es) ++ after) controls) = true ->
   hash_chain_verified (build_evidence_bundle now id (first :: es) controls) = true).
Proof.
  intros Hf Hc. cbn. split.
  - rewrite <-Hf. generalize (event_hash first) as prev. clear Hf. revert es' Hc.
    induction es as [|e es IH]; intros [|e' es']; [done..|]. cbn. intros [= Hi Ht Hk Hd Hh Hc] prev.
    by rewrite Hi, Ht, Hk, Hd, Hh, (IH es' Hc).
  - assert (Hin : forall prev, chain_ok prev ((first :: es) ++ after) = true -> chain_ok (event_hash first) es = true).
    { intros prev. cbn [app chain_ok]. destruct (String.eqb _ _); [|done]. rewrite chain_ok_app.
      by intros [H _]%andb_true_iff. }
    destruct before as [|b before]; cbn [app verified].
    + rewrite chain_ok_app. by intros [H _]%andb_true_iff.
    + rewrite chain_ok_app. intros [_ H]%andb_true_iff. by eapply Hin.
Qed.

(** ** Witnesses *)

Definition logged (id ts : string) (k : AuditEventKind) (actor det prev hash : string) : AuditEvent :=
  {| event_id := id; kind := k; actor_id := actor; tenant_id := "default"; session_id := "s1"; thread_id := "th1";
     timestamp := ts; details := det; previous_hash := prev; event_hash := hash;
     prompt_version := "1.0.0"; model_version := "m"; tool_version := "1" |}.

Definition first_digest : string :=
  Eval vm_compute in compute_hash "e1" "2026-06-25T12:00:00+00:00" "agent_run_started" "{}" "".
Definition approval_digest : string :=
  Eval vm_compute in compute_hash "e2" "2026-06-25T12:00:01+00:00" "approval_granted" "{|}" first_digest.

Definition first_event : AuditEvent :=
  logged "e1" "2026-06-25T12:00:00+00:00" AGENT_RUN_STARTED "u1" "{}" "" first_digest.
Definition later_events (actor : string) : list AuditEvent :=
  [logged "e2" "2026-06-25T12:00:01+00:00" APPROVAL_GRANTED actor "{|}" first_digest approval_digest].

Example trail_tamper_evident_witness :
  event_hash first_event = event_hash first_event /\
  map covered (later_events "u1") = map covered (later_events "mallory").
Proof.
  apply (trail_tamper_evident "t" "b1" "b2" None first_event first_event (later_events "u1") (later_events "mallory"));
    [vm_compute; reflexivity..|]. apply collision_freeb_sound. vm_compute. reflexivity.
Defined.

(** Separators are not escaped: the same text is hashed when a part of the id moves to the
    timestamp. *)
Lemma content_ambiguous id a b k det prev :
  content (id +:+ "|" +:+ a) b k det prev = content id (a +:+ "|" +:+ b) k det prev.
Proof. unfold content. by rewrite !app_assoc_str. Qed.

(** So two trails that both verify and end in the same digest, with no collision, may differ in
    the ids and times of their events. *)
Theorem separators_are_ambiguous now id controls first eid a b k det prev hash :
  let e := logged eid (a +:+ "|" +:+ b) k "u1" det prev (compute_hash eid (a +:+ "|" +:+ b) (kind_value k) det (event_hash first)) in
  let e' := logged (eid +:+ "|" +:+ a) b k "u1" det prev hash in
  hash = event_hash e ->
  hash_chain_verified (build_evidence_bundle now id [first; e] controls) = true /\
  hash_chain_verified (build_evidence_bundle now id [first; e'] controls) = true /\
  last_hash (event_hash first) [e] = last_hash (event_hash first) [e'] /\
  collision_free (contents (event_hash first) [e] ++ contents (event_hash first) [e']) /\
  map covered [e] <> map covered [e'].
Proof.
  cbn zeta. intros ->. unfold last_hash, compute_hash. cbn [build_evidence_bundle hash_chain_verified verified chain_ok last event_hash logged
    event_id timestamp kind details contents app map covered]. unfold content_after. cbn [event_id timestamp kind details logged].
  unfold compute_hash. rewrite !content_ambiguous, String.eqb_refl. split_and!; try done.
  - by intros x y [->|[->|[]%elem_of_nil]%elem_of_cons]%elem_of_cons [->|[->|[]%elem_of_nil]%elem_of_cons]%elem_of_cons.
  - intros [= Hid _]. apply (f_equal String.length) in Hid. rewrite !length_app_str in Hid. cbn in Hid. lia.
Qed.

Example separators_are_ambiguous_witness :
  let e := logged "e2" "x|12:00" APPROVAL_GRANTED "u1" "{}" "" (compute_hash "e2" "x|12:00" "approval_granted" "{}" first_digest) in
  let e' := logged "e2|x" "12:00" APPROVAL_GRANTED "u1" "{}" "" (event_hash e) in
  hash_chain_verified (build_evidence_bundle "t" "b" [first_event; e] None) = true /\
  hash_chain_verified (build_evidence_bundle "t" "b" [first_event; e'] None) = true /\ map covered [e] <> map covered [e'].
Proof.
  intros e e'. destruct (separators_are_ambiguous "t" "b" None first_event "e2" "x" "12:00" APPROVAL_GRANTED "{}" "" (event_hash e) eq_refl)
    as (H1 & H2 & _ & _ & H3). exact (conj H1 (conj H2 H3)).
Defined.

(** The actor of an approval is rewritten and the events around it removed. *)
Example trail_blind_spots_witness :
  hash_chain_verified (build_evidence_bundle "t" "b" (first_event :: later_events "u1") None) =
  hash_chain_verified (build_evidence_bundle "t" "b" (first_event :: later_events "mallory") None) /\
  (hash_chain_verified (build_evidence_bundle "t" "b" ([] ++ (first_event :: later_events "u1") ++ []) None) = true ->
   hash_chain_verified (build_evidence_bundle "t" "b" (first_event :: later_events "u1") None) = true).
Proof. apply trail_blind_spots; vm_compute; reflexivity. Defined.
