(* ===== verification/DataProtection.v ===== *)
(** Data classification, field policies and retention rules ([data_security.py]), and the
    redaction of what is logged ([redacted_logger.py]). *)
From S2P Require Import Prelude PyStr PyFloat Json PyRepr Sha256.

Inductive DataClassification : Type :=
  | PUBLIC | INTERNAL | CONFIDENTIAL | FINANCIAL_CONFIDENTIAL | RESTRICTED_PII | SECRET.

Record FieldPolicy : Type := {
  field_name : string;
  classification : DataClassification;
  can_enter_prompt : bool;
  can_enter_log : bool;
  can_enter_vector_store : bool;
  can_persist_long_term : bool;
  retention_days : Z;
  redaction_rule : string;
}.

Definition field_policy (name : string) (c : DataClassification) (prompt log : bool) (rule : string) : FieldPolicy :=
  {| field_name := name; classification := c; can_enter_prompt := prompt; can_enter_log := log;
     can_enter_vector_store := false; can_persist_long_term := false; retention_days := 0; redaction_rule := rule |}.

Definition DEFAULT_FIELD_POLICIES : list (string * FieldPolicy) :=
  map (fun p => (field_name p, p))
    [field_policy "user_id" INTERNAL false true "full";
     field_policy "account_id" CONFIDENTIAL true false "last4";
     field_policy "full_account_number" RESTRICTED_PII false false "full";
     field_policy "balance" FINANCIAL_CONFIDENTIAL true false "full";
     field_policy "transaction_id" CONFIDENTIAL true true "full";
     field_policy "api_key" SECRET false false "full";
     field_policy "token" SECRET false false "full"].

Definition get_field_policy (name : string) : FieldPolicy :=
  default (field_policy name INTERNAL true false "full") (oget DEFAULT_FIELD_POLICIES name).

Record RetentionPolicy : Type := {
  data_category : string;
  rt_retention_days : Z;
  auto_delete : bool;
  legal_hold_supported : bool;
  exportable : bool;
}.

Definition retention (category : string) (days : Z) (auto : bool) : RetentionPolicy :=
  {| data_category := category; rt_retention_days := days; auto_delete := auto; legal_hold_supported := false;
     exportable := true |}.

Definition DEFAULT_RETENTION_POLICIES : list RetentionPolicy :=
  [retention "conversation_history" 90 true; retention "audit_events" 2555 true; retention "approval_grants" 365 true;
   retention "idempotency_records" 90 true; retention "user_preferences" 365 true; retention "rag_indices" 0 false].

(** ** Redaction *)

Definition REDACTED : json := JStr "[REDACTED]".

Definition hidden_class (c : DataClassification) : bool :=
  match c with SECRET | RESTRICTED_PII => true | _ => false end.

(** The value logged for a field. *)
Definition redact_value (policy : FieldPolicy) (v : json) : json :=
  if hidden_class (classification policy) then REDACTED
  else
    match String.eqb (redaction_rule policy) "last4", String.eqb (redaction_rule policy) "hash", v with
    | true, _, JStr s => if (4 <? String.length s)%nat then JStr ("..." +:+ last_str 4 s) else v
    | _, true, JStr s => JStr (take_str 16 (Sha256.hexdigest s))
    | _, _, _ => if negb (can_enter_log policy) then REDACTED else v
    end.

Definition redact_dict (data : dict) : dict :=
  map (fun kv => (fst kv, redact_value (get_field_policy (fst kv)) (snd kv))) data.

Definition sensitive_keys : list string :=
  ["api_key"; "token"; "authorization"; "x-api-key"; "password"; "secret"; "full_account_number"; "ssn"].

Definition sensitive_key (key : string) : bool :=
  str_in (lower key) sensitive_keys || any_in ["token"; "secret"; "password"] (lower key).

Definition safe_log_data (data : dict) : dict :=
  map (fun kv => (fst kv, if sensitive_key (fst kv) then REDACTED else snd kv)) data.

(** What [logging.safe_log] passes on: the fields that are not None, then stripped. *)
Definition safe_log_fields (kwargs : dict) : dict :=
  safe_log_data (List.filter (fun kv => negb (match snd kv with JNull => true | _ => false end)) kwargs).

(** ** Lemmas *)

Lemma substring_drop (a b : string) : String.substring (String.length a) (String.length b) (a +:+ b) = b.
Proof.
  induction a as [|c a IH]; [|exact IH]. by apply (substring_full b).
Qed.

Lemma substring_length m n s : String.length (String.substring m n s) = Nat.min n (String.length s - m).
Proof.
  revert m n. induction s as [|c s IH]; intros [|m] [|n]; cbn; try done; rewrite IH; lia.
Qed.

Lemma last_str_short n s : (String.length s <= n)%nat -> last_str n s = s.
Proof.
  intros H. unfold last_str. replace (String.length s - n)%nat with 0%nat by lia. by apply substring_full.
Qed.

Lemma substring_tail m n s : (String.length s <= m + n)%nat ->
  String.substring m n s = String.substring m (String.length s - m) s.
Proof.
  revert m n. induction s as [|c s IH]; intros m n H; [by destruct m, n|]. destruct m as [|m]; cbn in *.
  - destruct n as [|n]; [lia|]. f_equal. rewrite (IH 0%nat n) by lia. by rewrite Nat.sub_0_r.
  - apply IH. lia.
Qed.

Lemma last_str_app a b : last_str (String.length b) (a +:+ b) = b.
Proof.
  unfold last_str. rewrite slen_app, Nat.add_sub. rewrite substring_tail by (rewrite slen_app; lia).
  rewrite slen_app. replace (String.length a + String.length b - String.length a)%nat with (String.length b) by lia.
  apply substring_drop.
Qed.

Lemma last4_length s : (4 < String.length s)%nat -> String.length (last_str 4 s) = 4%nat.
Proof. intros H. unfold last_str. rewrite substring_length. lia. Qed.

(** Redaction by the rule [last4] is stable. *)
Lemma last4_stable s : (4 < String.length s)%nat -> last_str 4 ("..." +:+ last_str 4 s) = last_str 4 s.
Proof. intros H. pose proof (last_str_app "..." (last_str 4 s)) as Ha. by rewrite last4_length in Ha. Qed.

(** The policies by field. *)
Lemma get_field_policy_cases name :
  get_field_policy name = field_policy name INTERNAL true false "full" \/
  exists p, (name, p) ∈ DEFAULT_FIELD_POLICIES /\ get_field_policy name = p.
Proof.
  unfold get_field_policy. destruct (oget DEFAULT_FIELD_POLICIES name) as [p|] eqn:E; [right|by left].
  exists p. split; [by apply oget_elem|done].
Qed.

Lemma redact_value_exact name v :
  redact_value (get_field_policy name) v =
  if str_in name ["user_id"; "transaction_id"] then v
  else match v with
       | JStr s => if String.eqb name "account_id"
                   then (if (4 <? String.length s)%nat then JStr ("..." +:+ last_str 4 s) else v) else REDACTED
       | _ => REDACTED
       end.
Proof.
  destruct (get_field_policy_cases name) as [E|(p & Hp & E)].
  - assert (Hn : oget DEFAULT_FIELD_POLICIES name = None \/ str_in name (okeys DEFAULT_FIELD_POLICIES) = true).
    { destruct (oget DEFAULT_FIELD_POLICIES name) eqn:Eo; [right|by left]. apply str_in_spec.
      apply oget_elem in Eo. apply list_elem_of_fmap. by exists (name, f). }
    destruct Hn as [Hn|Hn].
    + apply oget_None in Hn. rewrite E. cbn [redact_value].
      assert (Hd : str_in name ["user_id"; "transaction_id"] = false /\ String.eqb name "account_id" = false).
      { split; [apply str_in_false|apply String.eqb_neq]; intros Hin; apply Hn; cbn;
          [set_solver|rewrite Hin; set_solver]. }
      destruct Hd as [-> ->]. by destruct v.
    + exfalso. apply str_in_spec in Hn. cbn in Hn.
      repeat (apply elem_of_cons in Hn as [->|Hn]; [discriminate E|]). by apply not_elem_of_nil in Hn.
  - rewrite E. cbn in Hp. repeat (apply elem_of_cons in Hp as [[= -> ->]|Hp]; [by destruct v|]). by apply not_elem_of_nil in Hp.
Qed.

(** ** Properties *)

(** Redaction by field policy, exactly: the fields stay, in order; user and transaction
    ids pass; an account id that is a text longer than four characters keeps its last
    four, a shorter one passes whole; everything else, and so every secret, account
    number, balance and field without a policy, is replaced; and redacting twice is
    redacting once unless an account id is not a text. *)
Theorem redaction_exact data :
  redact_dict data =
    map (fun kv =>
      (fst kv,
       if str_in (fst kv) ["user_id"; "transaction_id"] then snd kv
       else match snd kv with
            | JStr s => if String.eqb (fst kv) "account_id"
                        then (if (4 <? String.length s)%nat then JStr ("..." +:+ last_str 4 s) else snd kv) else REDACTED
            | _ => REDACTED
            end)) data /\
  ((forall v, ("account_id", v) ∈ data -> exists s, v = JStr s) ->
   redact_dict (redact_dict data) = redact_dict data).
Proof.
  split; [apply map_ext; intros [k v]; by rewrite redact_value_exact|].
  intros Ha. unfold redact_dict. rewrite map_map. apply map_ext_in. intros [k v] Hin%list_elem_of_In. cbn [fst snd]. f_equal.
  rewrite !redact_value_exact. destruct (str_in k _); [done|].
  destruct (String.eqb_spec k "account_id") as [->|]; [|by destruct v].
  destruct (Ha v Hin) as [s ->]. destruct (4 <? String.length s)%nat eqn:E; [|by rewrite E]. apply Nat.ltb_lt in E.
  rewrite slen_app, last4_length by done. cbn -[last_str String.append]. by rewrite last4_stable.
Qed.

(** Neither the last four characters nor a text of RESTRICTED_PII is shown, but the text
    put in its place is the one of secrets. *)
Lemma pii_is_redacted v : redact_value (get_field_policy "full_account_number") v = REDACTED.
Proof. by rewrite redact_value_exact; destruct v. Qed.

(** What the logger strips, exactly: a field is replaced when its name, in any case, is on
    the list or contains "token", "secret" or "password"; every other field passes as it
    is, and so do the members of nested objects, whatever their names. *)
Theorem log_stripping_exact data k v :
  (k, v) ∈ safe_log_data data <->
  (sensitive_key k = true /\ v = REDACTED /\ k ∈ dkeys data) \/ (sensitive_key k = false /\ (k, v) ∈ data).
Proof.
  unfold safe_log_data, dkeys. rewrite !list_elem_of_fmap. split.
  - intros ([k' v'] & [= -> ->] & H). cbn. destruct (sensitive_key k'); [left|right]; [|done].
    split_and!; [done..|]. by exists (k', v').
  - intros [(Hs & -> & [k' v'] & -> & H)|[Hs H]]; [exists (k', v')|exists (k, v)]; cbn in *; by rewrite Hs.
Qed.

(** Account numbers and nested secrets pass. *)
Example stripping_gaps :
  let nested := JObj [("api_key", JStr "sk-1")] in
  safe_log_data [("account_number", JStr "DE89370400440532013000"); ("request", nested); ("API_Key", JStr "sk-1")] =
  [("account_number", JStr "DE89370400440532013000"); ("request", nested); ("API_Key", REDACTED)].
Proof. reflexivity. Qed.

Example redaction_exact_witness :
  let data := [("account_id", JStr "GB29NWBK6016"); ("balance", JInt 10); ("user_id", JStr "u1")] in
  redact_dict (redact_dict data) = redact_dict data.
Proof.
  intros data. apply (redaction_exact data). intros v Hv. exists "GB29NWBK6016". subst data.
  repeat (apply elem_of_cons in Hv as [Hv|Hv]; [congruence|]). by apply not_elem_of_nil in Hv.
Defined.
