(* ===== verification/Memory.v ===== *)
(** Long-term memory: preferences and episodes ([memory/models.py], [memory/store.py]). *)
From S2P Require Import Prelude PyStr PyFloat.

Record UserPreference : Type := {
  key : string;
  value : string;
  user_id : string;
  tenant_id : string;
  created_at : string;
  ttl_days : Z;
}.

Definition blocked_keys : list string := ["account_number"; "password"; "pin"; "ssn"; "token"; "secret"].

Definition is_sensitive_key (p : UserPreference) : bool := str_in (lower (key p)) blocked_keys.

Record EpisodeRecord : Type := {
  episode_id : string;
  ep_tenant_id : string;
  intent : string;
  outcome : string;
  tool_count : Z;
  duration_ms : f64;
  anonymized_summary : string;
  ep_created_at : string;
  ep_ttl_days : Z;
}.

Record MemoryPolicy : Type := {
  allow_pii : bool;
  allow_account_numbers : bool;
  max_summary_length : Z;
  max_preferences_per_user : Z;
  default_ttl_days : Z;
}.

Definition default_policy : MemoryPolicy :=
  {| allow_pii := false; allow_account_numbers := false; max_summary_length := 2000;
     max_preferences_per_user := 50; default_ttl_days := 90 |}.

Record InMemoryMemoryStore : Type := {
  preferences : list (string * list UserPreference);
  episodes : list (string * list EpisodeRecord);
  policy : MemoryPolicy;
}.

Definition new_store (p : MemoryPolicy) : InMemoryMemoryStore := {| preferences := []; episodes := []; policy := p |}.

Definition pref_key (user tenant : string) : string := tenant +:+ ":" +:+ user.

Definition set_preferences (s : InMemoryMemoryStore) (ps : list (string * list UserPreference)) : InMemoryMemoryStore :=
  {| preferences := ps; episodes := episodes s; policy := policy s |}.

(** The list under a key, which is put there, empty, when it is missing. *)
Definition save_preference (p : UserPreference) (s : InMemoryMemoryStore) : result bool * InMemoryMemoryStore :=
  if is_sensitive_key p then (Ok false, s)
  else
    let k := pref_key (user_id p) (tenant_id p) in
    let existing := default [] (oget (preferences s) k) in
    if Z.of_nat (length existing) >=? max_preferences_per_user (policy s) then
      match existing with
      | [] => (Raise (IndexError "pop from empty list"), set_preferences s (oset (preferences s) k []))
      | _ :: rest => (Ok true, set_preferences s (oset (preferences s) k (rest ++ [p])))
      end
    else (Ok true, set_preferences s (oset (preferences s) k (existing ++ [p]))).

Definition get_preferences (user tenant : string) (s : InMemoryMemoryStore) : list UserPreference :=
  default [] (oget (preferences s) (pref_key user tenant)).

Definition delete_preferences (user tenant : string) (s : InMemoryMemoryStore) : InMemoryMemoryStore :=
  set_preferences s (List.filter (fun kv => negb (String.eqb (fst kv) (pref_key user tenant))) (preferences s)).

Definition save_episode (e : EpisodeRecord) (s : InMemoryMemoryStore) : InMemoryMemoryStore :=
  {| preferences := preferences s;
     episodes := oset (episodes s) (ep_tenant_id e) (default [] (oget (episodes s) (ep_tenant_id e)) ++ [e]);
     policy := policy s |}.

Definition get_episodes (tenant : string) (limit : Z) (s : InMemoryMemoryStore) : list EpisodeRecord :=
  slice_from (- limit) (default [] (oget (episodes s) tenant)).

(** ** A specification that forgets nothing *)

Inductive memory_op : Type :=
  | SavePreference (p : UserPreference)
  | DeletePreferences (user tenant : string)
  | SaveEpisode (e : EpisodeRecord).

Definition run_op (op : memory_op) (s : InMemoryMemoryStore) : InMemoryMemoryStore :=
  match op with
  | SavePreference p => snd (save_preference p s)
  | DeletePreferences u t => delete_preferences u t s
  | SaveEpisode e => save_episode e s
  end.

Definition run_ops (ops : list memory_op) (s : InMemoryMemoryStore) : InMemoryMemoryStore :=
  fold_left (fun s op => run_op op s) ops s.

(** Everything saved under a key since it was last deleted, but what is blocked. *)
Fixpoint history (k : string) (acc : list UserPreference) (ops : list memory_op) : list UserPreference :=
  match ops with
  | [] => acc
  | SavePreference p :: ops' =>
      history k (if negb (is_sensitive_key p) && String.eqb (pref_key (user_id p) (tenant_id p)) k
                 then acc ++ [p] else acc) ops'
  | DeletePreferences u t :: ops' => history k (if String.eqb (pref_key u t) k then [] else acc) ops'
  | SaveEpisode _ :: ops' => history k acc ops'
  end.

(** Every episode saved for a tenant. *)
Definition episode_history (tenant : string) (ops : list memory_op) : list EpisodeRecord :=
  omap (fun op => match op with
                  | SaveEpisode e => if String.eqb (ep_tenant_id e) tenant then Some e else None
                  | _ => None
                  end) ops.

(** The store keeps the end of the history. *)
Definition keeps_recent (s : InMemoryMemoryStore) (k : string) (h : list UserPreference) : Prop :=
  default [] (oget (preferences s) k) = last_n (Z.to_nat (max_preferences_per_user (policy s))) h.

(** ** Lemmas *)

Lemma last_n_snoc {A} n (l : list A) x : (0 < n)%nat ->
  last_n n (l ++ [x]) = (if (n <=? length (last_n n l))%nat then drop 1 (last_n n l) else last_n n l) ++ [x].
Proof.
  intros Hn. destruct n as [|n]; [lia|]. unfold last_n. rewrite length_app, length_drop. cbn [length].
  case_match eqn:E; [apply Nat.leb_le in E|apply Nat.leb_gt in E].
  - rewrite drop_drop, drop_app_le by lia. f_equal. f_equal. lia.
  - replace (length l - S n)%nat with 0%nat by lia. replace (length l + 1 - S n)%nat with 0%nat by lia. done.
Qed.

Lemma oget_filter {A} (d : list (string * A)) k k' :
  oget (List.filter (fun kv => negb (String.eqb (fst kv) k)) d) k' = if String.eqb k k' then None else oget d k'.
Proof.
  induction d as [|[k0 v] d IH]; cbn; [by destruct (String.eqb k k')|].
  destruct (String.eqb_spec k0 k) as [->|Hk]; cbn; rewrite IH.
  - destruct (String.eqb_spec k k') as [->|]; [done|]. destruct (String.eqb_spec k' k); [congruence|done].
  - destruct (String.eqb_spec k' k0) as [->|]; [|done]. by destruct (String.eqb_spec k k0); [congruence|].
Qed.

Lemma run_op_policy op s : policy (run_op op s) = policy s.
Proof.
  destruct op as [p| |]; [|done..]. cbn. unfold save_preference. destruct (is_sensitive_key p); [done|].
  destruct (_ >=? _); [|done]. by destruct (default [] _).
Qed.

(** What a save does to the list under its key. *)
Lemma save_preference_keeps p s :
  1 <= max_preferences_per_user (policy s) -> is_sensitive_key p = false ->
  let k := pref_key (user_id p) (tenant_id p) in
  let existing := default [] (oget (preferences s) k) in
  save_preference p s =
    (Ok true, set_preferences s (oset (preferences s) k
      ((if max_preferences_per_user (policy s) <=? Z.of_nat (length existing) then drop 1 existing else existing) ++ [p]))).
Proof.
  intros Hmax Hs k existing. unfold save_preference. rewrite Hs. fold k existing.
  rewrite Z.geb_leb. destruct (Z.leb_spec (max_preferences_per_user (policy s)) (Z.of_nat (length existing))) as [Hle|]; [|done].
  destruct existing; [cbn in Hle; lia|done].
Qed.

Lemma run_op_keeps op s k h :
  1 <= max_preferences_per_user (policy s) -> keeps_recent s k h -> keeps_recent (run_op op s) k (history k h [op]).
Proof.
  unfold keeps_recent. rewrite run_op_policy. intros Hmax Hk. destruct op as [p|u t|e]; cbn [history run_op]; [| |exact Hk].
  - destruct (is_sensitive_key p) eqn:Es; cbn [negb andb]; [unfold save_preference; by rewrite Es|].
    rewrite save_preference_keeps by done. cbn [snd set_preferences preferences]. rewrite oget_oset.
    rewrite (String.eqb_sym k). destruct (String.eqb_spec (pref_key (user_id p) (tenant_id p)) k) as [->|]; [|done].
    cbn [default]. rewrite last_n_snoc, Hk by lia. unfold id. do 2 f_equal.
    set (l := last_n _ h). destruct (Z.leb_spec (max_preferences_per_user (policy s)) (Z.of_nat (length l))) as [Hl|Hl].
    + by rewrite (proj2 (Nat.leb_le _ _)) by lia.
    + by rewrite (proj2 (Nat.leb_gt _ _)) by lia.
  - unfold delete_preferences. cbn [set_preferences preferences]. rewrite oget_filter.
    destruct (String.eqb (pref_key u t) k); [|done]. by destruct (Z.to_nat _).
Qed.

Lemma history_app k h ops1 ops2 : history k h (ops1 ++ ops2) = history k (history k h ops1) ops2.
Proof. revert h. induction ops1 as [|[p|u t|e] ops1 IH]; intros h; cbn; auto. Qed.

Lemma run_ops_policy ops s : policy (run_ops ops s) = policy s.
Proof.
  induction ops as [|op ops IH] using rev_ind; [done|]. unfold run_ops in *. rewrite fold_left_app. cbn.
  by rewrite run_op_policy.
Qed.

(** ** Properties *)

(** C23: The store implements the specification that keeps everything: after any operations,
    and for a policy that allows at least one preference, what it returns for a user is the
    latest of those saved since they were last deleted and not blocked, as many as the
    policy allows, in order, never more; and all of a tenant's episodes are kept, the
    latest being returned up to a positive limit. *)
Theorem memory_refines_history ops p user tenant limit :
  1 <= max_preferences_per_user p ->
  let s := run_ops ops (new_store p) in
  get_preferences user tenant s =
    last_n (Z.to_nat (max_preferences_per_user p)) (history (pref_key user tenant) [] ops) /\
  Z.of_nat (length (get_preferences user tenant s)) <= max_preferences_per_user p /\
  get_episodes tenant limit s = slice_from (- limit) (episode_history tenant ops).
Proof.
  intros Hmax s.
  assert (Hp : get_preferences user tenant s =
               last_n (Z.to_nat (max_preferences_per_user p)) (history (pref_key user tenant) [] ops)).
  { subst s.
    assert (H : keeps_recent (run_ops ops (new_store p)) (pref_key user tenant) (history (pref_key user tenant) [] ops)).
    { induction ops as [|op ops IH] using rev_ind; [unfold keeps_recent; by destruct (Z.to_nat _)|].
      rewrite history_app. unfold run_ops in *. rewrite fold_left_app. cbn [fold_left].
      apply run_op_keeps; [|exact IH]. change (fold_left _ ops _) with (run_ops ops (new_store p)).
      by rewrite run_ops_policy. }
    unfold keeps_recent in H. by rewrite run_ops_policy in H. }
  split; [exact Hp|]. split.
  { rewrite Hp. pose proof (last_n_length (Z.to_nat (max_preferences_per_user p)) (history (pref_key user tenant) [] ops)). lia. }
  unfold get_episodes. f_equal. subst s. clear Hp. induction ops as [|op ops IH] using rev_ind; [done|].
  unfold run_ops, episode_history in *. rewrite fold_left_app, omap_app. cbn [fold_left omap list_omap]. rewrite <-IH.
  set (s := fold_left _ ops _). destruct op as [q|u t|e]; cbn [run_op].
  - rewrite List.app_nil_r. unfold save_preference. destruct (is_sensitive_key q); [done|].
    destruct (_ >=? _); [|done]. by destruct (default [] (oget (preferences s) _)).
  - by rewrite List.app_nil_r.
  - cbn [save_episode episodes]. rewrite oget_oset, (String.eqb_sym tenant).
    destruct (String.eqb_spec (ep_tenant_id e) tenant) as [->|]; [done|]. by rewrite List.app_nil_r.
Qed.

Definition preference (u t k v : string) : UserPreference :=
  {| key := k; value := v; user_id := u; tenant_id := t; created_at := ""; ttl_days := 365 |}.

Example memory_refines_history_witness :
  let ops := [SavePreference (preference "u1" "t1" "lang" "en"); SavePreference (preference "u1" "t1" "PIN" "1234");
              SavePreference (preference "u1" "t1" "lang" "de"); SavePreference (preference "u1" "t1" "theme" "dark")] in
  let p := {| allow_pii := false; allow_account_numbers := false; max_summary_length := 0;
              max_preferences_per_user := 2; default_ttl_days := 0 |} in
  get_preferences "u1" "t1" (run_ops ops (new_store p)) =
    last_n 2 (history (pref_key "u1" "t1") [] ops) /\
  Z.of_nat (length (get_preferences "u1" "t1" (run_ops ops (new_store p)))) <= 2 /\
  get_episodes "t1" 20 (run_ops ops (new_store p)) = slice_from (- 20) (episode_history "t1" ops).
Proof. intros ops p. apply (memory_refines_history ops p). cbn. lia. Defined.

(** Keys do not separate tenants: users of two tenants share one list whenever tenant and
    user id concatenate alike, so what one saves the other reads and can delete. *)
Theorem tenants_share_preferences s tenant user rest p :
  1 <= max_preferences_per_user (policy s) -> is_sensitive_key p = false ->
  tenant_id p = tenant +:+ ":" +:+ rest -> user_id p = user ->
  p ∈ get_preferences (rest +:+ ":" +:+ user) tenant (snd (save_preference p s)).
Proof.
  intros Hmax Hs Ht Hu. rewrite save_preference_keeps by done. unfold get_preferences. cbn [snd set_preferences preferences].
  replace (pref_key (rest +:+ ":" +:+ user) tenant) with (pref_key (user_id p) (tenant_id p)).
  { rewrite oget_oset_eq. cbn [default]. unfold id. apply elem_of_app. right. by left. }
  unfold pref_key. rewrite Ht, Hu. by rewrite !app_assoc_str.
Qed.

Example tenants_share_preferences_witness :
  preference "u1" "bank:retail" "lang" "en" ∈
    get_preferences "retail:u1" "bank" (snd (save_preference (preference "u1" "bank:retail" "lang" "en") (new_store default_policy))).
Proof.
  apply (tenants_share_preferences (new_store default_policy) "bank" "u1" "retail"); [cbn; lia|reflexivity..].
Defined.

(** With no preference allowed, saving one raises, having put an empty list in its place. *)
Lemma no_preferences_allowed s p :
  max_preferences_per_user (policy s) <= 0 -> is_sensitive_key p = false ->
  oget (preferences s) (pref_key (user_id p) (tenant_id p)) = None ->
  fst (save_preference p s) = Raise (IndexError "pop from empty list").
Proof.
  intros Hmax Hs Hn. unfold save_preference. rewrite Hs, Hn. cbn. rewrite Z.geb_leb.
  by rewrite (proj2 (Z.leb_le _ _)).
Qed.
