(* ===== verification/Retrieval.v ===== *)
(** Retrieval of knowledge: documents, citations and the keyword retriever
    ([rag/models.py], [rag/retriever.py]).

    An expiry is read in the forms that [fromisoformat] of PyTime accepts, and in the same
    forms without an offset or without a time, which Python reads as naive times; other
    texts count as unreadable. *)
From S2P Require Import Prelude PyStr PyFloat PyTime.

Inductive KnowledgeDomain : Type :=
  | PRODUCTS_FEES | TRANSFER_RULES | KYC_AML | OPERATIONS_SOP | FORM_GUIDANCE | EXCEPTIONS.

#[export] Instance domain_eq_dec : EqDecision KnowledgeDomain.
Proof. solve_decision. Defined.

Record DocumentChunk : Type := {
  chunk_id : string;
  document_id : string;
  version : string;
  title : string;
  content : string;
  source_uri : string;
  effective_from : string;
  effective_to : string;
  jurisdiction : string;
  product : string;
  access_roles : list string;
  tenant_id : string;
  classification : string;
  section_path : string;
  content_hash : string;
  domain : KnowledgeDomain;
}.

Inductive expiry : Type := Unreadable | Naive | Aware (t : Z).

Definition read_expiry (s : string) : expiry :=
  match fromisoformat s with
  | Some t => Aware t
  | None =>
      match fromisoformat (s +:+ "+00:00"), fromisoformat (s +:+ "T00:00:00+00:00") with
      | None, None => Unreadable
      | _, _ => Naive
      end
  end.

(** [is_effective]: a naive expiry cannot be compared with the present. *)
Definition is_effective (now : Z) (c : DocumentChunk) : result bool :=
  if str_true (effective_to c) then
    match read_expiry (effective_to c) with
    | Unreadable => Ok true
    | Naive => Raise (TypeError "can't compare offset-naive and offset-aware datetimes")
    | Aware t => Ok (now <? t)
    end
  else Ok true.

Record Citation : Type := {
  ci_document_id : string;
  ci_title : string;
  ci_version : string;
  ci_section_path : string;
  ci_source_uri : string;
  ci_chunk_id : string;
}.

Definition cite (c : DocumentChunk) : Citation :=
  {| ci_document_id := document_id c; ci_title := title c; ci_version := version c; ci_section_path := section_path c;
     ci_source_uri := source_uri c; ci_chunk_id := chunk_id c |}.

Definition to_text (c : Citation) : string :=
  let src := if str_true (ci_source_uri c) then " (source: " +:+ ci_source_uri c +:+ ")" else "" in
  let section := if str_true (ci_section_path c) then ", section " +:+ ci_section_path c else "" in
  "[" +:+ ci_title c +:+ " v" +:+ ci_version c +:+ section +:+ src +:+ "]".

Record RetrievalResult : Type := { query : string; chunks : list DocumentChunk; total_hits : Z }.

Definition citations (r : RetrievalResult) : list Citation := map cite (chunks r).

(** ** The retriever *)

Definition InMemoryRetriever : Type := list DocumentChunk.

Definition index (cs : list DocumentChunk) (r : InMemoryRetriever) : InMemoryRetriever := cs.

(** [set(text.lower().split())] *)
Definition terms (text : string) : list string := remove_dups (split_ws (lower text)).

Definition score (query_terms : list string) (c : DocumentChunk) : f64 :=
  let content_terms := terms (content c) in
  if negb (list_true query_terms) || negb (list_true content_terms) then f_zero
  else f_div (f_of_Z (Z.of_nat (length (List.filter (fun t => str_in t content_terms) query_terms))))
             (f_of_Z (Z.of_nat (length query_terms))).

(** The candidates, in order; the tests stop at the first that fails. *)
Fixpoint candidates (now : Z) (dom : option KnowledgeDomain) (tenant : string) (cs : list DocumentChunk)
    : result (list DocumentChunk) :=
  match cs with
  | [] => Ok []
  | c :: cs' =>
      let* keep :=
        (if match dom with None => true | Some d => bool_decide (domain c = d) end
         then if String.eqb (tenant_id c) tenant then is_effective now c else Ok false
         else Ok false) in
      let* rest := candidates now dom tenant cs' in
      Ok (if keep then c :: rest else rest)
  end.

(** [sort(key=score, reverse=True)] keeps a pair in order unless the first scores less. *)
Definition ranks_before (a b : f64 * DocumentChunk) : bool := negb (f_lt (fst a) (fst b)).

(** [xs\[:k\]] *)
Definition slice_to {A} (k : Z) (l : list A) : list A :=
  take (Z.to_nat (if k <? 0 then Z.max 0 (Z.of_nat (length l) + k) else k)) l.

(** [retrieve]; the roles are accepted and never looked at. *)
Definition retrieve (now : Z) (q : string) (top_k : Z) (dom : option KnowledgeDomain) (tenant : string)
    (roles : option (list string)) (r : InMemoryRetriever) : result RetrievalResult :=
  let query_terms := terms q in
  let* cs := candidates now dom tenant r in
  let scored := order_by ranks_before (map (fun c => (score query_terms c, c)) cs) in
  Ok {| query := q; chunks := map snd (slice_to top_k scored); total_hits := Z.of_nat (length scored) |}.

Definition get_citations (now : Z) (q : string) (top_k : Z) (r : InMemoryRetriever) : result (list Citation) :=
  let* res := retrieve now q top_k None "default" None r in
  Ok (citations res).

(** ** Lemmas *)

Lemma ranks_total a b : ranks_before a b = true \/ ranks_before b a = true.
Proof.
  unfold ranks_before, f_lt, SFltb. rewrite (SFcompare_antisym (fst a)).
  destruct (SFcompare (fst a) (fst b)) as [[]|]; auto.
Qed.

Lemma candidates_spec now dom tenant cs l :
  candidates now dom tenant cs = Ok l ->
  l = List.filter (fun c => (match dom with None => true | Some d => bool_decide (domain c = d) end)
                            && String.eqb (tenant_id c) tenant
                            && (match is_effective now c with Ok b => b | Raise _ => false end)) cs.
Proof.
  revert l. induction cs as [|c cs IH]; intros l; cbn [candidates]; [by intros [= <-]|].
  destruct (match dom with None => true | Some d => _ end) eqn:Ed; cbn [res_bind List.filter]; rewrite Ed; cbn [andb].
  2: { destruct (candidates now dom tenant cs) as [l'|]; [|done]. cbn. intros [= <-]. by apply IH. }
  destruct (String.eqb (tenant_id c) tenant); cbn [res_bind andb].
  2: { destruct (candidates now dom tenant cs) as [l'|]; [|done]. cbn. intros [= <-]. by apply IH. }
  destruct (is_effective now c) as [b|]; [|done]. cbn [res_bind].
  destruct (candidates now dom tenant cs) as [l'|]; [|done]. cbn. intros [= <-]. rewrite (IH l') by done. by destruct b.
Qed.

Lemma slice_to_sublist {A} k (l : list A) : exists rest, l = slice_to k l ++ rest.
Proof. eexists. unfold slice_to. symmetry. apply take_drop. Qed.

Lemma slice_to_length {A} k (l : list A) : 0 <= k -> length (slice_to k l) = Nat.min (Z.to_nat k) (length l).
Proof. intros H. unfold slice_to. rewrite length_take. destruct (Z.ltb_spec k 0); lia. Qed.

Lemma Sorted_prefix {A} (R : A -> A -> Prop) (l1 l2 : list A) : Sorted R (l1 ++ l2) -> Sorted R l1.
Proof.
  induction l1 as [|x l1 IH]; [constructor|]. cbn. intros H. apply Sorted_inv in H as [H Hx]. constructor; [auto|].
  destruct l1; [constructor|]. inversion Hx. by constructor.
Qed.

Lemma Sorted_map {A B} (f : A -> B) (R : B -> B -> Prop) l :
  Sorted (fun a b => R (f a) (f b)) l -> Sorted R (map f l).
Proof. induction 1 as [|x l Hl IH Hx]; cbn; constructor; [done|]. destruct Hx; by constructor. Qed.

Lemma order_by_elem_score cs qt p :
  p ∈ order_by ranks_before (map (fun c => (score qt c, c)) cs) -> fst p = score qt (snd p) /\ snd p ∈ cs.
Proof. rewrite elem_of_order_by. intros (c & -> & Hc)%list_elem_of_fmap. done. Qed.

(** What a retrieval returns is among its candidates. *)
Lemma retrieve_chunks now q top_k dom tenant roles r res c :
  retrieve now q top_k dom tenant roles r = Ok res -> c ∈ chunks res ->
  exists cs, candidates now dom tenant r = Ok cs /\ c ∈ cs.
Proof.
  unfold retrieve. destruct (candidates now dom tenant r) as [cs|]; [|done]. cbn [res_bind]. intros [= <-]. cbn [chunks].
  intros (p & -> & Hp)%list_elem_of_fmap. exists cs. split; [done|].
  destruct (slice_to_sublist top_k (order_by ranks_before (map (fun c => (score (terms q) c, c)) cs))) as [rest Hr].
  eapply order_by_elem_score. rewrite Hr. apply elem_of_app. by left.
Qed.

(** Documents of other tenants are not even looked at. *)
Lemma candidates_own now dom tenant cs :
  candidates now dom tenant cs = candidates now dom tenant (List.filter (fun c => String.eqb (tenant_id c) tenant) cs).
Proof.
  induction cs as [|c cs IH]; [done|]. cbn [List.filter candidates].
  destruct (String.eqb (tenant_id c) tenant) eqn:E; cbn [candidates]; rewrite ?E.
  - by rewrite IH.
  - set (keep := match dom with None => true | Some d => bool_decide (domain c = d) end).
    rewrite <-IH. by destruct keep, (candidates now dom tenant cs).
Qed.

(** ** Properties *)

(** A retrieval that returns gives each requester only documents of their tenant, of the
    domain asked for and not expired; as many as there are up to the limit, counting all of
    them as hits; in an order where no document scores more than the one before it; and
    cites them one for one. *)
Theorem retrieval_isolated_and_ranked now q top_k dom tenant roles r res :
  retrieve now q top_k dom tenant roles r = Ok res -> 0 <= top_k ->
  (forall c, c ∈ chunks res ->
     c ∈ r /\ tenant_id c = tenant /\ is_effective now c = Ok true /\ (forall d, dom = Some d -> domain c = d)) /\
  Z.of_nat (length (chunks res)) = Z.min top_k (total_hits res) /\
  Sorted (fun a b => f_lt (score (terms q) a) (score (terms q) b) = false) (chunks res) /\
  map ci_chunk_id (citations res) = map chunk_id (chunks res).
Proof.
  unfold retrieve. intros H Hk. destruct (candidates now dom tenant r) as [cs|] eqn:E; [|done].
  cbn [res_bind] in H. injection H as <-. cbn [chunks total_hits]. apply candidates_spec in E.
  set (scored := order_by ranks_before _).
  destruct (slice_to_sublist top_k scored) as [rest Hr].
  assert (Hin : forall p, p ∈ slice_to top_k scored -> fst p = score (terms q) (snd p) /\ snd p ∈ cs).
  { intros p Hp. apply order_by_elem_score. fold scored. rewrite Hr. apply elem_of_app. by left. }
  split_and!.
  - intros c (p & -> & Hp)%list_elem_of_fmap. apply Hin in Hp as [_ Hc]. rewrite E in Hc.
    apply list_elem_of_In, List.filter_In in Hc as [Hc Hf]. apply andb_true_iff in Hf as [(Hd & Ht)%andb_true_iff He].
    apply String.eqb_eq in Ht. split_and!; [by apply list_elem_of_In|done| |].
    + destruct (is_effective now (snd p)) as [[]|]; done.
    + intros d ->. by apply bool_decide_eq_true in Hd.
  - rewrite length_map, slice_to_length by done. lia.
  - apply (Sorted_map snd). pose proof (order_by_sorted ranks_before ranks_total (map (fun c => (score (terms q) c, c)) cs)) as Hs.
    fold scored in Hs. rewrite Hr in Hs. apply Sorted_prefix in Hs. clear Hr. induction Hs as [|p l Hl IH Hp]; constructor.
    + apply IH. intros p' Hp'. apply Hin. by right.
    + destruct Hp as [|p' l Hp]; constructor. unfold ranks_before in Hp. apply negb_true_iff in Hp.
      rewrite <-(proj1 (Hin p ltac:(by left))), <-(proj1 (Hin p' ltac:(right; by left))). done.
  - unfold citations. rewrite map_map. reflexivity.
Qed.

(** The roles asked for and the roles a document is for play no part. *)
Lemma roles_ignored now q top_k dom tenant roles roles' r :
  retrieve now q top_k dom tenant roles r = retrieve now q top_k dom tenant roles' r.
Proof. reflexivity. Qed.

Definition document (id tenant text expires : string) : DocumentChunk :=
  {| chunk_id := id; document_id := "d"; version := "1"; title := "Fees"; content := text; source_uri := "";
     effective_from := ""; effective_to := expires; jurisdiction := ""; product := ""; access_roles := ["auditor"];
     tenant_id := tenant; classification := "internal"; section_path := ""; content_hash := "";
     domain := PRODUCTS_FEES |}.

Definition library : InMemoryRetriever :=
  [document "c1" "default" "wire transfer fees" ""; document "c2" "acme" "transfer fees" "";
   document "c3" "default" "fees for international transfer" "2027-01-01T00:00:00+00:00";
   document "c4" "default" "transfer" "2020-01-01T00:00:00+00:00"].

(** One document of the tenant whose expiry is a date, or a time without an offset, makes
    every retrieval that reaches it fail, whatever the query. *)
Theorem dated_expiry_breaks_retrieval now q top_k tenant roles r c before :
  r = before ++ [c] -> (forall b, b ∈ before -> tenant_id b <> tenant \/ effective_to b = "") ->
  tenant_id c = tenant -> effective_to c <> "" -> read_expiry (effective_to c) = Naive ->
  retrieve now q top_k None tenant roles r =
  Raise (TypeError "can't compare offset-naive and offset-aware datetimes").
Proof.
  intros -> Hb Ht He Hn. unfold retrieve.
  replace (candidates now None tenant (before ++ [c])) with
    (@Raise (list DocumentChunk) (TypeError "can't compare offset-naive and offset-aware datetimes")); [done|].
  symmetry. induction before as [|b before IH]; cbn [app candidates].
  - rewrite Ht, String.eqb_refl. unfold is_effective. by rewrite (proj2 (str_true_spec _) He), Hn.
  - rewrite IH by (intros; apply Hb; by right). destruct (Hb b ltac:(by left)) as [Hne|Hem].
    + by rewrite (proj2 (String.eqb_neq _ _) Hne).
    + destruct (String.eqb (tenant_id b) tenant); [|done]. unfold is_effective. by rewrite Hem.
Qed.

Example retrieval_isolated_and_ranked_witness :
  match retrieve noon_2026 "International transfer fees" 5 None "default" None library with
  | Ok res =>
      map chunk_id (chunks res) = ["c3"; "c1"] /\
      Sorted (fun a b => f_lt (score (terms "International transfer fees") a)
                              (score (terms "International transfer fees") b) = false) (chunks res)
  | Raise _ => False
  end.
Proof.
  destruct (retrieve noon_2026 "International transfer fees" 5 None "default" None library) as [res|] eqn:E.
  - split; [vm_compute in E; injection E as <-; reflexivity|].
    apply (retrieval_isolated_and_ranked _ _ _ _ _ _ _ _ E). lia.
  - vm_compute in E. discriminate E.
Defined.

Example dated_expiry_breaks_retrieval_witness :
  let before := [document "c1" "default" "wire transfer fees" ""; document "c2" "acme" "fees" "2020-01-01"] in
  retrieve noon_2026 "fees" 5 None "default" None (before ++ [document "c5" "default" "fees" "2027-12-31"]) =
  Raise (TypeError "can't compare offset-naive and offset-aware datetimes").
Proof.
  intros before. apply (dated_expiry_breaks_retrieval _ _ _ _ _ _ (document "c5" "default" "fees" "2027-12-31") before);
    [reflexivity| |reflexivity|done|vm_compute; reflexivity].
  intros b Hb. subst before. repeat (apply elem_of_cons in Hb as [->|Hb]; [by (left + right)|]). by apply not_elem_of_nil in Hb.
Defined.
