(* ===== verification/Oidc.v ===== *)
(** Verification of OIDC bearer tokens ([security/oidc.py]).

    PyJWT (reading a header, building a key, decoding a token), its [PyJWKClient] and the
    HTTP fetch of the key set are parameters. *)
From S2P Require Import Prelude PyStr PyFloat Json PyRepr.

Definition ALLOWED_ALGORITHMS : list string := ["RS256"; "RS384"; "RS512"; "ES256"; "ES384"; "ES512"].

(** Claims hold whatever the payload does. *)
Record TokenClaims : Type := {
  sub : json;
  cl_tenant_id : json;
  cl_roles : json;
  cl_scopes : list string;
  iss : json;
  aud : json;
  exp : json;
  nbf : json;
  iat : json;
  jti : json;
  sid : json;
}.

Record OidcContext : Type := {
  subject_id : json;
  tenant_id : json;
  roles : list json;
  scopes : list string;
  auth_session_id : json;
  token_id : json;
  issuer : json;
  request_id : string;
  source : string;
}.

Record OIDCVerifier : Type := {
  v_issuer : string;
  v_audience : string;
  jwks_url : string;
  cache_ttl : Z;
  jwks_cache : json;
  jwks_last_fetch : f64;
}.

Definition new_verifier (issuer audience url : string) (ttl : Z) : OIDCVerifier :=
  {| v_issuer := issuer; v_audience := audience; jwks_url := url; cache_ttl := ttl; jwks_cache := JObj [];
     jwks_last_fetch := f_zero |}.

Definition set_cache (v : OIDCVerifier) (jwks : json) (now : f64) : OIDCVerifier :=
  {| v_issuer := v_issuer v; v_audience := v_audience v; jwks_url := jwks_url v; cache_ttl := cache_ttl v;
     jwks_cache := jwks; jwks_last_fetch := now |}.

(** The cached key set is used without a fetch. *)
Definition cache_fresh (now : f64) (v : OIDCVerifier) : bool :=
  json_true (jwks_cache v) && f_lt (f_sub now (jwks_last_fetch v)) (f_of_Z (cache_ttl v)).

Section oidc.
(** A key, with what PyJWT does: the header's [kid] (PyJWT refuses one that is not a text)
    and [alg]; a signing key from a client that was never initialised, and that client
    where a key is expected; a key from its JWK; a decoded payload. *)
Context {Key : Type}.
Context (unverified_header : string -> result (option string * json)).
Context (client_signing_key : string -> result Key) (client : Key).
Context (pyjwk : json -> result Key).
Context (decode : string -> Key -> list string -> string -> string -> result dict).
(** The answer of the key endpoint, decoded. *)
Context (fetch : string -> result json).

Definition get_jwks (now : f64) (v : OIDCVerifier) : option json * OIDCVerifier :=
  if cache_fresh now v then (Some (jwks_cache v), v)
  else if negb (str_true (jwks_url v)) then (None, v)
  else
    match fetch (jwks_url v) with
    | Ok jwks => (Some jwks, set_cache v jwks now)
    | Raise _ => (if json_true (jwks_cache v) then Some (jwks_cache v) else None, v)
    end.

(** The loop over the keys of the set; [kid] is a text that is not empty. *)
Fixpoint lookup_key (kid : string) (keys : list json) : result (option Key) :=
  match keys with
  | [] => Ok None
  | key_data :: keys' =>
      let* d := py_dict key_data in
      if (match dget d "kid" with Some (JStr k) => String.eqb k kid | _ => false end)
      then match pyjwk key_data with Ok k => Ok (Some k) | Raise _ => lookup_key kid keys' end
      else lookup_key kid keys'
  end.

Definition find_key (jwks : json) (kid : option string) : result (option Key) :=
  if opt_str_true kid then
    match client_signing_key (default "" kid) with
    | Ok k => Ok (Some k)
    | Raise _ =>
        let* d := py_dict jwks in
        let* keys := py_list (dget_or d "keys" (JArr [])) in
        lookup_key (default "" kid) keys
    end
  else Ok (Some client).

Definition claims_of (p : dict) : result TokenClaims :=
  let* scopes := match dget_or p "scope" (JStr "") with
                 | JStr s => Ok (split_ws s)
                 | s => Raise (AttributeError (repr_str (type_name s) +:+ " object has no attribute 'split'"))
                 end in
  Ok {| sub := dget_or p "sub" (JStr ""); cl_tenant_id := dget_or p "tenant_id" (JStr "");
        cl_roles := dget_or p "roles" (JArr []); cl_scopes := scopes; iss := dget_or p "iss" (JStr "");
        aud := dget_or p "aud" (JStr ""); exp := dget_or p "exp" (JInt 0); nbf := dget_or p "nbf" (JInt 0);
        iat := dget_or p "iat" (JInt 0); jti := dget_or p "jti" (JStr ""); sid := dget_or p "sid" (JStr "") |}.

Definition allowed (alg : json) : option string :=
  match alg with JStr a => if str_in a ALLOWED_ALGORITHMS then Some a else None | _ => None end.

(** [verify]: every exception in it is a refusal. *)
Definition verify (now : f64) (token : string) (v : OIDCVerifier) : option TokenClaims * OIDCVerifier :=
  if negb (str_true token) || negb (str_true (v_issuer v)) then (None, v)
  else
    match unverified_header token with
    | Raise _ => (None, v)
    | Ok (kid, alg) =>
        match allowed alg with
        | None => (None, v)
        | Some a =>
            if String.eqb a "none" then (None, v)
            else
              let '(jwks, v1) := get_jwks now v in
              match jwks with
              | None => (None, v1)
              | Some jwks =>
                  if negb (json_true jwks) then (None, v1)
                  else
                    match find_key jwks kid with
                    | Ok (Some key) =>
                        match (let* p := decode token key [a] (v_issuer v) (v_audience v) in claims_of p) with
                        | Ok c => (Some c, v1)
                        | Raise _ => (None, v1)
                        end
                    | _ => (None, v1)
                    end
              end
        end
    end.

(** An element of a set: lists and dicts have no hash. *)
Definition hashable (v : json) : result json :=
  match v with
  | JArr _ | JObj _ => Raise (TypeError ("unhashable type: " +:+ repr_str (type_name v)))
  | _ => Ok v
  end.

Definition claims_to_context (c : TokenClaims) (request : string) : result OidcContext :=
  let* items := py_list (cl_roles c) in
  let* rs := res_mapM hashable items in
  Ok {| subject_id := sub c; tenant_id := if json_true (cl_tenant_id c) then cl_tenant_id c else JStr "default";
        roles := rs; scopes := cl_scopes c; auth_session_id := sid c; token_id := jti c; issuer := iss c;
        request_id := request; source := "oidc" |}.

Definition build_context_from_token (now : f64) (token request : string) (v : OIDCVerifier)
    : result (option OidcContext) * OIDCVerifier :=
  match verify now token v with
  | (None, v1) => (Ok None, v1)
  | (Some c, v1) => (let* ctx := claims_to_context c request in Ok (Some ctx), v1)
  end.

(** ** Lemmas *)

Lemma lookup_key_sound kid keys k :
  lookup_key kid keys = Ok (Some k) ->
  exists d, JObj d ∈ keys /\ dget d "kid" = Some (JStr kid) /\ pyjwk (JObj d) = Ok k.
Proof.
  induction keys as [|key_data keys IH]; cbn [lookup_key]; [done|].
  destruct key_data as [| | | | | |d]; cbn [py_dict res_bind]; try done.
  destruct (match dget d "kid" with Some (JStr _) => _ | _ => _ end) eqn:E.
  - destruct (pyjwk (JObj d)) as [k'|] eqn:Ek.
    + intros [= <-]. exists d. split_and!; [by left| |done]. destruct (dget d "kid") as [[]|]; try done. by bool_hyps; subst.
    + intros (d' & Hd & Hk)%IH. exists d'. split; [by right|done].
  - intros (d' & Hd & Hk)%IH. exists d'. split; [by right|done].
Qed.

(** The uninitialised client finds no key. *)
Hypothesis client_fails : forall kid, exists e, client_signing_key kid = Raise e.

Lemma find_key_sound jwks kid k :
  find_key jwks kid = Ok (Some k) ->
  (opt_str_true kid = false /\ k = client) \/
  exists text d keys, kid = Some text /\ text <> "" /\ jwks = JObj d /\ py_list (dget_or d "keys" (JArr [])) = Ok keys /\
    exists jwk, JObj jwk ∈ keys /\ dget jwk "kid" = Some (JStr text) /\ pyjwk (JObj jwk) = Ok k.
Proof.
  unfold find_key. destruct (opt_str_true kid) eqn:E; [|by intros [= <-]; left].
  destruct kid as [text|]; [|done]. cbn [default] in *. destruct (client_fails (id text)) as [e ->].
  destruct jwks as [| | | | | |d]; cbn [py_dict res_bind]; try done.
  destruct (py_list (dget_or d "keys" (JArr []))) as [keys|] eqn:Ek; cbn [res_bind]; [|done].
  intros H%lookup_key_sound. right. exists text, d, keys. split_and!; try done. by apply str_true_spec.
Qed.

(** ** Properties *)

(** C28: Claims are accepted only from a token that PyJWT decoded, under one algorithm of the
    asymmetric ones allowed, for the configured issuer and audience, with the key of the
    key set that its [kid] names, or, when it has none, with the client object, which is no
    key: where PyJWT refuses that object, every accepted token names its key. *)
Theorem verify_sound now token v c v' :
  verify now token v = (Some c, v') ->
  (forall t algs i a, exists e, decode t client algs i a = Raise e) ->
  token <> "" /\ v_issuer v <> "" /\
  exists a kid d keys jwk key payload,
    unverified_header token = Ok (Some kid, JStr a) /\ a ∈ ALLOWED_ALGORITHMS /\ kid <> "" /\
    fst (get_jwks now v) = Some (JObj d) /\ py_list (dget_or d "keys" (JArr [])) = Ok keys /\
    JObj jwk ∈ keys /\ dget jwk "kid" = Some (JStr kid) /\ pyjwk (JObj jwk) = Ok key /\
    decode token key [a] (v_issuer v) (v_audience v) = Ok payload /\ claims_of payload = Ok c.
Proof.
  unfold verify. intros H Hclient.
  destruct (str_true token) eqn:Et; [|done]. destruct (str_true (v_issuer v)) eqn:Ei; [|done]. cbn [negb orb] in H.
  split; [by apply str_true_spec|]. split; [by apply str_true_spec|].
  destruct (unverified_header token) as [[kid alg]|] eqn:Eh; [|done].
  destruct (allowed alg) as [a|] eqn:Ea; [|done]. destruct (String.eqb a "none"); [done|].
  destruct (get_jwks now v) as [[jwks|] v1] eqn:Ej; [|done]. destruct (negb (json_true jwks)); [done|].
  destruct (find_key jwks kid) as [[key|]|] eqn:Ek; [|done..].
  destruct (decode token key [a] (v_issuer v) (v_audience v)) as [p|] eqn:Ed; cbn [res_bind] in H; [|done].
  destruct (claims_of p) as [c'|] eqn:Ec; [|done]. injection H as <- <-.
  unfold allowed in Ea. destruct alg as [| | | |s| |]; try done. destruct (str_in s ALLOWED_ALGORITHMS) eqn:Es; [|done].
  injection Ea as ->. apply str_in_spec in Es.
  apply find_key_sound in Ek as [[_ ->]|(text & d & keys & -> & Ht & -> & Hk & jwk & Hin & Hkid & Hkey)].
  { destruct (Hclient token [a] (v_issuer v) (v_audience v)) as [e He]. congruence. }
  exists a, text, d, keys, jwk, key, p. by split_and!.
Qed.

(** A fetched key set is cached: until its time to live has passed, verification uses it
    without another fetch and without a change of state. *)
Theorem jwks_cache_exact now now' v jwks :
  fetch (jwks_url v) = Ok jwks -> jwks_url v <> "" -> json_true jwks = true -> cache_fresh now v = false ->
  let '(got, v1) := get_jwks now v in
  got = Some jwks /\
  (f_lt (f_sub now' now) (f_of_Z (cache_ttl v)) = true -> get_jwks now' v1 = (Some jwks, v1)) /\
  jwks_cache v1 = jwks.
Proof.
  intros Hf Hu Hj Hc. unfold get_jwks at 1. rewrite Hc, (proj2 (str_true_spec _) Hu), Hf. cbn [negb].
  split_and!; [done| |done]. intros Hlt. unfold get_jwks, cache_fresh. cbn [set_cache jwks_cache jwks_last_fetch cache_ttl].
  by rewrite Hj, Hlt.
Qed.

(** When the endpoint fails, the old keys stay trusted, however long ago they were fetched. *)
Lemma stale_keys_stay_trusted now v e :
  fetch (jwks_url v) = Raise e -> json_true (jwks_cache v) = true -> jwks_url v <> "" ->
  get_jwks now v = (Some (jwks_cache v), v).
Proof.
  intros Hf Hj Hu. unfold get_jwks. destruct (cache_fresh now v); [done|].
  by rewrite (proj2 (str_true_spec _) Hu), Hf, Hj.
Qed.

(** Building a context is not fail-closed: a verified token whose roles are null makes it
    raise instead of refusing, after [verify] accepted the token. *)
Theorem null_roles_raise now token request v c v' :
  verify now token v = (Some c, v') -> cl_roles c = JNull ->
  build_context_from_token now token request v = (Raise (TypeError "'NoneType' object is not iterable"), v').
Proof. unfold build_context_from_token. intros -> H. unfold claims_to_context. by rewrite H. Qed.
End oidc.

(** ** Witnesses *)

Definition demo_header (token : string) : result (option string * json) := Ok (Some "k1", JStr "RS256").
Definition demo_client_key (kid : string) : result string := Raise (AttributeError "jwk_set_cache").
Definition demo_pyjwk (jwk : json) : result string := Ok "public-key".
Definition demo_decode (token key : string) (algs : list string) (iss aud : string) : result dict :=
  if String.eqb key "public-key" then Ok [("sub", JStr "u1"); ("scope", JStr "read write"); ("roles", JNull)]
  else Raise (TypeError "Expecting a PEM-formatted key.").
Definition demo_fetch (url : string) : result json :=
  Ok (JObj [("keys", JArr [JObj [("kid", JStr "k0")]; JObj [("kid", JStr "k1")]])]).
Definition demo_verifier : OIDCVerifier := new_verifier "https://issuer" "bank" "https://issuer/jwks" 300.

Definition demo_verify (token : string) : option TokenClaims * OIDCVerifier :=
  verify demo_header demo_client_key "" demo_pyjwk demo_decode demo_fetch (f_of_Z 1000) token demo_verifier.

Example verify_sound_witness :
  match demo_verify "t" with
  | (Some c, _) => exists payload, demo_decode "t" "public-key" ["RS256"] "https://issuer" "bank" = Ok payload
                                   /\ claims_of payload = Ok c
  | (None, _) => False
  end.
Proof.
  destruct (demo_verify "t") as [[c|] v'] eqn:E; [|vm_compute in E; discriminate E].
  destruct (verify_sound demo_header demo_client_key "" demo_pyjwk demo_decode demo_fetch
              ltac:(by intros kid; eexists) (f_of_Z 1000) "t" demo_verifier c v' E ltac:(by intros; eexists))
    as (_ & _ & a & kid & d & keys & jwk & key & payload & Hh & _ & _ & _ & _ & _ & _ & Hk & Hd & Hc).
  injection Hh as <- <-. injection Hk as <-. exists payload. by split.
Defined.

Example jwks_cache_exact_witness :
  let '(got, v1) := get_jwks demo_fetch (f_of_Z 1000) demo_verifier in
  got = Some (JObj [("keys", JArr [JObj [("kid", JStr "k0")]; JObj [("kid", JStr "k1")]])]) /\
  (f_lt (f_sub (f_of_Z 1200) (f_of_Z 1000)) (f_of_Z 300) = true ->
   get_jwks demo_fetch (f_of_Z 1200) v1 = (got, v1)) /\
  jwks_cache v1 = JObj [("keys", JArr [JObj [("kid", JStr "k0")]; JObj [("kid", JStr "k1")]])].
Proof.
  pose proof (jwks_cache_exact demo_fetch (f_of_Z 1000) (f_of_Z 1200) demo_verifier _ eq_refl ltac:(done) eq_refl ltac:(reflexivity)) as H.
  destruct (get_jwks demo_fetch (f_of_Z 1000) demo_verifier) as [got v1]. destruct H as (-> & H & Hc). by split_and!.
Defined.

Example null_roles_raise_witness :
  fst (build_context_from_token demo_header demo_client_key "" demo_pyjwk demo_decode demo_fetch (f_of_Z 1000) "t" "r1"
         demo_verifier) = Raise (TypeError "'NoneType' object is not iterable").
Proof.
  destruct (demo_verify "t") as [[c|] v'] eqn:E; [|vm_compute in E; discriminate E].
  rewrite (null_roles_raise demo_header demo_client_key "" demo_pyjwk demo_decode demo_fetch _ _ "r1" _ c v' E); [done|].
  vm_compute in E. by injection E as <- _.
Defined.
