(* ===== verification/Reliability.v ===== *)
(** Reliability: the circuit breaker ([reliability.py]), the shutdown of the application's
    resources ([lifecycle.py]), the write kill switch and drift alerts ([agentops.py]). *)
From S2P Require Import Prelude PyStr PyFloat.

(** ** Circuit breaker *)

Inductive CircuitState : Type := CLOSED | OPEN | HALF_OPEN.

#[export] Instance circuit_state_eq_dec : EqDecision CircuitState.
Proof. solve_decision. Defined.

Record CircuitBreaker : Type := {
  cb_name : string;
  failure_threshold : Z;
  recovery_timeout_seconds : f64;
  state : CircuitState;
  failure_count : Z;
  last_failure_time : f64;
}.

Definition new_breaker (name : string) (threshold : Z) (timeout : f64) : CircuitBreaker :=
  {| cb_name := name; failure_threshold := threshold; recovery_timeout_seconds := timeout;
     state := CLOSED; failure_count := 0; last_failure_time := f_zero |}.

Definition set_breaker (b : CircuitBreaker) (st : CircuitState) (n : Z) (last : f64) : CircuitBreaker :=
  {| cb_name := cb_name b; failure_threshold := failure_threshold b;
     recovery_timeout_seconds := recovery_timeout_seconds b; state := st; failure_count := n;
     last_failure_time := last |}.

Definition record_success (b : CircuitBreaker) : CircuitBreaker :=
  match state b with
  | HALF_OPEN => set_breaker b CLOSED 0 (last_failure_time b)
  | CLOSED => set_breaker b CLOSED 0 (last_failure_time b)
  | OPEN => b
  end.

Definition record_failure (now : f64) (b : CircuitBreaker) : CircuitBreaker :=
  let n := failure_count b + 1 in
  set_breaker b (if n >=? failure_threshold b then OPEN else state b) n now.

(** Has the recovery timeout passed since the last failure? *)
Definition recovered (now : f64) (b : CircuitBreaker) : bool :=
  f_gt (f_sub now (last_failure_time b)) (recovery_timeout_seconds b).

Definition allow_request (now : f64) (b : CircuitBreaker) : bool * CircuitBreaker :=
  match state b with
  | CLOSED => (true, b)
  | OPEN =>
      if recovered now b then (true, set_breaker b HALF_OPEN (failure_count b) (last_failure_time b)) else (false, b)
  | HALF_OPEN => (true, b)
  end.

Inductive breaker_step : CircuitBreaker -> CircuitBreaker -> Prop :=
  | StepSuccess b : breaker_step b (record_success b)
  | StepFailure now b : breaker_step b (record_failure now b)
  | StepAllow now b : breaker_step b (snd (allow_request now b)).

(** The failures of [times], in order, with no success between them. *)
Definition failures (times : list f64) (b : CircuitBreaker) : CircuitBreaker :=
  fold_left (fun b now => record_failure now b) times b.

(** Requests made one after the other. *)
Fixpoint requests (times : list f64) (b : CircuitBreaker) : list bool * CircuitBreaker :=
  match times with
  | [] => ([], b)
  | now :: times' =>
      let '(ok, b1) := allow_request now b in
      let '(oks, b2) := requests times' b1 in
      (ok :: oks, b2)
  end.

(** ** Shutdown *)

(** A resource a slot holds, and whether it has the closing method. *)
Record Resource : Type := { res_name : string; res_closable : bool }.

Record ApplicationResources : Type := {
  hitl_store : option Resource;
  grant_repo : option Resource;
  idempotency_store : option Resource;
  event_store : option Resource;
  llm_provider : option Resource;
  mcp_client : option Resource;
  closed : bool;
}.

(** How closing ends: done, with an [Exception], which is logged, or with a cancellation of
    the task, which no handler here catches. *)
Inductive closing : Type := Closed | ClosingFailed | ClosingCancelled.

Definition slots (r : ApplicationResources) : list (option Resource) :=
  [hitl_store r; grant_repo r; idempotency_store r; event_store r; llm_provider r; mcp_client r].

(** Did the loop reach its end, and what it tried to close. *)
Fixpoint close_each (env : string -> closing) (l : list (option Resource)) : bool * list string :=
  match l with
  | [] => (true, [])
  | Some x :: l' =>
      if res_closable x then
        match env (res_name x) with
        | ClosingCancelled => (false, [res_name x])
        | _ => let '(done, tried) := close_each env l' in (done, res_name x :: tried)
        end
      else close_each env l'
  | None :: l' => close_each env l'
  end.

Definition set_closed (r : ApplicationResources) : ApplicationResources :=
  {| hitl_store := hitl_store r; grant_repo := grant_repo r; idempotency_store := idempotency_store r;
     event_store := event_store r; llm_provider := llm_provider r; mcp_client := mcp_client r; closed := true |}.

(** [ApplicationResources.close]: did it return, what it tried to close, the new state.
    The flag is set before the first suspension, so overlapping calls are calls in
    sequence. *)
Definition close (env : string -> closing) (r : ApplicationResources) : bool * list string * ApplicationResources :=
  if closed r then (true, [], r) else (close_each env (slots r), set_closed r).

(** Everything tried over a sequence of calls. *)
Fixpoint closes (envs : list (string -> closing)) (r : ApplicationResources) : list string :=
  match envs with
  | [] => []
  | env :: envs' => let '(_, tried, r') := close env r in tried ++ closes envs' r'
  end.

(** The resources that can be closed, in order. *)
Definition owned (r : ApplicationResources) : list string :=
  map res_name (List.filter res_closable (omap id (slots r))).

(** ** Kill switch and drift *)

Record WriteKillSwitch : Type := { active : bool; activated_at : string; reason : string }.

Definition new_switch : WriteKillSwitch := {| active := false; activated_at := ""; reason := "" |}.

Definition is_active (s : WriteKillSwitch) : bool := active s.

Definition activate (now why : string) (s : WriteKillSwitch) : WriteKillSwitch :=
  {| active := true; activated_at := now; reason := why |}.

Definition deactivate (s : WriteKillSwitch) : WriteKillSwitch :=
  {| active := false; activated_at := activated_at s; reason := "" |}.

Definition check (tool_name : string) (side_effect : bool) (s : WriteKillSwitch) : bool :=
  if negb (active s) then true
  else if negb side_effect then true
  else false.

Record DriftThreshold : Type := {
  metric_name : string;
  warning_threshold : f64;
  critical_threshold : f64;
  current_baseline : f64;
  current_value : f64;
}.

Definition deviation (d : DriftThreshold) : f64 :=
  if f_eq (current_baseline d) f_zero then f_zero
  else f_div (f_abs (f_sub (current_value d) (current_baseline d))) (current_baseline d).

Definition status (d : DriftThreshold) : string :=
  if f_ge (deviation d) (critical_threshold d) then "critical"
  else if f_ge (deviation d) (warning_threshold d) then "warning"
  else "ok".

(** ** Lemmas *)

(** Case analysis on the comparisons of counts. *)
Ltac count_cases := repeat case_match; rewrite ?Z.geb_leb in *; bool_hyps; (done || lia).

Lemma failures_spec times b :
  failure_threshold (failures times b) = failure_threshold b /\
  recovery_timeout_seconds (failures times b) = recovery_timeout_seconds b /\
  failure_count (failures times b) = failure_count b + Z.of_nat (length times) /\
  last_failure_time (failures times b) = default (last_failure_time b) (last times) /\
  (state b = CLOSED -> failure_count b < failure_threshold b ->
   state (failures times b) = if failure_count b + Z.of_nat (length times) >=? failure_threshold b then OPEN else CLOSED).
Proof.
  induction times as [|t times IH] using rev_ind.
  - cbn. rewrite Z.add_0_r. split_and!; [done..|]. intros -> ?. count_cases.
  - unfold failures in *. rewrite fold_left_app, last_snoc, length_app. cbn [fold_left length default].
    destruct IH as (Ht & Hr & Hc & _ & Hs). set (b' := fold_left _ times b) in *. unfold record_failure, set_breaker.
    cbn [failure_threshold recovery_timeout_seconds failure_count last_failure_time state].
    rewrite Ht, Hr, Hc. split_and!; [done|done|lia|done|]. intros Hst Hlt. rewrite Hs by done.
    count_cases.
Qed.

Definition breaker_ok (b : CircuitBreaker) : Prop :=
  0 < failure_threshold b /\ 0 <= failure_count b /\
  (state b = CLOSED <-> failure_count b < failure_threshold b).

Lemma breaker_step_ok b b' : breaker_ok b -> breaker_step b b' -> breaker_ok b'.
Proof.
  intros (Ht & Hc & Hs) Hstep. inversion Hstep; subst.
  - unfold record_success, breaker_ok. destruct (state b) eqn:E; cbn; [split_and!; [done|lia|]|by rewrite E|split_and!; [done|lia|]];
      split; (done || lia).
  - unfold record_failure, breaker_ok. cbn. split_and!; [done|lia|]. destruct (Z.geb_spec (failure_count b + 1) (failure_threshold b)); [split; [done|lia]|]. rewrite Hs. lia.
  - unfold allow_request, breaker_ok. destruct (state b) eqn:E; cbn; [by rewrite E| |by rewrite E].
    destruct (recovered now b); cbn; [|by rewrite E]. split_and!; [done..|]. rewrite <-Hs. done.
Qed.

Lemma close_each_prefix env l :
  let '(done, tried) := close_each env l in
  let all := map res_name (List.filter res_closable (omap id l)) in
  tried `prefix_of` all /\ ((forall n, env n <> ClosingCancelled) -> done = true /\ tried = all).
Proof.
  induction l as [|[x|] l IH]; cbn; [split; [by exists []|done]| |done].
  destruct (close_each env l) as [d tried]. destruct (res_closable x) eqn:E; cbn; [|done].
  destruct IH as [Hp Hd]. destruct (env (res_name x)) eqn:Ex; cbn.
  1-2: split; [by apply prefix_cons|]; intros Hn; destruct (Hd Hn) as [-> ->]; done.
  split; [by eexists|]. intros Hn. by destruct (Hn (res_name x)).
Qed.

Lemma closes_closed envs r : closed r = true -> closes envs r = [].
Proof. intros H. induction envs as [|env envs IH]; [done|]. cbn. unfold close. by rewrite H, IH. Qed.

(** ** Properties *)

(** In every state a breaker can reach, it is closed exactly when fewer failures than its
    threshold are counted, so only a breaker that has counted that many ever rejects, and it
    rejects only while the recovery timeout since the last failure has not passed. *)
Theorem breaker_invariant name threshold timeout b now :
  0 < threshold -> reach breaker_step (new_breaker name threshold timeout) b ->
  (state b = CLOSED <-> failure_count b < failure_threshold b) /\
  (fst (allow_request now b) = false -> failure_threshold b <= failure_count b /\ recovered now b = false).
Proof.
  intros Ht Hr.
  assert (Hok : breaker_ok b).
  { refine (reach_invariant breaker_step breaker_ok breaker_step_ok _ b _ Hr). unfold breaker_ok. cbn. split_and!; [done|lia|done]. }
  destruct Hok as (_ & _ & Hs). split; [done|]. unfold allow_request.
  destruct (state b) eqn:E; [done| |done]. destruct (recovered now b); [done|]. intros _. split; [|done].
  destruct (decide (failure_count b < failure_threshold b)) as [Hlt|]; [|lia]. by apply Hs in Hlt.
Qed.

(** C33: A breaker trips and recovers: from a closed breaker with no failures counted, it
    stays closed through fewer consecutive failures than its threshold and is open after
    that many; an open one rejects every request, unchanged, until the timeout since the
    last failure has passed; the first request after that is admitted; then a success
    closes it with its count reset, and a failure opens it again from that failure. *)
Theorem breaker_trips_and_recovers b times :
  state b = CLOSED -> failure_count b = 0 -> 0 < failure_threshold b ->
  let tripped := failures times b in
  (Z.of_nat (length times) < failure_threshold b -> state tripped = CLOSED) /\
  (failure_threshold b <= Z.of_nat (length times) ->
   state tripped = OPEN /\
   (forall waits, Forall (fun now => recovered now tripped = false) waits ->
      requests waits tripped = (map (fun _ => false) waits, tripped)) /\
   (forall now, recovered now tripped = true ->
      let '(ok, probing) := allow_request now tripped in
      ok = true /\
      state (record_success probing) = CLOSED /\ failure_count (record_success probing) = 0 /\
      (forall t, state (record_failure t probing) = OPEN /\ last_failure_time (record_failure t probing) = t))).
Proof.
  intros Hs Hc Ht tripped. destruct (failures_spec times b) as (Hth & Hto & Hn & Hl & Hst).
  specialize (Hst Hs ltac:(lia)). rewrite Hc in Hst, Hn. subst tripped. split.
  { intros Hlt. rewrite Hst. count_cases. }
  intros Hge. assert (Ho : state (failures times b) = OPEN) by (rewrite Hst; count_cases).
  split_and!; [done| |].
  - intros waits Hw. induction Hw as [|now waits Hnow _ IH]; [done|]. cbn. unfold allow_request at 1. rewrite Ho, Hnow.
    by rewrite IH.
  - intros now Hnow. unfold allow_request. rewrite Ho, Hnow. split_and!; [done..|]. intros t. cbn.
    rewrite Hn, Hth. count_cases.
Qed.

(** A half-open breaker admits any number of requests, not one probe. *)
Lemma half_open_admits_all b times :
  state b = HALF_OPEN -> requests times b = (map (fun _ => true) times, b).
Proof. intros H. induction times as [|t times IH]; [done|]. cbn. unfold allow_request at 1. by rewrite H, IH. Qed.

(** However often shutdown is called and however closing ends each time, each resource
    is tried at most once, in order; and unless the first call is cancelled, that call
    tries every one of them, whichever fail. *)
Theorem shutdown_closes_each_once r env envs :
  closed r = false ->
  closes (env :: envs) r `prefix_of` owned r /\
  closes (env :: envs) r = closes [env] r /\
  ((forall n, env n <> ClosingCancelled) -> fst (fst (close env r)) = true /\ closes (env :: envs) r = owned r).
Proof.
  intros Hr. cbn. unfold close. rewrite Hr. pose proof (close_each_prefix env (slots r)) as H.
  destruct (close_each env (slots r)) as [d tried]. destruct H as [Hp Hd].
  rewrite closes_closed by done. rewrite List.app_nil_r. split_and!; [done..|]. intros Hn. by apply Hd.
Qed.

(** A shutdown cancelled while it closes a resource never closes the ones after it. *)
Lemma cancelled_shutdown_leaks r env envs x y l :
  closed r = false -> owned r = x :: y :: l -> env x = ClosingCancelled -> closes (env :: envs) r = [x].
Proof.
  intros Hr Ho Hx.
  assert (H : forall s, map res_name (List.filter res_closable (omap id s)) = x :: y :: l -> close_each env s = (false, [x])).
  { induction s as [|[z|] s IH]; cbn; [done| |done]. destruct (res_closable z); [|done]. cbn. intros [= -> _]. by rewrite Hx. }
  cbn. unfold close. rewrite Hr, (H _ Ho). by rewrite closes_closed.
Qed.

(** With the switch on, exactly the calls without side effects are allowed. *)
Lemma kill_switch_blocks_writes s now why tool side_effect :
  check tool side_effect (activate now why s) = negb side_effect /\
  check tool side_effect (deactivate (activate now why s)) = true.
Proof. by destruct side_effect. Qed.

(** Against a baseline of zero, and against a negative one, no drift is reported. *)
Lemma drift_zero_baseline d :
  f_eq (current_baseline d) f_zero = true -> deviation d = f_zero.
Proof. unfold deviation. by intros ->. Qed.

Example drift_negative_baseline :
  status {| metric_name := "m"; warning_threshold := dec_to_f64 1 (-1); critical_threshold := dec_to_f64 25 (-2);
            current_baseline := f_of_Z (-1); current_value := f_of_Z 100 |} = "ok".
Proof. vm_compute. reflexivity. Qed.

(** ** Witnesses *)

Definition witness_breaker : CircuitBreaker := new_breaker "llm" 2 (f_of_Z 30).

Example breaker_invariant_witness :
  let b := failures [f_of_Z 1; f_of_Z 2] witness_breaker in
  (state b = CLOSED <-> failure_count b < failure_threshold b) /\
  (fst (allow_request (f_of_Z 5) b) = false ->
   failure_threshold b <= failure_count b /\ recovered (f_of_Z 5) b = false).
Proof.
  intros b. apply (breaker_invariant "llm" 2 (f_of_Z 30)); [lia|].
  eapply reach_trans; apply reach_one; [apply (StepFailure (f_of_Z 1))|apply (StepFailure (f_of_Z 2))].
Defined.

Example breaker_trips_and_recovers_witness :
  let b := failures [f_of_Z 1; f_of_Z 2] witness_breaker in
  state b = OPEN /\ requests [f_of_Z 3; f_of_Z 30] b = ([false; false], b) /\
  state (record_success (snd (allow_request (f_of_Z 40) b))) = CLOSED.
Proof.
  intros b.
  destruct (breaker_trips_and_recovers witness_breaker [f_of_Z 1; f_of_Z 2] eq_refl eq_refl ltac:(cbn; lia)) as [_ H].
  destruct (H ltac:(cbn; lia)) as (Ho & Hw & Hr). split; [exact Ho|]. split.
  - apply (Hw [f_of_Z 3; f_of_Z 30]). constructor; [vm_compute; reflexivity|].
    constructor; [vm_compute; reflexivity|constructor].
  - specialize (Hr (f_of_Z 40) ltac:(vm_compute; reflexivity)). fold b in Hr.
    destruct (allow_request (f_of_Z 40) b) as [ok probing]. apply Hr.
Defined.

Definition witness_resources : ApplicationResources :=
  {| hitl_store := Some {| res_name := "hitl"; res_closable := true |};
     grant_repo := None; idempotency_store := None;
     event_store := Some {| res_name := "events"; res_closable := true |};
     llm_provider := Some {| res_name := "llm"; res_closable := false |};
     mcp_client := Some {| res_name := "mcp"; res_closable := true |}; closed := false |}.

Example shutdown_closes_each_once_witness :
  let env _ := ClosingFailed in
  closes [env; env] witness_resources `prefix_of` owned witness_resources /\
  closes [env; env] witness_resources = closes [env] witness_resources /\
  ((forall n : string, env n <> ClosingCancelled) ->
   fst (fst (close env witness_resources)) = true /\ closes [env; env] witness_resources = owned witness_resources).
Proof. intros env. apply (shutdown_closes_each_once witness_resources env [env]). reflexivity. Defined.
