(* ===== verification/Connections.v ===== *)
(** Database connections and who closes them ([db.py], the handles of the SQLite stores,
    [lifecycle.py], the opening phase of [bootstrap.py]).

    A connection is a number, fresh when it is opened.  Each store keeps one handle; all but
    the event store open it on first use, through [db.py], which keeps a list of every
    connection it opened.  The event store has a [connect] of its own, which [bootstrap.py]
    calls, and raises when it is used without.  The sequential functions run a call to its end;
    [calls_step] interleaves the calls at their awaits, where another call may find the handle
    still empty; [connect] is not among them.  Whether a connection can be
    opened, its database initialized, and a connection closed are arguments.

    A connection is live until the program closes it.  What becomes of one it has dropped is the
    driver's affair: those on the list of [db.py] stay open; one of the event store's stays open
    with aiosqlite up to 0.21, and is finalised with a warning from 0.22 on. *)
From S2P Require Import Prelude PyStr Sql Migrations Reliability.

(** ** State *)

Inductive StoreName : Type := HitlConn | GrantConn | IdempotencyConn | CheckpointConn | EventConn.

#[export] Instance store_name_eq_dec : EqDecision StoreName.
Proof. solve_decision. Defined.

(** How many connections were ever opened, those the program has not closed,
    [_open_connections], and the handle [_conn] of each store. *)
Record Connections : Type := {
  opened : nat;
  live : gset nat;
  open_connections : list nat;
  handle : StoreName -> option nat;
}.

Definition no_connections : Connections :=
  {| opened := 0; live := ∅; open_connections := []; handle := fun _ => None |}.

(** [aiosqlite.connect]: a fresh connection. *)
Definition db_connect (s : Connections) : nat * Connections :=
  (opened s, {| opened := S (opened s); live := {[opened s]} ∪ live s; open_connections := open_connections s;
                handle := handle s |}).

Definition conn_close (c : nat) (s : Connections) : Connections :=
  {| opened := opened s; live := live s ∖ {[c]}; open_connections := open_connections s; handle := handle s |}.

Definition track (c : nat) (s : Connections) : Connections :=
  {| opened := opened s; live := live s; open_connections := open_connections s ++ [c]; handle := handle s |}.

Definition set_handle (st : StoreName) (h : option nat) (s : Connections) : Connections :=
  {| opened := opened s; live := live s; open_connections := open_connections s;
     handle := fun st' => if decide (st' = st) then h else handle s st' |}.

(** ** Opening *)

(** How opening a database ends: no connection, a connection whose initialization fails, or
    one that is ready. *)
Inductive Opening : Type := ConnectFails (e : exn) | InitFails (e : exn) | Initialized.

(** For a database file that can be opened, the migrations decide. *)
Definition opening_of (file : result Db) : Opening :=
  match file with
  | Raise e => ConnectFails e
  | Ok db => match fst (start db) with Ok _ => Initialized | Raise e => InitFails e end
  end.

(** [init_database]: a connection whose initialization fails is closed, and stays on the list. *)
Definition init_connection (o : Opening) (s : Connections) : result nat * Connections :=
  match o with
  | ConnectFails e => (Raise e, s)
  | InitFails e => let '(c, s1) := db_connect s in (Raise e, conn_close c (track c s1))
  | Initialized => let '(c, s1) := db_connect s in (Ok c, track c s1)
  end.

(** [_ensure_connected] and [_ensure_db]. *)
Definition ensure_connected (st : StoreName) (o : Opening) (s : Connections) : result nat * Connections :=
  match handle s st with
  | Some c => (Ok c, s)
  | None =>
      let '(r, s1) := init_connection o s in
      match r with Ok c => (Ok c, set_handle st (Some c) s1) | Raise e => (Raise e, s1) end
  end.

(** [SqliteEventStore.connect]: the handle is set before the schema script runs, whatever it
    was, and [db.py] does not know the connection. *)
Definition event_connect (o : Opening) (s : Connections) : result unit * Connections :=
  match o with
  | ConnectFails e => (Raise e, s)
  | InitFails e => let '(c, s1) := db_connect s in (Raise e, set_handle EventConn (Some c) s1)
  | Initialized => let '(c, s1) := db_connect s in (Ok tt, set_handle EventConn (Some c) s1)
  end.

(** ** Closing *)

(** A store's [close]: when closing the connection raises, the handle is kept. *)
Definition close_store (closes : bool) (st : StoreName) (s : Connections) : Connections :=
  match handle s st with
  | None => s
  | Some c => if closes then set_handle st None (conn_close c s) else s
  end.

Definition close_all_connections (closes : nat -> bool) (s : Connections) : Connections :=
  let s1 := fold_left (fun s c => if closes c then conn_close c s else s) (open_connections s) s in
  {| opened := opened s1; live := live s1; open_connections := []; handle := handle s1 |}.

(** The stores [ApplicationResources] owns, in the order [close] takes them. *)
Definition owned_stores : list StoreName := [HitlConn; GrantConn; IdempotencyConn; EventConn].

Definition shutdown (closes : StoreName -> bool) (s : Connections) : Connections :=
  fold_left (fun s st => close_store (closes st) st s) owned_stores s.

(** ** One call after the other *)

Inductive Use : Type :=
  | UseStore (st : StoreName) (o : Opening)
  | ConnectEvents (o : Opening)
  | CloseStore (st : StoreName) (closes : bool).

(** The connection a call of a store works on. *)
Definition store_conn (st : StoreName) (o : Opening) (s : Connections) : result nat * Connections :=
  match st with
  | EventConn =>
      (match handle s EventConn with
       | Some c => Ok c
       | None => Raise (RuntimeError "SqliteEventStore not connected")
       end, s)
  | _ => ensure_connected st o s
  end.

Definition use (u : Use) (s : Connections) : Connections :=
  match u with
  | UseStore st o => snd (store_conn st o s)
  | ConnectEvents o => snd (event_connect o s)
  | CloseStore st closes => close_store closes st s
  end.

Definition uses (us : list Use) (s : Connections) : Connections := fold_left (fun s u => use u s) us s.

(** The event store's connections that a later [connect] put another one in the place of. *)
Fixpoint replaced (us : list Use) (s : Connections) : gset nat :=
  match us with
  | [] => ∅
  | u :: us' =>
      match u, handle s EventConn with
      | ConnectEvents (InitFails _ | Initialized), Some c => {[c]}
      | _, _ => ∅
      end ∪ replaced us' (use u s)
  end.

(** ** Calls interleaved *)

(** Where a call is that needs a store's connection, or closes it. *)
Inductive Task : Type :=
  | Wants (st : StoreName)
  | Connecting (st : StoreName)
  | Initializing (st : StoreName) (c : nat)
  | Working (st : StoreName) (c : nat)
  | Closing (st : StoreName)
  | Forgetting (st : StoreName)
  | Over.

(** One await of one call.  [close] forgets the handle after the await, whatever it has
    become meanwhile. *)
Inductive task_step : Task -> Connections -> Task -> Connections -> Prop :=
  | FindsHandle st c s : handle s st = Some c -> task_step (Wants st) s (Working st c) s
  | FindsNone st s : handle s st = None -> st <> EventConn -> task_step (Wants st) s (Connecting st) s
  | NotConnected s : handle s EventConn = None -> task_step (Wants EventConn) s Over s
  | CannotConnect st s : task_step (Connecting st) s Over s
  | Connects st s : task_step (Connecting st) s (Initializing st (opened s)) (track (opened s) (snd (db_connect s)))
  | CannotInitialize st c s : task_step (Initializing st c) s Over (conn_close c s)
  | SetsHandle st c s : task_step (Initializing st c) s (Working st c) (set_handle st (Some c) s)
  | Finishes st c s : task_step (Working st c) s Over s
  | NothingToClose st s : handle s st = None -> task_step (Closing st) s Over s
  | CannotClose st c s : handle s st = Some c -> task_step (Closing st) s Over s
  | Closes st c s : handle s st = Some c -> task_step (Closing st) s (Forgetting st) (conn_close c s)
  | Forgets st s : task_step (Forgetting st) s Over (set_handle st None s).

(** Calls arrive at any time. *)
Definition calls_step : list Task * Connections -> list Task * Connections -> Prop :=
  interleave task_step (fun t => exists st, t = Wants st \/ t = Closing st).

(** ** The opening phase of [bootstrap_app] *)

(** The steps that can raise after the checks. *)
Inductive BootStep : Type := MakeProvider | ConnectMcp | MakeExecutor | MakeRegistry | MakeApp.

Definition boot_resource (name : string) : option Resource := Some {| res_name := name; res_closable := true |}.

Definition no_resources : ApplicationResources :=
  {| hitl_store := None; grant_repo := None; idempotency_store := None; event_store := None; llm_provider := None;
     mcp_client := None; closed := false |}.

Definition with_llm (r : ApplicationResources) : ApplicationResources :=
  {| hitl_store := hitl_store r; grant_repo := grant_repo r; idempotency_store := idempotency_store r;
     event_store := event_store r; llm_provider := boot_resource "llm"; mcp_client := mcp_client r; closed := closed r |}.

Definition with_mcp (r : ApplicationResources) : ApplicationResources :=
  {| hitl_store := hitl_store r; grant_repo := grant_repo r; idempotency_store := idempotency_store r;
     event_store := event_store r; llm_provider := llm_provider r; mcp_client := boot_resource "mcp"; closed := closed r |}.

Definition with_stores (r : ApplicationResources) : ApplicationResources :=
  {| hitl_store := boot_resource "hitl"; grant_repo := boot_resource "grants";
     idempotency_store := boot_resource "idempotency"; event_store := boot_resource "events";
     llm_provider := llm_provider r; mcp_client := mcp_client r; closed := closed r |}.

(** Each resource is registered before the call that can fail on it; the stores open
    nothing when they are made. *)
Definition open_resources (durable : bool) (fails : BootStep -> option exn) (events : Opening)
    : result unit * (ApplicationResources * Connections) :=
  let step (b : BootStep) (st : ApplicationResources * Connections)
      (next : result unit * (ApplicationResources * Connections)) :=
    match fails b with Some e => (Raise e, st) | None => next end in
  let s0 := (no_resources, no_connections) in
  step MakeProvider s0
    (let r := with_mcp (with_llm no_resources) in
     step ConnectMcp (r, no_connections)
       (let '(opened_events, st) :=
          if durable then let '(o, s) := event_connect events no_connections in (o, (with_stores r, s))
          else (Ok tt, (r, no_connections)) in
        match opened_events with
        | Raise e => (Raise e, st)
        | Ok _ => step MakeExecutor st (step MakeRegistry st (step MakeApp st (Ok tt, st)))
        end)).

(** On any exception the resources are closed and the exception goes on. *)
Definition bootstrap_resources (env : string -> closing) (durable : bool) (fails : BootStep -> option exn) (events : Opening)
    : result unit * list string * (ApplicationResources * Connections) :=
  let '(r, (res, s)) := open_resources durable fails events in
  match r with
  | Ok _ => (Ok tt, [], (res, s))
  | Raise e =>
      let '(_, tried, res') := close env res in
      (Raise e, tried, (res', shutdown (fun _ => true) s))
  end.

(** ** Lemmas: one call after the other *)

(** Exactly the connections some handle holds are open, each held once, and the lost ones. *)
Record accounted (lost : gset nat) (s : Connections) : Prop := {
  acc_live : forall c, c ∈ live s <-> c ∈ lost \/ exists st, handle s st = Some c;
  acc_below : forall st c, handle s st = Some c -> (c < opened s)%nat;
  acc_lost : forall c, c ∈ lost -> (c < opened s)%nat /\ forall st, handle s st <> Some c;
  acc_once : forall st st' c, handle s st = Some c -> handle s st' = Some c -> st = st';
}.

Lemma accounted_empty : accounted ∅ no_connections.
Proof. split; cbn; [|done|set_solver|done]. intros c. split; [set_solver|]. intros [|[? ?]]; [set_solver|done]. Qed.

(** What is open is older than what is opened next. *)
Lemma live_below lost s c : accounted lost s -> c ∈ live s -> (c < opened s)%nat.
Proof. intros Ha [[? _]%(acc_lost _ _ Ha)|[st ?%(acc_below _ _ Ha)]]%(acc_live _ _ Ha); done. Qed.

(** What a handle held, when it is set to another connection. *)
Definition held (st : StoreName) (s : Connections) : gset nat :=
  match handle s st with Some c => {[c]} | None => ∅ end.

Lemma elem_of_held st s c : c ∈ held st s <-> handle s st = Some c.
Proof. unfold held. destruct (handle s st); set_solver. Qed.

(** A connection that is opened and kept in a handle: what the handle held is lost. *)
Lemma accounted_open lost st cs s :
  accounted lost s ->
  accounted (held st s ∪ lost)
    (set_handle st (Some (opened s)) {| opened := S (opened s); live := {[opened s]} ∪ live s;
                                        open_connections := cs; handle := handle s |}).
Proof.
  intros [Hl Hb Hlost Ho]. split; cbn.
  - intros c. rewrite !elem_of_union, elem_of_singleton, Hl, elem_of_held. split.
    + intros [-> | [H|[st' H]]]; [right; exists st; by rewrite decide_True|tauto|].
      destruct (decide (st' = st)) as [->|]; [tauto|]. right. exists st'. by rewrite decide_False.
    + intros [[H|H]|[st' H]]; [eauto..|]. destruct (decide (st' = st)); [left; congruence|eauto].
  - intros st' c. destruct (decide (st' = st)); [intros [= <-]; lia|]. intros H%Hb. lia.
  - intros c [H%elem_of_held|H]%elem_of_union.
    + pose proof (Hb _ _ H). split; [lia|]. intros st'. destruct (decide (st' = st)); [intros [= ?]; lia|]. intros H'.
      by specialize (Ho _ _ _ H H').
    + destruct (Hlost c H) as [? Hno]. split; [lia|]. intros st'. destruct (decide (st' = st)); [intros [= ?]; lia|apply Hno].
  - intros st1 st2 c. destruct (decide (st1 = st)), (decide (st2 = st)); subst; intros H1 H2; simplify_eq.
    + done.
    + apply Hb in H2. lia.
    + apply Hb in H1. lia.
    + eauto.
Qed.

(** A failed initialization changes only the list and the next number. *)
Lemma accounted_failed lost cs s :
  accounted lost s ->
  accounted lost {| opened := S (opened s); live := ({[opened s]} ∪ live s) ∖ {[opened s]}; open_connections := cs; handle := handle s |}.
Proof.
  intros Ha. pose proof (fun c => live_below lost s c Ha) as Hlb. destruct Ha as [Hl Hb Hlost Ho].
  split; cbn; [|intros st c H%Hb; lia|intros c [? ?]%Hlost; split; [lia|done]|done]. intros c. rewrite <-Hl.
  assert (opened s ∉ live s) by (intros H%Hlb; lia). set_solver.
Qed.

Lemma accounted_ensure lost st o s : accounted lost s -> accounted lost (snd (ensure_connected st o s)).
Proof.
  intros Ha. unfold ensure_connected. destruct (handle s st) as [c|] eqn:E; [done|].
  destruct o; [done|exact (accounted_failed lost (open_connections s ++ [opened s]) s Ha)|].
  pose proof (accounted_open lost st (open_connections s ++ [opened s]) s Ha) as H. unfold held in H. rewrite E in H.
  by rewrite (left_id_L ∅ (∪)) in H.
Qed.

(** A database the migrations refuse is closed again before the exception reaches the caller. *)
Lemma refused_database_closed lost st db e s :
  accounted lost s -> handle s st = None -> fst (start db) = Raise e ->
  fst (ensure_connected st (opening_of (Ok db)) s) = Raise e /\
  live (snd (ensure_connected st (opening_of (Ok db)) s)) = live s.
Proof.
  intros Ha Hn He. unfold ensure_connected, opening_of. rewrite Hn, He. split; [done|]. cbn.
  assert (opened s ∉ live s) by (intros H%(live_below _ _ _ Ha); lia). apply set_eq. set_solver.
Qed.

Lemma accounted_close lost closes st s : accounted lost s -> accounted lost (close_store closes st s).
Proof.
  intros [Hl Hb Hlost Ho]. unfold close_store. destruct (handle s st) as [c|] eqn:E; [|done]. destruct closes; [|done].
  split; cbn.
  - intros c'. rewrite elem_of_difference, elem_of_singleton, Hl. split.
    + intros [[H|[st' H]] Hne]; [by left|]. right. exists st'. rewrite decide_False; [done|]. intros ->. congruence.
    + intros [H|[st' H]].
      * split; [by left|]. intros ->. by destruct (Hlost c H) as [_ Hno], (Hno st).
      * destruct (decide (st' = st)); [done|]. split; [eauto|]. intros ->. by destruct n; eapply Ho.
  - intros st' c'. destruct (decide (st' = st)); [done|apply Hb].
  - intros c' [? Hno]%Hlost. split; [done|]. intros st'. destruct (decide (st' = st)); [done|apply Hno].
  - intros st1 st2 c'. destruct (decide (st1 = st)), (decide (st2 = st)); try done. apply Ho.
Qed.

Lemma accounted_event lost o s :
  accounted lost s ->
  accounted (match o with ConnectFails _ => ∅ | _ => held EventConn s end ∪ lost) (snd (event_connect o s)).
Proof.
  intros Ha. destruct o; [by rewrite (left_id_L ∅ (∪))|..]; by apply (accounted_open lost EventConn (open_connections s)).
Qed.

Lemma accounted_use lost u s : accounted lost s -> accounted (replaced [u] s ∪ lost) (use u s).
Proof.
  intros Ha. cbn [replaced]. rewrite (right_id_L ∅ (∪)). destruct u as [st o|o|st closes]; cbn [use].
  - rewrite (left_id_L ∅ (∪)). destruct st; [by apply accounted_ensure..|done].
  - pose proof (accounted_event lost o s Ha) as H. unfold held in H. by destruct o, (handle s EventConn).
  - rewrite (left_id_L ∅ (∪)). by apply accounted_close.
Qed.

Lemma accounted_uses us lost s : accounted lost s -> accounted (replaced us s ∪ lost) (uses us s).
Proof.
  revert lost s; induction us as [|u us IH]; intros lost s Ha; [by cbn; rewrite (left_id_L ∅ (∪))|].
  specialize (IH _ _ (accounted_use lost u s Ha)). unfold uses in *. cbn [fold_left]. revert IH. cbn [replaced].
  rewrite (right_id_L ∅ (∪)), (assoc_L (∪)). by rewrite (comm_L (∪) (replaced us (use u s))).
Qed.

(** Only a connect replaces. *)
Lemma no_connect_replaces us s : (forall o, ~ In (ConnectEvents o) us) -> replaced us s = ∅.
Proof.
  revert s; induction us as [|u us IH]; intros s Hno; [done|]. cbn [replaced]. rewrite IH by (intros o Hin; by apply (Hno o); right).
  destruct u; [set_solver|by destruct (Hno o); left|set_solver].
Qed.

Lemma close_store_handle st s st' :
  handle (close_store true st s) st' = if decide (st' = st) then None else handle s st'.
Proof.
  unfold close_store. destruct (handle s st) eqn:E; [done|]. destruct (decide (st' = st)) as [->|]; done.
Qed.

(** A shutdown in which every close succeeds empties the handles of the owned stores. *)
Lemma shutdown_handles s st :
  handle (shutdown (fun _ => true) s) st = match st with CheckpointConn => handle s CheckpointConn | _ => None end.
Proof. unfold shutdown. cbn [owned_stores fold_left]. rewrite !close_store_handle. by destruct st. Qed.

Lemma accounted_shutdown lost closes s : accounted lost s -> accounted lost (shutdown closes s).
Proof. intros Ha. unfold shutdown. cbn [owned_stores fold_left]. by do 4 apply accounted_close. Qed.

(** ** Lemmas: calls interleaved *)

Definition all_tracked (s : Connections) : Prop := forall c, c ∈ live s -> c ∈ open_connections s.

Lemma task_step_tracked t s t' s' : all_tracked s -> task_step t s t' s' -> all_tracked s'.
Proof. intros Ha Hs. inversion Hs; subst; unfold all_tracked in *; cbn in *; set_solver. Qed.

Lemma close_all_live s :
  live (close_all_connections (fun _ => true) s) = live s ∖ list_to_set (open_connections s).
Proof.
  unfold close_all_connections. cbn [live]. generalize (open_connections s) as cs. intros cs. revert s.
  induction cs as [|c cs IH]; intros s; cbn [fold_left list_to_set].
  - apply set_eq. set_solver.
  - rewrite IH. apply set_eq. cbn. set_solver.
Qed.

Section first_use.
Context (st : StoreName).

(** [n] connections opened for the same empty handle. *)
Fixpoint connects (n : nat) (s : Connections) : Connections :=
  match n with O => s | S n => connects n (track (opened s) (snd (db_connect s))) end.

Lemma connects_spec n s :
  handle (connects n s) = handle s /\ opened (connects n s) = (n + opened s)%nat /\
  live (connects n s) = list_to_set (seq (opened s) n) ∪ live s /\
  open_connections (connects n s) = open_connections s ++ seq (opened s) n.
Proof.
  revert s; induction n as [|n IH]; intros s; cbn [connects seq].
  - split_and!; [done|done|set_solver|by rewrite app_nil_r].
  - destruct (IH (track (opened s) (snd (db_connect s)))) as (-> & -> & -> & ->). cbn.
    split_and!; [done|lia|set_solver|by rewrite <-(assoc_L (++))].
Qed.

Lemma tasks_arrive n ts s :
  reach calls_step (ts, s) (ts ++ repeat (Wants st) n, s).
Proof.
  revert ts; induction n as [|n IH]; intros ts; cbn [repeat]; [rewrite app_nil_r; constructor|].
  eapply reach_step; [apply (task_arrives _ _ ts (Wants st)); eauto|].
  specialize (IH (ts ++ [Wants st])). by rewrite <-(assoc_L (++)) in IH.
Qed.

(** The tasks take the same kind of step one after the other. *)
Lemma tasks_find_none n ts s :
  handle s st = None -> st <> EventConn ->
  reach calls_step (ts ++ repeat (Wants st) n, s) (ts ++ repeat (Connecting st) n, s).
Proof.
  intros Hn He. revert ts; induction n as [|n IH]; intros ts; cbn [repeat]; [constructor|].
  eapply reach_trans; [apply step_in, (FindsNone st s Hn He)|].
  specialize (IH (ts ++ [Connecting st])). by rewrite <-!(assoc_L (++)) in IH.
Qed.

Lemma tasks_connect n ts s :
  reach calls_step (ts ++ repeat (Connecting st) n, s)
    (ts ++ map (Initializing st) (seq (opened s) n), connects n s).
Proof.
  revert ts s; induction n as [|n IH]; intros ts s; cbn [repeat seq map connects]; [constructor|].
  eapply reach_trans; [apply step_in, Connects|].
  specialize (IH (ts ++ [Initializing st (opened s)]) (track (opened s) (snd (db_connect s)))).
  by rewrite <-!(assoc_L (++)) in IH.
Qed.

Lemma tasks_set_handle cs ts s :
  reach calls_step (ts ++ map (Initializing st) cs, s)
    (ts ++ map (Working st) cs, fold_left (fun s c => set_handle st (Some c) s) cs s).
Proof.
  revert ts s; induction cs as [|c cs IH]; intros ts s; cbn [map fold_left]; [constructor|].
  eapply reach_trans; [apply step_in, SetsHandle|].
  specialize (IH (ts ++ [Working st c]) (set_handle st (Some c) s)). by rewrite <-!(assoc_L (++)) in IH.
Qed.

Lemma set_handles_spec cs s :
  let s' := fold_left (fun s c => set_handle st (Some c) s) cs s in
  live s' = live s /\ open_connections s' = open_connections s /\
  forall st', handle s' st' = if decide (st' = st) then match last cs with Some c => Some c | None => handle s st end
                              else handle s st'.
Proof.
  induction cs as [|c cs IH] using rev_ind; cbn zeta.
  - split_and!; [done..|]. intros st'. cbn. by destruct (decide (st' = st)) as [->|].
  - rewrite fold_left_app, last_snoc. cbn. destruct IH as (-> & -> & IH). split_and!; [done..|].
    intros st'. destruct (decide (st' = st)) as [->|]; [done|]. rewrite IH. by rewrite decide_False.
Qed.
End first_use.

Lemma close_store_live st s :
  live (close_store true st s) = live s ∖ match handle s st with Some c => {[c]} | None => ∅ end.
Proof. unfold close_store. destruct (handle s st); cbn; [done|]. apply set_eq. set_solver. Qed.

Lemma close_store_list st s : open_connections (close_store true st s) = open_connections s.
Proof. unfold close_store. by destruct (handle s st). Qed.

Lemma shutdown_one st c s :
  st ∈ owned_stores -> (forall st', handle s st' = if decide (st' = st) then Some c else None) ->
  live (shutdown (fun _ => true) s) = live s ∖ {[c]} /\
  open_connections (shutdown (fun _ => true) s) = open_connections s.
Proof.
  intros Hin Hh. unfold shutdown. cbn [owned_stores fold_left].
  rewrite !close_store_live, !close_store_list, !close_store_handle, !Hh. split; [|done].
  unfold owned_stores in Hin. rewrite !elem_of_cons, elem_of_nil in Hin.
  destruct_or? Hin; subst; try done; apply set_eq; cbn; set_solver.
Qed.

(** A close that no cancellation cuts off tries every resource. *)
Lemma close_tries_all env r :
  (forall n, env n <> ClosingCancelled) -> closed r = false -> close env r = (true, owned r, set_closed r).
Proof.
  intros Henv Hr. unfold close. rewrite Hr. pose proof (close_each_prefix env (slots r)) as H.
  destruct (close_each env (slots r)) as [d tried]. by destruct (proj2 H Henv) as [-> ->].
Qed.

(** While the resources open, none is closed, and only the event store holds a connection. *)
Lemma open_resources_spec durable fails events :
  let '(_, (res, s)) := open_resources durable fails events in
  closed res = false /\ live (shutdown (fun _ => true) s) = ∅ /\
  (forall c, c ∈ live s <-> handle s EventConn = Some c).
Proof.
  assert (Hopen : forall o, let s := snd (event_connect o no_connections) in
    live (shutdown (fun _ => true) s) = ∅ /\ (forall c, c ∈ live s <-> handle s EventConn = Some c)).
  { intros o s. pose proof (accounted_event ∅ o _ accounted_empty) as Ha. fold s in Ha.
    assert (Hno : match o with ConnectFails _ => ∅ | _ => held EventConn no_connections end ∪ (∅ : gset nat) = ∅) by (by destruct o).
    rewrite Hno in Ha. split.
    - apply set_eq. intros c. rewrite (acc_live _ _ (accounted_shutdown _ _ _ Ha)). setoid_rewrite shutdown_handles.
      split; [|set_solver]. intros [|[st H]]; [done|]. by destruct st, o.
    - intros c. rewrite (acc_live _ _ Ha). split; [|eauto]. intros [H|[st H]]; [set_solver|]. by destruct st, o. }
  assert (Hnone : live (shutdown (fun _ => true) no_connections) = ∅ /\
    (forall c, c ∈ live no_connections <-> handle no_connections EventConn = Some c)) by exact (Hopen (ConnectFails (RuntimeError ""))).
  unfold open_resources. destruct (fails MakeProvider); [done|]. destruct (fails ConnectMcp); [done|].
  destruct durable.
  - specialize (Hopen events). destruct (event_connect events no_connections) as [[u|e] s]; cbn in Hopen; [|done].
    destruct (fails MakeExecutor); [done|]. destruct (fails MakeRegistry); [done|]. by destruct (fails MakeApp).
  - destruct (fails MakeExecutor); [done|]. destruct (fails MakeRegistry); [done|]. by destruct (fails MakeApp).
Qed.

(** ** Properties *)

(** C34: Calls made one after the other lose the event connections that were replaced and
    no other: after any sequence of store calls, connects of the event store and closes, failed
    ones included, a shutdown whose closes succeed leaves unclosed exactly the checkpoint saver's
    connection, which no one owns, and the connections of the event store that a later
    [connect] of it found in its handle, which it does not close.  [bootstrap.py] connects
    it once: when no later call does, nothing but the saver's connection is left. *)
Theorem sequential_calls_leak us o us' :
  (let s := uses us no_connections in
   live (shutdown (fun _ => true) s) =
   match handle s CheckpointConn with Some c => {[c]} | None => ∅ end ∪ replaced us no_connections) /\
  ((forall o', ~ In (ConnectEvents o') us') ->
   let s := uses us' (snd (event_connect o no_connections)) in
   live (shutdown (fun _ => true) s) = match handle s CheckpointConn with Some c => {[c]} | None => ∅ end).
Proof.
  assert (Hall : forall us, let s := uses us no_connections in
    live (shutdown (fun _ => true) s) =
    match handle s CheckpointConn with Some c => {[c]} | None => ∅ end ∪ replaced us no_connections).
  { clear. intros us. cbn zeta. set (s := uses us no_connections). pose proof (accounted_uses us ∅ _ accounted_empty) as Ha. rewrite (right_id_L ∅ (∪)) in Ha.
    fold s in Ha. apply (accounted_shutdown _ (fun _ => true)) in Ha. apply set_eq. intros c.
    rewrite (acc_live _ _ Ha), elem_of_union. setoid_rewrite shutdown_handles.
    split; (intros [H|H]; [|try tauto]).
    - by right.
    - destruct H as [st H]. destruct st; try done. left. rewrite H. set_solver.
    - right. exists CheckpointConn. destruct (handle s CheckpointConn); set_solver. }
  split; [apply Hall|]. intros Hno. specialize (Hall (ConnectEvents o :: us')). unfold uses in Hall. cbn [fold_left use] in Hall.
  cbn zeta. unfold uses. rewrite Hall. cbn [replaced]. rewrite no_connect_replaces by done. destruct o; set_solver.
Qed.

(** C39: The first uses of a store lose connections when they overlap: any number of
    calls that find the handle empty before one of them has set it each open a connection,
    the handle keeps the last, and a shutdown leaves all the others open.  Only
    [close_all_connections], which nothing calls, would close them. *)
Theorem overlapping_first_uses_leak st n :
  st ∈ owned_stores -> st <> EventConn ->
  exists s,
    reach calls_step ([], no_connections)
      (map (Working st) (seq 0 (S n)), s) /\
    handle s st = Some n /\
    live (shutdown (fun _ => true) s) = list_to_set (seq 0 n) /\
    live (close_all_connections (fun _ => true) (shutdown (fun _ => true) s)) = ∅.
Proof.
  intros Hin He. set (s1 := connects (S n) no_connections).
  set (s := fold_left (fun s c => set_handle st (Some c) s) (seq 0 (S n)) s1). exists s.
  destruct (connects_spec (S n) no_connections) as (Hh & _ & Hl & Hc). fold s1 in Hh, Hl, Hc.
  destruct (set_handles_spec st (seq 0 (S n)) s1) as (Hl' & Hc' & Hh'). fold s in Hl', Hc', Hh'.
  assert (Hlast : last (seq 0 (S n)) = Some n) by (by rewrite seq_S, last_snoc). rewrite Hlast, Hh in Hh'.
  destruct (shutdown_one st n s Hin) as [Hs Ht]; [intros st'; rewrite Hh'; by destruct (decide (st' = st))|].
  split_and!.
  - eapply reach_trans; [apply (tasks_arrive st (S n) [] no_connections)|].
    eapply reach_trans; [by apply (tasks_find_none st (S n) [] no_connections)|].
    eapply reach_trans; [apply (tasks_connect st (S n) [] no_connections)|]. apply (tasks_set_handle st (seq 0 (S n)) []).
  - rewrite Hh'. by rewrite decide_True.
  - rewrite Hs, Hl', Hl. apply set_eq. intros c. cbn [live opened no_connections].
    rewrite elem_of_difference, elem_of_union, !elem_of_list_to_set, !elem_of_seq, elem_of_singleton. set_solver by lia.
  - rewrite close_all_live, Hs, Ht, Hl', Hc', Hl, Hc. apply set_eq. cbn [live opened open_connections no_connections]. set_solver.
Qed.

(** However calls and closes interleave, and whichever opens and initializations fail,
    every connection [init_database] opened stays on the list until the list is
    emptied, so [close_all_connections] closes every one that is still open. *)
Theorem every_connection_can_be_closed ts s :
  reach calls_step ([], no_connections) (ts, s) ->
  (forall c, c ∈ live s -> c ∈ open_connections s) /\ live (close_all_connections (fun _ => true) s) = ∅.
Proof.
  intros Hr. assert (Ha : all_tracked s).
  { refine (interleave_invariant task_step _ all_tracked task_step_tracked _ _ _ _ _ Hr). intros c. set_solver. }
  split; [exact Ha|]. rewrite close_all_live. apply set_eq. intros c. specialize (Ha c). set_solver.
Qed.

(** A call that runs alone does what [ensure_connected] does. *)
Lemma alone_ensures st o s :
  st <> EventConn ->
  exists t, reach calls_step ([Wants st], s) ([t], snd (ensure_connected st o s)) /\
    (t = Over \/ exists c, t = Working st c /\ handle (snd (ensure_connected st o s)) st = Some c).
Proof.
  intros He. unfold ensure_connected. destruct (handle s st) as [c|] eqn:E.
  { exists (Working st c). split; [by apply (step_in task_step _ [] _ []), FindsHandle|]. right. eauto. }
  assert (Hn : reach calls_step ([Wants st], s) ([Connecting st], s))
    by (by apply (step_in task_step _ [] _ []), FindsNone).
  destruct o; cbn.
  - exists Over. split; [|by left]. eapply reach_trans; [exact Hn|]. apply (step_in task_step _ [] _ []), CannotConnect.
  - exists Over. split; [|by left]. eapply reach_trans; [exact Hn|]. eapply reach_trans; [apply (step_in task_step _ [] _ []), Connects|].
    apply (step_in task_step _ [] _ []), CannotInitialize.
  - exists (Working st (opened s)). split.
    + eapply reach_trans; [exact Hn|]. eapply reach_trans; [apply (step_in task_step _ [] _ []), Connects|]. apply (step_in task_step _ [] _ []), SetsHandle.
    + right. exists (opened s). split; [done|]. by rewrite decide_True.
Qed.

(** A bootstrap that fails leaves nothing open: whichever step raises, everything registered
    so far is closed, once, and no connection stays open; one that succeeds has closed nothing. *)
Theorem failed_bootstrap_leaves_nothing_open env durable fails events :
  (forall n, env n <> ClosingCancelled) ->
  let '(r, tried, (res, s)) := bootstrap_resources env durable fails events in
  match r with
  | Ok _ => tried = [] /\ closed res = false /\ (forall c, c ∈ live s <-> handle s EventConn = Some c)
  | Raise e => closed res = true /\ tried = owned res /\ live s = ∅
  end.
Proof.
  intros Henv. unfold bootstrap_resources. pose proof (open_resources_spec durable fails events) as H.
  destruct (open_resources durable fails events) as [r [res s]]. destruct H as (Hc & Hs & Hl).
  destruct r as [u|e]; [done|]. by rewrite (close_tries_all env res Henv Hc).
Qed.

(** ** Witnesses *)

(** Two connects in a row lose the first connection. *)
Example sequential_calls_leak_witness :
  let s := uses [ConnectEvents Initialized; ConnectEvents Initialized; UseStore CheckpointConn Initialized;
                 UseStore EventConn Initialized] no_connections in
  let s' := uses [UseStore GrantConn Initialized] (snd (event_connect Initialized no_connections)) in
  live (shutdown (fun _ => true) s) = {[2%nat; 0%nat]} /\ live (shutdown (fun _ => true) s') = ∅.
Proof.
  destruct (sequential_calls_leak
    [ConnectEvents Initialized; ConnectEvents Initialized; UseStore CheckpointConn Initialized; UseStore EventConn Initialized]
    Initialized [UseStore GrantConn Initialized]) as [H1 H2].
  split; [cbn zeta in H1 |- *; rewrite H1; set_solver|]. cbn zeta in H2 |- *. rewrite H2; [reflexivity|].
  intros o' [H|[]]. discriminate.
Defined.

Example overlapping_first_uses_leak_witness :
  exists s,
    reach calls_step ([], no_connections) ([Working HitlConn 0; Working HitlConn 1], s) /\
    handle s HitlConn = Some 1%nat /\ live (shutdown (fun _ => true) s) = {[0%nat]} ∪ ∅ /\
    live (close_all_connections (fun _ => true) (shutdown (fun _ => true) s)) = ∅.
Proof. apply (overlapping_first_uses_leak HitlConn 1); [left|discriminate]. Defined.

Example every_connection_can_be_closed_witness :
  let s := {| opened := 1; live := {[0%nat]} ∪ ∅; open_connections := [0%nat]; handle := fun _ => None |} in
  (forall c, c ∈ live s -> c ∈ open_connections s) /\ live (close_all_connections (fun _ => true) s) = ∅.
Proof.
  intros s. apply (every_connection_can_be_closed [Initializing GrantConn 0]).
  eapply reach_step; [apply (task_arrives _ _ [] (Wants GrantConn)); exists GrantConn; left; reflexivity|].
  eapply reach_step; [apply (task_steps _ _ [] [] (Wants GrantConn)), FindsNone; [reflexivity|discriminate]|].
  eapply reach_step; [apply (task_steps _ _ [] [] (Connecting GrantConn)), Connects|]. apply reach_refl.
Defined.

Example failed_bootstrap_leaves_nothing_open_witness :
  let '(r, tried, (res, s)) :=
    bootstrap_resources (fun _ => Closed) true (fun _ => None) (InitFails (OperationalError "disk I/O error")) in
  match r with
  | Ok _ => tried = [] /\ closed res = false /\ (forall c, c ∈ live s <-> handle s EventConn = Some c)
  | Raise _ => closed res = true /\ tried = owned res /\ live s = ∅
  end.
Proof. apply (failed_bootstrap_leaves_nothing_open (fun _ => Closed)). discriminate. Defined.
