(* ===== verification/Effects.v ===== *)
(** Effectful programs over the durable stores, and their interleavings.

    The async methods of the source await one store call or one MCP call at
    a time; between two awaits other requests run.  A method is therefore a
    [prog]: a tree of store operations ([op]) with continuations.  [run] executes
    one program alone, over stores that always answer.  [pool_step] interleaves any number
    of programs, one statement at a time, with any clock reading and any MCP answer; other
    code changes the tables in between, a statement may fail, and a SELECT may be answered
    from an older state of its table.  The tables are the stores' maps; [SqlWorld] runs the
    same programs on the database, and says when a statement fails there. *)
From S2P Require Import Prelude PyStr PyFloat PyTime Json PyRepr.
From S2P Require Import HitlStore GrantRepo IdempotencyStore EventStore.

Record ToolCall : Type := { tc_name : string; tc_arguments : json }.

Record ToolResult : Type := {
  tr_tool_name : string;
  tr_success : bool;
  tr_content : string;
  tr_error : option string;
}.

(** The database file and the calls that reached the MCP server. *)
Record World : Type := {
  w_hitl : HITLTable;
  w_grants : GrantTable;
  w_idem : IdemTable;
  w_events : EventDB;
  w_calls : list ToolCall;
}.

Inductive GrantMark : Type := MConsumed | MFailed | MRejected | MReconciliationRequired | MUnknown.

Inductive IdemMark : Type :=
  | IMExecuting
  | IMSucceeded (res : string)
  | IMFailed (error : string)
  | IMUnknown.

(** One awaited operation, indexed by the type of its answer.  [OGrantClaimed] and
    [OIdemReserved] are the second statements of [OGrantConsume] and [OIdemReserve]; no program
    is written with them. *)
Inductive op : Type -> Type :=
  | ONow : op Z
  | OHitlGet (id : string) : op (result (option HITLSession))
  | OHitlInsert (s : HITLSession) : op (result unit)
  | OHitlUpdate (id : string) (st : HITLSessionStatus) (expected_version : Z) : op bool
  | OGrantInsert (g : GrantRecord) : op (result unit)
  | OGrantApprove (id actor : string) (expected_version : Z) : op bool
  | OGrantConsume (a : ConsumeArgs) : op (option GrantRecord)
  | OGrantClaimed (id : string) : op (option GrantRecord)
  | OGrantMark (m : GrantMark) (id : string) : op unit
  | OIdemGet (key : string) : op (result (option IdempotencyRecord))
  | OIdemReserve (key tool_name : string) (tool_args : json) : op (result IdempotencyRecord)
  | OIdemReserved (key : string) : op (result IdempotencyRecord)
  | OIdemMark (m : IdemMark) (key : string) : op bool
  | OEvent (run_id : string) (seq : Z) (kind : EventKind) (payload : json) : op unit
  | ODispatch (c : ToolCall) : op (result ToolResult).

(** A program ends with a value, an exception, or a pause that waits for a
    resume value. *)
Inductive prog (A : Type) : Type :=
  | Ret (a : A)
  | Throw (e : exn)
  | Pause (payload : json)
  | Op {R : Type} (o : op R) (k : R -> prog A).
Arguments Ret {A} a.
Arguments Throw {A} e.
Arguments Pause {A} payload.
Arguments Op {A R} o k.

Fixpoint bind {A B} (p : prog A) (f : A -> prog B) : prog B :=
  match p with
  | Ret a => f a
  | Throw e => Throw e
  | Pause v => Pause v
  | Op o k => Op o (fun r => bind (k r) f)
  end.

(** [try: p  except Exception as exc: h exc]; a pause is not an [Exception]. *)
Fixpoint catch {A} (p : prog A) (h : exn -> prog A) : prog A :=
  match p with
  | Ret a => Ret a
  | Throw e => h e
  | Pause v => Pause v
  | Op o k => Op o (fun r => catch (k r) h)
  end.

(** A program whose pause is answered by [h]. *)
Fixpoint on_pause {A} (p : prog A) (h : json -> prog A) : prog A :=
  match p with
  | Ret a => Ret a
  | Throw e => Throw e
  | Pause v => h v
  | Op o k => Op o (fun r => on_pause (k r) h)
  end.

Definition perform {R} (o : op R) : prog R := Op o (fun r => Ret r).

Definition lift {A} (m : result A) : prog A :=
  match m with Ok a => Ret a | Raise e => Throw e end.

(** An operation whose exception escapes. *)
Definition performE {R} (o : op (result R)) : prog R := Op o lift.

Declare Scope prog_scope.
Delimit Scope prog_scope with prog.
Notation "'do' x '<-' m ';;' k" := (bind m (fun x => k))
  (at level 200, x name, m at level 99, k at level 200, right associativity) : prog_scope.
Notation "'do_' m ';;' k" := (bind m (fun _ => k))
  (at level 200, m at level 99, k at level 200, right associativity) : prog_scope.

(** ** Executing one operation *)

Definition upd_hitl (w : World) (t : HITLTable) : World :=
  {| w_hitl := t; w_grants := w_grants w; w_idem := w_idem w; w_events := w_events w; w_calls := w_calls w |}.
Definition upd_grants (w : World) (t : GrantTable) : World :=
  {| w_hitl := w_hitl w; w_grants := t; w_idem := w_idem w; w_events := w_events w; w_calls := w_calls w |}.
Definition upd_idem (w : World) (t : IdemTable) : World :=
  {| w_hitl := w_hitl w; w_grants := w_grants w; w_idem := t; w_events := w_events w; w_calls := w_calls w |}.
Definition upd_events (w : World) (t : EventDB) : World :=
  {| w_hitl := w_hitl w; w_grants := w_grants w; w_idem := w_idem w; w_events := t; w_calls := w_calls w |}.
Definition add_call (w : World) (c : ToolCall) : World :=
  {| w_hitl := w_hitl w; w_grants := w_grants w; w_idem := w_idem w; w_events := w_events w;
     w_calls := w_calls w ++ [c] |}.

Definition apply_grant_mark (now : Z) (m : GrantMark) (id : string) : GrantTable -> GrantTable :=
  match m with
  | MConsumed => GrantRepo.mark_consumed now id
  | MFailed => GrantRepo.mark_failed now id
  | MRejected => GrantRepo.mark_rejected now id
  | MReconciliationRequired => GrantRepo.mark_reconciliation_required now id
  | MUnknown => GrantRepo.mark_unknown now id
  end.

Definition apply_idem_mark (now : Z) (m : IdemMark) (key : string) : IdemTable -> bool * IdemTable :=
  match m with
  | IMExecuting => IdempotencyStore.mark_executing key
  | IMSucceeded res => IdempotencyStore.mark_succeeded now key res
  | IMFailed error => IdempotencyStore.mark_failed now key error
  | IMUnknown => IdempotencyStore.mark_unknown key
  end.

(** A best-effort event: an exception of the event store is swallowed. *)
Definition persist_event (now : Z) (run_id : string) (seq : Z) (kind : EventKind) (payload : json)
    (db : EventDB) : EventDB :=
  match event_insert {| ev_run_id := run_id; ev_seq := seq; ev_kind := kind; ev_payload := payload;
                        ev_timestamp := isoformat now |} db with
  | Ok db' => db'
  | Raise _ => db
  end.

(** The operation at time [now], when the MCP server answers [mcp]. *)
Definition exec (now : Z) (mcp : ToolCall -> result ToolResult) {R} (o : op R) (w : World) : R * World :=
  match o in op R return R * World with
  | ONow => (now, w)
  | OHitlGet id => (hitl_get id (w_hitl w), w)
  | OHitlInsert s =>
      match hitl_insert s (w_hitl w) with
      | Ok t => (Ok tt, upd_hitl w t)
      | Raise e => (Raise e, w)
      end
  | OHitlUpdate id st v =>
      let '(b, t) := hitl_update_status now id st v (w_hitl w) in (b, upd_hitl w t)
  | OGrantInsert g =>
      match insert_pending g (w_grants w) with
      | Ok t => (Ok tt, upd_grants w t)
      | Raise e => (Raise e, w)
      end
  | OGrantApprove id actor v =>
      let '(b, t) := approve_pending now id actor v (w_grants w) in (b, upd_grants w t)
  | OGrantConsume a => let '(g, t) := atomic_consume now a (w_grants w) in (g, upd_grants w t)
  | OGrantClaimed id => (claimed id (w_grants w), w)
  | OGrantMark m id => (tt, upd_grants w (apply_grant_mark now m id (w_grants w)))
  | OIdemGet key => (idem_get key (w_idem w), w)
  | OIdemReserve key name args =>
      let '(r, t) := reserve now key name args (w_idem w) in (r, upd_idem w t)
  | OIdemReserved key => (reserved key (w_idem w), w)
  | OIdemMark m key => let '(b, t) := apply_idem_mark now m key (w_idem w) in (b, upd_idem w t)
  | OEvent run seq kind payload =>
      (tt, upd_events w (persist_event now run seq kind payload (w_events w)))
  | ODispatch c => (mcp c, add_call w c)
  end.

(** ** Executing a program alone *)

Inductive outcome (A : Type) : Type :=
  | Done (a : A)
  | Failed (e : exn)
  | Paused (payload : json).
Arguments Done {A} a.
Arguments Failed {A} e.
Arguments Paused {A} payload.

Fixpoint run {A} (now : Z) (mcp : ToolCall -> result ToolResult) (p : prog A) (w : World)
    : outcome A * World :=
  match p with
  | Ret a => (Done a, w)
  | Throw e => (Failed e, w)
  | Pause v => (Paused v, w)
  | Op o k => let '(r, w') := exec now mcp o w in run now mcp (k r) w'
  end.

Lemma run_bind {A B} now mcp (p : prog A) (f : A -> prog B) w :
  run now mcp (bind p f) w =
  match run now mcp p w with
  | (Done a, w') => run now mcp (f a) w'
  | (Failed e, w') => (Failed e, w')
  | (Paused v, w') => (Paused v, w')
  end.
Proof.
  revert w; induction p as [a|e|v|R o k IH]; intros w; cbn; try done.
  destruct (exec now mcp o w) as [r w']. apply IH.
Qed.

Lemma run_op {A R} now mcp (o : op R) (k : R -> prog A) w :
  run now mcp (Op o k) w = run now mcp (k (fst (exec now mcp o w))) (snd (exec now mcp o w)).
Proof. cbn. by destruct (exec now mcp o w). Qed.

(** ** Properties of every execution of a program *)

(** Every value the program can return satisfies [Q]. *)
Fixpoint leaf {A} (Q : A -> Prop) (p : prog A) : Prop :=
  match p with
  | Ret a => Q a
  | Throw _ | Pause _ => True
  | Op o k => forall r, leaf Q (k r)
  end.

(** Every call the program can dispatch satisfies [Q]. *)
Fixpoint dispatches {A} (Q : ToolCall -> Prop) (p : prog A) : Prop :=
  match p with
  | Ret _ | Throw _ | Pause _ => True
  | Op o k => match o with ODispatch c => Q c | _ => True end /\ forall r, dispatches Q (k r)
  end.

Lemma leaf_bind {A B} (Q : A -> Prop) (Q' : B -> Prop) (p : prog A) (f : A -> prog B) :
  leaf Q p -> (forall a, Q a -> leaf Q' (f a)) -> leaf Q' (bind p f).
Proof. intros Hp Hf. induction p; cbn in *; auto. Qed.

Lemma leaf_true {A} (p : prog A) : leaf (fun _ => True) p.
Proof. induction p; cbn; auto. Qed.

Lemma leaf_impl {A} (Q Q' : A -> Prop) (p : prog A) : (forall a, Q a -> Q' a) -> leaf Q p -> leaf Q' p.
Proof. intros H. induction p; cbn; auto. Qed.

Lemma leaf_and {A} (Q Q' : A -> Prop) (p : prog A) : leaf Q p -> leaf Q' p -> leaf (fun a => Q a /\ Q' a) p.
Proof. intros H H'. induction p; cbn in *; auto. Qed.

Lemma leaf_lift {A} (Q : A -> Prop) (m : result A) : (forall a, m = Ok a -> Q a) -> leaf Q (lift m).
Proof. destruct m; cbn; auto. Qed.

Lemma leaf_run {A} (Q : A -> Prop) now mcp (p : prog A) w a w' :
  leaf Q p -> run now mcp p w = (Done a, w') -> Q a.
Proof.
  revert w; induction p as [x|e|v|R o k IH]; intros w Hp Hr; cbn in *; simplify_eq; [done|].
  destruct (exec now mcp o w) as [r w1]. by eapply IH.
Qed.

Lemma dispatches_bind {A B} (Q : ToolCall -> Prop) (L : A -> Prop) (p : prog A) (f : A -> prog B) :
  dispatches Q p -> leaf L p -> (forall a, L a -> dispatches Q (f a)) -> dispatches Q (bind p f).
Proof. intros Hp Hl Hf. induction p; cbn in *; auto. destruct Hp. split; auto. Qed.

Lemma dispatches_bind' {A B} (Q : ToolCall -> Prop) (p : prog A) (f : A -> prog B) :
  dispatches Q p -> (forall a, dispatches Q (f a)) -> dispatches Q (bind p f).
Proof. intros Hp Hf. eapply dispatches_bind; [done|apply leaf_true|auto]. Qed.

Lemma dispatches_lift {A} Q (m : result A) : dispatches Q (lift m).
Proof. by destruct m. Qed.

Lemma dispatches_impl {A} (Q Q' : ToolCall -> Prop) (p : prog A) :
  (forall c, Q c -> Q' c) -> dispatches Q p -> dispatches Q' p.
Proof. intros H. induction p as [| | |R o k IH]; cbn; auto. intros [H1 H2]. split; [|auto]. destruct o; auto. Qed.

Lemma leaf_on_pause {A} (Q : A -> Prop) (p : prog A) (h : json -> prog A) :
  leaf Q p -> (forall v, leaf Q (h v)) -> leaf Q (on_pause p h).
Proof. intros Hp Hh. induction p; cbn in *; auto. Qed.

(** No execution of the program reaches an interrupt. *)
Fixpoint no_pause {A} (p : prog A) : Prop :=
  match p with
  | Ret _ | Throw _ => True
  | Pause _ => False
  | Op o k => forall r, no_pause (k r)
  end.

Lemma no_pause_bind {A B} (p : prog A) (f : A -> prog B) :
  no_pause p -> (forall a, no_pause (f a)) -> no_pause (bind p f).
Proof. intros Hp Hf. induction p; cbn in *; auto. Qed.

Lemma no_pause_lift {A} (m : result A) : no_pause (lift m).
Proof. by destruct m. Qed.

Lemma leaf_on_pause_never {A} (Q : A -> Prop) (p : prog A) (h : json -> prog A) :
  no_pause p -> leaf Q p -> leaf Q (on_pause p h).
Proof. intros Hp Hl. induction p; cbn in *; auto. done. Qed.

Lemma dispatches_on_pause {A} Q (p : prog A) (h : json -> prog A) :
  dispatches Q p -> (forall v, dispatches Q (h v)) -> dispatches Q (on_pause p h).
Proof. intros Hp Hh. induction p; cbn in *; auto. destruct Hp. split; auto. Qed.

(** What a run adds to the calls that reached the server. *)
Lemma dispatches_run {A} Q now mcp (p : prog A) w :
  dispatches Q p ->
  exists cs, w_calls (snd (run now mcp p w)) = w_calls w ++ cs /\ Forall Q cs.
Proof.
  revert w; induction p as [x|e|v|R o k IH]; intros w Hp; cbn in *;
    try (exists []; by rewrite app_nil_r).
  destruct Hp as [Ho Hk]. destruct (exec now mcp o w) as [r w1] eqn:E.
  destruct (IH r w1 (Hk r)) as (cs & Hcs & HQ).
  assert (exists c0, w_calls w1 = w_calls w ++ c0 /\ Forall Q c0) as (c0 & Hc0 & HQ0).
  { destruct o; cbn in E;
      repeat match type of E with
      | (let '(_, _) := ?x in _) = _ => destruct x
      | match ?x with _ => _ end = _ => destruct x
      end; simplify_eq; try (exists []; by rewrite app_nil_r).
    exists [c]. split; [done|]. by constructor. }
  exists (c0 ++ cs). rewrite Hcs, Hc0, (assoc_L (++)). split; [done|]. by apply Forall_app.
Qed.

Lemma run_do {A B} now mcp (o : op A) (f : A -> prog B) w :
  run now mcp (bind (perform o) f) w =
  run now mcp (f (fst (exec now mcp o w))) (snd (exec now mcp o w)).
Proof. cbn. by destruct (exec now mcp o w). Qed.

Lemma run_doE {A B} now mcp (o : op (result A)) (f : A -> prog B) w :
  run now mcp (bind (performE o) f) w =
  match fst (exec now mcp o w) with
  | Ok a => run now mcp (f a) (snd (exec now mcp o w))
  | Raise e => (Failed e, snd (exec now mcp o w))
  end.
Proof. cbn. destruct (exec now mcp o w) as [[a|e] w']; done. Qed.

Lemma run_lift {A B} now mcp (m : result A) (f : A -> prog B) w :
  run now mcp (bind (lift m) f) w =
  match m with Ok a => run now mcp (f a) w | Raise e => (Failed e, w) end.
Proof. by destruct m. Qed.

(** An invariant of every operation is an invariant of every run. *)
Lemma run_invariant (I : World -> Prop) now mcp :
  (forall R (o : op R) w, I w -> I (snd (exec now mcp o w))) ->
  forall A (p : prog A) w, I w -> I (snd (run now mcp p w)).
Proof.
  intros HI A p. induction p as [a|e|v|R o k IH]; intros w Hw; try done. cbn.
  specialize (HI R o w Hw). destruct (exec now mcp o w) as [r w']. by apply IH.
Qed.

Lemma run_on_pause {A} now mcp (p : prog A) (h : json -> prog A) w :
  run now mcp (on_pause p h) w =
  match run now mcp p w with
  | (Paused v, w') => run now mcp (h v) w'
  | r => r
  end.
Proof.
  revert w; induction p as [a|e|v|R o k IH]; intros w; cbn; try done.
  destruct (exec now mcp o w) as [r w']. apply IH.
Qed.

(** ** The first call of a run *)

(** A run only adds calls. *)
Lemma run_calls_grow {A} now mcp (p : prog A) w :
  exists cs, w_calls (snd (run now mcp p w)) = w_calls w ++ cs.
Proof.
  destruct (dispatches_run (fun _ => True) now mcp p w) as (cs & Hcs & _); [|eauto].
  induction p as [| | |R o k IH]; cbn; auto. split; [by destruct o|auto].
Qed.

Definition calls_first {A} (now : Z) (mcp : ToolCall -> result ToolResult) (c : ToolCall) (p : prog A)
    (w : World) : Prop :=
  exists cs, w_calls (snd (run now mcp p w)) = w_calls w ++ c :: cs.

Lemma calls_first_dispatch {A} now mcp c (k : result ToolResult -> prog A) w :
  calls_first now mcp c (Op (ODispatch c) k) w.
Proof.
  destruct (run_calls_grow now mcp (k (mcp c)) (add_call w c)) as (cs & Hcs). exists cs. cbn. rewrite Hcs.
  cbn. by rewrite <-(assoc_L (++)).
Qed.

Lemma calls_first_bind {A B} now mcp c (p : prog A) (f : A -> prog B) w :
  calls_first now mcp c p w -> calls_first now mcp c (bind p f) w.
Proof.
  intros (cs & Hcs). unfold calls_first. rewrite run_bind.
  destruct (run now mcp p w) as [[a|e|v] w'] eqn:E; cbn in *; [|by exists cs..].
  destruct (run_calls_grow now mcp (f a) w') as (cs' & ->). rewrite Hcs. exists (cs ++ cs').
  by rewrite <-(assoc_L (++)).
Qed.

Lemma calls_first_on_pause {A} now mcp c (p : prog A) (h : json -> prog A) w :
  calls_first now mcp c p w -> calls_first now mcp c (on_pause p h) w.
Proof.
  intros (cs & Hcs). unfold calls_first. rewrite run_on_pause.
  destruct (run now mcp p w) as [[a|e|v] w'] eqn:E; cbn in *; [by exists cs..|].
  destruct (run_calls_grow now mcp (h v) w') as (cs' & ->). rewrite Hcs. exists (cs ++ cs').
  by rewrite <-(assoc_L (++)).
Qed.

Lemma calls_first_after {A B} now mcp c (p : prog A) (f : A -> prog B) w a w1 :
  run now mcp p w = (Done a, w1) -> w_calls w1 = w_calls w -> calls_first now mcp c (f a) w1 ->
  calls_first now mcp c (bind p f) w.
Proof. intros Hp Hw (cs & Hcs). exists cs. by rewrite run_bind, Hp, Hcs, Hw. Qed.

(** ** Interleaving *)

(** A request in flight: the session it is about and what is left of it. *)
Record Thread (A : Type) : Type := { th_session : string; th_prog : prog A }.
Arguments th_session {A} _.
Arguments th_prog {A} _.

(** The database, the requests in flight, and each dispatch with the session whose
    request made it. *)
Record Pool (A : Type) : Type := {
  pl_world : World;
  pl_threads : list (Thread A);
  pl_log : list (string * ToolCall);
}.
Arguments pl_world {A} _.
Arguments pl_threads {A} _.
Arguments pl_log {A} _.

(** The log entry of an operation. *)
Definition dispatched {R} (session : string) (o : op R) : list (string * ToolCall) :=
  match o with ODispatch c => [(session, c)] | _ => [] end.

(** What other code may do to the tables between two operations: any change of the
    sessions, reservations and events, and any grant repository call. *)
Inductive env_change (w : World) : World -> Prop :=
  | env_other hitl idem events :
      env_change w {| w_hitl := hitl; w_grants := w_grants w; w_idem := idem; w_events := events;
                      w_calls := w_calls w |}
  | env_grant gop : env_change w (upd_grants w (snd (grant_step gop (w_grants w)))).

(** An operation that is one statement, or one call. *)
Definition whole {R} (o : op R) : bool :=
  match o with OGrantConsume _ | OIdemReserve _ _ _ => false | _ => true end.

(** The answers of an operation that changes nothing: of a SELECT on an older state of its
    table, in which a grant is bound to what it is bound to now; of a statement that fails, where
    the program sees the exception; of an event that is not stored. *)
Definition unchanged_answer {R} (w : World) (o : op R) : R -> Prop :=
  match o in op R return R -> Prop with
  | OHitlGet _ | OIdemGet _ | OIdemReserved _ | OEvent _ _ _ _ => fun _ => True
  | OGrantClaimed id => fun r =>
      forall g, r = Some g -> exists g', w_grants w !! id = Some g' /\ bound_operation g' = bound_operation g
  | OHitlInsert _ | OGrantInsert _ | OIdemReserve _ _ _ => fun r => exists e, r = Raise e
  | _ => fun _ => False
  end.

(** One statement or call of one request; or a change by other code. *)
Inductive pool_step {A} : Pool A -> Pool A -> Prop :=
  | ps_op w ths1 ths2 id R (o : op R) (k : R -> prog A) log now mcp :
      whole o = true ->
      pool_step
        {| pl_world := w; pl_threads := ths1 ++ {| th_session := id; th_prog := Op o k |} :: ths2;
           pl_log := log |}
        {| pl_world := snd (exec now mcp o w);
           pl_threads := ths1 ++ {| th_session := id; th_prog := k (fst (exec now mcp o w)) |} :: ths2;
           pl_log := log ++ dispatched id o |}
  | ps_claim w ths1 ths2 id a (k : option GrantRecord -> prog A) log now :
      pool_step
        {| pl_world := w; pl_threads := ths1 ++ {| th_session := id; th_prog := Op (OGrantConsume a) k |} :: ths2;
           pl_log := log |}
        {| pl_world := upd_grants w (snd (claim now a (w_grants w)));
           pl_threads := ths1 ++ {| th_session := id;
             th_prog := if fst (claim now a (w_grants w)) then Op (OGrantClaimed (ca_session_id a)) k else k None |} :: ths2;
           pl_log := log |}
  | ps_reserve w ths1 ths2 id key name args (k : result IdempotencyRecord -> prog A) log now :
      pool_step
        {| pl_world := w;
           pl_threads := ths1 ++ {| th_session := id; th_prog := Op (OIdemReserve key name args) k |} :: ths2;
           pl_log := log |}
        {| pl_world := upd_idem w (snd (reserve now key name args (w_idem w)));
           pl_threads := ths1 ++ {| th_session := id; th_prog := Op (OIdemReserved key) k |} :: ths2;
           pl_log := log |}
  | ps_unchanged w ths1 ths2 id R (o : op R) (k : R -> prog A) log r :
      unchanged_answer w o r ->
      pool_step
        {| pl_world := w; pl_threads := ths1 ++ {| th_session := id; th_prog := Op o k |} :: ths2; pl_log := log |}
        {| pl_world := w; pl_threads := ths1 ++ {| th_session := id; th_prog := k r |} :: ths2; pl_log := log |}
  | ps_raise w ths1 ths2 id R (o : op R) (k : R -> prog A) log e :
      pool_step
        {| pl_world := w; pl_threads := ths1 ++ {| th_session := id; th_prog := Op o k |} :: ths2; pl_log := log |}
        {| pl_world := w; pl_threads := ths1 ++ {| th_session := id; th_prog := Throw e |} :: ths2; pl_log := log |}
  | ps_env w w' ths log :
      env_change w w' ->
      pool_step {| pl_world := w; pl_threads := ths; pl_log := log |}
                {| pl_world := w'; pl_threads := ths; pl_log := log |}.

(** ** Guarded programs

    [guarded id g p]: every dispatch of [p] uses up a claim of session [id]'s grant
    (the claim [g] already held, or one made on the way), and calls exactly the tool
    and canonical arguments of the claimed grant. *)
Definition grant_call (g : GrantRecord) (c : ToolCall) : Prop :=
  tc_name c = g_tool_name g /\ loads (g_canonical_tool_args g) = Ok (tc_arguments c).

Definition op_guard {R} (id : string) (held : option GrantRecord) (o : op R) : Prop :=
  match o with
  | ODispatch c => exists g, held = Some g /\ grant_call g c
  | OGrantConsume a => held = None /\ ca_session_id a = id
  | OGrantClaimed _ => False
  | _ => True
  end.

(** The claim held after an operation, given its answer. *)
Definition next_held {R} (held : option GrantRecord) (o : op R) : R -> option GrantRecord :=
  match o in op R return R -> option GrantRecord with
  | ODispatch _ => fun _ => None
  | OGrantConsume _ | OGrantClaimed _ => fun r => r
  | _ => fun _ => held
  end.

Fixpoint guarded {A} (id : string) (held : option GrantRecord) (p : prog A) : Prop :=
  match p with
  | Ret _ | Throw _ | Pause _ => True
  | Op o k => op_guard id held o /\ forall r, guarded id (next_held held o r) (k r)
  end.

(** What a thread has of its session's grant: nothing, a claim whose grant it has not read
    back, or the claimed grant. *)
Inductive Claim : Type := NoClaim | Claiming | Claimed (g : GrantRecord).

Definition has_claim (c : Claim) : bool := match c with NoClaim => false | _ => true end.

Definition claim_of (g : option GrantRecord) : Claim := match g with Some g => Claimed g | None => NoClaim end.

(** A program that reads the grant of session [id] back, and is guarded with what it reads. *)
Definition reads_claim {A} (id : string) (p : prog A) : Prop :=
  match p with
  | Op o k =>
      match o in op R return (R -> prog A) -> Prop with
      | OGrantClaimed id' => fun k => id' = id /\ forall r, guarded id r (k r)
      | _ => fun _ => False
      end k
  | _ => False
  end.

(** A guarded thread, between its statements. *)
Definition thread_guarded {A} (id : string) (c : Claim) (p : prog A) : Prop :=
  match c with
  | NoClaim => guarded id None p
  | Claimed g => guarded id (Some g) p
  | Claiming => reads_claim id p
  end.

(** The claims the threads of session [id] still hold. *)
Definition held_for (id : string) (held : list (string * Claim)) : nat :=
  countb (fun h => String.eqb (fst h) id && has_claim (snd h)) held.

Definition log_for (id : string) (log : list (string * ToolCall)) : nat :=
  countb (fun e => String.eqb (fst e) id) log.

Definition spent_row (t : GrantTable) (id : string) : nat :=
  match status_of t id with Some s => if spent s then 1 else 0 | None => 0 end.

(** The invariant of a pool of guarded threads: dispatches and held claims of a
    session together never exceed one, and none exists unless the session's grant is
    spent; what is logged or held is the stored grant's bound operation. *)
Definition matches_row (t : GrantTable) (id : string) (P : GrantRecord -> Prop) : Prop :=
  exists g, t !! id = Some g /\ P g.

Definition pool_ok {A} (s : Pool A) : Prop :=
  keyed (w_grants (pl_world s)) /\
  exists held : list (string * Claim),
    Forall2 (fun th h => fst h = th_session th /\ thread_guarded (th_session th) (snd h) (th_prog th))
      (pl_threads s) held /\
    (forall id, log_for id (pl_log s) + held_for id held <= spent_row (w_grants (pl_world s)) id)%nat /\
    (forall id c, (id, c) ∈ pl_log s ->
       matches_row (w_grants (pl_world s)) id (fun g => grant_call g c)) /\
    (forall id g, (id, Claimed g) ∈ held ->
       matches_row (w_grants (pl_world s)) id (fun g' => bound_operation g' = bound_operation g)).

Lemma grant_call_bound g g' c : bound_operation g = bound_operation g' -> grant_call g c -> grant_call g' c.
Proof. unfold bound_operation, grant_call. intros [= _ _ _ _ <- <- _ _ _]. done. Qed.

Lemma exec_grants now mcp {R} (o : op R) w :
  w_grants (snd (exec now mcp o w)) = w_grants w \/
  exists gop, w_grants (snd (exec now mcp o w)) = snd (grant_step gop (w_grants w)).
Proof.
  destruct o as [|id|s|id st v|g|id actor v|a|id|m id|key|key name args|key|m key|rid seq kd pl|c]; cbn; auto.
  - destruct (hitl_insert _ _); auto.
  - destruct (hitl_update_status _ _ _ _ _); auto.
  - right. exists (GInsert g). cbn. by destruct (insert_pending _ _).
  - right. exists (GApprove now id actor v). cbn. by destruct (approve_pending _ _ _ _ _).
  - right. exists (GConsume now a). cbn. by destruct (atomic_consume _ _ _).
  - right. destruct m; [exists (GConsumed now id)|exists (GFail now id)|exists (GReject now id)
      |exists (GReconcile now id)|exists (GUnknown now id)]; done.
  - destruct (reserve _ _ _ _ _); auto.
  - destruct (apply_idem_mark _ _ _ _); auto.
Qed.

Lemma matches_row_step gop t id P :
  (forall g g', bound_operation g = bound_operation g' -> P g -> P g') ->
  matches_row t id P -> matches_row (snd (grant_step gop t)) id P.
Proof.
  intros HP (g & Hg & H). destruct (grant_move_lookup _ _ id g (grant_step_move gop t) Hg) as (g' & Hg' & Hb & _).
  exists g'. split; [done|]. by apply (HP g).
Qed.

Lemma spent_row_step gop t id : (spent_row t id <= spent_row (snd (grant_step gop t)) id)%nat.
Proof.
  unfold spent_row at 1. destruct (status_of t id) as [s|] eqn:Es; [|lia].
  destruct (spent s) eqn:Hs; [|lia].
  destruct (spent_step gop t id s Es Hs) as (s' & Hs' & Hsp). unfold spent_row. by rewrite Hs', Hsp.
Qed.

(** A change of the grants table by one repository call keeps the invariant. *)
Lemma pool_ok_grants {A} (s : Pool A) w' :
  pool_ok s ->
  w_grants w' = w_grants (pl_world s) \/
    (exists gop, w_grants w' = snd (grant_step gop (w_grants (pl_world s)))) ->
  pool_ok {| pl_world := w'; pl_threads := pl_threads s; pl_log := pl_log s |}.
Proof.
  intros (Hk & held & Hth & Hcnt & Hlog & Hheld) [E|[gop E]]; split;
    cbn [pl_world pl_threads pl_log]; rewrite E; try done.
  - by exists held.
  - by apply keyed_step.
  - exists held. split; [done|]. split; [|split].
    + intros id. specialize (Hcnt id).
      pose proof (spent_row_step gop (w_grants (pl_world s)) id). lia.
    + intros id c Hin. apply matches_row_step; [|by apply Hlog].
      intros g g' Hb. by apply grant_call_bound.
    + intros id g Hin. apply matches_row_step; [|by apply Hheld]. congruence.
Qed.

Lemma held_for_app id h1 h2 : held_for id (h1 ++ h2) = (held_for id h1 + held_for id h2)%nat.
Proof. unfold held_for. by rewrite countb_app. Qed.

Lemma held_for_cons id x h :
  held_for id (x :: h) = ((if String.eqb (fst x) id && has_claim (snd x) then 1 else 0) + held_for id h)%nat.
Proof. unfold held_for. by rewrite countb_cons. Qed.

(** One thread goes on with the claim [c'], the grants unchanged. *)
Lemma pool_ok_thread {A} w ths1 ths2 id (p p' : prog A) log :
  (forall c, thread_guarded id c p -> exists c', thread_guarded id c' p' /\
     (has_claim c = false -> has_claim c' = false) /\
     forall g, c' = Claimed g -> c = Claimed g \/ matches_row (w_grants w) id (fun g' => bound_operation g' = bound_operation g)) ->
  pool_ok {| pl_world := w; pl_threads := ths1 ++ {| th_session := id; th_prog := p |} :: ths2; pl_log := log |} ->
  pool_ok {| pl_world := w; pl_threads := ths1 ++ {| th_session := id; th_prog := p' |} :: ths2; pl_log := log |}.
Proof.
  intros Hp (Hk & held & Hth & Hcnt & Hlog & Hheld). split; [done|]. cbn [pl_world pl_threads pl_log] in *.
  apply Forall2_app_inv_l in Hth as (h1 & h2' & H1 & H2 & ->).
  apply Forall2_cons_inv_l in H2 as ([i c] & h2 & [Hid Hg] & H2 & ->). cbn [fst snd th_session th_prog] in *. subst i.
  destruct (Hp c Hg) as (c' & Hg' & Hno & Hc'). exists (h1 ++ (id, c') :: h2). split; [|split; [|split; [done|]]].
  - apply Forall2_app; [done|]. by constructor.
  - intros x. specialize (Hcnt x). rewrite held_for_app, held_for_cons in *. cbn [fst snd] in *.
    destruct (String.eqb id x), (has_claim c), (has_claim c'); cbn [andb] in *; lia.
  - intros x g. rewrite elem_of_app, elem_of_cons. intros Hin.
    assert ((x = id /\ c' = Claimed g) \/ (x, Claimed g) ∈ h1 ++ h2) as [[-> ->]|Hold]
      by (destruct Hin as [?|[[= -> ->]|?]]; [right; set_solver|by left|right; set_solver]).
    + destruct (Hc' g eq_refl) as [->|Hm]; [apply Hheld; set_solver|exact Hm].
    + apply Hheld. set_solver.
Qed.

(** A claim is never made twice: a claiming thread reads back, nothing else. *)
Lemma not_claiming {A} id c R (o : op R) (k : R -> prog A) :
  match o with OGrantClaimed _ => False | _ => True end ->
  thread_guarded id c (Op o k) ->
  exists h, c = claim_of h /\ op_guard id h o /\ forall r, guarded id (next_held h o r) (k r).
Proof.
  intros Ho. destruct c as [| |g]; [intros Hg; by exists None| |intros Hg; by exists (Some g)].
  intros Hc. by destruct o.
Qed.

(** A thread that keeps its claim. *)
Lemma pool_ok_plain {A} w ths1 ths2 id R (o : op R) (k : R -> prog A) r log :
  match o with OGrantConsume _ | OGrantClaimed _ | ODispatch _ => False | _ => True end ->
  pool_ok {| pl_world := w; pl_threads := ths1 ++ {| th_session := id; th_prog := Op o k |} :: ths2; pl_log := log |} ->
  pool_ok {| pl_world := w; pl_threads := ths1 ++ {| th_session := id; th_prog := k r |} :: ths2; pl_log := log |}.
Proof.
  intros Ho. apply pool_ok_thread. intros c Hc. exists c. split; [|by eauto].
  destruct (not_claiming id c R o k) as (h & -> & _ & Hk); [by destruct o|done|]. specialize (Hk r).
  assert (next_held h o r = h) as Eh by (by destruct o). rewrite Eh in Hk. by destruct h.
Qed.

Lemma pool_ok_raise {A} w ths1 ths2 id (p : prog A) e log :
  pool_ok {| pl_world := w; pl_threads := ths1 ++ {| th_session := id; th_prog := p |} :: ths2; pl_log := log |} ->
  pool_ok {| pl_world := w; pl_threads := ths1 ++ {| th_session := id; th_prog := Throw e |} :: ths2; pl_log := log |}.
Proof. apply pool_ok_thread. intros c _. by exists NoClaim. Qed.

Lemma pool_ok_dispatch {A} w w' ths1 ths2 id c (k : result ToolResult -> prog A) r log :
  w_grants w' = w_grants w ->
  pool_ok {| pl_world := w; pl_threads := ths1 ++ {| th_session := id; th_prog := Op (ODispatch c) k |} :: ths2;
             pl_log := log |} ->
  pool_ok {| pl_world := w'; pl_threads := ths1 ++ {| th_session := id; th_prog := k r |} :: ths2;
             pl_log := log ++ [(id, c)] |}.
Proof.
  unfold pool_ok. cbn [pl_world pl_threads pl_log]. intros -> (Hk & held & Hth & Hcnt & Hlog & Hheld). split; [done|].
  apply Forall2_app_inv_l in Hth as (h1 & h2' & H1 & H2 & ->).
  apply Forall2_cons_inv_l in H2 as ([i h] & h2 & [Hid Hg] & H2 & ->). cbn [fst snd th_session th_prog] in *. subst i.
  destruct (not_claiming id h _ (ODispatch c) k I Hg) as (h' & -> & (g & -> & Hc) & Hk'). cbn [claim_of] in *.
  exists (h1 ++ (id, NoClaim) :: h2). split; [|split; [|split]].
  - apply Forall2_app; [done|]. constructor; [|done]. split; [done|]. cbn. apply Hk'.
  - intros x. specialize (Hcnt x). unfold log_for in *. rewrite held_for_app, held_for_cons in *.
    rewrite countb_app, countb_cons. cbn [fst snd has_claim] in *.
    rewrite andb_true_r in Hcnt. rewrite andb_false_r.
    change (countb _ []) with 0%nat. destruct (String.eqb id x); lia.
  - intros x c'. rewrite elem_of_app, list_elem_of_singleton. intros [Hin|[= -> ->]]; [by apply Hlog|].
    destruct (Hheld id g) as (g' & Hg' & Hb); [set_solver|]. exists g'. split; [done|].
    by apply (grant_call_bound g).
  - intros x g' Hin. apply Hheld. set_solver.
Qed.

Lemma claim_step now a t : snd (claim now a t) = snd (grant_step (GConsume now a) t).
Proof. cbn. unfold atomic_consume. by destruct (claim now a t) as [[] t']. Qed.

Lemma spent_row_claim now a t :
  fst (claim now a t) = true ->
  spent_row t (ca_session_id a) = 0%nat /\ spent_row (snd (claim now a t)) (ca_session_id a) = 1%nat.
Proof.
  unfold claim, update_grant, spent_row, status_of. destruct (t !! ca_session_id a) as [g|] eqn:Hg; [|done].
  destruct (consume_guard (isoformat now) a g) eqn:Hgd; [|done]. intros _. cbn [snd]. rewrite lookup_insert_eq. cbn.
  rewrite ?Hg. cbn. by rewrite (consume_guard_status _ _ _ Hgd).
Qed.

Lemma pool_ok_claim {A} w ths1 ths2 id a (k : option GrantRecord -> prog A) log now :
  pool_ok {| pl_world := w; pl_threads := ths1 ++ {| th_session := id; th_prog := Op (OGrantConsume a) k |} :: ths2;
             pl_log := log |} ->
  pool_ok {| pl_world := upd_grants w (snd (claim now a (w_grants w)));
             pl_threads := ths1 ++ {| th_session := id;
               th_prog := if fst (claim now a (w_grants w)) then Op (OGrantClaimed (ca_session_id a)) k else k None |} :: ths2;
             pl_log := log |}.
Proof.
  unfold pool_ok. cbn [pl_world pl_threads pl_log w_grants upd_grants]. rewrite claim_step.
  intros (Hk & held & Hth & Hcnt & Hlog & Hheld). split; [by apply keyed_step|].
  apply Forall2_app_inv_l in Hth as (h1 & h2' & H1 & H2 & ->).
  apply Forall2_cons_inv_l in H2 as ([i h] & h2 & [Hid Hg] & H2 & ->). cbn [fst snd th_session th_prog] in *. subst i.
  destruct (not_claiming id h _ (OGrantConsume a) k I Hg) as (h' & -> & [-> Ea] & Hk'). cbn [claim_of next_held] in *.
  exists (h1 ++ (id, if fst (claim now a (w_grants w)) then Claiming else NoClaim) :: h2). split; [|split; [|split]].
  - apply Forall2_app; [done|]. constructor; [|done]. split; [done|]. cbn [th_session th_prog snd].
    destruct (fst (claim now a (w_grants w))); [|apply Hk']. by split.
  - intros x. specialize (Hcnt x). rewrite held_for_app, held_for_cons in *. cbn [fst snd] in *.
    pose proof (spent_row_step (GConsume now a) (w_grants w) x) as Hmono. rewrite <-claim_step in Hmono |- *.
    destruct (fst (claim now a (w_grants w))) eqn:Ec; [|cbn [has_claim] in *; lia].
    destruct (String.eqb_spec id x) as [->|]; cbn [andb has_claim] in *; [|lia].
    destruct (spent_row_claim _ _ _ Ec) as (Hz & Ho). rewrite Ea in Hz, Ho. lia.
  - intros x c Hin. apply matches_row_step; [|by apply Hlog]. intros g g' Hb. by apply grant_call_bound.
  - intros x g. rewrite elem_of_app, elem_of_cons. intros Hin. apply matches_row_step; [congruence|]. apply Hheld.
    destruct Hin as [?|[[= -> E]|?]]; [set_solver| |set_solver]. by destruct (fst (claim _ _ _)).
Qed.

(** Reading the claimed grant back, as it is or as it was. *)
Lemma pool_ok_claimed {A} w ths1 ths2 id id' (k : option GrantRecord -> prog A) r log :
  unchanged_answer w (OGrantClaimed id') r ->
  pool_ok {| pl_world := w; pl_threads := ths1 ++ {| th_session := id; th_prog := Op (OGrantClaimed id') k |} :: ths2;
             pl_log := log |} ->
  pool_ok {| pl_world := w; pl_threads := ths1 ++ {| th_session := id; th_prog := k r |} :: ths2; pl_log := log |}.
Proof.
  intros Hr. apply pool_ok_thread. intros c Hc. destruct c as [| |g]; [by destruct Hc| |by destruct Hc].
  destruct Hc as [-> Hg]. exists (claim_of r). split; [by destruct r; apply Hg|].
  split; [done|]. intros g E. right. destruct r as [g'|]; [|done]. injection E as ->. destruct (Hr g eq_refl) as (g' & ? & ?). by exists g'.
Qed.

Lemma claimed_answer w id : unchanged_answer w (OGrantClaimed id) (claimed id (w_grants w)).
Proof.
  intros g. unfold claimed. destruct (w_grants w !! id) as [g'|]; [|done]. destruct (is_status _ _); [|done].
  intros [= ->]. by exists g.
Qed.

Lemma pool_ok_step {A} (s1 s2 : Pool A) : pool_ok s1 -> pool_step s1 s2 -> pool_ok s2.
Proof.
  intros Hok Hstep. destruct Hstep as [w ths1 ths2 id R o k log now mcp Hw|w ths1 ths2 id a k log now
    |w ths1 ths2 id key name args k log now|w ths1 ths2 id R o k log r Hr|w ths1 ths2 id R o k log e|w w' ths log Henv].
  - pose proof (exec_grants now mcp o w) as Hgr.
    assert (match o with OGrantConsume _ | OGrantClaimed _ | ODispatch _ => False | _ => True end ->
      pool_ok {| pl_world := snd (exec now mcp o w); pl_log := log;
                 pl_threads := ths1 ++ {| th_session := id; th_prog := k (fst (exec now mcp o w)) |} :: ths2 |}) as Hplain.
    { intros Ho. apply (pool_ok_plain _ _ _ _ _ o k); [done|].
      by apply (pool_ok_grants {| pl_world := w; pl_log := log; pl_threads := _ |}). }
    destruct o; cbn [dispatched]; rewrite ?app_nil_r; try done; try by apply Hplain.
    + cbn. apply (pool_ok_claimed w _ _ id id0 k _ log (claimed_answer w id0) Hok).
    + by apply (pool_ok_dispatch w).
  - by apply pool_ok_claim.
  - apply (pool_ok_grants {| pl_world := w; pl_threads := _; pl_log := log |}); [|by left].
    revert Hok. apply pool_ok_thread. intros c Hc. exists c. split; [|by eauto].
    destruct (not_claiming id c _ (OIdemReserve key name args) k I Hc) as (h & -> & _ & Hk). by destruct h.
  - pose proof (fun Ho => pool_ok_plain w ths1 ths2 id R o k r log Ho Hok) as Hplain.
    destruct o; try done; try by apply Hplain.
    by apply (pool_ok_claimed w _ _ id id0 k r log Hr Hok).
  - by apply (pool_ok_raise _ _ _ _ (Op o k)).
  - apply (pool_ok_grants {| pl_world := w; pl_threads := ths; pl_log := log |}); [done|].
    destruct Henv; cbn; eauto.
Qed.

(** A pool of guarded requests that hold no claim, over any grants table. *)
Lemma pool_ok_start {A} w (ths : list (Thread A)) :
  keyed (w_grants w) -> Forall (fun th => guarded (th_session th) None (th_prog th)) ths ->
  pool_ok {| pl_world := w; pl_threads := ths; pl_log := [] |}.
Proof.
  intros Hk Hths. split; [done|]. exists (map (fun th => (th_session th, NoClaim)) ths). cbn.
  split; [|split; [|split]].
  - induction Hths; cbn; constructor; auto.
  - intros id. unfold log_for. cbn.
    assert (held_for id (map (fun th : Thread A => (th_session th, NoClaim)) ths) = 0%nat) as ->; [|lia].
    apply countb_0. intros x (th & -> & _)%list_elem_of_fmap. cbn. by rewrite andb_false_r.
  - intros id c H. by apply elem_of_nil in H.
  - intros id g (th & [=] & _)%list_elem_of_fmap.
Qed.

(** At most one dispatch per session, and of the granted call only. *)
Lemma pool_dispatch_once {A} w (ths : list (Thread A)) s id :
  keyed (w_grants w) -> Forall (fun th => guarded (th_session th) None (th_prog th)) ths ->
  reach pool_step {| pl_world := w; pl_threads := ths; pl_log := [] |} s ->
  (log_for id (pl_log s) <= 1)%nat /\
  forall c, (id, c) ∈ pl_log s ->
    exists g, w_grants (pl_world s) !! id = Some g /\ spent (g_status g) = true /\ grant_call g c.
Proof.
  intros Hk Hths Hr.
  destruct (reach_invariant pool_step pool_ok pool_ok_step _ _ (pool_ok_start w ths Hk Hths) Hr)
    as (_ & held & _ & Hcnt & Hlog & _). specialize (Hcnt id).
  assert (spent_row (w_grants (pl_world s)) id <= 1)%nat
    by (unfold spent_row; repeat case_match; lia).
  split; [lia|]. intros c Hin. destruct (Hlog _ _ Hin) as (g & Hg & Hc). exists g.
  split; [done|]. split; [|done].
  assert (log_for id (pl_log s) <> 0)%nat as Hne.
  { intros H0. unfold log_for in H0. pose proof (proj1 (countb_0 _ _) H0 _ Hin) as Hf. cbn in Hf.
    by rewrite String.eqb_refl in Hf. }
  unfold spent_row, status_of in Hcnt. rewrite Hg in Hcnt. cbn in Hcnt. destruct (spent (g_status g)); [done|lia].
Qed.

(** ** A request alone *)

(** The statements of one operation, one after the other. *)
Lemma op_reaches {A} now mcp id {R} (o : op R) (k : R -> prog A) ths w log :
  reach pool_step
    {| pl_world := w; pl_threads := {| th_session := id; th_prog := Op o k |} :: ths; pl_log := log |}
    {| pl_world := snd (exec now mcp o w);
       pl_threads := {| th_session := id; th_prog := k (fst (exec now mcp o w)) |} :: ths;
       pl_log := log ++ dispatched id o |}.
Proof.
  assert (Hwhole : whole o = true -> reach pool_step
    {| pl_world := w; pl_threads := {| th_session := id; th_prog := Op o k |} :: ths; pl_log := log |}
    {| pl_world := snd (exec now mcp o w);
       pl_threads := {| th_session := id; th_prog := k (fst (exec now mcp o w)) |} :: ths;
       pl_log := log ++ dispatched id o |}).
  { intros Ho. apply reach_one. by apply (ps_op w [] ths id R o k log now mcp). }
  destruct o; try by apply Hwhole.
  - eapply reach_step; [apply (ps_claim w [] ths id a k log now)|]. cbn [exec dispatched app]. rewrite app_nil_r. unfold atomic_consume.
    destruct (claim now a (w_grants w)) as [[] t]; cbn [fst snd]; [|constructor].
    pose proof (ps_op (upd_grants w t) [] ths id _ (OGrantClaimed (ca_session_id a)) k log now mcp eq_refl) as H.
    cbn [exec dispatched app fst snd w_grants upd_grants] in H. rewrite app_nil_r in H. by apply reach_one.
  - eapply reach_step; [apply (ps_reserve w [] ths id key tool_name tool_args k log now)|]. cbn [exec dispatched app]. rewrite app_nil_r.
    pose proof (ps_op (upd_idem w (snd (reserve now key tool_name tool_args (w_idem w)))) [] ths id _ (OIdemReserved key) k log now mcp eq_refl) as H.
    cbn [exec dispatched app fst snd w_idem upd_idem] in H. rewrite app_nil_r, <-reserved_after_reserve in H.
    destruct (reserve now key tool_name tool_args (w_idem w)). by apply reach_one.
Qed.

(** A request that runs alone is one interleaving; the calls it makes are logged under it. *)
Lemma run_reaches {A} now mcp id (p : prog A) ths w log :
  exists p' cs,
    reach pool_step
      {| pl_world := w; pl_threads := {| th_session := id; th_prog := p |} :: ths; pl_log := log |}
      {| pl_world := snd (run now mcp p w); pl_threads := {| th_session := id; th_prog := p' |} :: ths;
         pl_log := log ++ map (pair id) cs |} /\
    w_calls (snd (run now mcp p w)) = w_calls w ++ cs.
Proof.
  revert w log. induction p as [a|e|v|R o k IH]; intros w log;
    [eexists _, []; rewrite !app_nil_r; by split; [constructor|]..|]. rewrite run_op.
  destruct (IH (fst (exec now mcp o w)) (snd (exec now mcp o w)) (log ++ dispatched id o)) as (p' & cs & Hr & Hcs).
  assert (exists c, w_calls (snd (exec now mcp o w)) = w_calls w ++ c /\ dispatched id o = map (pair id) c) as (c & Hc & Hd).
  { destruct o; cbn; repeat case_match; try (exists []; by rewrite app_nil_r). by exists [c]. }
  exists p', (c ++ cs). rewrite Hcs, Hc, map_app, <-Hd, !(assoc_L (++)). split; [|done].
  eapply reach_trans; [apply (op_reaches now mcp)|exact Hr].
Qed.
