(* ===== verification/Approval.v ===== *)
(** The approval workflow: trusted actors ([actor_resolver.py]) and the executor
    that approves or rejects a paused operation ([approval_executor.py]).

    [approve] and [reject] are programs over the durable stores; the executor's
    promise, that an approved operation is dispatched at most once and exactly as
    granted, is proved for every interleaving of any number of requests. *)
From S2P Require Import Prelude PyStr PyFloat PyTime Json PyRepr Auth.
From S2P Require Import HitlStore GrantRepo IdempotencyStore EventStore Effects.

#[local] Open Scope prog_scope.

(** ** Trusted actors *)

Record TrustedActor : Type := { actor_id : string; actor_source : string }.

(** The request context: its HTTP headers, with lower-case names. *)
Record RequestContext : Type := { ctx_headers : list (string * string) }.

Class ApprovalActorResolver (R : Type) : Type :=
  resolve : R -> option RequestContext -> option TrustedActor.

Record DevelopmentHeaderResolver : Type := { header_name : string }.

Definition make_header_resolver (name : string) : DevelopmentHeaderResolver :=
  {| header_name := lower name |}.

Definition default_header_resolver : DevelopmentHeaderResolver := make_header_resolver "X-Approver-Identity".

#[export] Instance header_resolve : ApprovalActorResolver DevelopmentHeaderResolver :=
  fun r context =>
    match context with
    | None => None
    | Some ctx =>
        let identity := default "" (oget (ctx_headers ctx) (header_name r)) in
        if negb (str_true identity) then None
        else Some {| actor_id := identity; actor_source := "header" |}
    end.

Record FixedActorResolver : Type := { fixed_actor_id : string }.

#[export] Instance fixed_resolve : ApprovalActorResolver FixedActorResolver :=
  fun r _ => Some {| actor_id := fixed_actor_id r; actor_source := "test" |}.

(** ** The executor *)

Record ApprovalResult : Type := {
  ap_decision : string;
  ap_session_id : string;
  ap_answer : option string;
  ap_step_count : Z;
  ap_error : option string;
  ap_reconciliation_reason : option string;
}.

Definition ap_error_result (sid error : string) : ApprovalResult :=
  {| ap_decision := "error"; ap_session_id := sid; ap_answer := None; ap_step_count := 0;
     ap_error := Some error; ap_reconciliation_reason := None |}.

Definition ap_answer_result (decision sid answer : string) : ApprovalResult :=
  {| ap_decision := decision; ap_session_id := sid; ap_answer := Some answer; ap_step_count := 0;
     ap_error := None; ap_reconciliation_reason := None |}.

Definition checkpoint_event (sid : string) (seq : Z) (payload : dict) : prog unit :=
  perform (OEvent sid seq CHECKPOINT (JObj payload)).

Definition kind_payload (kind : string) : dict := [("kind", JStr kind)].

Definition claim_args (session : HITLSession) (actor : string) : ConsumeArgs :=
  {| ca_session_id := hs_session_id session; ca_user_id := hs_user_id session;
     ca_approving_actor_id := actor; ca_thread_id := hs_thread_id session;
     ca_run_id := hs_session_id session; ca_checkpoint_id := "";
     ca_tool_call_id := hs_tool_call_id session; ca_tool_name := hs_tool_name session;
     ca_tool_args := hs_tool_args session;
     ca_idempotency_key := default "" (hs_idempotency_key session); ca_version := 1 |}.

Section executor.
Context {R : Type} `{ApprovalActorResolver R} (actors : R).

(** The dispatch and its outcome: from the reservation of the key to the end. *)
Definition dispatch_claimed (sid : string) (session : HITLSession) (claimed : GrantRecord)
    (idem_key : string) : prog ApprovalResult :=
  do_ performE (OIdemReserve idem_key (hs_tool_name session) (hs_tool_args session)) ;;
  do exec_args <- lift (loads (g_canonical_tool_args claimed)) ;;
  do_ checkpoint_event sid 3 (kind_payload "MCP_DISPATCH_STARTED") ;;
  do r <- perform (ODispatch {| tc_name := g_tool_name claimed; tc_arguments := exec_args |}) ;;
  match r with
  | Raise _ =>
      do_ perform (OIdemMark IMUnknown idem_key) ;;
      do_ perform (OGrantMark MUnknown sid) ;;
      do_ perform (OHitlUpdate sid HFAILED (hs_version session + 1)) ;;
      do_ checkpoint_event sid 4 (kind_payload "MCP_EXECUTION_UNKNOWN") ;;
      Ret (ap_error_result sid "MCP dispatch failed — outcome unknown")
  | Ok res =>
      if tr_success res then
        do_ perform (OIdemMark (IMSucceeded (tr_content res)) idem_key) ;;
        do_ perform (OGrantMark MConsumed sid) ;;
        do_ perform (OHitlUpdate sid HRESUMED (hs_version session + 1)) ;;
        do_ checkpoint_event sid 4 (kind_payload "MCP_EXECUTION_SUCCEEDED") ;;
        Ret (ap_answer_result "approved" sid (tr_content res))
      else
        do_ perform (OIdemMark (IMFailed (opt_or (tr_error res) "unknown")) idem_key) ;;
        do_ perform (OGrantMark MFailed sid) ;;
        do_ perform (OHitlUpdate sid HFAILED (hs_version session + 1)) ;;
        do_ checkpoint_event sid 4 (kind_payload "MCP_EXECUTION_FAILED") ;;
        Ret (ap_error_result sid ("MCP failed: " +:+ default "None" (tr_error res)))
  end.

(** From the claim on: the idempotency check, then the dispatch. *)
Definition after_claim (sid : string) (session : HITLSession) (claimed : GrantRecord)
    : prog ApprovalResult :=
  do_ checkpoint_event sid 1 (kind_payload "GRANT_CLAIMED") ;;
  let idem_key := opt_or (hs_idempotency_key session) sid in
  do existing <- performE (OIdemGet idem_key) ;;
  match existing with
  | Some rec =>
      match ir_status rec with
      | ISUCCEEDED => Ret (ap_answer_result "approved" sid (opt_or (ir_result rec) "done"))
      | IRESERVED | IEXECUTING | IUNKNOWN =>
          do_ perform (OGrantMark MFailed sid) ;;
          do_ perform (OHitlUpdate sid HFAILED (hs_version session + 1)) ;;
          do_ checkpoint_event sid 2 (kind_payload "REPLAY_DENIED") ;;
          Ret (ap_error_result sid
                 ("Idempotency " +:+ idem_value (ir_status rec) +:+ " — fails closed"))
      | IFAILED => dispatch_claimed sid session claimed idem_key
      end
  | None => dispatch_claimed sid session claimed idem_key
  end.

Definition approve_with (sid : string) (session : HITLSession) (actor : TrustedActor)
    : prog ApprovalResult :=
  do ok <- perform (OGrantApprove sid (actor_id actor) 1) ;;
  if negb ok then Ret (ap_error_result sid "Grant approval failed")
  else
    do ok <- perform (OHitlUpdate sid HAPPROVED (hs_version session)) ;;
    if negb ok then Ret (ap_error_result sid "Session update failed")
    else
      do_ checkpoint_event sid 0 [("kind", JStr "APPROVAL_GRANTED"); ("actor", JStr (actor_id actor))] ;;
      do claimed <- perform (OGrantConsume
           (let a := claim_args session (actor_id actor) in
            {| ca_session_id := sid; ca_user_id := ca_user_id a;
               ca_approving_actor_id := ca_approving_actor_id a; ca_thread_id := ca_thread_id a;
               ca_run_id := sid; ca_checkpoint_id := ca_checkpoint_id a;
               ca_tool_call_id := ca_tool_call_id a; ca_tool_name := ca_tool_name a;
               ca_tool_args := ca_tool_args a; ca_idempotency_key := ca_idempotency_key a;
               ca_version := ca_version a |})) ;;
      match claimed with
      | None => Ret (ap_error_result sid "Grant already consumed")
      | Some g => after_claim sid session g
      end.

Definition reconcile (sid : string) (session : HITLSession) : prog ApprovalResult :=
  do_ perform (OHitlUpdate sid HRECONCILIATION_REQUIRED (hs_version session)) ;;
  do_ perform (OGrantMark MReconciliationRequired sid) ;;
  do_ perform (OEvent sid 0 RECONCILIATION_REQUIRED
         (JObj [("reason", JStr "missing_historical_tool_call_id"); ("session_id", JStr sid)])) ;;
  Ret {| ap_decision := "reconciliation_required"; ap_session_id := sid; ap_answer := None;
         ap_step_count := 0;
         ap_error := Some "Historical record missing tool_call_id — manual reconciliation required";
         ap_reconciliation_reason := Some "missing_historical_tool_call_id" |}.

Definition approve (sid : string) (context : option RequestContext) : prog ApprovalResult :=
  do found <- performE (OHitlGet sid) ;;
  match found with
  | None => Ret (ap_error_result sid "Session not found")
  | Some session =>
      if is_terminal session
      then Ret (ap_error_result sid ("Already " +:+ hitl_value (hs_status session)))
      else
        do now <- perform ONow ;;
        do expired <- lift (session_expired now session) ;;
        if expired : bool then
          do_ perform (OHitlUpdate sid HEXPIRED (hs_version session)) ;;
          Ret (ap_error_result sid "Session expired")
        else if negb (str_true (hs_tool_call_id session)) then reconcile sid session
        else
          match resolve actors context with
          | None => Ret (ap_error_result sid "Trusted actor identity required")
          | Some actor => approve_with sid session actor
          end
  end.

Definition reject (sid : string) (context : option RequestContext) : prog ApprovalResult :=
  do found <- performE (OHitlGet sid) ;;
  match found with
  | None => Ret (ap_error_result sid "Session not found")
  | Some session =>
      if is_terminal session
      then Ret (ap_error_result sid ("Already " +:+ hitl_value (hs_status session)))
      else
        match resolve actors context with
        | None => Ret (ap_error_result sid "Trusted actor identity required")
        | Some actor =>
            do ok <- perform (OHitlUpdate sid HREJECTED (hs_version session)) ;;
            if negb ok then Ret (ap_error_result sid "Session update failed")
            else
              do_ perform (OGrantMark MRejected sid) ;;
              do_ checkpoint_event sid 0
                    [("kind", JStr "APPROVAL_REJECTED"); ("actor", JStr (actor_id actor))] ;;
              Ret (ap_answer_result "rejected" sid "Operation was rejected by human operator.")
        end
  end.

(** ** Every dispatch is guarded by a claim *)

Lemma guarded_dispatch sid session g key :
  guarded sid (Some g) (dispatch_claimed sid session g key).
Proof.
  cbn. split; [done|]. intros [rec|e]; cbn; [|done].
  destruct (loads (g_canonical_tool_args g)) as [args|] eqn:El; cbn; [|done].
  split; [done|]. intros _. split; [by exists g|]. intros [res|e]; cbn; [|auto 20].
  destruct (tr_success res); cbn; auto 20.
Qed.

Lemma guarded_after_claim sid session g : guarded sid (Some g) (after_claim sid session g).
Proof.
  split; [done|]. intros u. split; [done|]. intros [[rec|]|e].
  - pose proof (guarded_dispatch sid session g (opt_or (hs_idempotency_key session) sid)) as Hd.
    cbn [lift bind next_held]. destruct (ir_status rec); [..|exact Hd|]; cbn; auto 20.
  - apply guarded_dispatch.
  - done.
Qed.

Lemma guarded_approve_with sid session actor : guarded sid None (approve_with sid session actor).
Proof.
  split; [done|]. intros [|]; [|done]. split; [done|]. intros [|]; [|done].
  split; [done|]. intros u. split; [done|]. intros [g|]; [|done]. apply guarded_after_claim.
Qed.

Lemma guarded_approve sid context : guarded sid None (approve sid context).
Proof.
  split; [done|]. intros [[session|]|e]; [|done|done]. cbn.
  destruct (is_terminal session); [done|]. cbn. split; [done|]. intros now.
  destruct (session_expired now session) as [[]|]; cbn; [auto 10| |done].
  destruct (str_true (hs_tool_call_id session)); cbn [negb]; [|cbn; by auto 20].
  destruct (resolve actors context); [apply guarded_approve_with|done].
Qed.

Lemma guarded_reject sid context : guarded sid None (reject sid context).
Proof.
  split; [done|]. intros [[session|]|e]; [|done|done]. cbn.
  destruct (is_terminal session); [done|]. destruct (resolve actors context); [|done].
  cbn. split; [done|]. intros [|]; cbn; auto 20.
Qed.
End executor.

(** A request to approve or reject a session. *)
Inductive Request : Type :=
  | ReqApprove (session : string) (context : option RequestContext)
  | ReqReject (session : string) (context : option RequestContext).

Definition request_thread {R} `{ApprovalActorResolver R} (actors : R) (q : Request) : Thread ApprovalResult :=
  match q with
  | ReqApprove sid ctx => {| th_session := sid; th_prog := approve actors sid ctx |}
  | ReqReject sid ctx => {| th_session := sid; th_prog := reject actors sid ctx |}
  end.

Lemma requests_guarded {R} `{ApprovalActorResolver R} (actors : R) reqs :
  Forall (fun th => guarded (th_session th) None (th_prog th)) (map (request_thread actors) reqs).
Proof.
  apply Forall_fmap, Forall_true. intros [sid ctx|sid ctx]; cbn;
    [apply guarded_approve|apply guarded_reject].
Qed.

(** ** Executions of one request alone *)

Lemma update_grant_hit id guard s st t g :
  t !! id = Some g -> guard g = true -> update_grant id guard s st t = (true, <[id := set_grant g s st]> t).
Proof. intros Hg Hgd. unfold update_grant. by rewrite Hg, Hgd. Qed.

Lemma hitl_update_hit now id st v t r :
  t !! id = Some r -> hr_version r = v ->
  hitl_update_status now id st v t =
  (true, <[id := set_row_status r (hitl_value st) (isoformat now) (v + 1)]> t).
Proof. intros Hr <-. apply update_status_true. by exists r. Qed.

(** A PENDING grant issued for a session: what the claim will compare. *)
Definition issued_for (now : Z) (s : HITLSession) (g : GrantRecord) : Prop :=
  g_status g = GPENDING /\ g_version g = 1 /\ g_requesting_user_id g = hs_user_id s /\
  g_thread_id g = hs_thread_id s /\ null_or_eq (g_run_id g) (hs_session_id s) = true /\
  null_or_eq (g_checkpoint_id g) "" = true /\
  g_tool_call_id g = hs_tool_call_id s /\ g_tool_name g = hs_tool_name s /\
  g_argument_digest g = digest (hs_tool_args s) /\
  g_idempotency_key g = default "" (hs_idempotency_key s) /\
  match g_expires_at g with Some e => text_lt (isoformat now) e = true | None => True end.

Lemma issued_consume_guard now s g actor ts :
  issued_for now s g ->
  consume_guard (isoformat now)
    {| ca_session_id := hs_session_id s; ca_user_id := hs_user_id s; ca_approving_actor_id := actor;
       ca_thread_id := hs_thread_id s; ca_run_id := hs_session_id s; ca_checkpoint_id := "";
       ca_tool_call_id := hs_tool_call_id s; ca_tool_name := hs_tool_name s;
       ca_tool_args := hs_tool_args s;
       ca_idempotency_key := default "" (hs_idempotency_key s); ca_version := 1 |}
    (set_grant g GAPPROVED
       {| st_approving_actor := Some actor; st_approved_at := ts; st_consuming_at := None;
          st_consumed_at := None; st_failed_at := None |}) = true.
Proof.
  unfold issued_for, consume_guard, is_status. cbn.
  intros (_ & -> & -> & -> & -> & -> & -> & -> & -> & -> & He). cbn.
  rewrite !String.eqb_refl. cbn. by destruct (g_expires_at g).
Qed.

Section alone.
Context {R : Type} `{ApprovalActorResolver R} (actors : R).
Context (now : Z) (mcp : ToolCall -> result ToolResult).

(** A session ready to be approved by [actor], its grant, and the call they stand for. *)
Record ready (w : World) (sid : string) (ctx : option RequestContext)
    (s : HITLSession) (g : GrantRecord) (actor : TrustedActor) (c : ToolCall) : Prop := {
  rd_session : hitl_get sid (w_hitl w) = Ok (Some s);
  rd_id : hs_session_id s = sid;
  rd_open : is_terminal s = false;
  rd_time : session_expired now s = Ok false;
  rd_call : hs_tool_call_id s <> "";
  rd_actor : resolve actors ctx = Some actor;
  rd_grant : w_grants w !! sid = Some g;
  rd_issued : issued_for now s g;
  rd_name : tc_name c = g_tool_name g;
  rd_args : loads (g_canonical_tool_args g) = Ok (tc_arguments c);
  rd_json : json_ok (hs_tool_args s) = true;
  rd_key : w_idem w !! opt_or (hs_idempotency_key s) sid = None;
}.

Lemma hitl_get_row sid t s :
  hitl_get sid t = Ok (Some s) -> exists r, t !! sid = Some r /\ row_to_hitl_session r = Ok s.
Proof.
  unfold hitl_get. destruct (t !! sid) as [r|]; [|done]. intros (x & Hx & [= ->])%res_bind_ok. eauto.
Qed.

Lemma row_version r s : row_to_hitl_session r = Ok s -> hr_version r = hs_version s.
Proof.
  unfold row_to_hitl_session. intros (st & _ & (args & _ & [= <-])%res_bind_ok)%res_bind_ok. done.
Qed.

(** The database after the approval and the claim. *)
Definition claimed_world (w : World) (sid : string) (s : HITLSession) (g2 : GrantRecord) (w' : World) : Prop :=
  w_grants w' !! sid = Some g2 /\ g_status g2 = GCONSUMING /\
  (exists r, w_hitl w' !! sid = Some r /\ hr_status r = "APPROVED" /\ hr_version r = hs_version s + 1) /\
  w_idem w' = w_idem w /\ w_calls w' = w_calls w.

Lemma approve_claims w sid ctx s g actor c :
  ready w sid ctx s g actor c ->
  exists g2 w', run now mcp (approve actors sid ctx) w = run now mcp (after_claim sid s g2) w' /\
    claimed_world w sid s g2 w' /\ g_tool_name g2 = g_tool_name g /\
    g_canonical_tool_args g2 = g_canonical_tool_args g.
Proof.
  intros Hr. destruct (hitl_get_row _ _ _ (rd_session _ _ _ _ _ _ _ Hr)) as (row & Hrow & Hs).
  pose proof (row_version _ _ Hs) as Hv. pose proof (rd_issued _ _ _ _ _ _ _ Hr) as Hi.
  unfold approve. rewrite run_doE. cbn [exec fst snd]. rewrite (rd_session _ _ _ _ _ _ _ Hr).
  cbn beta iota. rewrite (rd_open _ _ _ _ _ _ _ Hr). rewrite run_do. cbn [exec fst snd].
  rewrite run_lift, (rd_time _ _ _ _ _ _ _ Hr). cbn beta iota.
  assert (str_true (hs_tool_call_id s) = true) as -> by (apply str_true_spec, (rd_call _ _ _ _ _ _ _ Hr)).
  cbn [negb]. rewrite (rd_actor _ _ _ _ _ _ _ Hr). unfold approve_with. rewrite run_do. cbn [exec].
  unfold approve_pending. rewrite (update_grant_hit _ _ _ _ _ g (rd_grant _ _ _ _ _ _ _ Hr)) by
    (destruct Hi as (Hst & Hvs & _); unfold is_status; by rewrite Hst, Hvs).
  cbn [fst snd negb]. rewrite run_do. cbn [exec]. cbn [w_hitl upd_grants].
  rewrite (hitl_update_hit _ _ _ _ _ row Hrow Hv). cbn [fst snd negb].
  unfold checkpoint_event. rewrite run_do. cbn [exec fst snd]. rewrite run_do. cbn [exec].
  unfold atomic_consume, claim, claimed. cbn [w_grants upd_events upd_hitl upd_grants ca_session_id].
  erewrite (update_grant_hit sid _ _ _ _ _ (lookup_insert_eq _ _ _)); cycle 1.
  { rewrite <-(rd_id _ _ _ _ _ _ _ Hr). apply issued_consume_guard. exact Hi. }
  cbn beta iota zeta. rewrite lookup_insert_eq. cbn [fst snd].
  eexists _, _. split; [reflexivity|]. split; [|done]. split; [|split; [done|]].
  - cbn. by rewrite lookup_insert_eq.
  - cbn. rewrite lookup_insert_eq. split; [|done]. eexists. split; [done|]. done.
Qed.

(** How the stores end up for each answer of the MCP server. *)
Definition final_grant (m : result ToolResult) : GrantStatus :=
  match m with Ok r => if tr_success r then GCONSUMED else GFAILED | Raise _ => GUNKNOWN end.
Definition final_session (m : result ToolResult) : string :=
  match m with Ok r => if tr_success r then "RESUMED" else "FAILED" | Raise _ => "FAILED" end.
Definition final_key (m : result ToolResult) : IdempotencyStatus :=
  match m with Ok r => if tr_success r then IRESERVED else IFAILED | Raise _ => IUNKNOWN end.
Definition final_result (sid : string) (m : result ToolResult) : ApprovalResult :=
  match m with
  | Ok r => if tr_success r then ap_answer_result "approved" sid (tr_content r)
            else ap_error_result sid ("MCP failed: " +:+ default "None" (tr_error r))
  | Raise _ => ap_error_result sid "MCP dispatch failed — outcome unknown"
  end.

(** The database at the end: the claimed grant, the session and the key. *)
Definition settled (w' : World) (sid key : string) (m : result ToolResult) : Prop :=
  status_of (w_grants w') sid = Some (final_grant m) /\
  (hr_status <$> w_hitl w' !! sid = Some (final_session m)) /\
  key_status key (w_idem w') = Some (final_key m).

Lemma mark_claimed m id t g :
  t !! id = Some g -> g_status g = GCONSUMING ->
  match m with MConsumed | MFailed | MUnknown => True | _ => False end ->
  status_of (apply_grant_mark now m id t) id =
  Some (match m with MConsumed => GCONSUMED | MFailed => GFAILED | _ => GUNKNOWN end).
Proof.
  intros Hg Hs. assert (is_status GCONSUMING g = true) as Hst by by apply is_status_spec.
  destruct m; intros []; cbn; unfold GrantRepo.mark_consumed, GrantRepo.mark_failed, GrantRepo.mark_unknown, status_of;
    rewrite (update_grant_hit _ _ _ _ _ _ Hg Hst); cbn; by rewrite lookup_insert_eq.
Qed.

(** A reservation that was never marked EXECUTING: success leaves it RESERVED. *)
Lemma mark_reserved m key t row rec :
  t !! key = Some row -> iw_status row = "RESERVED" -> row_to_record row = Ok rec ->
  key_status key (snd (apply_idem_mark now m key t)) =
  Some (match m with IMExecuting => IEXECUTING | IMSucceeded _ => IRESERVED
        | IMFailed _ => IFAILED | IMUnknown => IUNKNOWN end).
Proof.
  intros Hr Hs Hrec. unfold key_status, idem_get.
  assert (Hst : ir_status rec = IRESERVED).
  { revert Hrec. unfold row_to_record. rewrite Hs. change (idem_status_of "RESERVED") with (Ok IRESERVED).
    intros (s & [= <-] & (args & _ & [= <-])%res_bind_ok)%res_bind_ok. done. }
  destruct m; cbn -[set_idem row_to_record]; unfold IdempotencyStore.mark_executing, IdempotencyStore.mark_succeeded,
      IdempotencyStore.mark_failed, IdempotencyStore.mark_unknown, update_idem; rewrite Hr, ?Hs;
    cbn -[set_idem row_to_record].
  2:{ by rewrite Hr, Hrec; cbn; rewrite Hst. }
  all: rewrite lookup_insert_eq; match goal with |- context [set_idem ?r ?st ?a ?b ?c] =>
    destruct (row_to_record_set r _ st _ a b c Hrec eq_refl) as (rec' & -> & <-) end; reflexivity.
Qed.

Lemma dispatch_settles w sid s g c key :
  w_grants w !! sid = Some g -> g_status g = GCONSUMING ->
  tc_name c = g_tool_name g -> loads (g_canonical_tool_args g) = Ok (tc_arguments c) ->
  (exists r, w_hitl w !! sid = Some r /\ hr_version r = hs_version s + 1) ->
  json_ok (hs_tool_args s) = true -> w_idem w !! key = None ->
  exists w', run now mcp (dispatch_claimed sid s g key) w = (Done (final_result sid (mcp c)), w') /\
    w_calls w' = w_calls w ++ [c] /\ settled w' sid key (mcp c).
Proof.
  intros Hg Hst Hn Ha (row & Hrow & Hv) Hj Hk.
  assert (c = {| tc_name := g_tool_name g; tc_arguments := tc_arguments c |}) as Ec
    by (destruct c; cbn in *; by subst).
  unfold dispatch_claimed. rewrite run_doE. cbn [exec].
  assert (exists rec row, reserve now key (hs_tool_name s) (hs_tool_args s) (w_idem w) = (Ok rec, <[key := row]> (w_idem w)) /\
    iw_status row = "RESERVED" /\ row_to_record row = Ok rec) as (rec & irow & Hres & Hist & Hrec).
  { unfold reserve. rewrite Hk. set (x := {| iw_key := key |}).
    destruct (reserve_ok now key (hs_tool_name s) (hs_tool_args s) Hj) as (rec & Hrec & _).
    exists rec, x. split; [|done]. f_equal. exact Hrec. }
  rewrite Hres. cbn [fst snd]. rewrite run_lift, Ha. unfold checkpoint_event.
  rewrite run_do. cbn [exec fst snd]. rewrite run_do. cbn [exec fst snd]. rewrite <-Ec.
  set (w1 := add_call _ c).
  assert (forall im gm st payload (r : ApprovalResult),
    exists w', run now mcp
      (do_ perform (OIdemMark im key) ;; do_ perform (OGrantMark gm sid) ;;
       do_ perform (OHitlUpdate sid st (hs_version s + 1)) ;;
       do_ perform (OEvent sid 4 CHECKPOINT (JObj payload)) ;; Ret r) w1 = (Done r, w') /\
      w_calls w' = w_calls w ++ [c] /\
      w_grants w' = apply_grant_mark now gm sid (w_grants w) /\
      (hr_status <$> w_hitl w' !! sid = Some (hitl_value st)) /\
      w_idem w' = snd (apply_idem_mark now im key (<[key := irow]> (w_idem w)))) as Hend.
  { intros im gm st payload r. subst w1. cbn.
    destruct (apply_idem_mark now im key _) as [b t]. cbn.
    rewrite (hitl_update_hit now sid st (hs_version s + 1) (w_hitl w) row Hrow Hv). cbn.
    eexists. split; [reflexivity|]. cbn. rewrite lookup_insert_eq. done. }
  pose proof (fun im => mark_reserved im key _ irow rec (lookup_insert_eq (w_idem w) key irow) Hist Hrec) as Hidem.
  pose proof (fun gm => mark_claimed gm sid (w_grants w) g Hg Hst) as Hgrant.
  unfold settled. destruct (mcp c) as [res|e]; cbn [final_result final_grant final_session final_key];
    [destruct (tr_success res)|].
  all: match goal with |- exists w', run _ _ (bind (perform (OIdemMark ?im _)) (fun _ =>
         bind (perform (OGrantMark ?gm _)) (fun _ => bind (perform (OHitlUpdate _ ?st _)) (fun _ =>
         bind (perform (OEvent _ _ _ (JObj ?pl))) (fun _ => Ret ?r))))) _ = _ /\ _ =>
         destruct (Hend im gm st pl r) as (w' & Hrun & Hc & Hgs & Hh & His);
     exists w'; split; [exact Hrun|]; split; [exact Hc|]; rewrite Hgs, His;
     split; [exact (Hgrant gm I)|split; [exact Hh|exact (Hidem im)]] end.
Qed.

Lemma after_claim_settles w sid s g c :
  w_grants w !! sid = Some g -> g_status g = GCONSUMING ->
  tc_name c = g_tool_name g -> loads (g_canonical_tool_args g) = Ok (tc_arguments c) ->
  (exists r, w_hitl w !! sid = Some r /\ hr_version r = hs_version s + 1) ->
  json_ok (hs_tool_args s) = true ->
  w_idem w !! opt_or (hs_idempotency_key s) sid = None ->
  exists w', run now mcp (after_claim sid s g) w = (Done (final_result sid (mcp c)), w') /\
    w_calls w' = w_calls w ++ [c] /\
    settled w' sid (opt_or (hs_idempotency_key s) sid) (mcp c).
Proof.
  intros Hg Hst Hn Ha Hrow Hj Hk. unfold after_claim, checkpoint_event.
  rewrite run_do. cbn [exec fst snd]. rewrite run_doE. cbn [exec fst snd].
  unfold idem_get. cbn [w_idem upd_events]. rewrite Hk. cbn [fst snd].
  exact (dispatch_settles (upd_events w _) sid s g c _ Hg Hst Hn Ha Hrow Hj Hk).
Qed.
End alone.

Lemma approve_settles {R} `{ApprovalActorResolver R} (actors : R) now mcp w sid ctx s g actor c :
  ready actors now w sid ctx s g actor c ->
  exists w', run now mcp (approve actors sid ctx) w = (Done (final_result sid (mcp c)), w') /\
    w_calls w' = w_calls w ++ [c] /\
    settled w' sid (opt_or (hs_idempotency_key s) sid) (mcp c).
Proof.
  intros Hr. destruct (approve_claims actors now mcp _ _ _ _ _ _ _ Hr)
    as (g2 & w1 & -> & (Hg2 & Hst & (row & Hrow & _ & Hv) & Hidem & Hcalls) & Hn & Ha).
  rewrite <-Hcalls. apply after_claim_settles; [done|done|..].
  - rewrite Hn. by apply (rd_name _ _ _ _ _ _ _ _ _ Hr).
  - rewrite Ha. by apply (rd_args _ _ _ _ _ _ _ _ _ Hr).
  - eauto.
  - by apply (rd_json _ _ _ _ _ _ _ _ _ Hr).
  - rewrite Hidem. by apply (rd_key _ _ _ _ _ _ _ _ _ Hr).
Qed.

(** ** Properties *)

(** C1: for any number of approve and reject requests on any sessions, in
    any interleaving of their statements, with any clock readings, MCP answers, concurrent
    changes of the tables, failing statements and reads of older states, each session's
    operation is dispatched at most once, and what is dispatched is the tool and the
    canonical arguments of its claimed grant. *)
Theorem approval_dispatches_at_most_once {R} `{ApprovalActorResolver R} (actors : R) reqs w s id :
  keyed (w_grants w) ->
  reach pool_step {| pl_world := w; pl_threads := map (request_thread actors) reqs; pl_log := [] |} s ->
  (log_for id (pl_log s) <= 1)%nat /\
  forall c, (id, c) ∈ pl_log s ->
    exists g, w_grants (pl_world s) !! id = Some g /\ spent (g_status g) = true /\ grant_call g c.
Proof.
  intros Hk. apply pool_dispatch_once; [done|]. apply requests_guarded.
Qed.

(** C10: approving a ready session dispatches exactly the granted call once;
    the grant ends CONSUMED, FAILED or UNKNOWN and the session RESUMED or FAILED as the
    MCP server answers. The idempotency record ends FAILED or UNKNOWN on an error but is
    still RESERVED after a success: nothing marked it EXECUTING, so the success is lost.  This is
    over the stores' maps, whose operations do not lock each other out; on the shared file an
    event refused on the way leaves it locked
    ([SqlWorld.approval_after_first_event_is_locked_out]). *)
Theorem approve_outcome {R} `{ApprovalActorResolver R} (actors : R) now mcp w sid ctx s g actor c :
  ready actors now w sid ctx s g actor c ->
  exists w', run now mcp (approve actors sid ctx) w = (Done (final_result sid (mcp c)), w') /\
    w_calls w' = w_calls w ++ [c] /\
    settled w' sid (opt_or (hs_idempotency_key s) sid) (mcp c).
Proof. apply approve_settles. Qed.

Definition witness_world : World :=
  {| w_hitl := {["s-1" := session_to_row witness_session]};
     w_grants := {["s-1" := pending_grant witness_grant_record]};
     w_idem := ∅; w_events := Some []; w_calls := [] |}.

Definition witness_call : ToolCall :=
  {| tc_name := "submit_transfer";
     tc_arguments := JObj [("draft_id", JStr "d-1"); ("user_id", JStr "user-alice")] |}.

Definition witness_mcp (c : ToolCall) : result ToolResult :=
  Ok {| tr_tool_name := tc_name c; tr_success := true; tr_content := "done"; tr_error := None |}.

Lemma witness_ready :
  ready {| fixed_actor_id := "bob" |} noon_2026 witness_world "s-1" None witness_session
    (pending_grant witness_grant_record) {| actor_id := "bob"; actor_source := "test" |} witness_call.
Proof.
  split; try reflexivity; try (vm_compute; reflexivity); try discriminate.
  repeat split; vm_compute; reflexivity.
Qed.

(** Of two requests the first is answered; the grant of its call is spent. *)
Lemma approval_dispatches_at_most_once_witness :
  let reqs := [ReqApprove "s-1" None; ReqApprove "s-1" None] in
  exists s : Pool ApprovalResult,
    reach pool_step {| pl_world := witness_world;
      pl_threads := map (request_thread {| fixed_actor_id := "bob" |}) reqs; pl_log := [] |} s /\
    pl_log s = [("s-1", witness_call)] /\ (log_for "s-1" (pl_log s) <= 1)%nat /\
    exists g, w_grants (pl_world s) !! "s-1" = Some g /\ spent (g_status g) = true /\ grant_call g witness_call.
Proof.
  intros reqs.
  destruct (run_reaches noon_2026 witness_mcp "s-1" (approve {| fixed_actor_id := "bob" |} "s-1" None)
    (map (request_thread {| fixed_actor_id := "bob" |}) [ReqApprove "s-1" None]) witness_world []) as (p' & cs & Hr & Hcs).
  assert (Hcs' : cs = [witness_call]) by (vm_compute in Hcs; symmetry; exact Hcs). subst cs.
  eexists. split; [exact Hr|]. split; [reflexivity|].
  assert (Hk : keyed (w_grants witness_world)).
  { intros id g. cbn. rewrite lookup_singleton_Some. intros [<- <-]. reflexivity. }
  destruct (approval_dispatches_at_most_once {| fixed_actor_id := "bob" |} reqs witness_world _ "s-1" Hk Hr) as [Hone Hcall].
  split; [exact Hone|]. apply Hcall. left.
Defined.

Lemma approve_outcome_witness :
  exists w', run noon_2026 witness_mcp (approve {| fixed_actor_id := "bob" |} "s-1" None) witness_world
    = (Done (ap_answer_result "approved" "s-1" "done"), w') /\
  w_calls w' = [witness_call] /\ settled w' "s-1" "s-1:call-1" (witness_mcp witness_call).
Proof.
  exact (approve_outcome {| fixed_actor_id := "bob" |} noon_2026 witness_mcp witness_world "s-1" None
           witness_session _ _ witness_call witness_ready).
Defined.

(** with the header resolver and no request context, which is how the HTTP
    endpoints call the executor, every open session that could be approved or rejected is
    answered "Trusted actor identity required" and the database is left as it was. *)
Theorem header_resolver_needs_context now mcp w sid s res :
  hitl_get sid (w_hitl w) = Ok (Some s) -> is_terminal s = false ->
  session_expired now s = Ok false -> hs_tool_call_id s <> "" ->
  run now mcp (approve (make_header_resolver res) sid None) w
    = (Done (ap_error_result sid "Trusted actor identity required"), w) /\
  run now mcp (reject (make_header_resolver res) sid None) w
    = (Done (ap_error_result sid "Trusted actor identity required"), w).
Proof.
  intros Hs Ht He Hc%str_true_spec. split.
  - unfold approve. rewrite run_doE. cbn [exec fst snd]. rewrite Hs. cbn beta iota. rewrite Ht.
    rewrite run_do. cbn [exec fst snd]. rewrite run_lift, He. cbn beta iota. by rewrite Hc.
  - unfold reject. rewrite run_doE. cbn [exec fst snd]. rewrite Hs. cbn beta iota. by rewrite Ht.
Qed.

Lemma header_resolver_needs_context_witness :
  run noon_2026 witness_mcp (approve default_header_resolver "s-1" None) witness_world
    = (Done (ap_error_result "s-1" "Trusted actor identity required"), witness_world).
Proof.
  apply (header_resolver_needs_context noon_2026 witness_mcp witness_world "s-1" witness_session
           "X-Approver-Identity"); [vm_compute; reflexivity|reflexivity|vm_compute; reflexivity|discriminate].
Defined.

(** approving or rejecting a session in a terminal status reports that status
    and changes nothing; but RESUMED is not terminal, so a session whose operation has
    been executed can still be rejected: it ends REJECTED while its grant stays CONSUMED. *)
Theorem terminal_sessions_are_final_except_resumed {R} `{ApprovalActorResolver R} (actors : R)
    now mcp w sid ctx s actor :
  hitl_get sid (w_hitl w) = Ok (Some s) -> resolve actors ctx = Some actor ->
  (is_terminal s = true ->
     run now mcp (approve actors sid ctx) w
       = (Done (ap_error_result sid ("Already " +:+ hitl_value (hs_status s))), w) /\
     run now mcp (reject actors sid ctx) w
       = (Done (ap_error_result sid ("Already " +:+ hitl_value (hs_status s))), w)) /\
  (hs_status s = HRESUMED -> status_of (w_grants w) sid = Some GCONSUMED ->
     exists w', run now mcp (reject actors sid ctx) w
       = (Done (ap_answer_result "rejected" sid "Operation was rejected by human operator."), w') /\
       (hr_status <$> w_hitl w' !! sid = Some "REJECTED") /\
       status_of (w_grants w') sid = Some GCONSUMED).
Proof.
  intros Hs Ha. destruct (hitl_get_row _ _ _ Hs) as (row & Hrow & Hrs). split.
  - intros Ht. split; [unfold approve|unfold reject]; rewrite run_doE; cbn [exec fst snd]; rewrite Hs;
      cbn beta iota; by rewrite Ht.
  - intros Hst Hg. unfold reject. rewrite run_doE. cbn [exec fst snd]. rewrite Hs. cbn beta iota.
    unfold is_terminal. rewrite Hst, Ha, run_do. cbn [exec].
    rewrite (hitl_update_hit _ _ _ _ _ row Hrow (row_version _ _ Hrs)). cbn [fst snd negb].
    rewrite run_do. cbn [exec fst snd]. unfold checkpoint_event. rewrite run_do. cbn [exec fst snd].
    eexists. split; [reflexivity|]. cbn. rewrite lookup_insert_eq. split; [done|].
    unfold GrantRepo.mark_rejected, update_grant. unfold status_of in *.
    destruct (w_grants w !! sid) as [g|] eqn:E; [|done]. cbn in Hg. injection Hg as Hg.
    unfold is_status. cbn. rewrite Hg, !bool_decide_false by done. cbn. rewrite E. cbn. by rewrite Hg.
Qed.

Lemma terminal_sessions_are_final_except_resumed_witness :
  let w := {| w_hitl := {["s-1" := set_row_status (session_to_row witness_session) "RESUMED" "" 3]};
              w_grants := {["s-1" := set_grant witness_grant_record GCONSUMED no_stamp]};
              w_idem := ∅; w_events := Some []; w_calls := [] |} in
  exists w', run noon_2026 witness_mcp (reject {| fixed_actor_id := "bob" |} "s-1" None) w
    = (Done (ap_answer_result "rejected" "s-1" "Operation was rejected by human operator."), w') /\
    (hr_status <$> w_hitl w' !! "s-1" = Some "REJECTED") /\ status_of (w_grants w') "s-1" = Some GCONSUMED.
Proof.
  intros w. destruct (hitl_get "s-1" (w_hitl w)) as [[s|]|] eqn:E; [|vm_compute in E; discriminate E..].
  destruct (terminal_sessions_are_final_except_resumed {| fixed_actor_id := "bob" |} noon_2026 witness_mcp
    w "s-1" None s {| actor_id := "bob"; actor_source := "test" |} E eq_refl) as [_ H].
  apply H; [vm_compute in E; injection E as <-; reflexivity|reflexivity].
Defined.
