(* ===== verification/SqlWorld.v ===== *)
(** The whole program on the database: the programs of [Effects], with every operation the SQL
    its store sends to the one SQLite file the stores share (bootstrap.py opens them on the same
    path), each over a connection of its own.

    Python begins a transaction before an INSERT or an UPDATE, and no store rolls one back: an
    INSERT that a constraint refuses leaves its connection in the transaction, with the write lock
    of the file, until the next statement of that connection that writes is committed.  While one
    connection holds the lock, a statement of another that would write fails and leaves that
    connection in a begun transaction, in which the next SELECT fixes the state of the file the
    connection sees; once another connection has committed a change, it can never write again.
    Python first waits five seconds for the lock; here a statement that finds it held fails at once.
    The file is in WAL mode.  The stores' first connections, which create the tables, are before
    the model's start. *)
From S2P Require Import Prelude PyStr PyTime Json PyRepr Sql Migrations SqlStmt.
From S2P Require Import HitlStore GrantRepo IdempotencyStore EventStore GrantSql IdempotencySql HitlSql EventSql.
From S2P Require Import Effects Approval.

#[local] Open Scope prog_scope.

(** ** The database file and its connections *)

Inductive Store : Type := Sessions | Grants | Reservations | Events.

#[export] Instance store_eq_dec : EqDecision Store.
Proof. solve_decision. Defined.

Definition all_stores : list Store := [Sessions; Grants; Reservations; Events].

Notation grants_name := "approved_operation_grants" (only parsing).

Definition table_name (st : Store) : string :=
  match st with
  | Sessions => "hitl_sessions" | Grants => grants_name | Reservations => "idempotency_records" | Events => "events"
  end.

(** What a connection is in between two calls: no transaction; one that was begun by a statement
    that failed for the lock; one that has read, and sees the file as it was then; one that
    wrote, and holds the lock. *)
Inductive Tx : Type := Idle | Begun | Reading (version : nat) (db : Db) | Writing.

(** The file and how often it was changed, each store's connection, whether the event store is
    connected, and the calls that reached the MCP server. *)
Record SqlWorld : Type := {
  sw_db : Db;
  sw_version : nat;
  sw_tx : Store -> Tx;
  sw_events_open : bool;
  sw_calls : list ToolCall;
}.

Definition set_tx (st : Store) (x : Tx) (s : SqlWorld) : SqlWorld :=
  {| sw_db := sw_db s; sw_version := sw_version s; sw_tx := fun st' => if decide (st' = st) then x else sw_tx s st';
     sw_events_open := sw_events_open s; sw_calls := sw_calls s |}.

(** A store cannot write: another connection holds the lock, or its own sees an older file. *)
Definition locked (st : Store) (s : SqlWorld) : bool :=
  existsb (fun st' => negb (bool_decide (st' = st)) && match sw_tx s st' with Writing => true | _ => false end) all_stores ||
  match sw_tx s st with Reading v _ => negb (Nat.eqb v (sw_version s)) | _ => false end.

(** [execute] of a SELECT. *)
Definition read {A} (st : Store) (f : Table -> result A) (s : SqlWorld) : result A * SqlWorld :=
  let db := match sw_tx s st with Reading _ db => db | _ => sw_db s end in
  (match oget (tables db) (table_name st) with Some t => f t | None => no_such_table (table_name st) end,
   match sw_tx s st with Begun => set_tx st (Reading (sw_version s) (sw_db s)) s | _ => s end).

(** [execute] of a statement that writes, then [commit]: [f] is the answer and the table it
    leaves, or how a constraint refuses it. *)
Definition write {A} (st : Store) (f : Table -> result (A * Table)) (s : SqlWorld) : result A * SqlWorld :=
  match oget (tables (sw_db s)) (table_name st) with
  | None => (no_such_table (table_name st), s)
  | Some t =>
      if locked st s then (Raise database_locked, match sw_tx s st with Idle => set_tx st Begun s | _ => s end)
      else
        match f t with
        | Raise e => (Raise e, set_tx st Writing s)
        | Ok (a, t') =>
            (Ok a, set_tx st Idle
               {| sw_db := set_tables (sw_db s) (oset (tables (sw_db s)) (table_name st) t');
                  sw_version := if decide (t' = t) then sw_version s else S (sw_version s);
                  sw_tx := sw_tx s; sw_events_open := sw_events_open s; sw_calls := sw_calls s |})
        end
  end.

(** An INSERT, with the constraint it breaks named as SQLite does. *)
Definition inserting (name : string) (r : row) (f : Table -> result Table) (t : Table) : result (unit * Table) :=
  match f t with Ok t' => Ok (tt, t') | Raise _ => Raise (violation name t r) end.

Definition sql_grant_mark (now : Z) (m : GrantMark) (id : string) (t : Table) : result (unit * Table) :=
  let* (_, t') := (match m with
                   | MConsumed => sql_mark_consumed
                   | MFailed => GrantSql.sql_mark_failed
                   | MRejected => sql_mark_rejected
                   | MReconciliationRequired => sql_mark_reconciliation_required
                   | MUnknown => GrantSql.sql_mark_unknown
                   end) now id t in
  Ok (tt, t').

Definition sql_idem_mark (now : Z) (m : IdemMark) (key : string) : Table -> result (bool * Table) :=
  match m with
  | IMExecuting => sql_mark_executing key
  | IMSucceeded res => sql_mark_succeeded now key res
  | IMFailed error => IdempotencySql.sql_mark_failed now key error
  | IMUnknown => IdempotencySql.sql_mark_unknown key
  end.

(** The first statements of [reserve] and [atomic_consume], and the SELECTs that follow. *)
Definition reserving (now : Z) (key name : string) (args : json) : SqlWorld -> result unit * SqlWorld :=
  write Reservations (fun t => Ok (tt, sql_reserve_row now key name args t)).

Definition claiming (now : Z) (a : ConsumeArgs) : SqlWorld -> result bool * SqlWorld := write Grants (sql_claim now a).

Definition reading_claim (id : string) : SqlWorld -> result (option GrantRecord) * SqlWorld :=
  read Grants (fun t => Ok (sql_claimed id t)).

(** A best-effort event: an exception of the event store is swallowed. *)
Definition sql_persist_event (now : Z) (run_id : string) (seq : Z) (kind : EventKind) (payload : json) (s : SqlWorld) : SqlWorld :=
  if sw_events_open s
  then snd (write Events (fun t =>
         let* t' := insert_event {| ev_run_id := run_id; ev_seq := seq; ev_kind := kind; ev_payload := payload;
                                    ev_timestamp := isoformat now |} t in
         Ok (tt, t')) s)
  else s.

(** The answer of an operation whose exceptions the program sees. *)
Definition answered {A} (m : result A * SqlWorld) : result (result A) * SqlWorld := let '(r, s) := m in (Ok r, s).

(** One operation at time [now], when the MCP server answers [mcp]: its answer, or the exception
    that escapes the request. *)
Definition sql_exec (now : Z) (mcp : ToolCall -> result ToolResult) {R} (o : op R) (s : SqlWorld) : result R * SqlWorld :=
  match o in op R return result R * SqlWorld with
  | ONow => (Ok now, s)
  | OHitlGet id => answered (read Sessions (sql_hitl_get id) s)
  | OHitlInsert x =>
      answered (write Sessions (inserting "hitl_sessions" (session_row (session_to_row x)) (sql_hitl_insert x)) s)
  | OHitlUpdate id st v => write Sessions (sql_hitl_update_status now id st v) s
  | OGrantInsert g => answered (write Grants (inserting grants_name (grant_row (pending_grant g)) (sql_insert_pending g)) s)
  | OGrantApprove id actor v => write Grants (sql_approve_pending now id actor v) s
  | OGrantConsume a =>
      let '(won, s1) := claiming now a s in
      match won with
      | Ok true => reading_claim (ca_session_id a) s1
      | Ok false => (Ok None, s1)
      | Raise e => (Raise e, s1)
      end
  | OGrantClaimed id => reading_claim id s
  | OGrantMark m id => write Grants (sql_grant_mark now m id) s
  | OIdemGet key => answered (read Reservations (sql_idem_get key) s)
  | OIdemReserve key name args =>
      let '(r, s1) := reserving now key name args s in
      match r with
      | Ok _ => answered (read Reservations (sql_reserved key) s1)
      | Raise e => (Ok (Raise e), s1)
      end
  | OIdemReserved key => answered (read Reservations (sql_reserved key) s)
  | OIdemMark m key => write Reservations (sql_idem_mark now m key) s
  | OEvent run_id seq kind payload => (Ok tt, sql_persist_event now run_id seq kind payload s)
  | ODispatch c =>
      (Ok (mcp c), {| sw_db := sw_db s; sw_version := sw_version s; sw_tx := sw_tx s;
                      sw_events_open := sw_events_open s; sw_calls := sw_calls s ++ [c] |})
  end.

(** A program alone, up to the first exception that escapes a store. *)
Fixpoint sql_run {A} (now : Z) (mcp : ToolCall -> result ToolResult) (p : prog A) (s : SqlWorld) : outcome A * SqlWorld :=
  match p with
  | Ret a => (Done a, s)
  | Throw e => (Failed e, s)
  | Pause v => (Paused v, s)
  | Op o k => let '(r, s') := sql_exec now mcp o s in match r with Ok r => sql_run now mcp (k r) s' | Raise e => (Failed e, s') end
  end.

(** Requests one after the other, each at its time and with its answers of the MCP server. *)
Record Served (A : Type) : Type := { sv_now : Z; sv_mcp : ToolCall -> result ToolResult; sv_prog : prog A }.
Arguments sv_now {A} _.
Arguments sv_mcp {A} _ _.
Arguments sv_prog {A} _.

Definition serve_sql {A} (q : Served A) (s : SqlWorld) : outcome A * SqlWorld := sql_run (sv_now q) (sv_mcp q) (sv_prog q) s.
Definition serve_maps {A} (q : Served A) (w : World) : outcome A * World := run (sv_now q) (sv_mcp q) (sv_prog q) w.

(** No constraint refuses what the request stores. *)
Definition accepted {R} (now : Z) (o : op R) (w : World) : bool :=
  match o with
  | OHitlInsert x => match hitl_insert x (w_hitl w) with Ok _ => true | Raise _ => false end
  | OGrantInsert g => match insert_pending g (w_grants w) with Ok _ => true | Raise _ => false end
  | OEvent run_id seq kind payload =>
      match w_events w with Some rows => negb (existsb (same_slot run_id seq) rows) | None => true end
  | _ => true
  end.

Fixpoint all_accepted {A} (now : Z) (mcp : ToolCall -> result ToolResult) (p : prog A) (w : World) : bool :=
  match p with
  | Op o k => accepted now o w && let '(r, w') := exec now mcp o w in all_accepted now mcp (k r) w'
  | _ => true
  end.

Fixpoint all_served {A} (reqs : list (Served A)) (w : World) : bool :=
  match reqs with
  | [] => true
  | q :: reqs' => all_accepted (sv_now q) (sv_mcp q) (sv_prog q) w && all_served reqs' (snd (serve_maps q w))
  end.

(** ** Interleaving *)

(** The file, the requests in flight, and each dispatch with the session whose request made it. *)
Record SqlPool (A : Type) : Type := {
  sp_world : SqlWorld;
  sp_threads : list (Thread A);
  sp_log : list (string * ToolCall);
}.
Arguments sp_world {A} _.
Arguments sp_threads {A} _.
Arguments sp_log {A} _.

(** What other code does: a statement of the stores, the sweep of expired sessions, or a change
    of tables that are not the stores'. *)
Inductive other_code : SqlWorld -> SqlWorld -> Prop :=
  | oc_op s s' R (o : op R) r now mcp :
      whole o = true -> dispatched "" o = [] -> sql_exec now mcp o s = (r, s') -> other_code s s'
  | oc_claim s s' now a r : claiming now a s = (r, s') -> other_code s s'
  | oc_reserve s s' now key name args r : reserving now key name args s = (r, s') -> other_code s s'
  | oc_sweep s s' now r : write Sessions (sql_expire_stale_sessions now) s = (r, s') -> other_code s s'
  | oc_foreign s db :
      (forall st, oget (tables db) (table_name st) = oget (tables (sw_db s)) (table_name st)) ->
      other_code s {| sw_db := db; sw_version := S (sw_version s); sw_tx := sw_tx s;
                      sw_events_open := sw_events_open s; sw_calls := sw_calls s |}.

(** One statement of one request, or of other code. *)
Inductive sql_pool_step {A} : SqlPool A -> SqlPool A -> Prop :=
  | sp_op s s' ths1 ths2 id R (o : op R) (k : R -> prog A) r log now mcp :
      whole o = true -> sql_exec now mcp o s = (r, s') ->
      sql_pool_step
        {| sp_world := s; sp_threads := ths1 ++ {| th_session := id; th_prog := Op o k |} :: ths2; sp_log := log |}
        {| sp_world := s';
           sp_threads := ths1 ++ {| th_session := id; th_prog := match r with Ok r => k r | Raise e => Throw e end |} :: ths2;
           sp_log := log ++ dispatched id o |}
  | sp_claim s s' ths1 ths2 id a (k : option GrantRecord -> prog A) r log now :
      claiming now a s = (r, s') ->
      sql_pool_step
        {| sp_world := s; sp_threads := ths1 ++ {| th_session := id; th_prog := Op (OGrantConsume a) k |} :: ths2; sp_log := log |}
        {| sp_world := s';
           sp_threads := ths1 ++ {| th_session := id; th_prog :=
             match r with Ok true => Op (OGrantClaimed (ca_session_id a)) k | Ok false => k None | Raise e => Throw e end |} :: ths2;
           sp_log := log |}
  | sp_reserve s s' ths1 ths2 id key name args (k : result IdempotencyRecord -> prog A) r log now :
      reserving now key name args s = (r, s') ->
      sql_pool_step
        {| sp_world := s; sp_threads := ths1 ++ {| th_session := id; th_prog := Op (OIdemReserve key name args) k |} :: ths2; sp_log := log |}
        {| sp_world := s';
           sp_threads := ths1 ++ {| th_session := id; th_prog :=
             match r with Ok _ => Op (OIdemReserved key) k | Raise e => k (Raise e) end |} :: ths2;
           sp_log := log |}
  | sp_other s s' ths log :
      other_code s s' ->
      sql_pool_step {| sp_world := s; sp_threads := ths; sp_log := log |} {| sp_world := s'; sp_threads := ths; sp_log := log |}.

(** The grant of a session, read from the file. *)
Definition grant_in_file (s : SqlWorld) (id : string) : option GrantRecord :=
  t ← oget (tables (sw_db s)) grants_name; sql_get_by_session id t.

(** ** The file holds the maps *)

Definition table_holds {X} `{Stored X} (db : Db) (name : string) (m : gmap string X) : Prop :=
  exists t, oget (tables db) name = Some t /\ represents t m.

Definition events_hold (db : Db) (is_open : bool) (events : EventDB) : Prop :=
  exists rows, oget (tables db) "events" = Some (log_table rows) /\ NoDup (map slot rows) /\
    events = if is_open then Some rows else None.

Record file_holds (s : SqlWorld) (w : World) : Prop := {
  fh_sessions : table_holds (sw_db s) "hitl_sessions" (w_hitl w);
  fh_grants : table_holds (sw_db s) grants_name (w_grants w);
  fh_idem : table_holds (sw_db s) "idempotency_records" (w_idem w);
  fh_events : events_hold (sw_db s) (sw_events_open s) (w_events w);
  fh_calls : sw_calls s = w_calls w;
}.

(** No connection is in a transaction. *)
Definition quiet (s : SqlWorld) : Prop := forall st, sw_tx s st = Idle.

(** The file and the maps after the first start, with the event store connected. *)
Definition fresh_file : SqlWorld :=
  {| sw_db := ef_db (snd (sql_event_connect true (new_file (snd (start empty_db))))); sw_version := 0; sw_tx := fun _ => Idle;
     sw_events_open := true; sw_calls := [] |}.

Definition fresh_world : World :=
  {| w_hitl := ∅; w_grants := ∅; w_idem := ∅; w_events := Some []; w_calls := [] |}.

(** ** Lemmas: one statement *)

(** What a statement keeps. *)
Record kept (s s' : SqlWorld) : Prop := {
  kp_open : sw_events_open s' = sw_events_open s;
  kp_calls : sw_calls s' = sw_calls s;
  kp_tx : sw_tx s' Grants = sw_tx s Grants \/ forall v db, sw_tx s' Grants = Reading v db -> db = sw_db s';
}.

Lemma kept_refl s : kept s s.
Proof. split; auto. Qed.

Lemma kept_trans s1 s2 s3 : sw_db s3 = sw_db s2 -> kept s1 s2 -> kept s2 s3 -> kept s1 s3.
Proof.
  intros E [Ho Hc Ht] [Ho' Hc' Ht']. split; [congruence..|]. destruct Ht' as [->|Ht']; [|by right].
  destruct Ht as [->|Ht]; [by left|]. right. intros v db H. rewrite E. by eapply Ht.
Qed.

Lemma set_tx_grants st x s :
  (forall v db, x = Reading v db -> db = sw_db s) ->
  sw_tx (set_tx st x s) Grants = sw_tx s Grants \/ forall v db, sw_tx (set_tx st x s) Grants = Reading v db -> db = sw_db s.
Proof. intros Hx. cbn. destruct (decide (Grants = st)); [by right|by left]. Qed.

Lemma read_effect {A} st (f : Table -> result A) s r s' : read st f s = (r, s') -> sw_db s' = sw_db s /\ kept s s'.
Proof.
  unfold read. intros [= _ <-]. destruct (sw_tx s st); try (by split; [|apply kept_refl]). split; [done|].
  split; [done..|]. apply (set_tx_grants st (Reading _ _) s). by intros v db [= _ <-].
Qed.

(** A write fails and leaves the file, or does what it does to its table. *)
Lemma write_effect {A} st (f : Table -> result (A * Table)) s r s' :
  write st f s = (r, s') ->
  kept s s' /\
  ((exists e, r = Raise e) /\ sw_db s' = sw_db s \/
   exists t a t', r = Ok a /\ oget (tables (sw_db s)) (table_name st) = Some t /\ f t = Ok (a, t') /\
     sw_db s' = set_tables (sw_db s) (oset (tables (sw_db s)) (table_name st) t')).
Proof.
  unfold write. destruct (oget _ _) as [t|] eqn:Et; [|intros [= <- <-]; split; [apply kept_refl|left; eauto]].
  destruct (locked st s).
  { intros [= <- <-]. split; [|left; split; [eauto|by destruct (sw_tx s st)]].
    destruct (sw_tx s st); try apply kept_refl. split; [done..|]. by apply (set_tx_grants st Begun s). }
  destruct (f t) as [[a t']|e] eqn:Ef; intros [= <- <-].
  - split; [|right; by exists t, a, t']. split; [done..|]. cbn. by destruct (decide (Grants = st)); [right|left].
  - split; [|left; eauto]. split; [done..|]. by apply (set_tx_grants st Writing s).
Qed.

Lemma quiet_unlocked st s : quiet s -> locked st s = false.
Proof. intros Hq. unfold locked. cbn [all_stores existsb]. rewrite !Hq. by rewrite !andb_false_r. Qed.

Lemma write_quiet {A} st (f : Table -> result (A * Table)) s t a t' :
  quiet s -> oget (tables (sw_db s)) (table_name st) = Some t -> f t = Ok (a, t') ->
  fst (write st f s) = Ok a /\ quiet (snd (write st f s)).
Proof.
  intros Hq Ht Hf. unfold write. rewrite Ht, (quiet_unlocked st s Hq), Hf. split; [done|].
  intros st'. cbn. by destruct (decide (st' = st)).
Qed.

Lemma read_quiet {A} st (f : Table -> result A) s t :
  quiet s -> oget (tables (sw_db s)) (table_name st) = Some t -> read st f s = (f t, s).
Proof. intros Hq Ht. unfold read. by rewrite Hq, Ht. Qed.

(** A refused write keeps the lock. *)
Lemma write_refused {A} st (f : Table -> result (A * Table)) s t e :
  quiet s -> oget (tables (sw_db s)) (table_name st) = Some t -> f t = Raise e ->
  write st f s = (Raise e, set_tx st Writing s) /\ forall st', st' <> st -> locked st' (set_tx st Writing s) = true.
Proof.
  intros Hq Ht Hf. unfold write. rewrite Ht, (quiet_unlocked st s Hq), Hf. split; [done|].
  intros st' Hne. unfold locked. apply orb_true_iff. left. apply existsb_exists. exists st.
  split; [by destruct st; cbn; auto|]. cbn. rewrite decide_True, bool_decide_false by congruence. done.
Qed.

(** ** Lemmas: the file and the maps *)

Lemma table_holds_other {X} `{Stored X} name (m : gmap string X) db db' :
  oget (tables db') name = oget (tables db) name -> table_holds db name m -> table_holds db' name m.
Proof. intros E (t & Ht & Hr). exists t. by rewrite E. Qed.

Lemma table_holds_set {X} `{Stored X} name (m : gmap string X) db t :
  represents t m -> table_holds (set_tables db (oset (tables db) name t)) name m.
Proof. intros Hr. exists t. split; [|done]. cbn. by rewrite oget_oset_eq. Qed.

Lemma events_hold_other db db' is_open events :
  oget (tables db') "events" = oget (tables db) "events" -> events_hold db is_open events -> events_hold db' is_open events.
Proof. intros E (rows & Ht & H). exists rows. by rewrite E. Qed.

Lemma set_table_other db name t other :
  other <> name -> oget (tables (set_tables db (oset (tables db) name t))) other = oget (tables db) other.
Proof. intros Hne. cbn. by rewrite oget_oset_ne. Qed.

(** The same tables hold the same maps. *)
Lemma file_holds_same s s' w :
  (forall st, oget (tables (sw_db s')) (table_name st) = oget (tables (sw_db s)) (table_name st)) ->
  sw_events_open s' = sw_events_open s -> sw_calls s' = sw_calls s -> file_holds s w -> file_holds s' w.
Proof.
  intros E Eo Ec [Hh Hg Hi He Hc]. split; [by eapply table_holds_other; [apply (E Sessions)|]|by eapply table_holds_other; [apply (E Grants)|]
    |by eapply table_holds_other; [apply (E Reservations)|]| |congruence].
  rewrite Eo. by eapply events_hold_other; [apply (E Events)|].
Qed.

Lemma file_holds_db s s' w : sw_db s' = sw_db s -> kept s s' -> file_holds s w -> file_holds s' w.
Proof. intros E [Eo Ec _]. apply file_holds_same; [by rewrite E|done..]. Qed.

(** What a statement did, when the maps go from [w] to [w'] with the answer [a]: it failed and
    the file holds what it held, or it did the same; between two transactions it does not fail. *)
Record runs {A} (m : result A * SqlWorld) (a : A) (s : SqlWorld) (w w' : World) : Prop := {
  rn_kept : kept s (snd m);
  rn_answer : (exists e, fst m = Raise e) /\ file_holds (snd m) w \/ fst m = Ok a /\ file_holds (snd m) w';
  rn_quiet : quiet s -> fst m = Ok a /\ file_holds (snd m) w' /\ quiet (snd m);
}.

(** One table's statement, in the world of all of them. *)
Section stores.
Context (s : SqlWorld) (w : World).
Hypothesis Hs : file_holds s w.

Lemma write_runs {A X} `{Stored X} st (f : Table -> result (A * Table)) (a : A) (m m' : gmap string X) w' :
  table_holds (sw_db s) (table_name st) m ->
  (forall t, represents t m -> exists t', f t = Ok (a, t') /\ represents t' m') ->
  (forall s' t', sw_db s' = set_tables (sw_db s) (oset (tables (sw_db s)) (table_name st) t') -> kept s s' ->
     represents t' m' -> file_holds s' w') ->
  runs (write st f s) a s w w'.
Proof using Hs.
  intros (t & Ht & Hr) Hf Hw. destruct (Hf t Hr) as (t' & E & Hr'). destruct (write st f s) as [r s'] eqn:Ew.
  destruct (write_effect st f s r s' Ew) as [Hk Hcases].
  assert (Hok : forall t0 a0 t0', r = Ok a0 -> oget (tables (sw_db s)) (table_name st) = Some t0 -> f t0 = Ok (a0, t0') ->
    sw_db s' = set_tables (sw_db s) (oset (tables (sw_db s)) (table_name st) t0') -> r = Ok a /\ file_holds s' w').
  { intros t0 a0 t0' Er Et Ef Edb. assert (t0 = t) as -> by congruence. assert (a0 = a /\ t0' = t') as [-> ->] by (split; congruence).
    split; [done|]. by apply (Hw s' t'). }
  split; [done| |].
  - destruct Hcases as [[He Edb]|(t0 & a0 & t0' & ? & ? & ? & ?)]; [left; split; [done|by eapply file_holds_db]|right; by eapply Hok].
  - intros Hq. destruct (write_quiet st f s t a t' Hq Ht E) as [Er Hq']. rewrite Ew in Er, Hq'. cbn [fst snd] in *.
    destruct Hcases as [[[e ->] _]|(t0 & a0 & t0' & ? & ? & ? & ?)]; [done|].
    destruct (Hok t0 a0 t0') as [-> ?]; done.
Qed.

Lemma sessions_run {A} (f : Table -> result (A * Table)) a m' :
  (forall t, represents t (w_hitl w) -> exists t', f t = Ok (a, t') /\ represents t' m') ->
  runs (write Sessions f s) a s w (upd_hitl w m').
Proof using Hs.
  intros Hf. destruct Hs as [Hh Hg Hi He Hc]. apply (write_runs Sessions f a (w_hitl w) m'); [done|done|].
  intros s' t' Edb [Eo Ec _] Hr. split; rewrite ?Edb; [by apply table_holds_set|by eapply table_holds_other; [by apply set_table_other|]..| |by rewrite Ec].
  rewrite Eo. by eapply events_hold_other; [by apply set_table_other|].
Qed.

Lemma grants_run {A} (f : Table -> result (A * Table)) a m' :
  (forall t, represents t (w_grants w) -> exists t', f t = Ok (a, t') /\ represents t' m') ->
  runs (write Grants f s) a s w (upd_grants w m').
Proof using Hs.
  intros Hf. destruct Hs as [Hh Hg Hi He Hc]. apply (write_runs Grants f a (w_grants w) m'); [done|done|].
  intros s' t' Edb [Eo Ec _] Hr. split; rewrite ?Edb;
    [by eapply table_holds_other; [by apply set_table_other|]|by apply table_holds_set|by eapply table_holds_other; [by apply set_table_other|]| |by rewrite Ec].
  rewrite Eo. by eapply events_hold_other; [by apply set_table_other|].
Qed.

Lemma idem_run {A} (f : Table -> result (A * Table)) a m' :
  (forall t, represents t (w_idem w) -> exists t', f t = Ok (a, t') /\ represents t' m') ->
  runs (write Reservations f s) a s w (upd_idem w m').
Proof using Hs.
  intros Hf. destruct Hs as [Hh Hg Hi He Hc]. apply (write_runs Reservations f a (w_idem w) m'); [done|done|].
  intros s' t' Edb [Eo Ec _] Hr. split; rewrite ?Edb; [by eapply table_holds_other; [by apply set_table_other|]..|by apply table_holds_set| |by rewrite Ec].
  rewrite Eo. by eapply events_hold_other; [by apply set_table_other|].
Qed.

Lemma claiming_runs now a : runs (claiming now a s) (fst (claim now a (w_grants w))) s w (upd_grants w (snd (claim now a (w_grants w)))).
Proof using Hs. apply grants_run. intros t Hr. by apply claim_simulated. Qed.

Lemma reserving_runs now key name args :
  runs (reserving now key name args s) tt s w (upd_idem w (snd (reserve now key name args (w_idem w)))).
Proof using Hs.
  apply idem_run. intros t Hr. eexists. split; [done|]. exact (proj2 (reserve_simulated now key name args t (w_idem w) Hr)).
Qed.
End stores.

(** ** Lemmas: one operation *)

(** The mark as a call of its repository. *)
Definition grant_mark_op (now : Z) (m : GrantMark) (id : string) : GrantOp :=
  match m with
  | MConsumed => GConsumed now id | MFailed => GFail now id | MRejected => GReject now id
  | MReconciliationRequired => GReconcile now id | MUnknown => GUnknown now id
  end.

Definition idem_mark_op (now : Z) (m : IdemMark) (key : string) : IdemOp :=
  match m with
  | IMExecuting => IExecuting key | IMSucceeded res => ISucceeded now key res
  | IMFailed error => IFail now key error | IMUnknown => IUnknown key
  end.

Lemma grant_mark_simulated now m id tbl t :
  represents tbl t ->
  exists tbl', sql_grant_mark now m id tbl = Ok (tt, tbl') /\ represents tbl' (apply_grant_mark now m id t).
Proof.
  intros Hr. pose proof (step_simulated (grant_mark_op now m id) tbl t Hr) as [E H]. unfold sql_grant_mark.
  destruct m; cbn [grant_mark_op sql_step map_step] in E, H;
    match type of E with context [match ?x with Ok _ => _ | Raise _ => _ end] => destruct x as [[n t']|] end; try done; by exists t'.
Qed.

Lemma idem_mark_simulated now m key tbl t :
  represents tbl t ->
  exists tbl', sql_idem_mark now m key tbl = Ok (fst (apply_idem_mark now m key t), tbl') /\
    represents tbl' (snd (apply_idem_mark now m key t)).
Proof.
  intros Hr. pose proof (idem_step_simulated (idem_mark_op now m key) tbl t Hr) as [E H]. unfold sql_idem_mark, apply_idem_mark.
  destruct m; cbn [idem_mark_op sql_idem_step map_idem_step] in E, H;
    match type of E with context [match ?x with Ok _ => _ | Raise _ => _ end] => destruct x as [[b t']|] end;
    match type of E with context [let '(_, _) := ?y in _] => destruct y as [b' m'] end; cbn in E, H; simplify_eq; by exists t'.
Qed.

(** An INSERT that the map takes, and one it refuses. *)
Lemma hitl_insert_taken x t m m' :
  represents t m -> hitl_insert x m = Ok m' ->
  exists t', inserting "hitl_sessions" (session_row (session_to_row x)) (sql_hitl_insert x) t = Ok (tt, t') /\ represents t' m'.
Proof.
  intros Hr E. pose proof (hitl_insert_simulated x t m Hr) as H. rewrite E in H. unfold inserting.
  destruct (sql_hitl_insert x t) as [t'|]; [by exists t'|done].
Qed.

Lemma hitl_insert_fails x t m e :
  represents t m -> hitl_insert x m = Raise e ->
  inserting "hitl_sessions" (session_row (session_to_row x)) (sql_hitl_insert x) t = Raise e.
Proof.
  intros Hr E. pose proof (hitl_insert_simulated x t m Hr) as H. rewrite E in H. unfold inserting.
  destruct (sql_hitl_insert x t) as [t'|]; [by destruct e|]. f_equal. by eapply hitl_insert_refused.
Qed.

Lemma grant_insert_taken g t m m' :
  represents t m -> insert_pending g m = Ok m' ->
  exists t', inserting grants_name (grant_row (pending_grant g)) (sql_insert_pending g) t = Ok (tt, t') /\ represents t' m'.
Proof.
  intros Hr E. pose proof (insert_simulated g t m Hr) as H. rewrite E in H. unfold inserting.
  destruct (sql_insert_pending g t) as [t'|]; [by exists t'|done].
Qed.

Lemma grant_insert_fails g t m e :
  represents t m -> insert_pending g m = Raise e ->
  inserting grants_name (grant_row (pending_grant g)) (sql_insert_pending g) t = Raise e.
Proof.
  intros Hr E. pose proof (insert_simulated g t m Hr) as H. rewrite E in H. unfold inserting.
  destruct (sql_insert_pending g t) as [t'|]; [by destruct e|]. f_equal. by eapply insert_refused.
Qed.

(** The events: what an accepted one, a refused one, and one without a connection do. *)
Definition the_event (now : Z) (run_id : string) (seq : Z) (kind : EventKind) (payload : json) : AgentEvent :=
  {| ev_run_id := run_id; ev_seq := seq; ev_kind := kind; ev_payload := payload; ev_timestamp := isoformat now |}.

Lemma persist_event_cases now run_id seq kind payload s w :
  file_holds s w ->
  let s' := sql_persist_event now run_id seq kind payload s in
  let w' := upd_events w (persist_event now run_id seq kind payload (w_events w)) in
  kept s s' /\ (file_holds s' w \/ file_holds s' w') /\
  (quiet s -> file_holds s' w' /\
     (if accepted now (OEvent run_id seq kind payload) w then quiet s'
      else s' = set_tx Events Writing s /\ w_events w' = w_events w)).
Proof.
  intros Hs. pose proof Hs as [Hh Hg Hi (rows & Ht & Hnd & Hev) Hc]. cbn zeta. unfold sql_persist_event, persist_event, accepted.
  fold (the_event now run_id seq kind payload). set (e := the_event _ _ _ _ _). rewrite Hev. destruct (sw_events_open s) eqn:Eo.
  2: { cbn [event_insert]. rewrite <-Hev. assert (upd_events w (w_events w) = w) as -> by (by destruct w).
       split; [apply kept_refl|]. auto. }
  set (f := fun t => let* t' := insert_event e t in Ok (tt, t')).
  pose proof (insert_event_log e rows Hnd) as Hins. cbn [event_insert].
  change (ev_run_id e) with run_id in *. change (ev_seq e) with seq in *.
  destruct (write Events f s) as [r s'] eqn:Ew. destruct (write_effect _ _ _ _ _ Ew) as [Hk Hcases].
  destruct (existsb (same_slot run_id seq) rows) eqn:Edup; cbn [negb].
  - assert (Hf : f (log_table rows) = Raise (IntegrityError "constraint failed")) by (unfold f; by rewrite Hins).
    assert (Hsame : file_holds s' w).
    { destruct Hcases as [[_ Edb]|(t & a & t' & _ & Et & Ef & _)]; [by eapply file_holds_db|]. cbn [table_name] in Et. congruence. }
    rewrite <-Hev. assert (upd_events w (w_events w) = w) as -> by (by destruct w). split; [done|]. split; [by left|].
    intros Hq. split; [done|]. split; [|done]. destruct (write_refused Events f s (log_table rows) _ Hq Ht Hf) as [E _]. cbn [snd]. congruence.
  - assert (Hf : f (log_table rows) = Ok (tt, log_table (rows ++ [event_to_row e]))) by (unfold f; by rewrite Hins).
    assert (Hnew : sw_db s' = set_tables (sw_db s) (oset (tables (sw_db s)) "events" (log_table (rows ++ [event_to_row e]))) ->
      file_holds s' (upd_events w (Some (rows ++ [event_to_row e])))).
    { intros Edb. destruct Hk as [Ho Hcl _]. split; rewrite ?Edb; [by eapply table_holds_other; [by apply set_table_other|]..| |by rewrite Hcl].
      exists (rows ++ [event_to_row e]). split; [cbn; by rewrite oget_oset_eq|]. split; [|by rewrite Ho, Eo].
      by apply (slots_snoc e). }
    split; [done|]. split.
    + destruct Hcases as [[_ Edb]|(t & a & t' & _ & Et & Ef & Edb)]; [left; by eapply file_holds_db|right].
      cbn [table_name] in *. apply Hnew. congruence.
    + intros Hq. destruct (write_quiet Events f s _ _ _ Hq Ht Hf) as [Er Hq']. rewrite Ew in Er, Hq'. cbn [fst snd] in *. split; [|done].
      destruct Hcases as [[[x Ex] _]|(t & a & t' & _ & Et & Ef & Edb)]; [congruence|]. cbn [table_name] in *. apply Hnew. congruence.
Qed.

(** A failed statement, seen by the program. *)
Lemma answered_run {A} (m : result A * SqlWorld) (a : A) s w w' :
  runs m a s w w' ->
  kept s (snd (answered m)) /\
  ((exists e, fst (answered m) = Ok (Raise e)) /\ file_holds (snd (answered m)) w \/
   fst (answered m) = Ok (Ok a) /\ file_holds (snd (answered m)) w') /\
  (quiet s -> fst (answered m) = Ok (Ok a) /\ file_holds (snd (answered m)) w' /\ quiet (snd (answered m))).
Proof.
  destruct m as [r s']. intros [Hk Ha Hq]. cbn in *. split; [done|]. split.
  - destruct Ha as [[[e ->] ?]|[-> ?]]; [left; eauto|by right].
  - intros H. destruct (Hq H) as [-> ?]. done.
Qed.

Lemma refused_run {A} st (f : Table -> result (A * Table)) s w e :
  file_holds s w -> (forall t, oget (tables (sw_db s)) (table_name st) = Some t -> f t = Raise e) ->
  kept s (snd (write st f s)) /\ (exists x, fst (write st f s) = Raise x) /\ file_holds (snd (write st f s)) w.
Proof.
  intros Hs Hf. destruct (write st f s) as [r s'] eqn:Ew. destruct (write_effect st f s r s' Ew) as [Hk Hc]. cbn.
  destruct Hc as [[He Edb]|(t & a & t' & _ & Et & Ef & _)]; [|rewrite (Hf t Et) in Ef; done].
  split; [done|]. split; [done|by eapply file_holds_db].
Qed.

Lemma holds_table {X} `{Stored X} db name (m : gmap string X) t :
  table_holds db name m -> oget (tables db) name = Some t -> represents t m.
Proof. intros (t' & Ht & Hr). congruence. Qed.

(** What the grants' connection sees is bound to what is there. *)
Definition older (db : Db) (w : World) : Prop :=
  exists m, table_holds db grants_name m /\
    forall id g, m !! id = Some g -> matches_row (w_grants w) id (fun g' => bound_operation g' = bound_operation g).

Definition snapshot_ok (s : SqlWorld) (w : World) : Prop := forall v db, sw_tx s Grants = Reading v db -> older db w.

Lemma older_refl s w : file_holds s w -> older (sw_db s) w.
Proof. intros Hs. exists (w_grants w). split; [apply Hs|]. intros id g Hg. by exists g. Qed.

Definition grants_kept (w w' : World) : Prop :=
  w_grants w' = w_grants w \/ exists gop, w_grants w' = snd (grant_step gop (w_grants w)).

Lemma snapshot_step s s' w w' :
  snapshot_ok s w -> (sw_tx s' Grants = sw_tx s Grants \/ forall v db, sw_tx s' Grants = Reading v db -> db = sw_db s') ->
  file_holds s' w' -> grants_kept w w' -> snapshot_ok s' w'.
Proof.
  intros Hs Hk Hf Hg v db Hr. destruct Hk as [E|E].
  - rewrite E in Hr. destruct (Hs v db Hr) as (m & Hm & Hold). exists m. split; [done|]. intros id g Hid.
    specialize (Hold id g Hid). destruct Hg as [Eg|[gop Eg]]; rewrite Eg; [done|]. apply matches_row_step; [congruence|done].
  - specialize (E v db Hr). subst db. by apply older_refl.
Qed.

Lemma reading_claim_answer id s w r s' :
  file_holds s w -> snapshot_ok s w -> reading_claim id s = (r, s') ->
  (exists e, r = Raise e) \/ exists g, r = Ok g /\ unchanged_answer w (OGrantClaimed id) g.
Proof.
  intros Hs Hsnap. unfold reading_claim, read. intros [= <- _]. set (db := match _ with Reading _ db => db | _ => _ end).
  assert (older db w) as (m & (t & Ht & Hr) & Hold).
  { subst db. destruct (sw_tx s Grants) as [| |v db|] eqn:E; [by apply older_refl..|by eapply Hsnap|by apply older_refl]. }
  cbn [table_name]. rewrite Ht. right. eexists. split; [done|]. intros g. rewrite (claimed_simulated id t m Hr). unfold claimed.
  destruct (m !! id) as [g'|] eqn:Eg; [|done]. destruct (is_status _ _); [|done]. intros [= ->]. by apply Hold.
Qed.

(** One statement of a request is a step of the maps: the operation, or one that changes
    nothing, or one that fails. *)
Definition simulated {R} (w : World) (o : op R) (r : result R) (s' : SqlWorld) (a : R) (w' : World) : Prop :=
  r = Ok a /\ file_holds s' w' \/
  file_holds s' w /\ (forall id, dispatched id o = []) /\ ((exists e, r = Raise e) \/ exists x, r = Ok x /\ unchanged_answer w o x).

Lemma runs_simulated {R} w (o : op R) (m : result R * SqlWorld) a s w' :
  runs m a s w w' -> (forall id, dispatched id o = []) -> simulated w o (fst m) (snd m) a w'.
Proof. intros [_ [[He Hw]|H] _] Hd; [right|by left]. auto. Qed.

Lemma answered_simulated {A} w (o : op (result A)) (m : result A * SqlWorld) a s w' :
  runs m a s w w' -> (forall id, dispatched id o = []) -> (forall e, unchanged_answer w o (Raise e)) ->
  simulated w o (fst (answered m)) (snd (answered m)) (Ok a) w'.
Proof.
  intros Hr Hd Hu. destruct (answered_run _ _ _ _ _ Hr) as (_ & [[[e He] Hw]|H] & _); [right|by left]. eauto 10.
Qed.

Lemma read_simulated {A} w (o : op A) st (f : Table -> result A) s w' a :
  file_holds s w -> (forall id, dispatched id o = []) -> (forall x, unchanged_answer w o x) ->
  simulated w o (fst (read st f s)) (snd (read st f s)) a w'.
Proof.
  intros Hs Hd Hu. destruct (read st f s) as [r s'] eqn:E. destruct (read_effect st f s r s' E) as [Edb Hk]. right.
  split; [by eapply file_holds_db|]. split; [done|]. destruct r; eauto.
Qed.

Lemma read_answered_simulated {A} w (o : op (result A)) st (f : Table -> result A) s w' a :
  file_holds s w -> (forall id, dispatched id o = []) -> (forall x, unchanged_answer w o x) ->
  simulated w o (fst (answered (read st f s))) (snd (answered (read st f s))) a w'.
Proof.
  intros Hs Hd Hu. destruct (read st f s) as [r s'] eqn:E. destruct (read_effect st f s r s' E) as [Edb Hk]. right.
  split; [by eapply file_holds_db|]. eauto.
Qed.

Lemma answered_fst {A} (m : result A * SqlWorld) : fst (answered m) = Ok (fst m).
Proof. by destruct m. Qed.
Lemma answered_snd {A} (m : result A * SqlWorld) : snd (answered m) = snd m.
Proof. by destruct m. Qed.

Lemma read_kept {A} st (f : Table -> result A) s : kept s (snd (read st f s)).
Proof. destruct (read st f s) as [r s'] eqn:E. by eapply read_effect. Qed.

Lemma write_kept {A} st (f : Table -> result (A * Table)) s : kept s (snd (write st f s)).
Proof. destruct (write st f s) as [r s'] eqn:E. by eapply write_effect. Qed.

Lemma exec_kept now mcp {R} (o : op R) s w :
  file_holds s w -> dispatched "" o = [] -> whole o = true -> kept s (snd (sql_exec now mcp o s)).
Proof.
  intros Hs Hd Hw. destruct o; try done; cbn [sql_exec]; rewrite ?answered_snd;
    try apply read_kept; try apply write_kept; try apply kept_refl.
  cbn [snd]. exact (proj1 (persist_event_cases now run_id seq kind payload s w Hs)).
Qed.

Lemma exec_whole now mcp {R} (o : op R) s w :
  file_holds s w -> snapshot_ok s w -> whole o = true ->
  simulated w o (fst (sql_exec now mcp o s)) (snd (sql_exec now mcp o s)) (fst (exec now mcp o w)) (snd (exec now mcp o w)).
Proof.
  intros Hs Hsnap Ho. destruct o as [|id|x|id st v|g|id actor v|a|id|m id|key|key name args|key|m key|rid seq kd pl|c]; try done; cbn [sql_exec exec].
  - by left.
  - by apply read_answered_simulated.
  - destruct (hitl_insert x (w_hitl w)) as [m|e] eqn:E; cbn [fst snd].
    + eapply answered_simulated; [|done|intros e; by exists e]. apply (sessions_run s w Hs). intros t Hr. by apply (hitl_insert_taken x t (w_hitl w)).
    + destruct (refused_run Sessions (inserting "hitl_sessions" (session_row (session_to_row x)) (sql_hitl_insert x)) s w e Hs) as (_ & [e' He] & Hw).
      { intros t Ht. eapply hitl_insert_fails; [eapply holds_table; [apply Hs|exact Ht]|done]. }
      right. rewrite answered_fst, answered_snd, He. split; [done|]. split; [done|]. right. eexists. split; [done|]. by exists e'.
  - pose proof (sessions_run s w Hs (sql_hitl_update_status now id st v) (fst (hitl_update_status now id st v (w_hitl w)))
      (snd (hitl_update_status now id st v (w_hitl w)))) as H.
    destruct (hitl_update_status now id st v (w_hitl w)) as [b t] eqn:E. eapply runs_simulated; [|done]. apply H.
    intros t0 Hr. rewrite <-E. by apply hitl_update_simulated.
  - destruct (insert_pending g (w_grants w)) as [m|e] eqn:E; cbn [fst snd].
    + eapply answered_simulated; [|done|intros e; by exists e]. apply (grants_run s w Hs). intros t Hr. by apply (grant_insert_taken g t (w_grants w)).
    + destruct (refused_run Grants (inserting grants_name (grant_row (pending_grant g)) (sql_insert_pending g)) s w e Hs) as (_ & [e' He] & Hw).
      { intros t Ht. eapply grant_insert_fails; [eapply holds_table; [apply Hs|exact Ht]|done]. }
      right. rewrite answered_fst, answered_snd, He. split; [done|]. split; [done|]. right. eexists. split; [done|]. by exists e'.
  - pose proof (grants_run s w Hs (sql_approve_pending now id actor v) (fst (approve_pending now id actor v (w_grants w)))
      (snd (approve_pending now id actor v (w_grants w)))) as H.
    destruct (approve_pending now id actor v (w_grants w)) as [b t] eqn:E. eapply runs_simulated; [|done]. apply H.
    intros t0 Hr. rewrite <-E. by apply approve_simulated.
  - destruct (reading_claim id s) as [r s'] eqn:E. right. destruct (read_effect _ _ _ _ _ E) as [Edb Hk].
    split; [by eapply file_holds_db|]. split; [done|]. by apply (reading_claim_answer id s w r s').
  - eapply runs_simulated; [|done]. apply (grants_run s w Hs). intros t Hr. by apply grant_mark_simulated.
  - by apply read_answered_simulated.
  - by apply read_answered_simulated.
  - pose proof (idem_run s w Hs (sql_idem_mark now m key) (fst (apply_idem_mark now m key (w_idem w)))
      (snd (apply_idem_mark now m key (w_idem w)))) as H.
    destruct (apply_idem_mark now m key (w_idem w)) as [b t] eqn:E. eapply runs_simulated; [|done]. apply H.
    intros t0 Hr. rewrite <-E. by apply idem_mark_simulated.
  - destruct (persist_event_cases now rid seq kd pl s w Hs) as (_ & [Hw|Hw] & _); [right|by left]. split; [done|]. split; [done|]. right. by eexists.
  - left. split; [done|]. destruct Hs as [Hh Hg Hi He Hc]. split; cbn; [done..|]. by rewrite Hc.
Qed.

(** Between two transactions an operation that no constraint refuses does what it does on the maps. *)
Lemma exec_quiet now mcp {R} (o : op R) s w :
  file_holds s w -> quiet s -> accepted now o w = true ->
  fst (sql_exec now mcp o s) = Ok (fst (exec now mcp o w)) /\ file_holds (snd (sql_exec now mcp o s)) (snd (exec now mcp o w)) /\
  quiet (snd (sql_exec now mcp o s)).
Proof.
  intros Hs Hq Ha. destruct o as [|id|x|id st v|g|id actor v|a|id|m id|key|key name args|key|m key|rid seq kd pl|c]; cbn [sql_exec exec].
  - done.
  - destruct (fh_sessions _ _ Hs) as (t & Ht & Hr). rewrite (read_quiet Sessions _ s t Hq Ht). cbn. by rewrite (hitl_get_simulated id t _ Hr).
  - cbn in Ha. destruct (hitl_insert x (w_hitl w)) as [m|] eqn:E; [|done].
    eapply answered_run; [|done]. apply (sessions_run s w Hs). intros t Hr. by apply (hitl_insert_taken x t (w_hitl w)).
  - pose proof (sessions_run s w Hs (sql_hitl_update_status now id st v) (fst (hitl_update_status now id st v (w_hitl w)))
      (snd (hitl_update_status now id st v (w_hitl w)))) as H.
    destruct (hitl_update_status now id st v (w_hitl w)) as [b t] eqn:E. apply H; [|done]. intros t0 Hr. rewrite <-E. by apply hitl_update_simulated.
  - cbn in Ha. destruct (insert_pending g (w_grants w)) as [m|] eqn:E; [|done].
    eapply answered_run; [|done]. apply (grants_run s w Hs). intros t Hr. by apply (grant_insert_taken g t (w_grants w)).
  - pose proof (grants_run s w Hs (sql_approve_pending now id actor v) (fst (approve_pending now id actor v (w_grants w)))
      (snd (approve_pending now id actor v (w_grants w)))) as H.
    destruct (approve_pending now id actor v (w_grants w)) as [b t] eqn:E. apply H; [|done]. intros t0 Hr. rewrite <-E. by apply approve_simulated.
  - destruct (rn_quiet _ _ _ _ _ (claiming_runs s w Hs now a) Hq) as (Er & Hs' & Hq'). unfold atomic_consume.
    destruct (claiming now a s) as [r s1], (claim now a (w_grants w)) as [won t]. cbn [fst snd] in *. subst r.
    destruct won; [|done]. destruct (fh_grants _ _ Hs') as (tb & Ht & Hr). unfold reading_claim. rewrite (read_quiet Grants _ s1 tb Hq' Ht).
    cbn [fst snd w_grants upd_grants] in *. by rewrite (claimed_simulated _ tb t Hr).
  - destruct (fh_grants _ _ Hs) as (t & Ht & Hr). unfold reading_claim. rewrite (read_quiet Grants _ s t Hq Ht). cbn. by rewrite (claimed_simulated id t _ Hr).
  - apply (grants_run s w Hs); [|done]. intros t Hr. by apply grant_mark_simulated.
  - destruct (fh_idem _ _ Hs) as (t & Ht & Hr). rewrite (read_quiet Reservations _ s t Hq Ht). cbn. by rewrite (idem_get_simulated key t _ Hr).
  - destruct (rn_quiet _ _ _ _ _ (reserving_runs s w Hs now key name args) Hq) as (Er & Hs' & Hq').
    pose proof (reserved_after_reserve now key name args (w_idem w)) as Hback.
    destruct (reserving now key name args s) as [r s1], (reserve now key name args (w_idem w)) as [rec t]. cbn [fst snd] in *. subst r rec.
    destruct (fh_idem _ _ Hs') as (tb & Ht & Hr). rewrite (read_quiet Reservations _ s1 tb Hq' Ht).
    cbn [answered fst snd w_idem upd_idem] in *. by rewrite (reserved_simulated _ tb t Hr).
  - destruct (fh_idem _ _ Hs) as (t & Ht & Hr). rewrite (read_quiet Reservations _ s t Hq Ht). cbn. by rewrite (reserved_simulated key t _ Hr).
  - pose proof (idem_run s w Hs (sql_idem_mark now m key) (fst (apply_idem_mark now m key (w_idem w)))
      (snd (apply_idem_mark now m key (w_idem w)))) as H.
    destruct (apply_idem_mark now m key (w_idem w)) as [b t] eqn:E. apply H; [|done]. intros t0 Hr. rewrite <-E. by apply idem_mark_simulated.
  - destruct (persist_event_cases now rid seq kd pl s w Hs) as (_ & _ & Hqe). destruct (Hqe Hq) as [Hw Hx]. by rewrite Ha in Hx.
  - split; [done|]. split; [|done]. destruct Hs as [Hh Hg Hi He Hc]. split; cbn; [done..|]. by rewrite Hc.
Qed.

(** The store whose INSERT an operation is. *)
Definition stores_in {R} (o : op R) : Store :=
  match o with OHitlInsert _ => Sessions | OGrantInsert _ => Grants | _ => Events end.

(** A refused INSERT answers what the map answers, leaves the tables, and locks the other stores out. *)
Lemma exec_refused now mcp {R} (o : op R) s w :
  file_holds s w -> quiet s -> accepted now o w = false ->
  sql_exec now mcp o s = (Ok (fst (exec now mcp o w)), set_tx (stores_in o) Writing s) /\ w_grants (snd (exec now mcp o w)) = w_grants w.
Proof.
  intros Hs Hq Ha. destruct o as [|id|x|id st v|g|id actor v|a|id|m id|key|key name args|key|m key|rid seq kd pl|c]; try done; cbn in Ha; cbn [sql_exec exec stores_in].
  - destruct (hitl_insert x (w_hitl w)) as [m|e] eqn:E; [done|]. split; [|done]. destruct (fh_sessions _ _ Hs) as (t & Ht & Hr).
    by rewrite (proj1 (write_refused Sessions _ s t e Hq Ht (hitl_insert_fails x t _ e Hr E))).
  - destruct (insert_pending g (w_grants w)) as [m|e] eqn:E; [done|]. split; [|done]. destruct (fh_grants _ _ Hs) as (t & Ht & Hr).
    by rewrite (proj1 (write_refused Grants _ s t e Hq Ht (grant_insert_fails g t _ e Hr E))).
  - destruct (persist_event_cases now rid seq kd pl s w Hs) as (_ & _ & Hqe). destruct (Hqe Hq) as [_ Hx].
    cbn [accepted] in Hx. rewrite Ha in Hx. destruct Hx as [-> _]. done.
Qed.

Lemma writing_locks st s : quiet s -> forall st', st' <> st -> locked st' (set_tx st Writing s) = true.
Proof.
  intros Hq st' Hne. unfold locked. apply orb_true_iff. left. apply existsb_exists. exists st.
  split; [by destruct st; cbn; auto|]. cbn. rewrite decide_True, bool_decide_false by congruence. done.
Qed.

Lemma run_quiet {A} now mcp (p : prog A) s w :
  file_holds s w -> quiet s -> all_accepted now mcp p w = true ->
  fst (sql_run now mcp p s) = fst (run now mcp p w) /\ file_holds (snd (sql_run now mcp p s)) (snd (run now mcp p w)) /\
  quiet (snd (sql_run now mcp p s)).
Proof.
  revert s w. induction p as [a|e|v|R o k IH]; intros s w Hs Hq Ha; [done..|]. cbn [sql_run run all_accepted] in *.
  apply andb_true_iff in Ha as [Ha Hk]. destruct (exec_quiet now mcp o s w Hs Hq Ha) as (Er & Hs' & Hq').
  destruct (sql_exec now mcp o s) as [r s'], (exec now mcp o w) as [a w']. cbn [fst snd] in *. subst r. by apply IH.
Qed.

Lemma serve_quiet {A} (reqs : list (Served A)) s w :
  file_holds s w -> quiet s -> all_served reqs w = true ->
  fst (answers serve_sql reqs s) = fst (answers serve_maps reqs w) /\
  file_holds (snd (answers serve_sql reqs s)) (snd (answers serve_maps reqs w)) /\ quiet (snd (answers serve_sql reqs s)).
Proof.
  revert s w. induction reqs as [|q reqs IH]; intros s w Hs Hq Ha; [done|]. cbn [answers all_served] in *.
  apply andb_true_iff in Ha as [Ha Hr]. destruct (run_quiet _ _ _ s w Hs Hq Ha) as (Er & Hs' & Hq').
  change (sql_run (sv_now q) (sv_mcp q) (sv_prog q) s) with (serve_sql q s) in *.
  change (run (sv_now q) (sv_mcp q) (sv_prog q) w) with (serve_maps q w) in *.
  destruct (serve_sql q s) as [o s'], (serve_maps q w) as [o' w'].
  cbn [fst snd] in *. subst o'. specialize (IH s' w' Hs' Hq' Hr).
  destruct (answers serve_sql reqs s') as [os s2], (answers serve_maps reqs w') as [os' w2]. cbn [fst snd] in *.
  destruct IH as (-> & ? & ?). done.
Qed.

Lemma fresh_file_holds : file_holds fresh_file fresh_world.
Proof.
  assert (Hg : oget (tables (sw_db fresh_file)) grants_name = Some grants_v5) by (vm_compute; reflexivity).
  assert (Hi : oget (tables (sw_db fresh_file)) "idempotency_records" = Some idempotency_records_table) by (vm_compute; reflexivity).
  assert (Hh : oget (tables (sw_db fresh_file)) "hitl_sessions" = Some hitl_sessions_v4) by (vm_compute; reflexivity).
  assert (He : oget (tables (sw_db fresh_file)) "events" = Some (log_table [])) by (vm_compute; reflexivity).
  split; [exists hitl_sessions_v4; split; [done|apply (@represents_empty HITLRow stored_session)]
    |exists grants_v5; split; [done|apply (@represents_empty GrantRecord stored_grant)]
    |exists idempotency_records_table; split; [done|apply (@represents_empty IdemRow stored_record)]| |done].
  exists []. split; [done|]. split; [constructor|done].
Qed.

(** ** Lemmas: interleaving *)

(** What an operation other than a dispatch does is a change by other code. *)
Lemma exec_env_change now mcp {R} (o : op R) w : dispatched "" o = [] -> env_change w (snd (exec now mcp o w)).
Proof.
  intros Hd.
  assert (Hgr := exec_grants now mcp o w).
  assert (Hcalls : w_calls (snd (exec now mcp o w)) = w_calls w)
    by (destruct o; cbn in *; try done; repeat case_match; done).
  assert (Hother : w_grants (snd (exec now mcp o w)) = w_grants w -> env_change w (snd (exec now mcp o w))).
  { intros Hg. destruct (snd (exec now mcp o w)) as [h g i e c]. cbn in *. subst. apply env_other. }
  destruct Hgr as [Hg|[gop Hg]]; [by apply Hother|].
  assert (snd (exec now mcp o w) = upd_grants w (w_grants (snd (exec now mcp o w))) \/ w_grants (snd (exec now mcp o w)) = w_grants w)
    as [E|E]; [|rewrite E, Hg; apply env_grant|by apply Hother].
  destruct o; cbn in *; try (by right); repeat case_match; cbn; try (by left); by right.
Qed.

Lemma env_change_grants w w' : env_change w w' -> grants_kept w w'.
Proof. destruct 1; [by left|]. right. by exists gop. Qed.

Lemma runs_env {A} (m : result A * SqlWorld) a s w w' :
  runs m a s w w' -> env_change w w' -> snapshot_ok s w ->
  exists w1, file_holds (snd m) w1 /\ snapshot_ok (snd m) w1 /\ (w1 = w \/ env_change w w1).
Proof.
  intros [Hk [[_ Hw]|[_ Hw]] _] He Hsnap; [exists w|exists w']; (split; [done|]); (split; [|by auto]).
  - eapply snapshot_step; [exact Hsnap|apply Hk|exact Hw|by left].
  - eapply snapshot_step; [exact Hsnap|apply Hk|exact Hw|by apply env_change_grants].
Qed.

Lemma other_code_simulated s s' w :
  file_holds s w -> snapshot_ok s w -> other_code s s' ->
  exists w', file_holds s' w' /\ snapshot_ok s' w' /\ (w' = w \/ env_change w w').
Proof.
  intros Hs Hsnap Ho. destruct Ho as [s s' R o r now mcp Hw Hd E|s s' now a r E|s s' now key name args r E|s s' now r E|s db Hdb].
  - pose proof (exec_kept now mcp o s w Hs Hd Hw) as Hk. pose proof (exec_whole now mcp o s w Hs Hsnap Hw) as Hsim.
    rewrite E in Hk, Hsim. cbn [fst snd] in *. destruct Hsim as [[_ Hw']|[Hw' _]]; [exists (snd (exec now mcp o w))|exists w];
      (split; [done|]); (split; [|by auto using exec_env_change]); (eapply snapshot_step; [exact Hsnap|apply Hk|exact Hw'|]).
    + apply env_change_grants. by apply exec_env_change.
    + by left.
  - replace s' with (snd (claiming now a s)) by (by rewrite E). eapply runs_env; [by apply claiming_runs| |done].
    rewrite claim_step. apply env_grant.
  - replace s' with (snd (reserving now key name args s)) by (by rewrite E). eapply runs_env; [by apply reserving_runs|apply env_other|done].
  - replace s' with (snd (write Sessions (sql_expire_stale_sessions now) s)) by (by rewrite E).
    eapply runs_env; [eapply sessions_run; [done|]; intros t Ht; by apply expire_simulated|apply env_other|done].
  - exists w. split; [by eapply file_holds_same|]. split; [done|by left].
Qed.

(** Every interleaving on the file is one on the maps. *)
Definition simulated_pool {A} (start : Pool A) (s : SqlPool A) : Prop :=
  exists w, file_holds (sp_world s) w /\ snapshot_ok (sp_world s) w /\
    reach pool_step start {| pl_world := w; pl_threads := sp_threads s; pl_log := sp_log s |}.

Lemma simulated_pool_step {A} (start : Pool A) s w w' ths ths' log log' :
  reach pool_step start {| pl_world := w; pl_threads := ths; pl_log := log |} ->
  pool_step {| pl_world := w; pl_threads := ths; pl_log := log |} {| pl_world := w'; pl_threads := ths'; pl_log := log' |} ->
  file_holds s w' -> snapshot_ok s w' ->
  simulated_pool start {| sp_world := s; sp_threads := ths'; sp_log := log' |}.
Proof. intros Hr Hs Hf Hsnap. exists w'. split; [done|]. split; [done|]. eapply reach_trans; [exact Hr|by apply reach_one]. Qed.

Lemma pool_step_simulated {A} (start : Pool A) s s' :
  simulated_pool start s -> sql_pool_step s s' -> simulated_pool start s'.
Proof.
  intros (w & Hs & Hsnap & Hr) Hstep.
  destruct Hstep as [s s' ths1 ths2 id R o k r log now mcp Hw E|s s' ths1 ths2 id a k r log now E
    |s s' ths1 ths2 id key name args k r log now E|s s' ths log Ho]; cbn [sp_world sp_threads sp_log] in *.
  - pose proof (exec_whole now mcp o s w Hs Hsnap Hw) as Hsim. rewrite E in Hsim. cbn [fst snd] in Hsim.
    assert (Hsnap' : forall w', file_holds s' w' -> grants_kept w w' -> snapshot_ok s' w').
    { intros w' Hw' Hg. eapply snapshot_step; [exact Hsnap| |exact Hw'|exact Hg]. destruct (dispatched "" o) eqn:Ed.
      - pose proof (exec_kept now mcp o s w Hs Ed Hw) as Hk. rewrite E in Hk. apply Hk.
      - destruct o; try done. injection E as <- <-. by left. }
    destruct Hsim as [[-> Hw']|(Hw' & Hd & Hx)].
    + eapply simulated_pool_step; [exact Hr|by apply ps_op|done|]. apply Hsnap'; [done|]. apply exec_grants.
    + rewrite Hd, app_nil_r. destruct Hx as [[e ->]|(x & -> & Hx)];
        (eapply simulated_pool_step; [exact Hr|first [by apply ps_raise|by apply ps_unchanged]|done|]); apply Hsnap'; [done|by left|done|by left].
  - pose proof (claiming_runs s w Hs now a) as [Hk Hx _]. rewrite E in Hk, Hx. cbn [fst snd] in *.
    destruct Hx as [[[e ->] Hw]|[-> Hw]].
    + eapply simulated_pool_step; [exact Hr|by apply ps_raise|done|]. eapply snapshot_step; [exact Hsnap|apply Hk|exact Hw|by left].
    + eapply simulated_pool_step; [exact Hr| |exact Hw|].
      * pose proof (ps_claim w ths1 ths2 id a k log now) as H. destruct (fst (claim now a (w_grants w))); exact H.
      * eapply snapshot_step; [exact Hsnap|apply Hk|exact Hw|]. right. exists (GConsume now a). apply claim_step.
  - pose proof (reserving_runs s w Hs now key name args) as [Hk Hx _]. rewrite E in Hk, Hx. cbn [fst snd] in *.
    destruct Hx as [[[e ->] Hw]|[-> Hw]].
    + eapply simulated_pool_step; [exact Hr|apply ps_unchanged; by exists e|done|]. eapply snapshot_step; [exact Hsnap|apply Hk|exact Hw|by left].
    + eapply simulated_pool_step; [exact Hr|apply (ps_reserve w ths1 ths2 id key name args k log now)|exact Hw|].
      eapply snapshot_step; [exact Hsnap|apply Hk|exact Hw|by left].
  - destruct (other_code_simulated s s' w Hs Hsnap Ho) as (w' & Hw' & Hsnap' & [->|He]); [by exists w|].
    eapply simulated_pool_step; [exact Hr|by apply ps_env|done|done].
Qed.

Lemma grant_in_file_holds s w id : file_holds s w -> grant_in_file s id = w_grants w !! id.
Proof.
  intros [_ (t & Ht & Hr) _ _ _]. unfold grant_in_file. rewrite Ht. cbn. by rewrite (get_simulated id t (w_grants w) Hr).
Qed.

(** The calls an operation adds. *)
Lemma exec_calls now mcp id {R} (o : op R) s :
  exists cs, sw_calls (snd (sql_exec now mcp o s)) = sw_calls s ++ cs /\ dispatched id o = map (pair id) cs.
Proof.
  assert (Hsame : kept s (snd (sql_exec now mcp o s)) -> dispatched id o = [] ->
    exists cs, sw_calls (snd (sql_exec now mcp o s)) = sw_calls s ++ cs /\ dispatched id o = map (pair id) cs)
    by (intros Hk ->; exists []; rewrite app_nil_r; split; [apply Hk|done]).
  destruct o; cbn [sql_exec] in *;
    try (apply Hsame; [rewrite ?answered_snd; first [apply kept_refl|apply read_kept|apply write_kept]|done]).
  - apply Hsame; [|done]. pose proof (write_kept Grants (sql_claim now a) s) as Hw. unfold claiming.
    destruct (write Grants (sql_claim now a) s) as [[[]|e] s1]; try exact Hw. cbn [snd] in Hw.
    destruct (reading_claim (ca_session_id a) s1) as [r s2] eqn:E. destruct (read_effect _ _ _ _ _ E) as [Edb Hk].
    by eapply kept_trans.
  - apply Hsame; [|done]. unfold reserving.
    pose proof (write_kept Reservations (fun t => Ok (tt, sql_reserve_row now key tool_name tool_args t)) s) as Hw.
    destruct (write Reservations _ s) as [[[]|e] s1]; [|exact Hw]. rewrite answered_snd. cbn [snd] in Hw.
    destruct (read Reservations (sql_reserved key) s1) as [r s2] eqn:E. destruct (read_effect _ _ _ _ _ E) as [Edb Hk].
    by eapply kept_trans.
  - apply Hsame; [|done]. cbn [snd]. unfold sql_persist_event. destruct (sw_events_open s); [apply write_kept|apply kept_refl].
  - by exists [c].
Qed.

(** The statements of one operation, one after the other. *)
Lemma sql_op_reaches {A} now mcp id {R} (o : op R) (k : R -> prog A) ths s log :
  reach sql_pool_step
    {| sp_world := s; sp_threads := {| th_session := id; th_prog := Op o k |} :: ths; sp_log := log |}
    {| sp_world := snd (sql_exec now mcp o s);
       sp_threads := {| th_session := id;
         th_prog := match fst (sql_exec now mcp o s) with Ok r => k r | Raise e => Throw e end |} :: ths;
       sp_log := log ++ dispatched id o |}.
Proof.
  assert (Hwhole : forall (s : SqlWorld) (log : list (string * ToolCall)) R (o : op R) (k : R -> prog A), whole o = true -> reach sql_pool_step
    {| sp_world := s; sp_threads := {| th_session := id; th_prog := Op o k |} :: ths; sp_log := log |}
    {| sp_world := snd (sql_exec now mcp o s);
       sp_threads := {| th_session := id;
         th_prog := match fst (sql_exec now mcp o s) with Ok r => k r | Raise e => Throw e end |} :: ths;
       sp_log := log ++ dispatched id o |}).
  { clear. intros s log R o k Ho. apply reach_one. apply (sp_op s _ [] ths id R o k _ log now mcp Ho). by destruct (sql_exec now mcp o s). }
  destruct o; try by apply Hwhole.
  - cbn [sql_exec dispatched]. rewrite app_nil_r. destruct (claiming now a s) as [r s1] eqn:E.
    eapply reach_step; [apply (sp_claim s s1 [] ths id a k r log now E)|]. destruct r as [[]|e]; cbn [fst snd app]; [|constructor..].
    pose proof (Hwhole s1 log _ (OGrantClaimed (ca_session_id a)) k eq_refl) as H. cbn [dispatched sql_exec] in H.
    by rewrite app_nil_r in H.
  - cbn [sql_exec dispatched]. rewrite app_nil_r. destruct (reserving now key tool_name tool_args s) as [r s1] eqn:E.
    eapply reach_step; [apply (sp_reserve s s1 [] ths id key tool_name tool_args k r log now E)|]. destruct r as [u|e]; cbn [fst snd app]; [|constructor..].
    pose proof (Hwhole s1 log _ (OIdemReserved key) k eq_refl) as H. cbn [dispatched sql_exec] in H.
    by rewrite app_nil_r in H.
Qed.

(** A request that runs alone is one interleaving; the calls it makes are logged under it. *)
Lemma sql_run_reaches {A} now mcp id (p : prog A) ths s log :
  exists p' cs,
    reach sql_pool_step
      {| sp_world := s; sp_threads := {| th_session := id; th_prog := p |} :: ths; sp_log := log |}
      {| sp_world := snd (sql_run now mcp p s); sp_threads := {| th_session := id; th_prog := p' |} :: ths;
         sp_log := log ++ map (pair id) cs |} /\
    sw_calls (snd (sql_run now mcp p s)) = sw_calls s ++ cs.
Proof.
  revert s log. induction p as [a|e|v|R o k IH]; intros s log;
    [eexists _, []; rewrite !app_nil_r; by split; [constructor|]..|].
  cbn [sql_run]. destruct (exec_calls now mcp id o s) as (c & Hc & Hd).
  pose proof (sql_op_reaches now mcp id o k ths s log) as Hr. rewrite Hd in Hr.
  destruct (sql_exec now mcp o s) as [[r|e] s']; cbn [fst snd] in *.
  - destruct (IH r s' (log ++ map (pair id) c)) as (p' & cs & Hr' & Hcs). exists p', (c ++ cs). split.
    + rewrite map_app, app_assoc. eapply reach_trans; [exact Hr|exact Hr'].
    + by rewrite Hcs, Hc, app_assoc.
  - by exists (Throw e), c.
Qed.

(** ** Lemmas: a file that locks *)

Lemma write_other {A} st (f : Table -> result (A * Table)) s st' : st' <> st -> sw_tx (snd (write st f s)) st' = sw_tx s st'.
Proof.
  intros Hne. unfold write. destruct (oget _ _) as [t|]; [|done]. destruct (locked st s); [destruct (sw_tx s st); try done|destruct (f t) as [[a t']|e]];
    cbn; by rewrite decide_False.
Qed.

Lemma quiet_op {A} now mcp {R} (o : op R) (k : R -> prog A) s w (P : outcome A * SqlWorld -> Prop) :
  file_holds s w -> quiet s -> accepted now o w = true ->
  (forall s', file_holds s' (snd (exec now mcp o w)) -> quiet s' -> P (sql_run now mcp (k (fst (exec now mcp o w))) s')) ->
  P (sql_run now mcp (Op o k) s).
Proof.
  intros Hs Hq Ha HP. destruct (exec_quiet now mcp o s w Hs Hq Ha) as (Er & Hs' & Hq'). cbn [sql_run].
  destruct (sql_exec now mcp o s) as [r s']. cbn [fst snd] in *. subst r. by apply HP.
Qed.

Lemma write_locked {A} st (f : Table -> result (A * Table)) s w :
  file_holds s w -> locked st s = true -> fst (write st f s) = Raise database_locked /\ sw_db (snd (write st f s)) = sw_db s.
Proof.
  intros [(t1 & H1 & _) (t2 & H2 & _) (t3 & H3 & _) (rows & H4 & _) _] Hl. unfold write.
  assert (exists t, oget (tables (sw_db s)) (table_name st) = Some t) as [t ->] by (destruct st; eauto).
  rewrite Hl. split; [done|]. by destruct (sw_tx s st).
Qed.

(** ** Properties *)

(** C2: The program does on its database what it does on the maps its theorems are about, as long
    as no INSERT is refused.  From the file the first start leaves, any sequence of requests,
    whatever programs they run, whenever and whatever the MCP server answers, none of whose
    INSERTs the maps refuse, ends in SQL with the same results, exceptions, pauses and calls; no
    statement fails; the file then holds exactly the sessions, grants, reservations and events of
    the maps, a grant read from it is the map's, and no connection is left in a transaction.
    An INSERT that is refused then answers what it answers on the maps and changes no table, but
    every statement with which another store would write fails: the file is locked. *)
Theorem requests_run_on_the_file {A} (reqs : list (Served A)) :
  all_served reqs fresh_world = true ->
  let '(outcomes, s) := answers serve_sql reqs fresh_file in
  let '(outcomes', w) := answers serve_maps reqs fresh_world in
  outcomes = outcomes' /\ file_holds s w /\ sw_calls s = w_calls w /\ quiet s /\
  (forall id, grant_in_file s id = w_grants w !! id) /\
  forall now mcp R (o : op R), accepted now o w = false ->
    let '(r, s') := sql_exec now mcp o s in
    r = Ok (fst (exec now mcp o w)) /\ sw_db s' = sw_db s /\
    forall st B (f : Table -> result (B * Table)), st <> stores_in o -> fst (write st f s') = Raise database_locked.
Proof.
  intros Ha. destruct (serve_quiet reqs fresh_file fresh_world fresh_file_holds (fun _ => eq_refl) Ha) as (E & Hs & Hq).
  destruct (answers serve_sql reqs fresh_file) as [os s], (answers serve_maps reqs fresh_world) as [os' w]. cbn [fst snd] in E, Hs, Hq.
  split; [done|]. split; [done|]. split; [apply Hs|]. split; [done|]. split; [intros id; by apply grant_in_file_holds|].
  intros now mcp R o Ho. destruct (exec_refused now mcp o s w Hs Hq Ho) as [-> _]. split; [done|]. split; [done|].
  intros st B f Hst. eapply write_locked; [|by apply writing_locks]. by eapply file_holds_same; [| | |exact Hs].
Qed.

(** C3: On the database file itself an approved operation is dispatched at most once.  From the
    file the first start leaves, with any approve and reject requests in flight and other code
    storing sessions and grants, moving them or sweeping the expired ones, in any interleaving
    of their statements, whichever of them find the file locked: each session has at most one
    dispatch, and it is the tool with the canonical arguments of the grant that the file holds,
    as spent, for the session. *)
Theorem file_dispatches_at_most_once {R} `{ApprovalActorResolver R} (actors : R) reqs (s : SqlPool ApprovalResult) id :
  reach sql_pool_step {| sp_world := fresh_file; sp_threads := map (request_thread actors) reqs; sp_log := [] |} s ->
  (log_for id (sp_log s) <= 1)%nat /\
  forall c, (id, c) ∈ sp_log s ->
    exists g, grant_in_file (sp_world s) id = Some g /\ spent (g_status g) = true /\ grant_call g c.
Proof.
  intros Hr. set (start := {| pl_world := fresh_world; pl_threads := map (request_thread actors) reqs; pl_log := [] |}).
  assert (simulated_pool start s) as (w & Hs & _ & Hreach).
  { eapply (reach_invariant sql_pool_step (simulated_pool start)); [apply pool_step_simulated| |exact Hr].
    exists fresh_world. split; [exact fresh_file_holds|]. split; [by intros v db|apply reach_refl]. }
  pose proof (requests_guarded actors reqs) as Hguard.
  assert (Hk : keyed (w_grants fresh_world)) by (intros i g; cbn; by rewrite lookup_empty).
  destruct (pool_dispatch_once fresh_world _ _ id Hk Hguard Hreach) as [Hone Hcall].
  split; [exact Hone|]. intros c Hc. destruct (Hcall c Hc) as (g & Hg & Hrest). exists g. split; [|exact Hrest].
  by rewrite (grant_in_file_holds _ w).
Qed.

(** How an approval ends that is locked out after it approved: it raises, nothing is dispatched,
    the grant stays approved and the event store's connection keeps the lock. *)
Record locked_out (sid : string) (s : SqlWorld) (m : outcome ApprovalResult * SqlWorld) : Prop := {
  lo_failed : fst m = Failed database_locked;
  lo_calls : sw_calls (snd m) = sw_calls s;
  lo_grant : g_status <$> grant_in_file (snd m) sid = Some GAPPROVED;
  lo_locked : sw_tx (snd m) Events = Writing;
}.

(** A session whose first event is already stored, as the run that paused stored it, cannot be
    approved: the event of the approval is refused and swallowed, the claim that follows finds
    the file locked, and the approval that was granted is never carried out. *)
Theorem approval_after_first_event_is_locked_out {R} `{ApprovalActorResolver R} (actors : R) now mcp sid ctx sess g actor c s w :
  file_holds s w -> quiet s -> ready actors now w sid ctx sess g actor c ->
  accepted now (OEvent sid 0 CHECKPOINT JNull) w = false ->
  locked_out sid s (sql_run now mcp (approve actors sid ctx) s).
Proof.
  intros Hs Hq Hr Hev. destruct (hitl_get_row _ _ _ (rd_session _ _ _ _ _ _ _ _ _ Hr)) as (row & Hrow & Hrs).
  pose proof (row_version _ _ Hrs) as Hv. pose proof (rd_issued _ _ _ _ _ _ _ _ _ Hr) as Hi.
  unfold approve. cbn [performE perform bind].
  apply (quiet_op now mcp _ _ s w (locked_out sid s) Hs Hq); [done|]. intros s1 Hs1 Hq1. cbn [exec fst snd] in *.
  rewrite (rd_session _ _ _ _ _ _ _ _ _ Hr). cbn [lift bind]. rewrite (rd_open _ _ _ _ _ _ _ _ _ Hr).
  apply (quiet_op now mcp _ _ s1 w (locked_out sid s) Hs1 Hq1); [done|]. intros s2 Hs2 Hq2. cbn [exec fst snd] in *.
  rewrite (rd_time _ _ _ _ _ _ _ _ _ Hr). cbn [lift bind].
  assert (str_true (hs_tool_call_id sess) = true) as -> by (apply str_true_spec, (rd_call _ _ _ _ _ _ _ _ _ Hr)).
  cbn [negb]. rewrite (rd_actor _ _ _ _ _ _ _ _ _ Hr). unfold approve_with. cbn [perform bind].
  apply (quiet_op now mcp _ _ s2 w (locked_out sid s) Hs2 Hq2); [done|]. intros s3 Hs3 Hq3. cbn [exec] in *.
  unfold approve_pending in *. rewrite (update_grant_hit _ _ _ _ _ g (rd_grant _ _ _ _ _ _ _ _ _ Hr)) in * by
    (destruct Hi as (Hst & Hvs & _); unfold is_status; by rewrite Hst, Hvs).
  cbn [fst snd negb] in *.
  apply (quiet_op now mcp _ _ s3 _ (locked_out sid s) Hs3 Hq3); [done|]. intros s4 Hs4 Hq4. cbn [exec w_hitl upd_grants] in *.
  rewrite (hitl_update_hit _ _ _ _ _ row Hrow Hv) in *. cbn [fst snd negb] in *. unfold checkpoint_event. cbn [perform bind].
  cbn [sql_run].
  destruct (exec_refused now mcp (OEvent sid 0 CHECKPOINT (JObj [("kind", JStr "APPROVAL_GRANTED"); ("actor", JStr (actor_id actor))]))
    s4 _ Hs4 Hq4 Hev) as [-> _]. cbn [stores_in sql_run sql_exec].
  set (s5 := set_tx Events Writing s4). unfold claiming.
  eassert (Hs5 : file_holds s5 _) by (by eapply file_holds_same; [| | |exact Hs4]).
  match goal with |- context [write Grants ?f s5] =>
    destruct (write_locked Grants f s5 _ Hs5 (writing_locks Events s4 Hq4 Grants ltac:(discriminate))) as [Er Edb];
    pose proof (write_kept Grants f s5) as Hk; pose proof (write_other Grants f s5 Events ltac:(discriminate)) as Htx;
    destruct (write Grants f s5) as [r s6] end.
  cbn [fst snd] in *. subst r. split; cbn [fst snd].
  - done.
  - rewrite (kp_calls _ _ Hk). change (sw_calls s5) with (sw_calls s4). rewrite (fh_calls _ _ Hs4). cbn. by rewrite (fh_calls _ _ Hs).
  - rewrite (grant_in_file_holds s6 _ sid (file_holds_db s5 s6 _ Edb Hk Hs5)). cbn. by rewrite lookup_insert_eq.
  - by rewrite Htx.
Qed.

(** *** Witnesses *)

Definition witness_actors : FixedActorResolver := {| fixed_actor_id := "bob" |}.

(** Other code stores a session and its grant; then the session is approved. *)
Definition store_request : prog ApprovalResult :=
  do_ performE (OHitlInsert witness_session) ;;
  do_ performE (OGrantInsert witness_grant_record) ;;
  Ret (ap_answer_result "stored" "s-1" "").

Definition witness_requests : list (Served ApprovalResult) :=
  [{| sv_now := noon_2026; sv_mcp := witness_mcp; sv_prog := store_request |};
   {| sv_now := noon_2026; sv_mcp := witness_mcp; sv_prog := approve witness_actors "s-1" None |}].

Lemma requests_run_on_the_file_witness :
  let '(outcomes, s) := answers serve_sql witness_requests fresh_file in
  outcomes = [Done (ap_answer_result "stored" "s-1" ""); Done (ap_answer_result "approved" "s-1" "done")] /\
  sw_calls s = [witness_call] /\ quiet s /\ (g_status <$> grant_in_file s "s-1") = Some GCONSUMED.
Proof.
  pose proof (requests_run_on_the_file witness_requests ltac:(vm_compute; reflexivity)) as H.
  destruct (answers serve_sql witness_requests fresh_file) as [os s].
  destruct (answers serve_maps witness_requests fresh_world) as [os' w] eqn:E.
  destruct H as (Eo & _ & Ec & Hq & Hg & _). rewrite Eo, Ec, (Hg "s-1").
  assert (Ho : fst (answers serve_maps witness_requests fresh_world)
    = [Done (ap_answer_result "stored" "s-1" ""); Done (ap_answer_result "approved" "s-1" "done")]) by (vm_compute; reflexivity).
  assert (Hc : w_calls (snd (answers serve_maps witness_requests fresh_world)) = [witness_call]) by (vm_compute; reflexivity).
  assert (Hst : status_of (w_grants (snd (answers serve_maps witness_requests fresh_world))) "s-1" = Some GCONSUMED) by (vm_compute; reflexivity).
  rewrite E in Ho, Hc, Hst. split; [exact Ho|]. split; [exact Hc|]. split; [exact Hq|exact Hst].
Defined.

Definition after_op {R} (o : op R) (s : SqlWorld) : SqlWorld := snd (sql_exec noon_2026 witness_mcp o s).

Lemma op_by_other_code {R} (o : op R) s : whole o = true -> dispatched "" o = [] -> other_code s (after_op o s).
Proof. intros Hw Hd. unfold after_op. apply (oc_op s _ R o (fst (sql_exec noon_2026 witness_mcp o s)) noon_2026 witness_mcp Hw Hd). by destruct (sql_exec _ _ o s). Qed.

Definition stored_by_others : SqlWorld := after_op (OGrantInsert witness_grant_record) (after_op (OHitlInsert witness_session) fresh_file).

Lemma stored_by_others_reached (ths : list (Thread ApprovalResult)) :
  reach sql_pool_step {| sp_world := fresh_file; sp_threads := ths; sp_log := [] |}
                      {| sp_world := stored_by_others; sp_threads := ths; sp_log := [] |}.
Proof.
  eapply reach_step; [exact (sp_other _ _ _ _ (op_by_other_code (OHitlInsert witness_session) fresh_file eq_refl eq_refl))|].
  eapply reach_step; [exact (sp_other _ _ _ _ (op_by_other_code (OGrantInsert witness_grant_record) _ eq_refl eq_refl))|constructor].
Qed.

Lemma file_dispatches_at_most_once_witness :
  exists s : SqlPool ApprovalResult,
    reach sql_pool_step {| sp_world := fresh_file;
      sp_threads := map (request_thread witness_actors) [ReqApprove "s-1" None; ReqApprove "s-1" None]; sp_log := [] |} s /\
    sp_log s = [("s-1", witness_call)] /\
    exists g, grant_in_file (sp_world s) "s-1" = Some g /\ spent (g_status g) = true /\ grant_call g witness_call.
Proof.
  destruct (sql_run_reaches noon_2026 witness_mcp "s-1" (approve witness_actors "s-1" None)
    (map (request_thread witness_actors) [ReqApprove "s-1" None]) stored_by_others []) as (p' & cs & Hr & Hcs).
  assert (Hcs' : cs = [witness_call]) by (vm_compute in Hcs; symmetry; exact Hcs). subst cs.
  eexists. split; [eapply reach_trans; [apply stored_by_others_reached|exact Hr]|]. split; [reflexivity|].
  destruct (file_dispatches_at_most_once witness_actors [ReqApprove "s-1" None; ReqApprove "s-1" None] _ "s-1"
    (reach_trans _ _ _ _ (stored_by_others_reached _) Hr)) as [_ Hcall].
  apply Hcall. left.
Defined.

(** A run stored its first event, paused, and its session is approved. *)
Definition run_requests : list (Served ApprovalResult) :=
  [{| sv_now := noon_2026; sv_mcp := witness_mcp;
      sv_prog := do_ perform (OEvent "s-1" 0 USER_MESSAGE (JObj [])) ;; store_request |}].

Lemma approval_after_first_event_is_locked_out_witness :
  let s := snd (answers serve_sql run_requests fresh_file) in
  locked_out "s-1" s (sql_run noon_2026 witness_mcp (approve witness_actors "s-1" None) s).
Proof.
  intros s.
  destruct (serve_quiet run_requests fresh_file fresh_world fresh_file_holds (fun _ => eq_refl) ltac:(vm_compute; reflexivity)) as (_ & Hs & Hq).
  apply (approval_after_first_event_is_locked_out witness_actors noon_2026 witness_mcp "s-1" None witness_session
    (pending_grant witness_grant_record) {| actor_id := "bob"; actor_source := "test" |} witness_call s _ Hs Hq).
  - split; try reflexivity; try (vm_compute; reflexivity); try discriminate. repeat split; vm_compute; reflexivity.
  - vm_compute. reflexivity.
Defined.
