(* ===== verification/Graph.v ===== *)
(** The agent graph ([graph.py]): the agent node, the tool node with its
    validation, authorization, human interrupt and idempotency steps, and the
    loop between them.

    The language model and the MCP server are parameters.  Resuming an interrupted
    node runs it again from its start, as LangGraph documents: the [n]-th
    [interrupt] of the run returns the [n]-th resume value, or pauses when there is
    none.  Step metrics are best effort; they are added in Runs. *)
From S2P Require Import Prelude PyStr PyFloat PyTime Json PyRepr Auth Tools.
From S2P Require Import HitlStore GrantRepo IdempotencyStore EventStore Effects.

#[local] Open Scope prog_scope.

(** ** State *)

(** A tool call proposed by the model. *)
Record ToolRequest : Type := { rq_id : string; rq_name : string; rq_args : json }.

Inductive Message : Type :=
  | SystemMessage (content : string)
  | HumanMessage (content : string)
  | AIMessage (content : string) (tool_calls : list ToolRequest)
  | ToolMessage (content tool_call_id name : string).

Record AgentState : Type := {
  as_messages : list Message;
  as_final_answer : option string;
  as_step_count : Z;
  as_session_id : option string;
  as_executed : gset string;
}.

Definition tool_calls_of (m : Message) : list ToolRequest :=
  match m with AIMessage _ tcs => tcs | _ => [] end.

Fixpoint last_message (l : list Message) : option Message :=
  match l with [] => None | [m] => Some m | _ :: l' => last_message l' end.

(** The routing edge: [true] for ["tool_node"], [false] for [END]. *)
Definition has_tool_calls (st : AgentState) : bool :=
  match last_message (as_messages st) with
  | None => false
  | Some m => list_true (tool_calls_of m)
  end.

(** ** Operation kinds *)

Definition classify_tool_kind (name : string) : OperationKind :=
  let n := lower name in
  if any_in ["transfer"; "wire"; "send"; "pay"] n then TRANSFER
  else if any_in ["delete"; "remove"; "purge"; "close"] n then DELETE
  else if any_in ["update"; "modify"; "change"; "set"; "write"; "create"; "add"] n then WRITE
  else READ.

Definition kind_from_metadata (t : ToolDefinition) : OperationKind :=
  if td_side_effect t
  then (match td_risk_level t with Critical => TRANSFER | _ => WRITE end)
  else READ.

(** ** The nodes *)

Section graph.
Context {P : Type} `{AuthorizationPolicy P}.
(** [None] stands for the missing registry and the missing store. *)
Context (registry : option ToolRegistry) (durable : bool) (max_agent_steps : Z).
(** The model: its answer to a conversation and the tools offered to it. *)
Context (llm : list Message -> option (list json) -> result (string * list ToolRequest)).

Definition offered_tools : result (option (list json)) :=
  match registry with
  | Some r => if registry_count r >? 0 then res_map Some (provider_definitions false r) else Ok None
  | None => Ok None
  end.

(** The agent node; the fragment it returns is merged into the state. *)
Definition agent_node (st : AgentState) : result AgentState :=
  if as_step_count st >=? max_agent_steps
  then Raise (RuntimeError ("Agent exceeded max_agent_steps (" +:+ str_of_Z max_agent_steps +:+ ")"))
  else
    let* tools := offered_tools in
    let* (content, tcs) := llm (as_messages st) tools in
    Ok {| as_messages := as_messages st ++ [AIMessage content tcs];
          as_final_answer := if list_true tcs then as_final_answer st else Some content;
          as_step_count := as_step_count st + 1;
          as_session_id := as_session_id st;
          as_executed := as_executed st |}.

(** What one pass of the tool loop carries. *)
Record LoopState : Type := {
  lp_gateway : AuthorizationGateway P;
  lp_resume : list json;
  lp_results : list Message;
  lp_calls : list ToolRequest;
  lp_executed : gset string;
}.

(** The message that answers a call; [lp_calls] keeps the call as it then stands. *)
Definition answer (l : LoopState) (content : string) (tc : ToolRequest) : LoopState :=
  {| lp_gateway := lp_gateway l; lp_resume := lp_resume l;
     lp_results := lp_results l ++ [ToolMessage content (rq_id tc) (rq_name tc)]; lp_calls := lp_calls l ++ [tc];
     lp_executed := lp_executed l |}.

(** [if tool_id: executed_ids.add(tool_id)] *)
Definition mark_done (l : LoopState) (tc : ToolRequest) : LoopState :=
  {| lp_gateway := lp_gateway l; lp_resume := lp_resume l; lp_results := lp_results l; lp_calls := lp_calls l;
     lp_executed := if str_true (rq_id tc) then {[rq_id tc]} ∪ lp_executed l else lp_executed l |}.

Definition operation_kind (tc : ToolRequest) : OperationKind :=
  match registry with
  | Some r => match registry_get r (rq_name tc) with
              | Some td => kind_from_metadata td
              | None => classify_tool_kind (rq_name tc)
              end
  | None => classify_tool_kind (rq_name tc)
  end.

Definition operation_of (tc : ToolRequest) : Operation :=
  {| op_kind := operation_kind tc; op_name := rq_name tc; op_target := "tool:" +:+ rq_name tc;
     op_details := [("args", rq_args tc)] |}.

(** Step 1: [Some error] when the registry rejects the call. *)
Definition rejected_by_registry (tc : ToolRequest) : result (option string) :=
  match registry with
  | None => Ok None
  | Some r =>
      let* v := validate_tool_call (rq_name tc) (rq_args tc) r in
      Ok (if tcv_valid v then None else Some (tcv_error v))
  end.

Definition interrupt_payload (sid : string) (tc : ToolRequest) : json :=
  JObj [("tool_name", JStr (rq_name tc)); ("tool_args", rq_args tc);
        ("tool_call_id", JStr (rq_id tc)); ("session_id", JStr sid); ("thread_id", JStr sid);
        ("idempotency_key", JStr (sid +:+ ":" +:+ rq_id tc))].

Definition resume_decision (v : json) : string :=
  match v with JObj d => match dget d "decision" with Some (JStr s) => s | _ => "" end | _ => "" end.

(** Step 5: the idempotency check and the dispatch of an approved call. *)
Definition dispatch_and_record (key : option string) (tc : ToolRequest) (l : LoopState) : prog LoopState :=
  do_ (match key with
       | Some k =>
           do existing <- performE (OIdemGet k) ;;
           match existing with
           | None => do_ performE (OIdemReserve k (rq_name tc) (rq_args tc)) ;; Ret tt
           | Some _ => Ret tt
           end
       | None => Ret tt
       end) ;;
  do r <- performE (ODispatch {| tc_name := rq_name tc; tc_arguments := rq_args tc |}) ;;
  do_ (match key with
       | Some k =>
           if tr_success r then do_ perform (OIdemMark (IMSucceeded (tr_content r)) k) ;; Ret tt
           else do_ perform (OIdemMark (IMFailed (opt_or (tr_error r) "unknown error")) k) ;; Ret tt
       | None => Ret tt
       end) ;;
  Ret (answer l (if tr_success r then tr_content r else "Error: " +:+ default "None" (tr_error r)) tc).

Definition execute_approved (sid : option string) (tc : ToolRequest) (l : LoopState) : prog LoopState :=
  let key := if str_true (rq_id tc) && durable
             then Some (default "None" sid +:+ ":" +:+ rq_id tc) else None in
  do existing <- (match key with Some k => performE (OIdemGet k) | None => Ret None end) ;;
  do l' <- (match existing with
            | Some rec =>
                match ir_status rec with
                | ISUCCEEDED => Ret (answer l ("[idempotent] " +:+ opt_or (ir_result rec) "done") tc)
                | IFAILED | IRESERVED =>
                    do_ perform (OIdemMark IMExecuting (default "" key)) ;;
                    dispatch_and_record key tc l
                | IEXECUTING | IUNKNOWN =>
                    if negb (bool_decide (operation_kind tc = READ))
                    then Ret (answer l ("Error: prior outcome unknown for '" +:+ rq_name tc
                                        +:+ "'. Manual review required.") tc)
                    else dispatch_and_record key tc l
                end
            | None => dispatch_and_record key tc l
            end) ;;
  Ret (mark_done l' tc).

(** Steps 4 and 5 for a call the gateway did not deny, after the human's answer if
    one was needed. *)
Definition after_interrupt (sid : option string) (v : json) (tc : ToolRequest) (l : LoopState)
    : prog LoopState :=
  if String.eqb (resume_decision v) "approved" then
    let args := match v with
                | JObj d => match dget d "canonical_args" with Some a => a | None => rq_args tc end
                | _ => rq_args tc
                end in
    execute_approved sid {| rq_id := rq_id tc; rq_name := rq_name tc; rq_args := args |} l
  else if String.eqb (resume_decision v) "rejected" then
    let reason := match v with
                  | JObj d => dget_or d "reason" (JStr "Human operator declined")
                  | _ => JNull
                  end in
    Ret (mark_done (answer l ("Operation rejected: " +:+ py_str reason) tc) tc)
  else
    Ret (mark_done (answer l ("Error: invalid approval response for '" +:+ rq_name tc +:+ "'") tc) tc).

Definition tool_step (sid : option string) (tc : ToolRequest) (l : LoopState) : prog LoopState :=
  do rejected <- lift (rejected_by_registry tc) ;;
  match rejected with
  | Some error => Ret (answer l ("Tool call rejected: " +:+ error) tc)
  | None =>
      if str_true (rq_id tc) && bool_decide (rq_id tc ∈ lp_executed l)
      then Ret (answer l ("[idempotent skip] Tool '" +:+ rq_name tc +:+ "' already executed") tc)
      else
        do now <- perform ONow ;;
        do r <- lift (gw_authorize now (operation_of tc) (lp_gateway l)) ;;
        let l := {| lp_gateway := snd r; lp_resume := lp_resume l; lp_results := lp_results l; lp_calls := lp_calls l;
                    lp_executed := lp_executed l |} in
        match ad_decision (fst r) with
        | DENIED => Ret (answer l ("Authorization denied: " +:+ ad_reason (fst r)) tc)
        | APPROVED => execute_approved sid tc l
        | PENDING =>
            match lp_resume l with
            | [] => Pause (interrupt_payload (opt_or sid "unknown") tc)
            | v :: resume' =>
                after_interrupt sid v tc
                  {| lp_gateway := lp_gateway l; lp_resume := resume'; lp_results := lp_results l; lp_calls := lp_calls l;
                     lp_executed := lp_executed l |}
            end
        end
  end.

Fixpoint tool_loop (sid : option string) (tcs : list ToolRequest) (l : LoopState) : prog LoopState :=
  match tcs with
  | [] => Ret l
  | tc :: tcs' => do l' <- tool_step sid tc l ;; tool_loop sid tcs' l'
  end.

(** The tool calls of the last message, which the loop changes in place when a human approves
    other arguments. *)
Fixpoint rewrite_calls (l : list Message) (tcs : list ToolRequest) : list Message :=
  match l with
  | [] => []
  | [m] => [match m with AIMessage content _ => AIMessage content tcs | _ => m end]
  | m :: l' => m :: rewrite_calls l' tcs
  end.

(** The tool node: the gateway and the resume values travel with the state. *)
Definition tool_node (gw : AuthorizationGateway P) (resume : list json) (st : AgentState)
    : prog (AgentState * AuthorizationGateway P * list json) :=
  match last_message (as_messages st) with
  | None => Ret (st, gw, resume)
  | Some m =>
      if list_true (tool_calls_of m) then
        do l <- tool_loop (as_session_id st) (tool_calls_of m)
                  {| lp_gateway := gw; lp_resume := resume; lp_results := []; lp_calls := [];
                     lp_executed := as_executed st |} ;;
        Ret ({| as_messages := rewrite_calls (as_messages st) (lp_calls l) ++ lp_results l; as_final_answer := as_final_answer st;
                as_step_count := as_step_count st; as_session_id := as_session_id st;
                as_executed := lp_executed l |}, lp_gateway l, lp_resume l)
      else Ret (st, gw, resume)
  end.

(** What [ainvoke] gives back: the final state, or the saved state and the payload of
    the interrupt that suspended it. *)
Inductive GraphResult : Type :=
  | Finished (st : AgentState)
  | Suspended (payload : json) (st : AgentState).

(** The tool node on a state that asks for tools, then [next]; an interrupt suspends
    the graph before the node. *)
Definition tools_then
    (next : AuthorizationGateway P -> list json -> AgentState -> prog (option GraphResult))
    (gw : AuthorizationGateway P) (resume : list json) (st : AgentState) : prog (option GraphResult) :=
  do r <- on_pause (do r <- tool_node gw resume st ;; Ret (inl r)) (fun v => Ret (inr v)) ;;
  match r with
  | inl (st', gw', resume') => next gw' resume' st'
  | inr v => Ret (Some (Suspended v st))
  end.

(** The graph from the agent node on; [None] when the fuel runs out. *)
Fixpoint graph_loop (fuel : nat) (gw : AuthorizationGateway P) (resume : list json) (st : AgentState)
    : prog (option GraphResult) :=
  match fuel with
  | O => Ret None
  | S fuel' =>
      do st1 <- lift (agent_node st) ;;
      if has_tool_calls st1 then tools_then (graph_loop fuel') gw resume st1
      else Ret (Some (Finished st1))
  end.

(** One pass for each step that is left, and one to raise. *)
Definition passes_left (st : AgentState) : nat := S (Z.to_nat (max_agent_steps - as_step_count st)).

Definition invoke (gw : AuthorizationGateway P) (st : AgentState) : prog (option GraphResult) :=
  graph_loop (passes_left st) gw [] st.

(** [ainvoke(Command(resume=v))] on a suspended state: the interrupted node runs again,
    with the resume values given so far. *)
Definition resume_graph (gw : AuthorizationGateway P) (resume : list json) (st : AgentState)
    : prog (option GraphResult) :=
  tools_then (graph_loop (passes_left st)) gw resume st.
End graph.
Arguments LoopState : clear implicits.

(** ** Lemmas *)

Section graph_lemmas.
Context {P : Type} `{AuthorizationPolicy P}.
Context (registry : option ToolRegistry) (durable : bool) (max_agent_steps : Z).
Context (llm : list Message -> option (list json) -> result (string * list ToolRequest)).

(** Why a call may be dispatched: the registry accepts it, and a decision of the gateway, which
    was [gw0] before the calls, about it approved it, or left it PENDING and a human approved it. *)
Definition justified (gw0 : AuthorizationGateway P) (resume : list json) (tcs : list ToolRequest) (c : ToolCall) : Prop :=
  exists tc, tc ∈ tcs /\ rq_name tc = tc_name c /\ rejected_by_registry registry tc = Ok None /\
    exists now (gw gw' : AuthorizationGateway P) d,
      gw_later gw0 gw /\ gw_authorize now (operation_of registry tc) gw = Ok (d, gw') /\
      (ad_decision d = APPROVED /\ tc_arguments c = rq_args tc \/
       ad_decision d = PENDING /\ exists v, v ∈ resume /\ resume_decision v = "approved" /\
         tc_arguments c = match v with
                          | JObj d => match dget d "canonical_args" with
                                      | Some a => a | None => rq_args tc end
                          | _ => rq_args tc end).

Lemma dispatches_record Q key tc (l : LoopState P) :
  Q {| tc_name := rq_name tc; tc_arguments := rq_args tc |} ->
  dispatches Q (dispatch_and_record key tc l).
Proof.
  intros HQ. unfold dispatch_and_record. apply dispatches_bind'.
  - destruct key; [|done]. cbn. split; [done|]. intros [[rec|]|e]; cbn; try done.
    split; [done|]. intros [r|e]; done.
  - intros _. cbn. split; [done|]. intros [r|e]; cbn; [|done].
    apply dispatches_bind'; [|done]. destruct key; [|done]. destruct (tr_success r); cbn; done.
Qed.

Lemma dispatches_execute Q sid tc (l : LoopState P) :
  Q {| tc_name := rq_name tc; tc_arguments := rq_args tc |} ->
  dispatches Q (execute_approved registry durable sid tc l).
Proof.
  intros HQ. unfold execute_approved. apply dispatches_bind'.
  - destruct (_ && durable); [|done]. cbn. split; [done|]. intros [r|e]; done.
  - intros existing. apply dispatches_bind'; [|done].
    destruct existing as [rec|]; [|by apply dispatches_record].
    destruct (ir_status rec); cbn; try (split; [done|]; intros _); try (by apply dispatches_record); try done.
    + destruct (bool_decide _); cbn; [by apply dispatches_record|done].
    + destruct (bool_decide _); cbn; [by apply dispatches_record|done].
Qed.

Lemma dispatches_tool_step gw0 resume sid tc tcs (l : LoopState P) :
  tc ∈ tcs -> (forall v, v ∈ lp_resume l -> v ∈ resume) -> gw_later gw0 (lp_gateway l) ->
  dispatches (justified gw0 resume tcs) (tool_step registry durable sid tc l).
Proof.
  intros Hin Hres Hgw. unfold tool_step.
  destruct (rejected_by_registry registry tc) as [[error|]|e] eqn:Er; cbn [lift bind]; try done.
  destruct (_ && _); [done|]. cbn. split; [done|]. intros now.
  destruct (gw_authorize now (operation_of registry tc) (lp_gateway l)) as [[d gw']|e] eqn:Ea; [|done].
  cbn [lift bind fst snd]. destruct (ad_decision d) eqn:Ed; [|done|].
  - apply dispatches_execute. exists tc. repeat (split; [done|]).
    exists now, (lp_gateway l), gw', d. split; [done|]. split; [done|]. by left.
  - cbn [lp_resume]. destruct (lp_resume l) as [|v resume'] eqn:El; [done|].
    unfold after_interrupt. destruct (String.eqb_spec (resume_decision v) "approved") as [Hv|_].
    + apply dispatches_execute. cbn. exists tc. repeat (split; [done|]).
      exists now, (lp_gateway l), gw', d. split; [done|]. split; [done|]. right. split; [done|].
      exists v. split; [apply Hres; by left|]. by destruct v.
    + destruct (String.eqb _ _); done.
Qed.

Lemma leaf_record Q key tc (l : LoopState P) :
  (forall content, Q (answer l content tc)) -> leaf Q (dispatch_and_record key tc l).
Proof.
  intros HQ. unfold dispatch_and_record.
  apply (leaf_bind (fun _ => True)); [apply leaf_true|]. intros _ _.
  apply (leaf_bind (fun _ => True)); [apply leaf_true|]. intros r _.
  apply (leaf_bind (fun _ => True)); [apply leaf_true|]. intros _ _. apply HQ.
Qed.

Lemma leaf_execute Q sid tc (l : LoopState P) :
  (forall content, Q (mark_done (answer l content tc) tc)) ->
  leaf Q (execute_approved registry durable sid tc l).
Proof.
  intros HQ. unfold execute_approved.
  apply (leaf_bind (fun _ => True)); [apply leaf_true|]. intros existing _.
  apply (leaf_bind (fun l' => exists content, l' = answer l content tc)).
  - destruct existing as [rec|]; [|apply leaf_record; eauto].
    destruct (ir_status rec); cbn; eauto; try (intros _; apply leaf_record; eauto);
      destruct (bool_decide _); cbn; eauto; apply leaf_record; eauto.
  - intros l' (content & ->). apply HQ.
Qed.

(** A pass over one call asks the gateway once at most. *)
Lemma leaf_tool_step_gateway gw0 sid tc (l : LoopState P) :
  gw_later gw0 (lp_gateway l) -> leaf (fun l' => gw_later gw0 (lp_gateway l')) (tool_step registry durable sid tc l).
Proof.
  intros Hgw. unfold tool_step. apply (leaf_bind (fun _ => True)); [apply leaf_true|].
  intros [error|] _; [done|]. destruct (_ && _); [done|]. cbn. intros now.
  destruct (gw_authorize now _ _) as [[d gw']|e] eqn:Ea; [|done]. cbn [lift bind fst snd].
  assert (Hgw' : gw_later gw0 gw') by (by eapply gw_later_step).
  destruct (ad_decision d); [by apply leaf_execute|done|]. cbn [lp_resume].
  destruct (lp_resume l) as [|v resume']; [done|]. unfold after_interrupt.
  destruct (String.eqb _ _); [by apply leaf_execute|]. by destruct (String.eqb _ _).
Qed.

(** A pass over one call consumes resume values only from the front. *)
Lemma leaf_tool_step_resume sid tc (l : LoopState P) :
  leaf (fun l' => forall v, v ∈ lp_resume l' -> v ∈ lp_resume l) (tool_step registry durable sid tc l).
Proof.
  unfold tool_step. apply (leaf_bind (fun _ => True)); [apply leaf_true|].
  intros [error|] _; [by intros v Hv|]. destruct (_ && _); [by intros v Hv|]. cbn. intros now.
  destruct (gw_authorize _ _ _) as [[d gw']|e]; [|done]. cbn [lift bind fst snd].
  destruct (ad_decision d); [by apply leaf_execute|by intros v Hv|]. cbn [lp_resume].
  destruct (lp_resume l) as [|v resume']; [done|]. unfold after_interrupt.
  destruct (String.eqb _ _); [apply leaf_execute; cbn; set_solver|].
  destruct (String.eqb _ _); cbn; set_solver.
Qed.

Lemma dispatches_tool_loop gw0 resume sid tcs all (l : LoopState P) :
  (forall tc, tc ∈ tcs -> tc ∈ all) -> (forall v, v ∈ lp_resume l -> v ∈ resume) -> gw_later gw0 (lp_gateway l) ->
  dispatches (justified gw0 resume all) (tool_loop registry durable sid tcs l).
Proof.
  revert l; induction tcs as [|tc tcs IH]; intros l Hall Hres Hgw; [done|]. cbn [tool_loop].
  eapply dispatches_bind; [apply dispatches_tool_step; [apply Hall; by left|done|done]|
                           apply leaf_and; [apply leaf_tool_step_resume|by apply leaf_tool_step_gateway]|].
  intros l' [Hl' Hgw']. apply IH; [|auto|done]. intros tc' Htc'. apply Hall. by right.
Qed.

Lemma leaf_tool_loop_gateway gw0 sid tcs (l : LoopState P) :
  gw_later gw0 (lp_gateway l) -> leaf (fun l' => gw_later gw0 (lp_gateway l')) (tool_loop registry durable sid tcs l).
Proof.
  revert l; induction tcs as [|tc tcs IH]; intros l Hgw; [done|]. cbn [tool_loop].
  eapply leaf_bind; [by apply leaf_tool_step_gateway|]. intros l' Hl'. by apply IH.
Qed.

Lemma last_message_app (l : list Message) m : last_message (l ++ [m]) = Some m.
Proof. induction l as [|x l IH]; [done|]. cbn. rewrite IH. by destruct l. Qed.

Lemma agent_node_ok st st1 :
  agent_node registry max_agent_steps llm st = Ok st1 ->
  as_step_count st < max_agent_steps /\ as_step_count st1 = as_step_count st + 1 /\
  (has_tool_calls st1 = false -> is_some (as_final_answer st1) = true).
Proof.
  unfold agent_node. destruct (Z.geb_spec (as_step_count st) max_agent_steps); [done|].
  intros (tools & _ & ([content tcs] & _ & [= <-])%res_bind_ok)%res_bind_ok.
  split; [lia|]. split; [done|]. unfold has_tool_calls. cbn.
  rewrite last_message_app. cbn. by destruct tcs.
Qed.

Lemma tool_node_step_count gw resume (st : AgentState) :
  leaf (fun r => as_step_count (fst (fst r)) = as_step_count st) (tool_node registry durable gw resume st).
Proof.
  unfold tool_node. destruct (last_message _) as [m|]; [|done]. destruct (list_true _); [|done].
  apply (leaf_bind (fun _ => True)); [apply leaf_true|]. done.
Qed.

(** What the graph may give back, started at step count [n]. *)
Definition good_result (n : Z) (r : option GraphResult) : Prop :=
  exists st', n < as_step_count st' <= max_agent_steps /\
    (r = Some (Finished st') /\ has_tool_calls st' = false /\ is_some (as_final_answer st') = true \/
     exists v, r = Some (Suspended v st') /\ has_tool_calls st' = true).

Lemma good_result_le n m r : n <= m -> good_result m r -> good_result n r.
Proof. intros Hle (st' & Hst & Hr). exists st'. split; [lia|done]. Qed.

Lemma leaf_tools_then (Q : option GraphResult -> Prop) next gw resume st :
  (forall v, Q (Some (Suspended v st))) ->
  (forall gw' resume' st', as_step_count st' = as_step_count st -> leaf Q (next gw' resume' st')) ->
  leaf Q (tools_then registry durable next gw resume st).
Proof.
  intros Hs Hn. unfold tools_then.
  apply (leaf_bind (fun r => match r with
                             | inl (st', _, _) => as_step_count st' = as_step_count st
                             | inr _ => True end)).
  - apply leaf_on_pause; [|done]. eapply leaf_bind; [apply tool_node_step_count|]. by intros [[st' gw'] res'].
  - intros [[[st' gw'] res']|v] Hr; [by apply Hn|apply Hs].
Qed.

(** Enough fuel: one pass for each step that is left, and one to raise. *)
Lemma graph_loop_leaf fuel gw resume st :
  (Z.to_nat (max_agent_steps - as_step_count st) < fuel)%nat ->
  leaf (good_result (as_step_count st)) (graph_loop registry durable max_agent_steps llm fuel gw resume st).
Proof.
  revert gw resume st. induction fuel as [|fuel IH]; intros gw resume st Hf; [lia|]. cbn [graph_loop].
  apply (leaf_bind (fun st1 => agent_node registry max_agent_steps llm st = Ok st1)).
  { apply leaf_lift. done. }
  intros st1 (Hlt & Hstep & Hfin)%agent_node_ok.
  destruct (has_tool_calls st1) eqn:Et.
  - assert (Hs : forall v, good_result (as_step_count st) (Some (Suspended v st1))).
    { intros v. exists st1. split; [lia|]. right. eauto. }
    apply leaf_tools_then; [apply Hs|]. intros gw' res' st' Hst'.
    eapply leaf_impl; [|apply IH; lia]. intros r. apply good_result_le. lia.
  - exists st1. split; [lia|]. left. auto.
Qed.

(** Without resume values, what the graph dispatches was approved by the gateway. *)
Lemma tool_loop_no_resume sid tcs (l : LoopState P) :
  lp_resume l = [] -> leaf (fun l' => lp_resume l' = []) (tool_loop registry durable sid tcs l).
Proof.
  revert l. induction tcs as [|tc tcs IH]; intros l Hl; [done|]. cbn [tool_loop].
  eapply leaf_bind; [apply leaf_tool_step_resume|]. intros l' Hl'. apply IH.
  rewrite Hl in Hl'. destruct (lp_resume l') as [|v r]; [done|].
  exfalso. apply (not_elem_of_nil v), Hl'. by left.
Qed.

(** The tool node answers every call of the last message in turn; it leaves the history as it
    was, but for the arguments of a call a human approved with others. *)
Definition same_request (tc tc' : ToolRequest) : Prop := rq_id tc' = rq_id tc /\ rq_name tc' = rq_name tc.

Lemma tool_step_calls sid tc (l : LoopState P) :
  leaf (fun l' => exists tc', lp_calls l' = lp_calls l ++ [tc'] /\ same_request tc tc' /\ (lp_resume l = [] -> tc' = tc))
    (tool_step registry durable sid tc l).
Proof.
  assert (Hsame : forall l' : LoopState P, lp_calls l' = lp_calls l ++ [tc] ->
    exists tc', lp_calls l' = lp_calls l ++ [tc'] /\ same_request tc tc' /\ (lp_resume l = [] -> tc' = tc)) by (intros l' E; by exists tc).
  unfold tool_step. apply (leaf_bind (fun _ => True)); [apply leaf_true|].
  intros [error|] _; [by apply Hsame|]. destruct (_ && _); [by apply Hsame|]. cbn. intros now.
  destruct (gw_authorize _ _ _) as [[d gw']|e]; [|done]. cbn [lift bind fst snd].
  destruct (ad_decision d); [apply leaf_execute; by intros; apply Hsame|by apply Hsame|]. cbn [lp_resume].
  destruct (lp_resume l) as [|v resume'] eqn:E; [done|]. unfold after_interrupt.
  destruct (String.eqb _ _).
  - apply leaf_execute. intros content. eexists. split; [reflexivity|]. by split.
  - destruct (String.eqb _ _); cbn; eexists; (split; [reflexivity|]); by split.
Qed.

Lemma tool_loop_calls sid tcs (l : LoopState P) :
  leaf (fun l' => exists tcs', lp_calls l' = lp_calls l ++ tcs' /\ Forall2 same_request tcs tcs' /\ (lp_resume l = [] -> tcs' = tcs))
    (tool_loop registry durable sid tcs l).
Proof.
  revert l. induction tcs as [|tc tcs IH]; intros l; [exists []; by rewrite app_nil_r|]. cbn [tool_loop].
  pose proof (leaf_and _ _ _ (tool_step_calls sid tc l) (leaf_tool_step_resume sid tc l)) as Hstep.
  eapply leaf_bind; [exact Hstep|]. intros l1 [(tc' & Hc & Htc & Heq) Hres].
  eapply leaf_impl; [|apply IH]. intros l2 (tcs' & Hc' & Htcs & Heq'). exists (tc' :: tcs').
  rewrite Hc', Hc, <-app_assoc. split; [done|]. split; [by constructor|]. intros Hl. rewrite (Heq Hl).
  rewrite Hl in Hres. rewrite Heq'; [done|]. destruct (lp_resume l1) as [|v r]; [done|].
  exfalso. apply (not_elem_of_nil v), Hres. by left.
Qed.

Lemma rewrite_calls_same ms m : last_message ms = Some m -> list_true (tool_calls_of m) = true -> rewrite_calls ms (tool_calls_of m) = ms.
Proof.
  induction ms as [|x ms IH]; [done|]. intros Hm Ht. destruct ms as [|y ms].
  - injection Hm as ->. by destruct m.
  - change (rewrite_calls (x :: y :: ms) (tool_calls_of m)) with (x :: rewrite_calls (y :: ms) (tool_calls_of m)). by rewrite IH.
Qed.

Lemma tool_node_history gw resume (st : AgentState) m :
  last_message (as_messages st) = Some m -> list_true (tool_calls_of m) = true ->
  leaf (fun r => exists calls answers,
      as_messages (fst (fst r)) = rewrite_calls (as_messages st) calls ++ answers /\
      Forall2 same_request (tool_calls_of m) calls /\
      (resume = [] -> as_messages (fst (fst r)) = as_messages st ++ answers))
    (tool_node registry durable gw resume st).
Proof.
  intros Hm Ht. unfold tool_node. rewrite Hm, Ht. eapply leaf_bind; [apply tool_loop_calls|].
  intros l' (calls & Hc & Hsame & Heq). cbn in Hc, Heq. exists calls, (lp_results l'). cbn. rewrite Hc. split; [done|].
  split; [done|]. intros Hr. by rewrite (Heq Hr), (rewrite_calls_same _ m).
Qed.

(** A conversation that begins with [ms]. *)
Definition continues (ms ms' : list Message) : Prop := exists more, ms' = ms ++ more.

Lemma continues_refl ms : continues ms ms.
Proof. exists []. by rewrite app_nil_r. Qed.

Lemma continues_trans ms1 ms2 more : continues ms1 ms2 -> continues ms1 (ms2 ++ more).
Proof. intros [m ->]. exists (m ++ more). by rewrite <-(assoc_L (++)). Qed.

Lemma tool_node_gateway gw0 gw (st : AgentState) :
  gw_later gw0 gw -> leaf (fun r => snd r = [] /\ gw_later gw0 (snd (fst r))) (tool_node registry durable gw [] st).
Proof.
  intros Hgw. unfold tool_node. destruct (last_message (as_messages st)) as [m|]; [|done].
  destruct (list_true (tool_calls_of m)); [|done].
  eapply leaf_bind; [apply leaf_and; [by apply tool_loop_no_resume|by apply (leaf_tool_loop_gateway gw0)]|].
  intros l [Hl Hg]. exact (conj Hl Hg).
Qed.

(** The tool node of a graph that is not resumed. *)
Lemma dispatches_tool_node Q gw0 gw ms (st : AgentState) :
  gw_later gw0 gw -> continues ms (as_messages st) -> has_tool_calls st = true ->
  (forall c, justified gw0 [] (from_option tool_calls_of [] (last_message (as_messages st))) c -> Q c) ->
  dispatches Q (tool_node registry durable gw [] st) /\
  leaf (fun r => snd r = [] /\ gw_later gw0 (snd (fst r)) /\ continues ms (as_messages (fst (fst r))))
    (tool_node registry durable gw [] st).
Proof.
  intros Hgw Hms Ht HQ. unfold has_tool_calls in Ht. destruct (last_message (as_messages st)) as [m|] eqn:Em; [|done]. cbn [from_option] in *.
  split.
  - unfold tool_node. rewrite Em, Ht. apply dispatches_bind'; [|done]. eapply dispatches_impl; [exact HQ|]. by apply dispatches_tool_loop.
  - pose proof (leaf_and _ _ _ (tool_node_history gw [] st m Em Ht) (tool_node_gateway gw0 gw st Hgw)) as Hl.
    eapply leaf_impl; [|exact Hl]. intros [[st' gw'] res'] [(calls & answers & _ & _ & Hh) [Hres Hg]].
    cbn in *. split; [done|]. split; [done|]. rewrite Hh by done. by apply continues_trans.
Qed.

(** What the model proposed when it was shown the offered tools and a conversation that begins
    with [ms]. *)
Definition proposal (ms : list Message) (tcs : list ToolRequest) : Prop :=
  exists msgs tools content, continues ms msgs /\ offered_tools registry = Ok tools /\ llm msgs tools = Ok (content, tcs).

Lemma agent_node_proposal ms st st1 :
  continues ms (as_messages st) -> agent_node registry max_agent_steps llm st = Ok st1 ->
  proposal ms (from_option tool_calls_of [] (last_message (as_messages st1))) /\ continues ms (as_messages st1).
Proof.
  unfold agent_node. destruct (Z.geb _ _); [done|].
  intros Hms (tools & Ht & ([content tcs] & Hl & [= <-])%res_bind_ok)%res_bind_ok. cbn.
  rewrite last_message_app. cbn. split; [by exists (as_messages st), tools, content|by apply continues_trans].
Qed.

Lemma dispatches_proposed Q fuel gw0 gw ms st :
  gw_later gw0 gw -> continues ms (as_messages st) ->
  (forall tcs c, proposal ms tcs -> justified gw0 [] tcs c -> Q c) ->
  dispatches Q (graph_loop registry durable max_agent_steps llm fuel gw [] st).
Proof.
  intros Hgw Hms HQ. revert gw st Hgw Hms. induction fuel as [|fuel IH]; intros gw st Hgw Hms; [done|]. cbn [graph_loop].
  apply (dispatches_bind _ (fun st1 => agent_node registry max_agent_steps llm st = Ok st1));
    [apply dispatches_lift|by apply leaf_lift|].
  intros st1 [Hst1 Hms1]%(agent_node_proposal ms); [|done]. destruct (has_tool_calls st1) eqn:Et; [|done].
  destruct (dispatches_tool_node Q gw0 gw ms st1) as [Hd Hl]; [done..|intros c; by apply HQ|]. unfold tools_then.
  apply (dispatches_bind _ (fun r => match r with
    | inl (st', gw', res) => res = [] /\ gw_later gw0 gw' /\ continues ms (as_messages st')
    | inr _ => True end)).
  - apply dispatches_on_pause; [|done]. apply dispatches_bind'; done.
  - apply leaf_on_pause; [|done]. eapply leaf_bind; [exact Hl|]. by intros [[st' gw'] res'].
  - intros [[[st' gw'] res']|v]; [intros (-> & Hgw' & Hms'); by apply IH|done].
Qed.
End graph_lemmas.

(** A run that makes one pass over a reserved key. *)
Lemma idem_get_executing now mcp k w rec :
  idem_get k (w_idem w) = Ok (Some rec) ->
  exists rec', idem_get k (w_idem (snd (exec now mcp (OIdemMark IMExecuting k) w))) = Ok (Some rec').
Proof.
  unfold idem_get. destruct (w_idem w !! k) as [row|] eqn:E; [|done]. intros (x & Hx & _)%res_bind_ok.
  cbn. unfold IdempotencyStore.mark_executing, update_idem. rewrite E.
  destruct (String.eqb (iw_status row) "RESERVED"); cbn.
  - rewrite lookup_insert_eq. unfold row_to_record in *. cbn [set_idem iw_status iw_tool_args] in *.
    destruct (idem_status_of (iw_status row)); [|done]. cbn [res_bind] in Hx.
    apply res_bind_ok in Hx as (args & Ha & _). rewrite Ha. cbn. eauto.
  - rewrite E, Hx. cbn. eauto.
Qed.

(** A reserved key does not stop a second dispatch. *)
Lemma reserved_key_dispatches {P} registry sid tc (l : LoopState P) now mcp w rec :
  rq_id tc <> "" -> idem_get (default "None" sid +:+ ":" +:+ rq_id tc) (w_idem w) = Ok (Some rec) ->
  ir_status rec = IRESERVED ->
  calls_first now mcp {| tc_name := rq_name tc; tc_arguments := rq_args tc |}
    (execute_approved registry true sid tc l) w.
Proof.
  intros Hid%str_true_spec Hget Hst. unfold execute_approved. rewrite Hid. cbn [andb].
  set (k := _ +:+ _) in *.
  eapply calls_first_after; [unfold performE; cbn [run exec]; by rewrite Hget|done|].
  apply calls_first_bind. rewrite Hst.
  destruct (idem_get_executing now mcp k w rec Hget) as (rec' & Hget').
  eapply (calls_first_after now mcp _ (perform _) _ _ _
            (snd (exec now mcp (OIdemMark IMExecuting k) w))).
  - exact (run_op now mcp _ _ w).
  - cbn. by destruct (mark_executing k (w_idem w)).
  - unfold dispatch_and_record. eapply calls_first_after;
      [rewrite run_doE; cbn [exec fst snd]; cbn [exec fst snd] in Hget'; by rewrite Hget'|done|].
    apply calls_first_dispatch.
Qed.

(** ** Properties *)

(** C4: the tool node dispatches a call only if the model proposed it, the
    registry (when there is one) validates it, and the gateway either approved it or left
    it pending and a human's resume value approved it; it is dispatched with the proposed
    arguments, or with the canonical ones the human approved. This holds for any policy,
    model, MCP answers and database. *)
Theorem tool_node_dispatches_only_authorized {P} `{AuthorizationPolicy P} registry durable
    (gw : AuthorizationGateway P) resume st now mcp w :
  exists cs, w_calls (snd (run now mcp (tool_node registry durable gw resume st) w)) = w_calls w ++ cs /\
    Forall (justified registry gw resume
              (from_option tool_calls_of [] (last_message (as_messages st)))) cs.
Proof.
  apply dispatches_run. unfold tool_node. destruct (last_message (as_messages st)) as [m|]; [|done].
  destruct (list_true (tool_calls_of m)); [|done]. cbn [from_option].
  apply dispatches_bind'; [|done]. apply dispatches_tool_loop; [done|done|apply gw_later_refl].
Qed.

(** C18: the agent loop always comes to an end: whatever the model, the tools
    and the database answer, [invoke] never runs out of passes; it gives back, within
    [max_agent_steps] steps, a state with a final answer and no pending tool call, or the
    state of an interrupt, saved before the tools it asks for. *)
Theorem agent_loop_bounded {P} `{AuthorizationPolicy P} registry durable max_agent_steps llm
    (gw : AuthorizationGateway P) st now mcp w r w' :
  run now mcp (invoke registry durable max_agent_steps llm gw st) w = (Done r, w') ->
  exists st', as_step_count st < as_step_count st' <= max_agent_steps /\
    (r = Some (Finished st') /\ has_tool_calls st' = false /\ is_some (as_final_answer st') = true \/
     exists v, r = Some (Suspended v st') /\ has_tool_calls st' = true).
Proof.
  intros Hr.
  pose proof (graph_loop_leaf registry durable max_agent_steps llm
    (passes_left max_agent_steps st) gw [] st ltac:(unfold passes_left; lia)) as Hleaf.
  exact (leaf_run _ now mcp _ w r w' Hleaf Hr).
Qed.

Definition witness_registry : ToolRegistry := [("get_balance", witness_tool)].
Definition witness_state : AgentState :=
  {| as_messages := [HumanMessage "balance?"]; as_final_answer := None; as_step_count := 0;
     as_session_id := Some "s-1"; as_executed := ∅ |}.
Definition empty_world : World :=
  {| w_hitl := ∅; w_grants := ∅; w_idem := ∅; w_events := None; w_calls := [] |}.
Definition witness_llm (msgs : list Message) (tools : option (list json))
    : result (string * list ToolRequest) :=
  if (length msgs <? 2)%nat
  then Ok ("", [{| rq_id := "call-1"; rq_name := "get_balance";
                   rq_args := JObj [("account_id", JStr "ACC-1001"); ("user_id", JStr "user-alice")] |}])
  else Ok ("Your balance is 15000.", []).
Definition witness_answer (c : ToolCall) : result ToolResult :=
  Ok {| tr_tool_name := tc_name c; tr_success := true; tr_content := "15000.0"; tr_error := None |}.

Lemma agent_loop_bounded_witness :
  exists st' w', run noon_2026 witness_answer (invoke (Some witness_registry) true 50 witness_llm
      {| gw_policy := RequireApproval; gw_decisions := [] |} witness_state) empty_world
    = (Done (Some (Finished st')), w') /\ 0 < as_step_count st' <= 50.
Proof.
  destruct (run noon_2026 witness_answer (invoke (Some witness_registry) true 50 witness_llm
      {| gw_policy := RequireApproval; gw_decisions := [] |} witness_state) empty_world) as [[r|e|v] w'] eqn:E.
  - destruct (agent_loop_bounded _ _ _ _ _ _ _ _ _ _ _ E) as (st' & Hst & [(-> & _)|(v & -> & _)]).
    + exists st', w'. split; [reflexivity|exact Hst].
    + vm_compute in E. discriminate E.
  - vm_compute in E. discriminate E.
  - vm_compute in E. discriminate E.
Defined.

(** an approved call whose idempotency key is already SUCCEEDED is answered
    from the record, and one whose outcome is EXECUTING or UNKNOWN is refused unless it is
    a read: neither reaches the MCP server again, and no record changes. *)
Theorem settled_keys_are_not_redispatched {P} registry sid tc (l : LoopState P) now mcp w rec :
  rq_id tc <> "" ->
  idem_get (default "None" sid +:+ ":" +:+ rq_id tc) (w_idem w) = Ok (Some rec) ->
  ir_status rec = ISUCCEEDED \/
    ((ir_status rec = IEXECUTING \/ ir_status rec = IUNKNOWN) /\ operation_kind registry tc <> READ) ->
  run now mcp (execute_approved registry true sid tc l) w =
    (Done (mark_done (answer l
       (if bool_decide (ir_status rec = ISUCCEEDED) then "[idempotent] " +:+ opt_or (ir_result rec) "done"
        else "Error: prior outcome unknown for '" +:+ rq_name tc +:+ "'. Manual review required.") tc) tc), w).
Proof.
  intros Hid%str_true_spec Hget Hst. unfold execute_approved. rewrite Hid. cbn [andb].
  cbn [performE bind run exec]. rewrite Hget. cbn [lift bind].
  destruct Hst as [-> |[[-> | ->] Hk]]; [done|..]; rewrite bool_decide_false by done; done.
Qed.

Lemma settled_keys_are_not_redispatched_witness :
  let w := {| w_hitl := ∅; w_grants := ∅;
              w_idem := snd (mark_succeeded noon_2026 "s-1:call-1" "done"
                (snd (mark_executing "s-1:call-1" (snd (reserve noon_2026 "s-1:call-1" "pay" (JObj []) ∅)))));
              w_events := None; w_calls := [] |} in
  let tc := {| rq_id := "call-1"; rq_name := "pay"; rq_args := JObj [] |} in
  let l := {| lp_gateway := {| gw_policy := AutoApprove; gw_decisions := [] |}; lp_resume := [];
              lp_results := []; lp_calls := []; lp_executed := ∅ |} in
  run noon_2026 witness_answer (execute_approved None true (Some "s-1") tc l) w
    = (Done (mark_done (answer l "[idempotent] done" tc) tc), w).
Proof.
  intros w tc l. destruct (idem_get "s-1:call-1" (w_idem w)) as [[rec|]|] eqn:E;
    [|vm_compute in E; discriminate E..].
  pose proof (settled_keys_are_not_redispatched None (Some "s-1") tc l noon_2026 witness_answer w rec) as Ht.
  cbv zeta in Ht. rewrite Ht; [|discriminate|exact E|].
  - vm_compute in E. injection E as <-. reflexivity.
  - vm_compute in E. injection E as <-. left. reflexivity.
Defined.
