(* ===== verification/Provider.v ===== *)
(** The language-model providers: the DeepSeek client with its retries and the parsing of
    its answers ([providers/deepseek.py], [providers/base.py], [providers/factory.py]) and
    the mocks ([llm.py]).

    The HTTP transport, the random jitter and the shape LangChain gives a message's tool
    calls are parameters.  Texts cut at 500 characters are cut at 500 bytes, which is the
    same for the ASCII bodies the statements use. *)
From S2P Require Import Prelude PyStr PyFloat Json PyRepr.
From S2P Require Import Auth Tools HitlStore GrantRepo IdempotencyStore EventStore Effects Graph.

Record ProviderConfig : Type := {
  provider_type : string;
  base_url : string;
  cfg_model : string;
  token_env_var : string;
  request_timeout : f64;
  max_retries : Z;
  retry_backoff : f64;
  max_tokens : Z;
  temperature : f64;
}.

Definition default_provider_config : ProviderConfig :=
  {| provider_type := "deepseek"; base_url := "https://api.deepseek.com/v1"; cfg_model := "deepseek-v4-pro";
     token_env_var := "DEEPSEEK_API_TOKEN"; request_timeout := f_of_Z 120; max_retries := 3;
     retry_backoff := f_of_Z 1; max_tokens := 4096; temperature := f_zero |}.

(** [content], [request_id], [model] and the counts are whatever the answer holds. *)
Record ProviderResponse : Type := {
  pr_content : json;
  pr_tool_calls : list (json * json * json);
  usage_input_tokens : json;
  usage_output_tokens : json;
  latency_ms : f64;
  request_id : json;
  pr_model : json;
}.

Definition RETRYABLE_STATUSES : list Z := [408; 429; 500; 502; 503].
Definition NON_RETRYABLE_STATUSES : list Z := [400; 401; 403; 409].

Definition in_statuses (s : Z) (l : list Z) : bool := existsb (Z.eqb s) l.

Record DeepSeekProvider : Type := { config : ProviderConfig; token : string; closed : bool }.

Definition close_provider (p : DeepSeekProvider) : DeepSeekProvider :=
  {| config := config p; token := token p; closed := true |}.

(** [create_provider]; the environment gives the token. *)
Definition create_provider (environ : string -> option string) (cfg : option ProviderConfig) : result DeepSeekProvider :=
  let cfg := default default_provider_config cfg in
  if String.eqb (provider_type cfg) "deepseek" then
    let token := default "" (environ (token_env_var cfg)) in
    if negb (str_true token)
    then Raise (RuntimeError ("DeepSeek provider requires " +:+ token_env_var cfg
           +:+ " environment variable. Set it or configure a different provider."))
    else Ok {| config := cfg; token := token; closed := false |}
  else Raise (RuntimeError ("Unknown provider type: " +:+ repr_str (provider_type cfg))).

(** ** Request *)

Definition lc_type (m : Message) : string :=
  match m with
  | SystemMessage _ => "SystemMessage" | HumanMessage _ => "HumanMessage"
  | AIMessage _ _ => "AIMessage" | ToolMessage _ _ _ => "ToolMessage"
  end.

Definition map_role (t : string) : string :=
  if String.eqb t "HumanMessage" then "user"
  else if String.eqb t "AIMessage" then "assistant"
  else if String.eqb t "SystemMessage" then "system"
  else if String.eqb t "ToolMessage" then "tool"
  else "user".

Definition message_content (m : Message) : string :=
  match m with SystemMessage c | HumanMessage c | AIMessage c _ | ToolMessage c _ _ => c end.

Section request.
(** The dict LangChain keeps for a tool call of a message. *)
Context (call_dict : ToolRequest -> dict).

Definition convert_message (m : Message) : dict :=
  [("role", JStr (map_role (lc_type m))); ("content", JStr (message_content m))]
  ++ (match m with
      | AIMessage _ (tc :: tcs) => [("tool_calls", JArr (map (fun c => JObj (call_dict c)) (tc :: tcs)))]
      | _ => []
      end)
  ++ (match m with
      | ToolMessage _ id _ => if str_true id then [("tool_call_id", JStr id)] else []
      | _ => []
      end).

Definition build_request_body (cfg : ProviderConfig) (messages : list Message) (tools : option (list json))
    (tool_choice : option json) : dict :=
  [("model", JStr (cfg_model cfg)); ("max_tokens", JInt (max_tokens cfg));
   ("temperature", JFloat (temperature cfg)); ("messages", JArr (map (fun m => JObj (convert_message m)) messages))]
  ++ (match tools with Some (t :: ts) => [("tools", JArr (t :: ts))] | _ => [] end)
  ++ (match tool_choice with Some c => [("tool_choice", c)] | None => [] end).
End request.

(** ** Retries *)

Section retry.
(** The transport's answer to each attempt, and the jitter drawn after it, at most the
    second argument. *)
Context (post : nat -> result (Z * string)) (uniform : nat -> f64 -> f64).

Definition half : f64 := dec_to_f64 5 (-1).

Definition pause (attempt : nat) (backoff : f64) : f64 := f_add backoff (uniform attempt (f_mul backoff half)).

Definition double (x : f64) : f64 := f_mul x (f_of_Z 2).

(** The loop from [attempt] on, with [left] more attempts after it: its outcome, how many
    requests it sends, and how long it sleeps between them. *)
Fixpoint attempts (total : Z) (left attempt : nat) (backoff : f64) : result (Z * string) * nat * list f64 :=
  match post attempt with
  | Ok (status, body) =>
      if in_statuses status NON_RETRYABLE_STATUSES then (Ok (status, body), 1%nat, [])
      else if in_statuses status RETRYABLE_STATUSES then
        match left with
        | S left' =>
            let '(r, n, sleeps) := attempts total left' (S attempt) (double backoff) in
            (r, S n, pause attempt backoff :: sleeps)
        | 0%nat => (Ok (status, body), 1%nat, [])
        end
      else (Ok (status, body), 1%nat, [])
  | Raise exc =>
      match left with
      | S left' =>
          let '(r, n, sleeps) := attempts total left' (S attempt) (double backoff) in
          (r, S n, pause attempt backoff :: sleeps)
      | 0%nat =>
          (Raise (RuntimeError ("Provider request failed after " +:+ str_of_Z (total + 1) +:+ " attempts: "
             +:+ str_exn exc)), 1%nat, [])
      end
  end.

Definition request_with_retry (cfg : ProviderConfig) : result (Z * string) * nat * list f64 :=
  if max_retries cfg <? 0 then (Raise (RuntimeError "Provider request failed: None"), 0%nat, [])
  else attempts (max_retries cfg) (Z.to_nat (max_retries cfg)) 0 (retry_backoff cfg).
End retry.

(** ** Answer *)

(** [v\[0\]] of a true value. *)
Definition first_item (v : json) : result json :=
  match v with
  | JArr (x :: _) => Ok x
  | JArr [] => Raise (IndexError "list index out of range")
  | JObj _ => Raise (KeyError "0")
  | JStr (String c _) => Ok (JStr (String c ""))
  | JStr EmptyString => Raise (IndexError "string index out of range")
  | _ => Raise (TypeError (repr_str (type_name v) +:+ " object is not subscriptable"))
  end.

(** [a or b] *)
Definition json_or (a b : json) : json := if json_true a then a else b.

(** Members of the decoded answer, whose keys only an object has. *)
Definition answer_choice (data : json) : result json :=
  match data with
  | JObj d =>
      if dhas d "choices" then first_item (json_or (dget_or d "choices" JNull) (JArr [JObj []])) else Ok data
  | JArr _ | JStr _ => let* _ := py_dict data in Ok data
  | _ => Raise (TypeError ("argument of type " +:+ repr_str (type_name data) +:+ " is not iterable"))
  end.

Definition parse_tool_call (tc : json) : result (json * json * json) :=
  let* d := py_dict tc in
  let* f := py_dict (dget_or d "function" (JObj [])) in
  match dget f "arguments" with
  | Some (JStr text) =>
      let* name := ditem f "name" in
      let* args := loads text in
      let* id := ditem d "id" in
      Ok (name, args, id)
  | _ =>
      if dhas d "function" then
        let* name := ditem f "name" in
        let* args := ditem f "arguments" in
        let* id := ditem d "id" in
        Ok (name, args, id)
      else Raise (KeyError "function")
  end.

Definition answer_content (data msg : dict) : json :=
  let content := json_or (dget_or msg "content" (JStr "")) (JStr "") in
  let content := if json_true content then content
                 else json_or (dget_or msg "reasoning_content" (JStr "")) (JStr "") in
  if negb (json_true content) && dhas data "content" then json_or (dget_or data "content" (JStr "")) (JStr "")
  else content.

Definition parse_response (cfg : ProviderConfig) (status : Z) (raw : string) (latency : f64) : result ProviderResponse :=
  if status =? 401 then Raise (RuntimeError "Provider authentication failed — check your API token")
  else if status =? 403 then Raise (RuntimeError "Provider authorization failed — check your account permissions")
  else if status =? 400 then Raise (RuntimeError ("Provider rejected request (400): " +:+ take_str 500 raw))
  else if status =? 429 then Raise (RuntimeError "Provider rate limit exceeded — retry exhausted")
  else if status >=? 500
  then Raise (RuntimeError ("Provider server error (" +:+ str_of_Z status +:+ "): " +:+ take_str 500 raw))
  else
    match loads raw with
    | Raise JSONDecodeError =>
        Raise (RuntimeError ("Provider returned malformed JSON (status " +:+ str_of_Z status +:+ "): " +:+ take_str 500 raw))
    | Raise e => Raise e
    | Ok data =>
        let* choice := answer_choice data in
        let* choice := py_dict choice in
        let* data := py_dict data in
        let* parsed :=
          match dget_or choice "message" (JObj []) with
          | JObj msg =>
              let* calls :=
                (let raw_calls := dget_or msg "tool_calls" (JArr []) in
                 if json_true raw_calls then let* l := py_list raw_calls in res_mapM parse_tool_call l else Ok []) in
              Ok (answer_content data msg, calls)
          | _ => Ok (JStr "", [])
          end in
        let* usage := py_dict (dget_or data "usage" (JObj [])) in
        Ok {| pr_content := fst parsed; pr_tool_calls := snd parsed;
              usage_input_tokens := dget_or usage "prompt_tokens" (JInt 0);
              usage_output_tokens := dget_or usage "completion_tokens" (JInt 0);
              latency_ms := latency;
              request_id := dget_or data "id" (JStr "");
              pr_model := dget_or data "model" (JStr (cfg_model cfg)) |}
    end.

(** The content and the tool calls of the message handed to the agent. *)
Definition to_ai_message (r : ProviderResponse) : json * list (json * json * json) :=
  (json_or (pr_content r) (if list_true (pr_tool_calls r) then JStr "" else pr_content r), pr_tool_calls r).

(** [invoke]: the transport receives the address, the token and the body. *)
Definition invoke (call_dict : ToolRequest -> dict)
    (transport : string -> string -> string -> nat -> result (Z * string)) (uniform : nat -> f64 -> f64)
    (latency : f64) (p : DeepSeekProvider) (messages : list Message) (tools : option (list json)) (tool_choice : option json)
    : result (json * list (json * json * json)) :=
  if closed p then Raise (RuntimeError "DeepSeekProvider is closed")
  else
    let body := dumps false (JObj (build_request_body call_dict (config p) messages tools tool_choice)) in
    let post := transport (base_url (config p) +:+ "/chat/completions") ("Bearer " +:+ token p) body in
    let* answer := fst (fst (request_with_retry post uniform (config p))) in
    let* parsed := parse_response (config p) (fst answer) (snd answer) latency in
    Ok (to_ai_message parsed).

(** ** Mocks *)

Record MockLLM : Type := { responses : list Message; index : nat; mock_call_count : Z }.

Definition new_mock (responses : option (list Message)) : MockLLM :=
  {| responses := match responses with
                  | Some (m :: ms) => m :: ms
                  | _ => [AIMessage "No further actions needed." []]
                  end;
     index := 0; mock_call_count := 0 |}.

Definition mock_invoke (m : MockLLM) : result Message * MockLLM :=
  match responses m !! index m with
  | Some r => (Ok r, {| responses := responses m; index := S (index m); mock_call_count := mock_call_count m + 1 |})
  | None =>
      (Raise (RuntimeError ("MockLLM exhausted after " +:+ str_of_Z (Z.of_nat (length (responses m))) +:+ " response(s)")), m)
  end.

Definition exhausted (m : MockLLM) : bool := (length (responses m) <=? index m)%nat.

Record EchoLLM : Type := { prefix : string; echo_call_count : Z }.

Definition echo_invoke (messages : list Message) (e : EchoLLM) : result Message * EchoLLM :=
  let e' := {| prefix := prefix e; echo_call_count := echo_call_count e + 1 |} in
  match last messages with
  | Some m => (Ok (AIMessage (prefix e +:+ message_content m) []), e')
  | None => (Raise (IndexError "list index out of range"), e')
  end.

(** ** Lemmas: retries *)

(** Answers that are not retried. *)
Definition final (a : result (Z * string)) : bool :=
  match a with Ok (status, _) => negb (in_statuses status RETRYABLE_STATUSES) | Raise _ => false end.

(** What the last attempt's answer becomes. *)
Definition outcome (total : Z) (a : result (Z * string)) : result (Z * string) :=
  match a with
  | Ok x => Ok x
  | Raise exc => Raise (RuntimeError ("Provider request failed after " +:+ str_of_Z (total + 1) +:+ " attempts: "
                   +:+ str_exn exc))
  end.

Lemma statuses_disjoint s : in_statuses s NON_RETRYABLE_STATUSES = true -> in_statuses s RETRYABLE_STATUSES = false.
Proof.
  unfold in_statuses. rewrite existsb_exists. intros (x & Hx%list_elem_of_In & ->%Z.eqb_eq).
  repeat (apply elem_of_cons in Hx as [->|Hx]; [reflexivity|]). by apply not_elem_of_nil in Hx.
Qed.

Section retries.
Context (post : nat -> result (Z * string)) (uniform : nat -> f64 -> f64).

Lemma attempts_final total left attempt backoff :
  left = 0%nat \/ final (post attempt) = true ->
  attempts post uniform total left attempt backoff = (outcome total (post attempt), 1%nat, []).
Proof.
  destruct left as [|left]; cbn [attempts]; destruct (post attempt) as [[status body]|exc]; cbn [final outcome];
    repeat case_match; naive_solver.
Qed.

Lemma attempts_retry total left attempt backoff :
  final (post attempt) = false ->
  attempts post uniform total (S left) attempt backoff =
  (let '(r, n, sleeps) := attempts post uniform total left (S attempt) (double backoff) in
   (r, S n, pause uniform attempt backoff :: sleeps)).
Proof.
  cbn [attempts]. destruct (post attempt) as [[status body]|exc]; cbn [final]; [|done].
  intros H%negb_false_iff. rewrite H. destruct (in_statuses status NON_RETRYABLE_STATUSES) eqn:E; [|done].
  apply statuses_disjoint in E. congruence.
Qed.

Lemma attempts_spec total left attempt backoff :
  exists k, (k <= left)%nat /\ (forall i, (i < k)%nat -> final (post (attempt + i)) = false) /\
    (k = left \/ final (post (attempt + k)) = true) /\
    attempts post uniform total left attempt backoff =
    (outcome total (post (attempt + k)), S k,
     map (fun i => pause uniform (attempt + i) (Nat.iter i double backoff)) (seq 0 k)).
Proof.
  revert attempt backoff. induction left as [|left IH]; intros attempt backoff.
  { exists 0%nat. rewrite attempts_final by auto. rewrite Nat.add_0_r. split_and!; [lia|lia|auto|done]. }
  destruct (final (post attempt)) eqn:E.
  { exists 0%nat. rewrite attempts_final by auto. rewrite Nat.add_0_r. split_and!; [lia|lia|auto|done]. }
  rewrite attempts_retry by done. destruct (IH (S attempt) (double backoff)) as (k & Hk & Hi & Hf & ->).
  exists (S k). rewrite !Nat.add_succ_r. split_and!; [lia| |destruct Hf; [subst|]; auto|].
  - intros [|i] Hlt; [by rewrite Nat.add_0_r|]. rewrite Nat.add_succ_r. apply Hi. lia.
  - cbn [seq map]. rewrite Nat.add_0_r, <-seq_shift, map_map. f_equal. f_equal. apply map_ext. intros i.
    by rewrite Nat.add_succ_r, Nat.iter_succ_r.
Qed.
End retries.

(** The first answer that is not retried, within the bound, is the one returned. *)
Lemma request_answer post uniform cfg k status raw :
  Z.of_nat k <= max_retries cfg -> (forall i, (i < k)%nat -> final (post i) = false) ->
  post k = Ok (status, raw) -> final (post k) = true ->
  fst (fst (request_with_retry post uniform cfg)) = Ok (status, raw).
Proof.
  intros Hk Hi Hpost Hf. unfold request_with_retry. replace (max_retries cfg <? 0) with false by lia.
  destruct (attempts_spec post uniform (max_retries cfg) (Z.to_nat (max_retries cfg)) 0 (retry_backoff cfg))
    as (k' & Hk' & Hi' & Hf' & ->). cbn [fst]. cbn [Nat.add] in *.
  assert (k' = k) as ->; [|by rewrite Hpost].
  destruct (lt_eq_lt_dec k' k) as [[Hlt|]|Hlt]; [|done|].
  - destruct Hf' as [->|Hf']; [lia|]. specialize (Hi k' Hlt). congruence.
  - specialize (Hi' k Hlt). congruence.
Qed.

(** ** Lemmas: answers *)

Definition status_passes (status : Z) : bool :=
  negb (in_statuses status [400; 401; 403; 429]) && (status <? 500).

Lemma parse_response_body cfg status raw latency :
  status_passes status = true ->
  parse_response cfg status raw latency = parse_response cfg 200 raw latency \/ exists e, loads raw = Raise e.
Proof.
  unfold status_passes, in_statuses. cbn [existsb]. intros H.
  repeat (apply orb_false_iff in H as [? H] || bool_hyps).
  destruct (loads raw) eqn:E; [left|right; eauto]. unfold parse_response.
  rewrite !(proj2 (Z.eqb_neq status _)) by done. replace (status >=? 500) with false by lia.
  cbn [Z.eqb Z.geb Z.compare Pos.eqb Pos.compare Pos.compare_cont]. by rewrite E.
Qed.

(** A tool call as the endpoint writes it: an object with its id and its function, whose
    arguments are a text that decodes to them, or the arguments themselves. *)
Definition call_object (r : ToolRequest) (v : json) : Prop :=
  exists d f args,
    v = JObj d /\ dget d "id" = Some (JStr (rq_id r)) /\ dget d "function" = Some (JObj f) /\
    dget f "name" = Some (JStr (rq_name r)) /\ dget f "arguments" = Some args /\
    match args with JStr text => loads text = Ok (rq_args r) | _ => args = rq_args r end.

(** What a message says: its content, or its reasoning when it has no content, or nothing. *)
Definition says (d msg : dict) (content : string) : Prop :=
  content <> "" /\ dget msg "content" = Some (JStr content) \/
  content <> "" /\ json_true (dget_or msg "content" JNull) = false /\ dget msg "reasoning_content" = Some (JStr content) \/
  content = "" /\ json_true (dget_or msg "content" JNull) = false /\ json_true (dget_or msg "reasoning_content" JNull) = false /\
    json_true (dget_or d "content" JNull) = false.

(** The tool calls of a message, which has none when the member is missing, null or empty. *)
Definition calls_of (msg : dict) (rs : list ToolRequest) : Prop :=
  json_true (dget_or msg "tool_calls" JNull) = false /\ rs = [] \/
  exists calls, dget msg "tool_calls" = Some (JArr calls) /\ Forall2 call_object rs calls.

(** A completion: an object whose first choice has a message with this content and these tool
    calls, and whose usage, if any, is an object.  Whatever other members it has. *)
Definition is_completion (content : string) (rs : list ToolRequest) (data : json) : Prop :=
  exists d choice rest msg,
    data = JObj d /\ dget d "choices" = Some (JArr (JObj choice :: rest)) /\ dget choice "message" = Some (JObj msg) /\
    says d msg content /\ calls_of msg rs /\
    match dget d "usage" with Some u => exists counts, u = JObj counts | None => True end.

Lemma dget_or_some d k v x : dget d k = Some v -> dget_or d k x = v.
Proof. unfold dget_or. by intros ->. Qed.

Lemma parse_call_object r v : call_object r v -> parse_tool_call v = Ok (JStr (rq_name r), rq_args r, JStr (rq_id r)).
Proof.
  intros (d & f & args & -> & Hid & Hf & Hn & Ha & Hargs). unfold parse_tool_call, dget_or, ditem, dhas. cbn [py_dict res_bind].
  rewrite Hf. cbn [default py_dict res_bind is_some]. rewrite Ha, Hn, Hid. cbn [res_bind].
  destruct args; try (by rewrite <-Hargs). by rewrite Hargs.
Qed.

Lemma parse_call_objects rs vs :
  Forall2 call_object rs vs ->
  res_mapM parse_tool_call vs = Ok (map (fun r => (JStr (rq_name r), rq_args r, JStr (rq_id r))) rs).
Proof. induction 1 as [|r v rs vs H _ IH]; [done|]. cbn [map res_mapM]. by rewrite (parse_call_object r v H), IH. Qed.

Lemma json_or_false a b : json_true a = false -> json_or a b = b.
Proof. unfold json_or. by intros ->. Qed.

Lemma text_true (s : string) : s <> "" -> json_true (JStr s) = true.
Proof. by destruct s. Qed.

Lemma member_false d k : json_true (dget_or d k JNull) = false -> json_true (dget_or d k (JStr "")) = false.
Proof. unfold dget_or. by destruct (dget d k). Qed.

Lemma answer_content_says d msg content : says d msg content -> answer_content d msg = JStr content.
Proof.
  unfold answer_content. cbn zeta. intros [[Hne Hc]|[(Hne & Hc & Hr)|(-> & Hc%member_false & Hr%member_false & Hd%member_false)]].
  - assert (json_or (dget_or msg "content" (JStr "")) (JStr "") = JStr content) as ->
      by (unfold dget_or, json_or; rewrite Hc; cbn [default]; by rewrite text_true).
    by rewrite !(text_true content Hne).
  - rewrite (json_or_false _ _ (member_false _ _ Hc)). change (json_true (JStr "")) with false. cbn match.
    assert (json_or (dget_or msg "reasoning_content" (JStr "")) (JStr "") = JStr content) as ->
      by (unfold dget_or, json_or; rewrite Hr; cbn [default]; by rewrite text_true).
    by rewrite !(text_true content Hne).
  - rewrite (json_or_false _ _ Hc). change (json_true (JStr "")) with false. cbn match. rewrite (json_or_false _ _ Hr).
    cbn match. change (json_true (JStr "")) with false. cbn [negb andb]. rewrite (json_or_false _ _ Hd). by destruct (dhas d "content").
Qed.

Lemma parse_calls_of msg rs :
  calls_of msg rs ->
  (if json_true (dget_or msg "tool_calls" (JArr []))
   then let* l := py_list (dget_or msg "tool_calls" (JArr [])) in res_mapM parse_tool_call l else Ok []) =
  Ok (map (fun r => (JStr (rq_name r), rq_args r, JStr (rq_id r))) rs).
Proof.
  intros [[H ->]|(calls & H & HF)]; cbn zeta; unfold dget_or in *.
  - destruct (dget msg "tool_calls"); cbn [default] in *; [by rewrite H|done].
  - rewrite H. cbn [default]. destruct calls as [|c calls]; [by inversion HF|]. cbn [json_true list_true py_list res_bind]. by apply parse_call_objects.
Qed.

Lemma parse_completion cfg latency content rs raw data :
  loads raw = Ok data -> is_completion content rs data ->
  exists parsed, parse_response cfg 200 raw latency = Ok parsed /\
    pr_content parsed = JStr content /\
    pr_tool_calls parsed = map (fun r => (JStr (rq_name r), rq_args r, JStr (rq_id r))) rs.
Proof.
  intros Hraw (d & choice & rest & msg & -> & Hch & Hmsg & Hsays & Hcalls & Husage).
  unfold parse_response. cbn [Z.eqb Z.geb Z.compare Pos.eqb Pos.compare Pos.compare_cont]. rewrite Hraw.
  assert (answer_choice (JObj d) = Ok (JObj choice)) as -> by (cbn; unfold dhas; by rewrite Hch, (dget_or_some _ _ _ _ Hch)).
  cbn [res_bind py_dict]. rewrite (dget_or_some _ _ _ _ Hmsg), (parse_calls_of msg rs Hcalls). cbn [res_bind].
  assert (exists counts, py_dict (dget_or d "usage" (JObj [])) = Ok counts) as [counts ->].
  { unfold dget_or. destruct (dget d "usage") as [u|]; [destruct Husage as [x ->]|]; cbn; eauto. }
  cbn [res_bind]. eexists. split; [reflexivity|]. split; [|done]. cbn [pr_content fst]. by apply answer_content_says.
Qed.

Lemma parse_error_body cfg status raw latency (d : dict) :
  status_passes status = true -> loads raw = Ok (JObj d) ->
  dhas d "choices" = false -> dhas d "message" = false -> dhas d "content" = false -> dhas d "usage" = false ->
  exists parsed, parse_response cfg status raw latency = Ok parsed /\ to_ai_message parsed = (JStr "", []).
Proof.
  intros Hs Hraw Hch Hm Hc Hu. destruct (parse_response_body cfg status raw latency Hs) as [->|[e He]]; [|congruence].
  unfold dhas in *. destruct (dget d "choices") eqn:Ec, (dget d "message") eqn:Em, (dget d "content") eqn:Et,
    (dget d "usage") eqn:Eu; try done.
  unfold parse_response. cbn [Z.eqb Z.geb Z.compare Pos.eqb Pos.compare Pos.compare_cont]. rewrite Hraw.
  unfold answer_choice, dget_or, dhas. cbn. rewrite Ec. cbn. rewrite Em, Eu. cbn. eexists. split; [reflexivity|].
  unfold to_ai_message, answer_content, dget_or, dhas. cbn. by rewrite Et.
Qed.

(** ** Properties *)

(** C22: The retry loop ends after at most [max_retries + 1] requests, and is determined by the
    first answer that is not retried, or the last allowed one: that answer is returned when
    it is a status, whatever the status, and becomes an error when it is an exception; the
    pauses before it start from the configured backoff and double. *)
Theorem retry_loop_exact post uniform cfg :
  0 <= max_retries cfg ->
  exists k, Z.of_nat k <= max_retries cfg /\
    (forall i, (i < k)%nat -> final (post i) = false) /\
    (Z.of_nat k = max_retries cfg \/ final (post k) = true) /\
    request_with_retry post uniform cfg =
    (outcome (max_retries cfg) (post k), S k,
     map (fun i => pause uniform i (Nat.iter i double (retry_backoff cfg))) (seq 0 k)).
Proof.
  intros H. unfold request_with_retry. replace (max_retries cfg <? 0) with false by lia.
  destruct (attempts_spec post uniform (max_retries cfg) (Z.to_nat (max_retries cfg)) 0 (retry_backoff cfg))
    as (k & Hk & Hi & Hf & Heq).
  exists k. split_and!; [lia|exact Hi|destruct Hf; [left; lia|by right]|exact Heq].
Qed.

Definition conflict (status : Z) (attempt : nat) : result (Z * string) :=
  if (attempt <? 2)%nat then Ok (503, "") else Ok (status, dumps false (JObj [("error", JStr "conflict")])).

Example retry_loop_exact_witness :
  exists k, Z.of_nat k <= 3 /\
    (forall i, (i < k)%nat -> final (conflict 200 i) = false) /\
    (Z.of_nat k = 3 \/ final (conflict 200 k) = true) /\
    request_with_retry (conflict 200) (fun _ hi => hi) default_provider_config =
    (outcome 3 (conflict 200 k), S k,
     map (fun i => pause (fun _ hi => hi) i (Nat.iter i double (f_of_Z 1))) (seq 0 k)).
Proof. apply (retry_loop_exact (conflict 200) (fun _ hi => hi) default_provider_config). cbn. lia. Defined.

(** Tool calls survive the provider's encoding: whatever the tool calls and the content of
    a completion, and whatever else it holds, the parsed answer has every call in order, with
    its name, its id and its arguments, decoded when they are a text. *)
Theorem tool_calls_decoded cfg latency content rs raw data :
  loads raw = Ok data -> is_completion content rs data ->
  exists parsed, parse_response cfg 200 raw latency = Ok parsed /\
    pr_content parsed = JStr content /\
    pr_tool_calls parsed = map (fun r => (JStr (rq_name r), rq_args r, JStr (rq_id r))) rs.
Proof. apply parse_completion. Qed.

(** A tool call and a completion with the members the endpoint documents. *)
Definition provider_call (r : ToolRequest) (args_text : string) : json :=
  JObj [("id", JStr (rq_id r)); ("type", JStr "function");
        ("function", JObj [("name", JStr (rq_name r)); ("arguments", JStr args_text)])].

Definition completion (content : string) (calls : list json) : dict :=
  [("id", JStr "c0ffee"); ("object", JStr "chat.completion"); ("created", JInt 1790000000); ("model", JStr "deepseek-v4-pro");
   ("choices", JArr [JObj [("index", JInt 0);
      ("message", JObj [("role", JStr "assistant"); ("content", JStr content); ("tool_calls", JArr calls)]);
      ("finish_reason", JStr (if list_true calls then "tool_calls" else "stop"))]]);
   ("usage", JObj [("prompt_tokens", JInt 812); ("completion_tokens", JInt 35); ("total_tokens", JInt 847)])].

Definition balance_call : ToolRequest :=
  {| rq_id := "c1"; rq_name := "get_balance"; rq_args := JObj [("account_id", JStr "acc-1")] |}.

Definition balance_answer : string :=
  dumps false (JObj (completion "" [provider_call balance_call (dumps false (rq_args balance_call))])).

Lemma balance_completion : exists data, loads balance_answer = Ok data /\ is_completion "" [balance_call] data.
Proof.
  eexists. split; [vm_compute; reflexivity|]. do 4 eexists. do 3 (split; [reflexivity|]).
  split; [right; right; vm_compute; auto|]. split; [|eexists; reflexivity].
  right. eexists. split; [reflexivity|]. constructor; [|constructor]. do 3 eexists. repeat (split; [reflexivity|]). vm_compute. reflexivity.
Qed.

Example tool_calls_decoded_witness :
  exists parsed,
    parse_response default_provider_config 200 balance_answer f_zero = Ok parsed /\
    pr_content parsed = JStr "" /\
    pr_tool_calls parsed = [(JStr "get_balance", JObj [("account_id", JStr "acc-1")], JStr "c1")].
Proof.
  destruct balance_completion as (data & Hl & Hc).
  exact (tool_calls_decoded default_provider_config f_zero "" [balance_call] balance_answer data Hl Hc).
Defined.

(** What the model said is not sent back in the form it is read in: a tool call of the
    conversation goes out as LangChain's dict, which has no [function] member, and reading
    such a call fails. *)
Theorem history_calls_not_in_provider_form call_dict content tc tcs :
  (forall r, dhas (call_dict r) "function" = false) ->
  dget (convert_message call_dict (AIMessage content (tc :: tcs))) "tool_calls" =
    Some (JArr (map (fun c => JObj (call_dict c)) (tc :: tcs))) /\
  forall r, parse_tool_call (JObj (call_dict r)) = Raise (KeyError "function").
Proof.
  intros H. split; [reflexivity|]. intros r. specialize (H r). unfold dhas in H.
  cbn -[dhas]. unfold dget_or. destruct (dget (call_dict r) "function") eqn:E; [done|]. cbn. unfold dhas. by rewrite E.
Qed.

Definition langchain_dict (r : ToolRequest) : dict :=
  [("name", JStr (rq_name r)); ("args", rq_args r); ("id", JStr (rq_id r)); ("type", JStr "tool_call")].

Example history_calls_not_in_provider_form_witness :
  dget (convert_message langchain_dict (AIMessage "" [balance_call])) "tool_calls" =
    Some (JArr [JObj (langchain_dict balance_call)]) /\
  forall r, parse_tool_call (JObj (langchain_dict r)) = Raise (KeyError "function").
Proof. apply (history_calls_not_in_provider_form langchain_dict "" balance_call []). reflexivity. Defined.

(** An error the parser does not single out is taken for an answer: with any status below
    500 other than 400, 401, 403 and 429 (so 404, 408 once its retries are spent, and 409),
    a body that is a JSON object without the members of a completion becomes an empty
    message without tool calls. *)
Theorem error_body_is_empty_answer cfg status raw latency (d : dict) :
  status_passes status = true -> loads raw = Ok (JObj d) ->
  dhas d "choices" = false -> dhas d "message" = false -> dhas d "content" = false -> dhas d "usage" = false ->
  exists parsed, parse_response cfg status raw latency = Ok parsed /\ to_ai_message parsed = (JStr "", []).
Proof. apply parse_error_body. Qed.

Example error_body_is_empty_answer_witness :
  let '(answer, sent, _) := request_with_retry (conflict 409) (fun _ hi => hi) default_provider_config in
  answer = Ok (409, dumps false (JObj [("error", JStr "conflict")])) /\ sent = 3%nat /\
  exists parsed,
    parse_response default_provider_config 409 (dumps false (JObj [("error", JStr "conflict")])) f_zero = Ok parsed /\
    to_ai_message parsed = (JStr "", []).
Proof.
  split; [reflexivity|]. split; [reflexivity|].
  apply (error_body_is_empty_answer default_provider_config 409 _ f_zero [("error", JStr "conflict")]);
    vm_compute; reflexivity.
Defined.

(** The mock answers with its responses in order, then raises. *)
Lemma mock_in_order m :
  match fst (mock_invoke m) with
  | Ok r => responses m !! index m = Some r /\ index (snd (mock_invoke m)) = S (index m) /\ exhausted m = false
  | Raise e => exhausted m = true /\ snd (mock_invoke m) = m
  end.
Proof.
  unfold mock_invoke, exhausted. destruct (responses m !! index m) as [r|] eqn:E; cbn.
  - apply lookup_lt_Some in E. split_and!; [done..|]. apply Nat.leb_gt. lia.
  - apply lookup_ge_None in E. split; [|done]. by apply Nat.leb_le.
Qed.
