(* ===== verification/Routing.v ===== *)
(** Intent routing ([routing/], [model_router.py]): the deterministic classifier with
    its model fallback, the routing policy, and the choice of a model tier.

    The model is a parameter: [llm] gives the text of its answer to the
    classification prompt.  The classifier drives it with
    [get_event_loop().run_until_complete], which asyncio refuses while the loop is
    already running ([in_loop]). *)
From S2P Require Import Prelude PyStr PyFloat Json PyRepr Auth Tools.

(** ** Intents *)

Inductive Intent : Type :=
  | ACCOUNT_QUERY | TRANSACTION_QUERY | BENEFICIARY_QUERY
  | TRANSFER_CREATE | TRANSFER_SUBMIT | TRANSFER_CANCEL | TRANSFER_STATUS
  | POLICY_QUESTION | FORM_ASSISTANCE | PRODUCT_QUESTION
  | SUSPICIOUS_ACTIVITY_REPORT
  | COMPLEX_TASK | MULTI_ACCOUNT_TASK
  | GENERAL_UNSUPPORTED.

#[export] Instance Intent_eq_dec : EqDecision Intent.
Proof. solve_decision. Defined.

Definition intent_value (i : Intent) : string :=
  match i with
  | ACCOUNT_QUERY => "account_query" | TRANSACTION_QUERY => "transaction_query"
  | BENEFICIARY_QUERY => "beneficiary_query" | TRANSFER_CREATE => "transfer_create"
  | TRANSFER_SUBMIT => "transfer_submit" | TRANSFER_CANCEL => "transfer_cancel"
  | TRANSFER_STATUS => "transfer_status" | POLICY_QUESTION => "policy_question"
  | FORM_ASSISTANCE => "form_assistance" | PRODUCT_QUESTION => "product_question"
  | SUSPICIOUS_ACTIVITY_REPORT => "suspicious_activity_report"
  | COMPLEX_TASK => "complex_task" | MULTI_ACCOUNT_TASK => "multi_account_task"
  | GENERAL_UNSUPPORTED => "general_unsupported"
  end.

Inductive IntentConfidence : Type := HIGH | MEDIUM | LOW.

Record IntentResult : Type := {
  ir_intent : Intent;
  ir_confidence : IntentConfidence;
  ir_reason : string;
  ir_sub_intents : list Intent;
  ir_suggested_tools : list string;
}.

Definition is_one_of (l : list Intent) (r : IntentResult) : bool :=
  bool_decide (ir_intent r ∈ l).

Definition is_simple_read : IntentResult -> bool :=
  is_one_of [ACCOUNT_QUERY; TRANSACTION_QUERY; BENEFICIARY_QUERY; TRANSFER_STATUS].
Definition is_transfer_workflow : IntentResult -> bool :=
  is_one_of [TRANSFER_CREATE; TRANSFER_SUBMIT; TRANSFER_CANCEL].
Definition is_knowledge_question : IntentResult -> bool :=
  is_one_of [POLICY_QUESTION; FORM_ASSISTANCE; PRODUCT_QUESTION].
Definition is_complex : IntentResult -> bool := is_one_of [COMPLEX_TASK; MULTI_ACCOUNT_TASK].
Definition is_high_risk : IntentResult -> bool :=
  is_one_of [SUSPICIOUS_ACTIVITY_REPORT; TRANSFER_SUBMIT].

(** ** The classifier *)

Record KeywordRule : Type := { kr_keywords : list string; kr_intent : Intent; kr_reason : string }.

Definition rule (keywords : list string) (i : Intent) (reason : string) : KeywordRule :=
  {| kr_keywords := keywords; kr_intent := i; kr_reason := reason |}.

Definition keyword_rules : list KeywordRule :=
  [rule ["submit draft"; "execute transfer"; "finalize transfer"; "confirm transfer"]
     TRANSFER_SUBMIT "Transfer submission intent";
   rule ["cancel"; "void"; "stop transfer"] TRANSFER_CANCEL "Transfer cancellation intent";
   rule ["transfer status"; "where is my transfer"; "track transfer"; "status of transfer"]
     TRANSFER_STATUS "Transfer status inquiry";
   rule ["send money"; "send $"; "transfer $"; "pay "; "make a transfer"; "create transfer";
         "draft transfer"; "send a transfer"; "new transfer"]
     TRANSFER_CREATE "Transfer creation intent";
   rule ["fraud"; "suspicious"; "scam"; "unauthorized"; "phishing"; "report suspicious"]
     SUSPICIOUS_ACTIVITY_REPORT "Suspicious activity report";
   rule ["balance"; "how much"; "account summary"; "my account"; "show account"]
     ACCOUNT_QUERY "Account balance/summary query";
   rule ["transactions"; "transaction"; "recent"; "history"; "last payment"; "what did I spend";
         "statement"]
     TRANSACTION_QUERY "Transaction history query";
   rule ["beneficiary"; "payee"; "recipient"; "who can I send"]
     BENEFICIARY_QUERY "Beneficiary lookup";
   rule ["fee"; "charge"; "rate"; "policy"; "rule"; "limit"; "how long"; "how much does it cost";
         "what is the"; "how do I"; "form"; "account type"; "offer"; "product"]
     POLICY_QUESTION "Policy/product knowledge question";
   rule ["and then"; "also"; "additionally"; "after that"; "schedule recurring"]
     COMPLEX_TASK "Multi-step task detected"].

Definition suggest_tools (i : Intent) : list string :=
  match i with
  | ACCOUNT_QUERY => ["get_balance"; "get_account_summary"]
  | TRANSACTION_QUERY => ["list_transactions"]
  | BENEFICIARY_QUERY => ["find_beneficiary"]
  | TRANSFER_CREATE => ["create_transfer_draft"]
  | TRANSFER_SUBMIT => ["submit_transfer"]
  | TRANSFER_CANCEL => ["cancel_transfer"]
  | TRANSFER_STATUS => ["get_transfer_status"]
  | SUSPICIOUS_ACTIVITY_REPORT => ["report_suspicious_transaction"]
  | _ => []
  end.

Definition is_word_match (keyword text : string) : bool :=
  if contains " " keyword then contains keyword text else word_search None keyword text.

Definition keyword_hits (text kw : string) : bool := contains kw text && is_word_match kw text.

Definition intent_result (i : Intent) (c : IntentConfidence) (reason : string) : IntentResult :=
  {| ir_intent := i; ir_confidence := c; ir_reason := reason; ir_sub_intents := [];
     ir_suggested_tools := suggest_tools i |}.

(** Phase 1, for a rule table and a message in lower case. *)
Fixpoint match_keywords (text : string) (rules : list KeywordRule) : option IntentResult :=
  match rules with
  | [] => None
  | r :: rules' =>
      if existsb (keyword_hits text) (kr_keywords r)
      then Some (intent_result (kr_intent r) HIGH (kr_reason r))
      else match_keywords text rules'
  end.

Definition action_verbs : list string :=
  ["send"; "pay"; "transfer"; "check"; "find"; "show"; "get"; "cancel"; "report"].

Definition count_action_verbs (text : string) : nat :=
  countb (fun w => str_in w action_verbs) (words text).

(** Phase 2, the pattern heuristics. *)
Definition match_patterns (text : string) : option IntentResult :=
  if (2 <=? count_action_verbs text)%nat
  then Some (intent_result COMPLEX_TASK MEDIUM "Multiple action verbs detected")
  else if any_in ["what"; "how"; "why"; "when"; "where"; "can i"; "do i"] text then
    if any_in ["$"; "dollar"; "amount"; "balance"; "money"] text
    then Some (intent_result ACCOUNT_QUERY MEDIUM "Financial question pattern")
    else Some (intent_result POLICY_QUESTION MEDIUM "General question pattern")
  else None.

Definition classification_prompt (message : string) : string :=
  "Classify this banking request into one of: "
  +:+ "account_query, transaction_query, beneficiary_query, "
  +:+ "transfer_create, transfer_submit, transfer_cancel, "
  +:+ "transfer_status, policy_question, suspicious_activity_report, "
  +:+ "complex_task, general_unsupported." +:+ "

Request: " +:+ message +:+ "

Intent:".

(** The keys of the answer map, in order: every intent the prompt names. *)
Definition llm_intents : list Intent :=
  [ACCOUNT_QUERY; TRANSACTION_QUERY; BENEFICIARY_QUERY; TRANSFER_CREATE; TRANSFER_SUBMIT;
   TRANSFER_CANCEL; TRANSFER_STATUS; POLICY_QUESTION; SUSPICIOUS_ACTIVITY_REPORT; COMPLEX_TASK;
   GENERAL_UNSUPPORTED].

Definition unsupported (reason : string) : IntentResult :=
  {| ir_intent := GENERAL_UNSUPPORTED; ir_confidence := LOW; ir_reason := reason;
     ir_sub_intents := []; ir_suggested_tools := [] |}.

Definition llm_classify (in_loop : bool) (message : string) (llm : string -> result string) : IntentResult :=
  let answer := if in_loop then Raise (RuntimeError "This event loop is already running")
                else llm (classification_prompt message) in
  match answer with
  | Raise _ => unsupported "LLM classification failed"
  | Ok content =>
      let raw := lower (strip content) in
      match List.find (fun i => contains (intent_value i) raw) llm_intents with
      | Some i => intent_result i LOW ("LLM classified as " +:+ intent_value i)
      | None => unsupported ("LLM returned unrecognized intent: " +:+ take_str 100 raw)
      end
  end.

(** [classify] for a rule table. *)
Definition classify_with (rules : list KeywordRule) (in_loop : bool) (message : string)
    (llm : option (string -> result string)) : IntentResult :=
  let text := strip (lower message) in
  match match_keywords text rules with
  | Some r => r
  | None =>
      match match_patterns text with
      | Some r => r
      | None =>
          match llm with
          | Some f => llm_classify in_loop message f
          | None => unsupported "No keyword or pattern match"
          end
      end
  end.

Definition classify : bool -> string -> option (string -> result string) -> IntentResult :=
  classify_with keyword_rules.

(** ** Routes *)

Inductive RouteKind : Type := DIRECT | RAG | PLANNER | TRANSFER_STATE_MACHINE | REJECT.

#[export] Instance RouteKind_eq_dec : EqDecision RouteKind.
Proof. solve_decision. Defined.

Definition route_value (k : RouteKind) : string :=
  match k with
  | DIRECT => "direct" | RAG => "rag" | PLANNER => "planner"
  | TRANSFER_STATE_MACHINE => "transfer_state_machine" | REJECT => "reject"
  end.

Record Route : Type := {
  rt_kind : RouteKind;
  rt_intent : Intent;
  rt_reason : string;
  rt_max_steps : option Z;
  rt_require_approval : bool;
  rt_suggested_tools : option (list string);
}.

(** [_ROUTES]; it has a row for every intent, so the default is never used. *)
Definition route_table (i : Intent) : RouteKind :=
  match i with
  | ACCOUNT_QUERY | TRANSACTION_QUERY | BENEFICIARY_QUERY | TRANSFER_STATUS => DIRECT
  | TRANSFER_CREATE | TRANSFER_SUBMIT | TRANSFER_CANCEL => TRANSFER_STATE_MACHINE
  | POLICY_QUESTION | FORM_ASSISTANCE | PRODUCT_QUESTION => RAG
  | COMPLEX_TASK | MULTI_ACCOUNT_TASK | SUSPICIOUS_ACTIVITY_REPORT => PLANNER
  | GENERAL_UNSUPPORTED => REJECT
  end.

Definition policy_route (r : IntentResult) : Route :=
  let kind := route_table (ir_intent r) in
  let reason := intent_value (ir_intent r) +:+ " → " +:+ route_value kind in
  {| rt_kind := kind; rt_intent := ir_intent r; rt_reason := reason;
     rt_max_steps := if bool_decide (kind = PLANNER) then Some 20 else None;
     rt_require_approval := is_high_risk r;
     rt_suggested_tools := if list_true (ir_suggested_tools r)
                           then Some (ir_suggested_tools r) else None |}.

(** [Router]: the default policy and an optional model. *)
Definition route (llm : option (string -> result string)) (in_loop : bool) (message : string) : Route :=
  policy_route (classify in_loop message llm).

Definition route_from_intent (r : IntentResult) : Route := policy_route r.

(** ** Model tiers *)

Inductive ModelTier : Type := LIGHTWEIGHT | STANDARD | REASONING.

Record ModelRoute : Type := {
  mr_tier : ModelTier;
  mr_model : string;
  mr_reason : string;
  mr_max_tokens : Z;
  mr_temperature : f64;
}.

Record ModelRouter : Type := {
  lightweight_model : string;
  standard_model : string;
  reasoning_model : string;
}.

Definition tier_model (m : ModelRouter) (t : ModelTier) : string :=
  match t with
  | LIGHTWEIGHT => lightweight_model m
  | STANDARD => standard_model m
  | REASONING => reasoning_model m
  end.

Definition model_route (m : ModelRouter) (t : ModelTier) (reason : string) (max_tokens : Z) : ModelRoute :=
  {| mr_tier := t; mr_model := tier_model m t; mr_reason := reason; mr_max_tokens := max_tokens;
     mr_temperature := f_of_Z 0 |}.

Definition route_for_intent (m : ModelRouter) (intent risk_level : string) : ModelRoute :=
  if str_in intent ["account_query"; "transaction_query"; "beneficiary_query"]
  then model_route m LIGHTWEIGHT "Simple read query — lightweight model sufficient" 2048
  else if str_in intent ["policy_question"; "form_assistance"; "product_question"]
  then model_route m STANDARD "Knowledge question — standard model for RAG" 4096
  else if str_in risk_level ["high"; "critical"]
          || str_in intent ["suspicious_activity_report"; "complex_task"; "multi_account_task"]
  then model_route m REASONING
         ("High-risk or complex intent (" +:+ intent +:+ ") — reasoning model required") 8192
  else model_route m STANDARD "Default routing — standard model" 4096.

(** ** Lemmas *)

Lemma match_keywords_first text l1 r l2 :
  (forall r', r' ∈ l1 -> existsb (keyword_hits text) (kr_keywords r') = false) ->
  existsb (keyword_hits text) (kr_keywords r) = true ->
  match_keywords text (l1 ++ r :: l2) = Some (intent_result (kr_intent r) HIGH (kr_reason r)).
Proof.
  intros H1 Hr. induction l1 as [|r0 l1 IH]; cbn.
  - by rewrite Hr.
  - rewrite (H1 r0) by left. apply IH. intros r' Hin. apply H1. by right.
Qed.

Lemma match_keywords_none text rules :
  match_keywords text rules = None <->
  forall r, r ∈ rules -> existsb (keyword_hits text) (kr_keywords r) = false.
Proof.
  induction rules as [|r rules IH]; cbn.
  - split; [intros _ r Hr; by apply elem_of_nil in Hr|done].
  - destruct (existsb _ _) eqn:E.
    + split; [done|]. intros H. rewrite (H r) in E by left. done.
    + rewrite IH. split.
      * intros H r' [->|Hr]%elem_of_cons; auto.
      * intros H r' Hr. apply H. by right.
Qed.

(** Only the first phase is confident. *)
Lemma match_patterns_medium text r : match_patterns text = Some r -> ir_confidence r = MEDIUM.
Proof. unfold match_patterns. repeat case_match; intros; by simplify_eq. Qed.

Lemma llm_classify_low in_loop message f : ir_confidence (llm_classify in_loop message f) = LOW.
Proof. unfold llm_classify. repeat case_match; done. Qed.

(** A keyword with a capital letter occurs in no lower-case text. *)
Lemma capital_keyword_misses text kw :
  has_char is_upper text = false -> has_char is_upper kw = true -> keyword_hits text kw = false.
Proof.
  intros Ht Hk. unfold keyword_hits. destruct (contains kw text) eqn:E; [|done].
  apply (contains_has_char is_upper) in E; [congruence|done].
Qed.

Definition lower_case_rule (r : KeywordRule) : KeywordRule :=
  {| kr_keywords := List.filter (fun kw => negb (has_char is_upper kw)) (kr_keywords r);
     kr_intent := kr_intent r; kr_reason := kr_reason r |}.

Lemma existsb_drop_capitals text kws :
  has_char is_upper text = false ->
  existsb (keyword_hits text) (List.filter (fun kw => negb (has_char is_upper kw)) kws)
  = existsb (keyword_hits text) kws.
Proof.
  intros Ht. induction kws as [|kw kws IH]; cbn; [done|].
  destruct (has_char is_upper kw) eqn:E; cbn; rewrite IH; [|done].
  by rewrite (capital_keyword_misses _ _ Ht E).
Qed.

Lemma match_keywords_lower text rules :
  has_char is_upper text = false ->
  match_keywords text (map lower_case_rule rules) = match_keywords text rules.
Proof.
  intros Ht. induction rules as [|r rules IH]; cbn; [done|].
  by rewrite (existsb_drop_capitals _ _ Ht), IH.
Qed.

(** ** Properties *)

(** the classifier takes the first rule of the table with a
    keyword in the message, with HIGH confidence, whatever the later rules, the
    heuristics or the model say; with no such rule it is never confident; and of the
    keywords, the three written with a capital letter cannot match, since the message
    is lower-cased first: without them every message is classified the same. *)
Theorem classify_keyword_phase in_loop message llm :
  (forall l1 r l2 kw, keyword_rules = l1 ++ r :: l2 ->
     (forall r' k, r' ∈ l1 -> k ∈ kr_keywords r' -> keyword_hits (strip (lower message)) k = false) ->
     kw ∈ kr_keywords r -> keyword_hits (strip (lower message)) kw = true ->
     classify in_loop message llm = intent_result (kr_intent r) HIGH (kr_reason r)) /\
  ((forall r k, r ∈ keyword_rules -> k ∈ kr_keywords r ->
      keyword_hits (strip (lower message)) k = false) ->
   ir_confidence (classify in_loop message llm) <> HIGH) /\
  classify in_loop message llm
    = classify_with (map lower_case_rule keyword_rules) in_loop message llm /\
  List.filter (has_char is_upper) (flat_map kr_keywords keyword_rules)
    = ["what did I spend"; "who can I send"; "how do I"].
Proof.
  set (text := strip (lower message)).
  assert (Hex : forall r, (forall k, k ∈ kr_keywords r -> keyword_hits text k = false) ->
                          existsb (keyword_hits text) (kr_keywords r) = false).
  { intros r H. apply not_true_is_false. intros (k & Hk & Hh)%existsb_exists.
    apply list_elem_of_In in Hk. rewrite H in Hh; done. }
  repeat split.
  - intros l1 r l2 kw E Hl1 Hk Hh. unfold classify, classify_with. fold text. rewrite E.
    rewrite match_keywords_first; [done| |].
    + intros r' Hr'. apply Hex. eauto.
    + apply existsb_exists. exists kw. by rewrite <- list_elem_of_In.
  - intros H. unfold classify, classify_with. fold text.
    destruct (match_keywords text keyword_rules) eqn:E.
    { assert (match_keywords text keyword_rules = None) as E'; [|congruence].
      apply match_keywords_none. intros r Hr. apply Hex. eauto. }
    destruct (match_patterns text) as [r|] eqn:Ep.
    { by rewrite (match_patterns_medium _ _ Ep). }
    destruct llm as [f|]; [by rewrite llm_classify_low|done].
  - unfold classify, classify_with. fold text. rewrite match_keywords_lower; [done|].
    apply strip_no_char, lower_no_upper.
Qed.

(** Inside the running event loop, where the agent calls the router,
    the model cannot be asked: every message is routed as if no model were configured. *)
Theorem router_model_unreachable_in_loop f message :
  route (Some f) true message = route None true message.
Proof.
  unfold route, classify, classify_with. destruct (match_keywords _ _); [done|].
  by destruct (match_patterns _).
Qed.

Example classify_balance_ex :
  let r := route None true "What's my balance? Cancel nothing" in
  rt_kind r = TRANSFER_STATE_MACHINE /\ rt_suggested_tools r = Some ["cancel_transfer"].
Proof. by vm_compute. Qed.

Example classify_capital_ex :
  rt_kind (route None true "how do I close it") = RAG /\
  ir_confidence (classify true "how do I close it" None) = MEDIUM.
Proof. by vm_compute. Qed.
