(* ===== verification/Orchestration.v ===== *)
(** The Planner–Executor–Verifier parts ([orchestration/]): plans, the validator
    with its depth-first cycle search, the planner that asks the model for a plan, the
    executor of one step, and the verifier of its result.

    The iteration order of a Python set of strings changes from run to run: it is a
    parameter, [set_order], known only to be a permutation.  The model is a parameter.
    Wall-clock durations are left out. *)
From S2P Require Import Prelude PyStr PyFloat PyTime Json PyRepr Auth Tools.
From S2P Require Import HitlStore GrantRepo IdempotencyStore EventStore Effects Graph.

#[local] Open Scope prog_scope.

(** ** Plans *)

Inductive PlanStatus : Type :=
  | PlanDRAFT | PlanVALIDATED | PlanREJECTED | PlanEXECUTING | PlanCOMPLETED | PlanFAILED
  | PlanREPLANNING.

#[export] Instance PlanStatus_eq_dec : EqDecision PlanStatus.
Proof. solve_decision. Defined.

Record PlanStep : Type := {
  step_id : string;
  objective : string;
  tool_candidates : list string;
  dependencies : list string;
  risk_level : string;
  step_status : string;
  max_retries : Z;
}.

Definition is_ready (s : PlanStep) : bool := String.eqb (step_status s) "pending".
Definition step_terminal (s : PlanStep) : bool := str_in (step_status s) ["done"; "failed"].

Record ExecutionPlan : Type := {
  plan_id : string;
  goal : string;
  assumptions : list string;
  required_user_inputs : list string;
  steps : list PlanStep;
  completion_criteria : list string;
  max_replans : Z;
  plan_status : PlanStatus;
}.

Definition pending_steps (p : ExecutionPlan) : list PlanStep := List.filter is_ready (steps p).
Definition done_steps (p : ExecutionPlan) : list PlanStep :=
  List.filter (fun s => String.eqb (step_status s) "done") (steps p).
Definition failed_steps (p : ExecutionPlan) : list PlanStep :=
  List.filter (fun s => String.eqb (step_status s) "failed") (steps p).
Definition plan_step_count (p : ExecutionPlan) : Z := Z.of_nat (length (steps p)).
Definition plan_is_complete (p : ExecutionPlan) : bool :=
  forallb (fun s => String.eqb (step_status s) "done") (steps p).

Record PlanValidation : Type := {
  pv_valid : bool;
  pv_errors : list string;
  pv_warnings : list string;
  pv_reason : string;
}.

Record StepResult : Type := {
  sr_step_id : string;
  sr_success : bool;
  sr_tool_name : string;
  sr_output : string;
  sr_error : string;
}.

Inductive NextAction : Type := Continue | Retry | AskUser | Replan | AbortPlan.

#[export] Instance NextAction_eq_dec : EqDecision NextAction.
Proof. solve_decision. Defined.

Record VerificationResult : Type := {
  vr_passed : bool;
  vr_step_id : string;
  vr_reason : string;
  vr_action : NextAction;
}.

(** ** Cycle detection *)

Inductive Color : Type := WHITE | GRAY | BLACK.

#[export] Instance Color_eq_dec : EqDecision Color.
Proof. solve_decision. Defined.

(** The variables the nested function [_dfs] shares with its caller. *)
Record Dfs : Type := {
  df_color : gmap string Color;
  df_path : list string;
  df_errors : list string;
}.

Definition set_color (n : string) (c : Color) (st : Dfs) : Dfs :=
  {| df_color := <[n := c]> (df_color st); df_path := df_path st; df_errors := df_errors st |}.

Definition enter (n : string) (st : Dfs) : Dfs :=
  {| df_color := <[n := GRAY]> (df_color st); df_path := df_path st ++ [n]; df_errors := df_errors st |}.

Definition leave (n : string) (st : Dfs) : Dfs :=
  {| df_color := <[n := BLACK]> (df_color st); df_path := removelast (df_path st);
     df_errors := df_errors st |}.

(** [path\[path.index(d):\]] *)
Fixpoint path_from (d : string) (path : list string) : option (list string) :=
  match path with
  | [] => None
  | x :: path' => if String.eqb x d then Some path else path_from d path'
  end.

(** A dependency that is on the stack: the path it closes, or the exception of
    [path.index] when it belongs to an earlier, abandoned search. *)
Definition report_cycle (d : string) (st : Dfs) : result (bool * Dfs) :=
  match path_from d (df_path st) with
  | None => Raise (ValueError (repr_str d +:+ " is not in list"))
  | Some c =>
      Ok (true, {| df_color := df_color st; df_path := df_path st;
                   df_errors := df_errors st ++ ["Circular dependency: " +:+ join " → " (c ++ [d])] |})
  end.

(** The loop over the dependencies of [n], for the recursive call [rec]. *)
Fixpoint visit_deps (rec : string -> Dfs -> result (bool * Dfs)) (n : string) (ds : list string) (st : Dfs)
    : result (bool * Dfs) :=
  match ds with
  | [] => Ok (false, leave n st)
  | d :: ds' =>
      match df_color st !! d with
      | None | Some BLACK => visit_deps rec n ds' st
      | Some GRAY => report_cycle d st
      | Some WHITE =>
          let* (found, st') := rec d st in
          if found then Ok (true, st') else visit_deps rec n ds' st'
      end
  end.

(** [_dfs]; [depth] is the number of frames left before the recursion limit. *)
Fixpoint dfs (deps : string -> list string) (depth : nat) (n : string) (st : Dfs) : result (bool * Dfs) :=
  match depth with
  | O => Raise (RuntimeError "maximum recursion depth exceeded")
  | S depth' => visit_deps (dfs deps depth') n (deps n) (enter n st)
  end.

Fixpoint dfs_all (deps : string -> list string) (depth : nat) (ids : list string) (st : Dfs) : result Dfs :=
  match ids with
  | [] => Ok st
  | sid :: ids' =>
      if bool_decide (df_color st !! sid = Some WHITE) then
        let* (_, st') := dfs deps depth sid
          {| df_color := df_color st; df_path := []; df_errors := df_errors st |} in
        dfs_all deps depth ids' st'
      else dfs_all deps depth ids' st
  end.

Section validator.
(** The order in which a set with these (distinct) elements is iterated. *)
Context (set_order : list string -> list string) (recursion_limit : nat).

Definition iter_set (l : list string) : list string := set_order (remove_dups l).

(** [{s.step_id: set(s.dependencies) for s in steps}]: the last step with an id counts. *)
Definition dependency_map (ss : list PlanStep) : gmap string (list string) :=
  fold_left (fun m s => <[step_id s := iter_set (dependencies s)]> m) ss ∅.

Definition white_map (ids : list string) : gmap string Color :=
  fold_left (fun m sid => <[sid := WHITE]> m) ids ∅.

Definition detect_cycles (ss : list PlanStep) : result (list string) :=
  let step_ids := iter_set (map step_id ss) in
  let deps := dependency_map ss in
  res_map df_errors
    (dfs_all (fun n => default [] (deps !! n)) recursion_limit step_ids
       {| df_color := white_map step_ids; df_path := []; df_errors := [] |}).

(** ** The validator *)

Record PlanValidator : Type := {
  vl_registry : option ToolRegistry;
  vl_max_steps : Z;
  vl_forbidden : list string;
}.

Definition count_errors (v : PlanValidator) (p : ExecutionPlan) : list string :=
  (if plan_step_count p =? 0 then ["Plan must have at least one step"] else [])
  ++ (if plan_step_count p >? vl_max_steps v
      then ["Plan has " +:+ str_of_Z (plan_step_count p) +:+ " steps (max "
            +:+ str_of_Z (vl_max_steps v) +:+ ")"]
      else []).

Definition duplicate_errors (p : ExecutionPlan) : list string :=
  let ids := map step_id (steps p) in
  if bool_decide (length ids = size (list_to_set ids : gset string)) then []
  else ["Plan contains duplicate step IDs"].

Definition tool_errors (v : PlanValidator) (s : PlanStep) : list string :=
  flat_map (fun tool =>
    if str_in tool (vl_forbidden v)
    then ["Step '" +:+ step_id s +:+ "' references forbidden tool '" +:+ tool +:+ "'"]
    else match vl_registry v with
         | Some r => if registry_has r tool then []
                     else ["Step '" +:+ step_id s +:+ "' references unknown tool '" +:+ tool +:+ "'"]
         | None => []
         end) (tool_candidates s).

Definition dependency_errors (ids : list string) (s : PlanStep) : list string :=
  (if str_in (step_id s) (dependencies s) then ["Step '" +:+ step_id s +:+ "' depends on itself"] else [])
  ++ flat_map (fun dep =>
       if str_in dep ids then []
       else ["Step '" +:+ step_id s +:+ "' depends on unknown step '" +:+ dep +:+ "'"])
     (dependencies s).

Definition goal_errors (p : ExecutionPlan) : list string :=
  if str_true (strip (goal p)) then [] else ["Plan has no goal"].

Definition plan_warnings (p : ExecutionPlan) : list string :=
  (if list_true (completion_criteria p) then []
   else ["Plan has no completion criteria — verification may be weak"])
  ++ flat_map (fun s =>
       if str_in (risk_level s) ["high"; "critical"] && negb (list_true (required_user_inputs p))
       then ["Step '" +:+ step_id s +:+ "' is high-risk but plan identifies no required user inputs"]
       else []) (steps p).

Definition validate (v : PlanValidator) (p : ExecutionPlan) : result PlanValidation :=
  let ids := map step_id (steps p) in
  let* cycles := detect_cycles (steps p) in
  let errors :=
    count_errors v p ++ duplicate_errors p ++ flat_map (tool_errors v) (steps p)
    ++ flat_map (dependency_errors ids) (steps p) ++ cycles ++ goal_errors p in
  Ok {| pv_valid := negb (list_true errors); pv_errors := errors; pv_warnings := plan_warnings p;
        pv_reason := if list_true errors then join "; " errors else "Plan is valid" |}.

(** ** The planner *)

(** The text up to the last [c]. *)
Fixpoint upto_last (c : Ascii.ascii) (s : string) : option string :=
  match s with
  | EmptyString => None
  | String a s' =>
      match upto_last c s' with
      | Some p => Some (String a p)
      | None => if Ascii.eqb a c then Some (String a "") else None
      end
  end.

Definition braces_block (text : string) : string :=
  match split_sub "{" text with
  | Some (_, rest) =>
      match upto_last "}"%char rest with
      | Some p => strip ("{" +:+ p)
      | None => strip text
      end
  | None => strip text
  end.

(** [_extract_json]: the first fenced block, else the text from the first brace to
    the last, else the text.  The white space the pattern skips after the opening fence
    is stripped from the group anyway. *)
Definition extract_json (text : string) : string :=
  match split_sub "```" text with
  | Some (_, rest) =>
      let rest := if startswith rest "json" then String.substring 4 (String.length rest - 4) rest else rest in
      match split_sub "```" rest with
      | Some (body, _) => strip body
      | None => braces_block text
      end
  | None => braces_block text
  end.

(** Fields of the model's answer.  A field that does not have its annotated type is
    counted as a type error, that is, as a failed attempt. *)
Definition text_of (v : json) : result string :=
  match v with JStr s => Ok s | _ => Raise (TypeError ("expected str, got " +:+ type_name v)) end.

Definition texts_of (v : json) : result (list string) :=
  match v with
  | JArr l => res_mapM text_of l
  | _ => Raise (TypeError ("expected list, got " +:+ type_name v))
  end.

Definition step_of_json (i : nat) (v : json) : result PlanStep :=
  match v with
  | JObj s =>
      let* sid := text_of (dget_or s "step_id" (JStr (str_of_Z (Z.of_nat i + 1)))) in
      let* obj := text_of (dget_or s "objective" (JStr "")) in
      let* tools := texts_of (dget_or s "tool_candidates" (JArr [])) in
      let* deps := texts_of (dget_or s "dependencies" (JArr [])) in
      let* risk := text_of (dget_or s "risk_level" (JStr "low")) in
      Ok {| step_id := sid; objective := obj; tool_candidates := tools; dependencies := deps;
            risk_level := risk; step_status := "pending"; max_retries := 1 |}
  | _ => Raise (AttributeError ("'" +:+ type_name v +:+ "' object has no attribute 'get'"))
  end.

Definition plan_of_json (id g : string) (v : json) : result ExecutionPlan :=
  match v with
  | JObj data =>
      let* ss := (match dget_or data "steps" (JArr []) with
                  | JArr l => res_mapM (fun p => step_of_json (fst p) (snd p)) (combine (seq 0 (length l)) l)
                  | w => Raise (TypeError ("expected list, got " +:+ type_name w))
                  end) in
      let* asm := texts_of (dget_or data "assumptions" (JArr [])) in
      let* inputs := texts_of (dget_or data "required_user_inputs" (JArr [])) in
      let* criteria := texts_of (dget_or data "completion_criteria" (JArr [])) in
      Ok {| plan_id := id; goal := g; assumptions := asm; required_user_inputs := inputs; steps := ss;
            completion_criteria := criteria; max_replans := 2; plan_status := PlanDRAFT |}
  | _ => Raise (AttributeError ("'" +:+ type_name v +:+ "' object has no attribute 'get'"))
  end.

Definition quoted (s : string) : string := quote +:+ s +:+ quote.

(** The system text of the planning prompt. *)
Definition PLANNER_SYSTEM : string :=
  "You are a banking task planner. Given a user's goal and available tools,
produce a structured execution plan as JSON.

Rules:
- Each step must reference only tools that exist in the tool list.
- Steps must be ordered — a step's dependencies must be earlier steps.
- Identify assumptions you're making and information you need from the user.
- Never propose tools the user is not authorized to use.
- For high-risk steps, flag them with risk_level " +:+ quoted "high" +:+ " or " +:+ quoted "critical" +:+ ".
- Max 10 steps.

Output ONLY valid JSON:
{
  " +:+ quoted "assumptions" +:+ ": [" +:+ quoted "..." +:+ "],
  " +:+ quoted "required_user_inputs" +:+ ": [" +:+ quoted "..." +:+ "],
  " +:+ quoted "steps" +:+ ": [
    {
      " +:+ quoted "step_id" +:+ ": " +:+ quoted "1" +:+ ",
      " +:+ quoted "objective" +:+ ": " +:+ quoted "..." +:+ ",
      " +:+ quoted "tool_candidates" +:+ ": [" +:+ quoted "tool_name" +:+ "],
      " +:+ quoted "dependencies" +:+ ": [],
      " +:+ quoted "risk_level" +:+ ": " +:+ quoted "low" +:+ "
    }
  ],
  " +:+ quoted "completion_criteria" +:+ ": [" +:+ quoted "..." +:+ "]
}".

Section planner.
(** The model's answer to the planning messages, at each attempt. *)
Context (llm : nat -> list Message -> result string).

Definition sorted_names (r : ToolRegistry) : list string :=
  map fst (sort_items (map (fun k => (k, tt)) (okeys r))).

Definition planner_prompt (registry : option ToolRegistry) (g context : string) : string :=
  let names := match registry with Some r => sorted_names r | None => [] end in
  "Goal: " +:+ g +:+ "
Available tools: " +:+ (if list_true names then join ", " names else "unknown") +:+ "
Context: " +:+ context +:+ "

Generate a step-by-step execution plan as JSON.".

Definition generate_plan (attempt : nat) (id g prompt : string) : result ExecutionPlan :=
  let* raw := llm attempt [SystemMessage PLANNER_SYSTEM; HumanMessage prompt] in
  let* data := loads (extract_json raw) in
  plan_of_json id g data.

Definition with_status (st : PlanStatus) (p : ExecutionPlan) : ExecutionPlan :=
  {| plan_id := plan_id p; goal := goal p; assumptions := assumptions p;
     required_user_inputs := required_user_inputs p; steps := steps p;
     completion_criteria := completion_criteria p; max_replans := max_replans p; plan_status := st |}.

(** One attempt; [None] when it fails or its plan is not valid. *)
Definition plan_attempt (v : PlanValidator) (id g prompt : string) (attempt : nat) : option ExecutionPlan :=
  match (let* p := generate_plan attempt id g prompt in
         let* val := validate v p in
         Ok (if pv_valid val then Some (with_status PlanVALIDATED p) else None)) with
  | Ok r => r
  | Raise _ => None
  end.

Fixpoint first_attempt (f : nat -> option ExecutionPlan) (attempt n : nat) : option ExecutionPlan :=
  match n with
  | O => None
  | S n' => match f attempt with Some p => Some p | None => first_attempt f (S attempt) n' end
  end.

Definition rejected_plan (id g : string) : ExecutionPlan :=
  {| plan_id := id; goal := g; assumptions := []; required_user_inputs := []; steps := [];
     completion_criteria := []; max_replans := 2; plan_status := PlanREJECTED |}.

(** [Planner.plan] with its default validator; [uuid] is the drawn identifier. *)
Definition default_validator (registry : option ToolRegistry) : PlanValidator :=
  {| vl_registry := registry; vl_max_steps := 15; vl_forbidden := [] |}.

Definition plan (registry : option ToolRegistry) (retries : nat) (uuid g context : string) : ExecutionPlan :=
  let id := take_str 8 uuid in
  default (rejected_plan id g)
    (first_attempt (plan_attempt (default_validator registry) id g (planner_prompt registry g context)) 0 retries).
End planner.
End validator.

(** ** The executor *)

Definition step_failure (s : PlanStep) (tool error : string) : StepResult :=
  {| sr_step_id := step_id s; sr_success := false; sr_tool_name := tool; sr_output := "";
     sr_error := error |}.

Definition step_kind (registry : option ToolRegistry) (tool : string) : OperationKind :=
  match registry with
  | Some r => match registry_get r tool with Some td => kind_from_metadata td | None => READ end
  | None => READ
  end.

Definition execute_step {P} `{AuthorizationPolicy P} (registry : option ToolRegistry) (p : ExecutionPlan)
    (s : PlanStep) (tool_args : dict) (gw : AuthorizationGateway P)
    : prog (StepResult * AuthorizationGateway P) :=
  if negb (String.eqb (step_status s) "pending")
  then Ret (step_failure s "" ("Step '" +:+ step_id s +:+ "' is not pending (status: "
                               +:+ step_status s +:+ ")"), gw)
  else
    match tool_candidates s with
    | [] => Ret (step_failure s "" ("Step '" +:+ step_id s +:+ "' has no tool candidates"), gw)
    | tool :: _ =>
        do now <- perform ONow ;;
        match gw_authorize now
                {| op_kind := step_kind registry tool; op_name := tool;
                   op_target := "step:" +:+ step_id s;
                   op_details := [("args", JObj tool_args); ("plan_id", JStr (plan_id p))] |} gw with
        | Raise e => Ret (step_failure s tool (str_exn e), gw)
        | Ok (d, gw') =>
            if String.eqb (decision_value (ad_decision d)) "denied"
            then Ret (step_failure s tool ("Authorization denied: " +:+ ad_reason d), gw')
            else
              do r <- perform (ODispatch {| tc_name := tool; tc_arguments := JObj tool_args |}) ;;
              match r with
              | Raise e => Ret (step_failure s tool (str_exn e), gw')
              | Ok res =>
                  if tr_success res
                  then Ret ({| sr_step_id := step_id s; sr_success := true; sr_tool_name := tool;
                               sr_output := tr_content res; sr_error := "" |}, gw')
                  else Ret (step_failure s tool (opt_or (tr_error res) "Tool execution failed"), gw')
              end
        end
    end.

(** ** The verifier *)

Definition next_action_for_failure (s : PlanStep) : NextAction :=
  if max_retries s >? 1 then Retry
  else if String.eqb (risk_level s) "critical" then AskUser
  else AbortPlan.

Definition check_criterion (criterion : string) (r : StepResult) : bool :=
  let out := lower (sr_output r) in
  if contains "balance" (lower criterion) then contains "balance" out || contains "amount" out
  else if contains "status" (lower criterion) then contains "status" out
  else if contains "draft" (lower criterion) then contains "draft_id" out
  else str_true (strip (sr_output r)).

Definition verdict (s : PlanStep) (passed : bool) (reason : string) (a : NextAction) : VerificationResult :=
  {| vr_passed := passed; vr_step_id := step_id s; vr_reason := reason; vr_action := a |}.

Definition verify (s : PlanStep) (r : StepResult) (p : option ExecutionPlan) : VerificationResult :=
  if negb (sr_success r)
  then verdict s false ("Tool '" +:+ sr_tool_name r +:+ "' failed: " +:+ sr_error r)
         (next_action_for_failure s)
  else if negb (str_true (strip (sr_output r)))
  then verdict s true "Step succeeded but produced empty output" Continue
  else
    match p with
    | Some pl =>
        match List.find (fun c => negb (check_criterion c r)) (completion_criteria pl) with
        | Some c => verdict s false ("Completion criterion not met: " +:+ c) Retry
        | None => verdict s true ("Step '" +:+ step_id s +:+ "' verified successfully") Continue
        end
    | None => verdict s true ("Step '" +:+ step_id s +:+ "' verified successfully") Continue
    end.

(** ** Lemmas: the depth-first search *)

Section dfs_facts.
Context (deps : string -> list string) (known : string -> Prop).

Definition edge (u v : string) : Prop := v ∈ deps u /\ known v.
Definition acyclic : Prop := forall x, ~ tc edge x x.
Definition colored (st : Dfs) : Prop := forall x, is_Some (df_color st !! x) <-> known x.
Definition is_color (c : Color) (st : Dfs) (x : string) : Prop := df_color st !! x = Some c.

(** A list in which the successors of each element come later. *)
Fixpoint topo (L : list string) : Prop :=
  match L with
  | [] => True
  | u :: L' => u ∉ L' /\ (forall v, edge u v -> v ∈ L') /\ topo L'
  end.

Lemma topo_closed L w v : topo L -> w ∈ L -> edge w v -> v ∈ L.
Proof.
  induction L as [|u L IH]; [by intros _ H%elem_of_nil|].
  intros (_ & Hu & Ht) [->|Hw]%elem_of_cons He; right; auto.
Qed.

Lemma topo_tc L w v : topo L -> tc edge w v -> w ∈ L -> v ∈ L.
Proof. intros Ht. induction 1; eauto using topo_closed. Qed.

Lemma topo_acyclic L w : topo L -> w ∈ L -> ~ tc edge w w.
Proof.
  induction L as [|u L IH]; [by intros _ H%elem_of_nil|].
  intros (Hn & Hu & Ht) Hw Hc. apply elem_of_cons in Hw as [->|Hw]; [|by eapply IH].
  apply Hn. inversion Hc as [? ? He|? y ? He Hc']; subst; [by apply Hu|].
  apply (topo_tc L y u Ht Hc'), Hu, He.
Qed.

(** What a search that reports nothing has established. *)
Definition finished (n : string) (st st' : Dfs) : Prop :=
  forall L, topo L -> (forall x, is_color BLACK st x <-> x ∈ L) ->
  exists L', topo L' /\ (forall x, is_color BLACK st' x <-> x ∈ L') /\ n ∈ L' /\
    (forall x, x ∈ L -> x ∈ L').

Definition same_gray (st st' : Dfs) : Prop := forall x, is_color GRAY st' x <-> is_color GRAY st x.

Definition search_sound (rec : string -> Dfs -> result (bool * Dfs)) : Prop :=
  forall n st b st', colored st -> is_color WHITE st n -> rec n st = Ok (b, st') ->
    colored st' /\
    (exists es, df_errors st' = df_errors st ++ es /\ (b = true -> es <> [])) /\
    (b = false -> finished n st st' /\ same_gray st st').

Lemma colored_insert st n c path es :
  colored st -> known n ->
  colored {| df_color := <[n := c]> (df_color st); df_path := path; df_errors := es |}.
Proof.
  intros Hc Hn x. cbn. destruct (decide (x = n)) as [->|Hx].
  - rewrite lookup_insert_eq. split; [done|eauto].
  - rewrite lookup_insert_ne by done. apply Hc.
Qed.

Lemma is_color_ne st n c c' path es x :
  x <> n \/ c' <> c /\ ~ is_color c' st n ->
  is_color c' {| df_color := <[n := c]> (df_color st); df_path := path; df_errors := es |} x
  <-> is_color c' st x.
Proof.
  unfold is_color. cbn. intros Hx. destruct (decide (x = n)) as [->|Hne].
  - rewrite lookup_insert_eq. destruct Hx as [Hx|[Hc Hn]]; [done|]. split; [|done]. by intros [= ->].
  - by rewrite lookup_insert_ne.
Qed.

Lemma leave_finished n st L :
  colored st -> is_color GRAY st n -> topo L -> (forall x, is_color BLACK st x <-> x ∈ L) ->
  (forall v, edge n v -> v ∈ L) ->
  topo (n :: L) /\ (forall x, is_color BLACK (leave n st) x <-> x ∈ n :: L).
Proof.
  intros Hc Hg Ht HL He. split.
  - cbn. split; [|done]. intros Hn%HL. unfold is_color in *. congruence.
  - intros x. rewrite elem_of_cons, <- HL. unfold is_color, leave. cbn.
    destruct (decide (x = n)) as [->|Hx]; [rewrite lookup_insert_eq; naive_solver|].
    rewrite lookup_insert_ne by done. naive_solver.
Qed.

Lemma errors_app (st st1 st2 : Dfs) (b : bool) es1 :
  df_errors st1 = df_errors st ++ es1 ->
  (exists es, df_errors st2 = df_errors st1 ++ es /\ (b = true -> es <> [])) ->
  exists es, df_errors st2 = df_errors st ++ es /\ (b = true -> es <> []).
Proof.
  intros H1 (es & H2 & Hb). exists (es1 ++ es). rewrite H2, H1, (assoc_L (++)). split; [done|].
  intros E%Hb H. destruct es1, es; done.
Qed.

Lemma visit_sound rec n ds st b st' :
  search_sound rec -> colored st -> is_color GRAY st n -> visit_deps rec n ds st = Ok (b, st') ->
  colored st' /\
  (exists es, df_errors st' = df_errors st ++ es /\ (b = true -> es <> [])) /\
  (b = false ->
     (forall x, is_color GRAY st' x <-> is_color GRAY st x /\ x <> n) /\
     forall L, topo L -> (forall x, is_color BLACK st x <-> x ∈ L) ->
       (forall v, edge n v -> v ∈ ds \/ v ∈ L) ->
       exists L', topo L' /\ (forall x, is_color BLACK st' x <-> x ∈ L') /\ n ∈ L' /\
         (forall x, x ∈ L -> x ∈ L')).
Proof.
  intros Hrec. revert st. induction ds as [|d ds IH]; intros st Hc Hg; cbn.
  - intros [= <- <-]. split; [apply colored_insert; [done|apply Hc; eauto]|split].
    { exists []. by rewrite app_nil_r. }
    intros _. split.
    + intros x. unfold is_color. cbn. destruct (decide (x = n)) as [->|Hx];
        [rewrite lookup_insert_eq|rewrite lookup_insert_ne by done]; naive_solver.
    + intros L Ht HL He. destruct (leave_finished n st L Hc Hg Ht HL) as [Ht' HL'].
      { intros v Hv. by destruct (He v Hv) as [H%elem_of_nil|]. }
      exists (n :: L). split; [done|]. split; [done|]. split; [by left|]. by right.
  - destruct (df_color st !! d) as [[| |]|] eqn:Ed.
    + intros ([found st1] & E1 & E2)%res_bind_ok.
      destruct (Hrec d st found st1 Hc Ed E1) as (Hc1 & (es1 & Hes1 & Hb1) & Hf1).
      destruct found; [injection E2 as <- <-; split; [done|]; split; [by exists es1|done]|].
      destruct (Hf1 eq_refl) as [Hfin Hgr].
      destruct (IH st1 Hc1) as (Hc' & Hes & Hf2); [by apply Hgr|done|].
      split; [done|]. split; [by eapply errors_app|].
      intros Hb. destruct (Hf2 Hb) as [Hgr2 HL2]. split; [intros x; by rewrite (Hgr2 x), (Hgr x)|].
      intros L Ht HL He. destruct (Hfin L Ht HL) as (L1 & Ht1 & HL1 & Hd & Hsub).
      destruct (HL2 L1 Ht1 HL1) as (L2 & Ht2 & HL2' & Hn & Hsub2).
      { intros v [Hv%elem_of_cons|Hv]%He; [destruct Hv as [->|]|]; auto. }
      exists L2. eauto 7.
    + unfold report_cycle. destruct (path_from d (df_path st)); [|done].
      intros [= <- <-]. split; [done|]. split; [|done]. eexists. by split.
    + intros E. destruct (IH st Hc Hg E) as (Hc' & Hes & Hf). split; [done|]. split; [done|].
      intros Hb. destruct (Hf Hb) as [Hgr HL]. split; [done|]. intros L Ht HB He.
      apply (HL L Ht HB). intros v [Hv%elem_of_cons|Hv]%He; [|by right].
      destruct Hv as [->|]; [right; by apply HB|by left].
    + intros E. destruct (IH st Hc Hg E) as (Hc' & Hes & Hf). split; [done|]. split; [done|].
      intros Hb. destruct (Hf Hb) as [Hgr HL]. split; [done|]. intros L Ht HB He.
      apply (HL L Ht HB). intros v Hv. destruct (He v Hv) as [Hin|]; [|by right].
      apply elem_of_cons in Hin as [->|]; [|by left]. destruct Hv as [_ Hk%Hc]. rewrite Ed in Hk.
      by destruct Hk.
Qed.

Lemma dfs_sound depth : search_sound (dfs deps depth).
Proof.
  induction depth as [|depth IH]; intros n st b st' Hc Hw; [done|]. cbn [dfs]. intros E.
  assert (Hk : known n) by (apply Hc; eauto).
  apply (visit_sound _ _ _ (enter n st)) in E as (Hc' & Hes & Hf); [|done|by apply colored_insert|].
  2:{ unfold is_color. cbn. by rewrite lookup_insert_eq. }
  split; [done|]. split; [done|]. intros Hb. destruct (Hf Hb) as [Hgr HL]. split.
  - intros L Ht HB. apply (HL L Ht).
    + intros x. rewrite <- HB. unfold is_color in *. cbn.
      destruct (decide (x = n)) as [->|Hx]; [rewrite lookup_insert_eq|by rewrite lookup_insert_ne].
      split; congruence.
    + intros v [Hv _]. by left.
  - intros x. rewrite (Hgr x). unfold is_color in *. cbn.
    destruct (decide (x = n)) as [->|Hx]; [rewrite lookup_insert_eq|rewrite lookup_insert_ne by done];
      naive_solver congruence.
Qed.

(** The errors never shrink, so a silent search found nothing at any root. *)
Lemma dfs_all_silent depth ids st st' :
  colored st -> dfs_all deps depth ids st = Ok st' -> df_errors st' = [] -> df_errors st = [].
Proof.
  revert st. induction ids as [|s ids IH]; intros st Hc; cbn.
  - by intros [= ->].
  - case_bool_decide as Hw; [|by apply IH].
    intros ([b st2] & E1 & E2)%res_bind_ok Hnil.
    apply (dfs_sound depth s _ b st2) in E1 as (Hc2 & (es & Hes & _) & _); [|done..].
    cbn in Hes. rewrite (IH st2 Hc2 E2 Hnil) in Hes. by destruct (df_errors st).
Qed.

Lemma dfs_all_sound depth ids st st' :
  colored st -> (forall x, ~ is_color GRAY st x) ->
  dfs_all deps depth ids st = Ok st' -> df_errors st' = [] ->
  forall L, topo L -> (forall x, is_color BLACK st x <-> x ∈ L) ->
  exists L', topo L' /\ (forall x, x ∈ L -> x ∈ L') /\ forall x, x ∈ ids -> known x -> x ∈ L'.
Proof.
  revert st. induction ids as [|sid ids IH]; intros st Hc Hg.
  - intros _ _ L Ht HL. exists L. split; [done|]. split; [done|]. by intros x H%elem_of_nil.
  - cbn. case_bool_decide as Hw.
    + intros ([b st1] & E1 & E2)%res_bind_ok Hnil L Ht HL.
      destruct (dfs_sound depth sid {| df_color := df_color st; df_path := []; df_errors := df_errors st |}
                  b st1 Hc Hw E1) as (Hc1 & (es & Hes & Hb) & Hf).
      pose proof (dfs_all_silent _ _ _ _ Hc1 E2 Hnil) as Hnil1. rewrite Hnil1 in Hes.
      symmetry in Hes. apply app_eq_nil in Hes as [_ ->].
      assert (b = false) as -> by (destruct b; [by destruct Hb|done]).
      destruct (Hf eq_refl) as [Hfin Hgr]. destruct (Hfin L Ht HL) as (L1 & Ht1 & HL1 & Hin & Hsub).
      destruct (IH st1 Hc1) with (L := L1) as (L2 & Ht2 & Hs2 & Hall); [|done..|].
      { intros x Hx. apply (Hg x). by apply Hgr. }
      exists L2. split; [done|]. split; [auto|]. intros x [->|Hx]%elem_of_cons; auto.
    + intros E Hnil L Ht HL. destruct (IH st Hc Hg E Hnil L Ht HL) as (L2 & Ht2 & Hs2 & Hall).
      exists L2. split; [done|]. split; [done|]. intros x [->|Hx]%elem_of_cons Hk; [|auto].
      apply Hs2, HL. apply Hc in Hk as [[| |] Hk]; [done| |done]. by destruct (Hg sid).
Qed.

(** On an acyclic graph no search reports anything, and the frames suffice. *)
Definition white_count (ids : list string) (st : Dfs) : nat :=
  countb (fun x => bool_decide (df_color st !! x = Some WHITE)) ids.

Definition whites_shrink (st st' : Dfs) : Prop :=
  forall x, is_color WHITE st' x -> is_color WHITE st x.

Lemma white_count_le ids st st' : whites_shrink st st' -> (white_count ids st' <= white_count ids st)%nat.
Proof.
  intros H. unfold white_count. induction ids as [|x ids IH]; [done|]. rewrite !countb_cons.
  pose proof (H x) as Hx. unfold is_color in Hx. repeat case_bool_decide; try lia. tauto.
Qed.

Lemma white_count_lt ids st st' n :
  whites_shrink st st' -> n ∈ ids -> is_color WHITE st n -> ~ is_color WHITE st' n ->
  (white_count ids st' < white_count ids st)%nat.
Proof.
  intros H Hn Hw Hw'. unfold white_count. induction ids as [|x ids IH]; [by apply elem_of_nil in Hn|].
  rewrite !countb_cons. pose proof (white_count_le ids st st' H) as Hle. unfold white_count in Hle.
  apply elem_of_cons in Hn as [<-|Hn].
  - rewrite bool_decide_false, bool_decide_true by done. lia.
  - specialize (IH Hn). pose proof (H x) as Hx. unfold is_color in Hx.
    repeat case_bool_decide; try lia. tauto.
Qed.

(** The stack is the gray nodes, and each of them reaches the node searched next. *)
Record on_stack (n : string) (st : Dfs) : Prop := {
  os_gray : forall x, is_color GRAY st x <-> x ∈ df_path st;
  os_reach : forall x, x ∈ df_path st -> tc edge x n;
}.

Definition quiet (st st' : Dfs) : Prop :=
  colored st' /\ df_errors st' = df_errors st /\ whites_shrink st st'.

Context (ids : list string).
Hypothesis known_ids : forall x, known x <-> x ∈ ids.
Hypothesis no_cycle : acyclic.

Definition search_complete (depth : nat) (rec : string -> Dfs -> result (bool * Dfs)) : Prop :=
  forall n st, colored st -> is_color WHITE st n -> on_stack n st -> (white_count ids st <= depth)%nat ->
  exists st', rec n st = Ok (false, st') /\ quiet st st' /\ df_path st' = df_path st /\
    (forall x, is_color GRAY st' x <-> x ∈ df_path st).

Lemma visit_complete depth rec n path ds st :
  search_complete depth rec -> colored st -> df_path st = path ++ [n] -> n ∉ path ->
  (forall x, is_color GRAY st x <-> x ∈ path ++ [n]) -> (forall x, x ∈ path -> tc edge x n) ->
  (forall d, d ∈ ds -> d ∈ deps n) -> (white_count ids st <= depth)%nat ->
  exists st', visit_deps rec n ds st = Ok (false, st') /\ quiet st st' /\ df_path st' = path /\
    (forall x, is_color GRAY st' x <-> x ∈ path).
Proof.
  intros Hrec. revert st. induction ds as [|d ds IH]; intros st Hc Hp Hnp Hg Hr Hd Hw; cbn.
  - eexists. split; [done|]. cbn. rewrite Hp, removelast_last. split; [|split; [done|]].
    + split; [|split; [done|]].
      * apply colored_insert; [done|]. apply Hc. exists GRAY. apply Hg. set_solver.
      * intros x. unfold is_color. cbn. destruct (decide (x = n)) as [->|Hx];
          [by rewrite lookup_insert_eq|by rewrite lookup_insert_ne].
    + intros x. unfold is_color. cbn. destruct (decide (x = n)) as [->|Hx].
      * rewrite lookup_insert_eq. split; [done|]. by intros Hin.
      * rewrite lookup_insert_ne by done. unfold is_color in Hg. rewrite (Hg x). set_solver.
  - assert (Hds : forall d', d' ∈ ds -> d' ∈ deps n) by (intros d' H; apply Hd; by right).
    destruct (df_color st !! d) as [[| |]|] eqn:Ed; [| |by apply IH|by apply IH].
    + assert (He : edge n d) by (split; [apply Hd; by left|apply Hc; eauto]).
      destruct (Hrec d st Hc Ed) as (st1 & -> & (Hc1 & He1 & Hw1) & Hp1 & Hg1); [|done|].
      { split; [by rewrite Hp|]. rewrite Hp. intros x [Hx|Hx]%elem_of_app;
          [eapply tc_r; eauto|]. apply list_elem_of_singleton in Hx as ->. by apply tc_once. }
      cbn [res_bind]. destruct (IH st1) as (st2 & -> & (Hc2 & He2 & Hw2) & Hp2 & Hg2); try done; try congruence.
      { intros x. by rewrite Hg1, Hp. }
      { pose proof (white_count_le ids _ _ Hw1). lia. }
      exists st2. split; [done|]. split; [|done]. split; [done|]. split; [congruence|].
      intros x Hx. auto.
    + exfalso. assert (He : edge n d) by (split; [apply Hd; by left|apply Hc; eauto]).
      apply Hg in Ed. apply elem_of_app in Ed as [Hx|Hx].
      * apply (no_cycle d). eapply tc_r; eauto.
      * apply list_elem_of_singleton in Hx as ->. apply (no_cycle n). by apply tc_once.
Qed.

Lemma dfs_complete depth : search_complete depth (dfs deps depth).
Proof.
  induction depth as [|depth IH]; intros n st Hc Hw [Hg Hr] Hle.
  { assert (known n) as Hk%known_ids by (apply Hc; eauto).
    assert (whites_shrink st (set_color n BLACK st)) as Hs.
    { intros x. unfold is_color. cbn. destruct (decide (x = n)) as [->|Hx];
        [by rewrite lookup_insert_eq|by rewrite lookup_insert_ne]. }
    assert (white_count ids (set_color n BLACK st) < white_count ids st)%nat; [|lia].
    apply (white_count_lt _ _ _ n Hs Hk Hw). unfold is_color. cbn. by rewrite lookup_insert_eq. }
  assert (Hk : known n) by (apply Hc; eauto).
  assert (Hshrink : whites_shrink st (enter n st)).
  { intros x. unfold is_color. cbn. destruct (decide (x = n)) as [->|Hx];
      [by rewrite lookup_insert_eq|by rewrite lookup_insert_ne]. }
  assert (Hn : n ∉ df_path st).
  { intros Hin%Hg. unfold is_color in *. congruence. }
  destruct (visit_complete depth (dfs deps depth) n (df_path st) (deps n) (enter n st) IH)
    as (st' & E & (Hc' & He' & Hw') & Hp' & Hg'); try done.
  - by apply colored_insert.
  - intros x. unfold is_color. cbn. rewrite elem_of_app, list_elem_of_singleton.
    destruct (decide (x = n)) as [->|Hx]; [rewrite lookup_insert_eq; naive_solver|].
    rewrite lookup_insert_ne by done. unfold is_color in Hg. rewrite (Hg x). naive_solver.
  - assert (white_count ids (enter n st) < white_count ids st)%nat; [|lia].
    apply (white_count_lt ids _ _ n); [done|by apply known_ids|done|].
    unfold is_color. cbn. by rewrite lookup_insert_eq.
  - exists st'. split; [done|]. split; [|done]. split; [done|]. split; [done|].
    intros x Hx. auto.
Qed.

Lemma dfs_all_complete depth l st :
  colored st -> (forall x, ~ is_color GRAY st x) -> (white_count ids st <= depth)%nat ->
  exists st', dfs_all deps depth l st = Ok st' /\ df_errors st' = df_errors st.
Proof.
  revert st. induction l as [|sid l IH]; intros st Hc Hg Hw; cbn; [eauto|].
  case_bool_decide as Hs; [|by apply IH].
  set (st0 := {| df_color := df_color st; df_path := []; df_errors := df_errors st |}).
  destruct (dfs_complete depth sid st0) as (st1 & -> & (Hc1 & He1 & Hw1) & Hp1 & Hg1); [done|done| |done|].
  { split; [|by intros x H%elem_of_nil]. intros x. cbn. rewrite elem_of_nil. split; [apply Hg|done]. }
  cbn [res_bind]. destruct (IH st1 Hc1) as (st2 & -> & He2).
  - intros x Hx%Hg1. by apply elem_of_nil in Hx.
  - pose proof (white_count_le ids _ _ Hw1). cbn in *. unfold white_count in *. cbn in *. lia.
  - exists st2. split; [done|]. by rewrite He2, He1.
Qed.
End dfs_facts.

(** ** Lemmas: the validator *)

Lemma white_map_lookup ids x :
  white_map ids !! x = if bool_decide (x ∈ ids) then Some WHITE else None.
Proof.
  unfold white_map.
  assert (forall m, fold_left (fun m sid => <[sid := WHITE]> m) ids m !! x
                    = if bool_decide (x ∈ ids) then Some WHITE else m !! x) as ->;
    [|by rewrite lookup_empty].
  induction ids as [|i ids IH]; intros m; cbn; [done|]. rewrite IH.
  destruct (decide (x = i)) as [->|Hx].
  - rewrite lookup_insert_eq, (bool_decide_true (i ∈ i :: ids)) by (by left). by case_bool_decide.
  - rewrite lookup_insert_ne by done. repeat case_bool_decide; set_solver.
Qed.

(** Step [a] names step [b] of the plan among its dependencies. *)
Definition depends_on (ss : list PlanStep) (a b : string) : Prop :=
  exists s, s ∈ ss /\ step_id s = a /\ b ∈ dependencies s /\ b ∈ map step_id ss.

Lemma tc_impl {A} (R1 R2 : A -> A -> Prop) x y : (forall a b, R1 a b -> R2 a b) -> tc R1 x y -> tc R2 x y.
Proof. intros H. induction 1; [apply tc_once|eapply tc_l]; eauto. Qed.

Lemma list_true_false {A} (l : list A) : list_true l = false <-> l = [].
Proof. by destruct l. Qed.

Lemma flat_map_nil {A B} (f : A -> list B) l : flat_map f l = [] <-> forall x, x ∈ l -> f x = [].
Proof.
  induction l as [|a l IH]; cbn.
  - split; [intros _ x H; by apply elem_of_nil in H|done].
  - split.
    + intros [H1 H2]%app_eq_nil x [->|Hx]%elem_of_cons; [done|]. by apply IH.
    + intros H. rewrite (H a) by left. apply IH. intros x Hx. apply H. by right.
Qed.

Section cycles.
Context (set_order : list string -> list string).
Hypothesis set_order_perm : forall l, set_order l ≡ₚ l.

Lemma iter_set_elem x l : x ∈ iter_set set_order l <-> x ∈ l.
Proof. unfold iter_set. rewrite set_order_perm. apply elem_of_remove_dups. Qed.

Lemma iter_set_length l : (length (iter_set set_order l) <= length l)%nat.
Proof.
  unfold iter_set. rewrite set_order_perm. apply submseteq_length, NoDup_submseteq.
  - apply NoDup_remove_dups.
  - intros x. by rewrite elem_of_remove_dups.
Qed.

Lemma dependency_map_lookup ss u v :
  NoDup (map step_id ss) ->
  v ∈ default [] (dependency_map set_order ss !! u) <->
  exists s, s ∈ ss /\ step_id s = u /\ v ∈ dependencies s.
Proof.
  intros Hnd. unfold dependency_map.
  assert (forall m, v ∈ default [] (fold_left (fun m s => <[step_id s := iter_set set_order (dependencies s)]> m) ss m !! u)
            <-> (exists s, s ∈ ss /\ step_id s = u /\ v ∈ dependencies s)
                \/ u ∉ map step_id ss /\ v ∈ default [] (m !! u)) as ->.
  { induction ss as [|s ss IH]; intros m; cbn.
    - split; [intros H; right; split; [apply not_elem_of_nil|done]|].
      intros [(s & H%elem_of_nil & _)|[_ H]]; done.
    - apply NoDup_cons in Hnd as [Hs Hnd]. rewrite (IH Hnd).
      destruct (decide (u = step_id s)) as [->|Hu].
      + rewrite lookup_insert_eq. cbn. rewrite iter_set_elem. split.
        * intros [(s' & Hin & E & Hv)|[_ Hv]]; left; [|exists s; by repeat constructor].
          exists s'. split; [by right|done].
        * intros [(s' & [->|Hin]%elem_of_cons & E & Hv)|[Hn _]]; [by right| |set_solver].
          left. by exists s'.
      + rewrite lookup_insert_ne by done. split.
        * intros [(s' & Hin & E & Hv)|[Hn Hv]]; [left; exists s'; split; [by right|done]|right; set_solver].
        * intros [(s' & [->|Hin]%elem_of_cons & E & Hv)|[Hn Hv]]; [by destruct Hu|left; by exists s'|].
          right. set_solver. }
  rewrite lookup_empty. cbn. split; [intros [H|[_ H%elem_of_nil]]; done|by left].
Qed.

Lemma detect_cycles_spec limit ss :
  NoDup (map step_id ss) -> (length ss <= limit)%nat ->
  detect_cycles set_order limit ss = Ok [] <-> forall a, ~ tc (depends_on ss) a a.
Proof.
  intros Hnd Hlen. unfold detect_cycles. set (ids := iter_set set_order (map step_id ss)).
  set (deps := fun n => default [] (dependency_map set_order ss !! n)).
  set (st0 := {| df_color := white_map ids; df_path := []; df_errors := [] |}).
  set (known := fun x => x ∈ ids).
  assert (He : forall a b, edge deps known a b <-> depends_on ss a b).
  { intros a b. unfold edge, deps, known, depends_on, ids.
    rewrite dependency_map_lookup, iter_set_elem by done. naive_solver. }
  assert (Hc : colored known st0).
  { intros x. cbn. rewrite white_map_lookup. unfold known.
    case_bool_decide; split; try done; intros []; done. }
  assert (Hg : forall x, ~ is_color GRAY st0 x).
  { intros x. unfold is_color. cbn. rewrite white_map_lookup. by case_bool_decide. }
  split.
  - intros E a Hcy.
    destruct (dfs_all deps limit ids st0) as [st'|] eqn:Ed; [|done]. injection E as Hnil.
    destruct (dfs_all_sound deps known limit ids st0 st' Hc Hg Ed Hnil []) as (L & Ht & _ & Hall); [done| |].
    { intros x. unfold is_color. cbn. rewrite white_map_lookup. case_bool_decide; set_solver. }
    apply (topo_acyclic deps known L a Ht).
    + apply Hall; inversion Hcy as [? ? Hab|? ? ? Hab]; subst; destruct Hab as (s & Hs & <- & _);
        apply iter_set_elem; by apply list_elem_of_fmap_2.
    + eapply tc_impl; [|exact Hcy]. intros ? ?. apply He.
  - intros Hac.
    destruct (dfs_all_complete deps known ids (fun x => iff_refl _)) with (depth := limit) (l := ids) (st := st0)
      as (st' & -> & Hnil); [|done|done| |].
    + intros x Hx. apply (Hac x). eapply tc_impl; [|exact Hx]. intros ? ?. apply He.
    + unfold white_count, countb. etrans; [apply List.filter_length_le|].
      unfold ids. etrans; [apply iter_set_length|]. by rewrite length_map.
    + cbn. by rewrite Hnil.
Qed.

(** What the validator means to check. *)
Record plan_ok (v : PlanValidator) (p : ExecutionPlan) : Prop := {
  ok_count : 1 <= plan_step_count p <= vl_max_steps v;
  ok_ids : NoDup (map step_id (steps p));
  ok_tools : forall s tool, s ∈ steps p -> tool ∈ tool_candidates s ->
    tool ∉ vl_forbidden v /\ forall r, vl_registry v = Some r -> registry_has r tool = true;
  ok_deps : forall s d, s ∈ steps p -> d ∈ dependencies s -> d ∈ map step_id (steps p);
  ok_order : forall a, ~ tc (depends_on (steps p)) a a;
  ok_goal : strip (goal p) <> "";
}.

Lemma count_errors_nil v p : count_errors v p = [] <-> 1 <= plan_step_count p <= vl_max_steps v.
Proof.
  unfold count_errors. assert (0 <= plan_step_count p) by (unfold plan_step_count; lia).
  destruct (Z.eqb_spec (plan_step_count p) 0), (Z.gtb_spec (plan_step_count p) (vl_max_steps v)); cbn;
    split; intros; try done; try lia.
Qed.

Lemma duplicate_errors_nil p : duplicate_errors p = [] <-> NoDup (map step_id (steps p)).
Proof.
  unfold duplicate_errors. rewrite <- size_list_to_set_NoDup. case_bool_decide; split; intros; try done; congruence.
Qed.

Lemma tool_errors_nil v s :
  tool_errors v s = [] <-> forall tool, tool ∈ tool_candidates s ->
    tool ∉ vl_forbidden v /\ forall r, vl_registry v = Some r -> registry_has r tool = true.
Proof.
  unfold tool_errors. rewrite flat_map_nil. split; intros H tool Ht; specialize (H tool Ht).
  - destruct (str_in tool (vl_forbidden v)) eqn:E; [done|]. split; [by apply str_in_false|].
    intros r Hr. rewrite Hr in H. by destruct (registry_has r tool).
  - destruct H as [Hf Hr]. apply str_in_false in Hf. rewrite Hf.
    destruct (vl_registry v) as [r|]; [|done]. by rewrite (Hr r).
Qed.

Lemma dependency_errors_nil ids s :
  dependency_errors ids s = [] <->
  step_id s ∉ dependencies s /\ forall d, d ∈ dependencies s -> d ∈ ids.
Proof.
  unfold dependency_errors. split.
  - intros [H1 H2]%app_eq_nil. destruct (str_in _ _) eqn:E; [done|]. split; [by apply str_in_false|].
    intros d Hd. rewrite flat_map_nil in H2. specialize (H2 d Hd). destruct (str_in d ids) eqn:E'; [|done].
    by apply str_in_spec.
  - intros [H1 H2]. apply str_in_false in H1. rewrite H1. cbn. apply flat_map_nil. intros d Hd.
    apply H2, str_in_spec in Hd. by rewrite Hd.
Qed.

Lemma validate_ok limit v p val :
  validate set_order limit v p = Ok val ->
  pv_valid val = true <->
  count_errors v p = [] /\ duplicate_errors p = [] /\ (forall s, s ∈ steps p -> tool_errors v s = []) /\
  (forall s, s ∈ steps p -> dependency_errors (map step_id (steps p)) s = []) /\
  detect_cycles set_order limit (steps p) = Ok [] /\ goal_errors p = [].
Proof.
  unfold validate. intros (cycles & Ec & [= <-])%res_bind_ok. cbn. rewrite negb_true_iff, list_true_false.
  rewrite Ec, <- !flat_map_nil. split.
  - intros (-> & (-> & (-> & (-> & (-> & ->)%app_eq_nil)%app_eq_nil)%app_eq_nil)%app_eq_nil)%app_eq_nil. done.
  - intros (-> & -> & -> & -> & [= ->] & ->). done.
Qed.

Lemma plan_ok_valid limit v p :
  (length (steps p) <= limit)%nat ->
  (exists val, validate set_order limit v p = Ok val /\ pv_valid val = true) <-> plan_ok v p.
Proof.
  intros Hlen. split.
  - intros (val & E & (H1 & H2 & H3 & H4 & H5 & H6)%(validate_ok _ _ _ _ E)).
    apply duplicate_errors_nil in H2. split; try done.
    + by apply count_errors_nil.
    + intros s tool Hs. apply (tool_errors_nil v s), H3, Hs.
    + intros s d Hs. apply (dependency_errors_nil (map step_id (steps p)) s), H4, Hs.
    + by apply (detect_cycles_spec limit).
    + unfold goal_errors in H6. apply str_true_spec. by destruct (str_true _).
  - intros [H1 H2 H3 H4 H5 H6].
    apply (detect_cycles_spec limit) in H5 as Hcyc; [|done..].
    assert (exists val, validate set_order limit v p = Ok val) as [val E].
    { unfold validate. rewrite Hcyc. cbn. eauto. }
    exists val. split; [done|]. apply (validate_ok _ _ _ _ E).
    split; [by apply count_errors_nil|]. split; [by apply duplicate_errors_nil|].
    split; [intros s Hs; apply tool_errors_nil; eauto|]. split; [|split; [done|]].
    + intros s Hs. apply dependency_errors_nil. split; [|eauto].
      intros Hd. apply (H5 (step_id s)). apply tc_once. exists s. eauto.
    + unfold goal_errors. apply str_true_spec in H6. by rewrite H6.
Qed.
End cycles.

(** ** Lemmas: the planner and the executor *)

Lemma first_attempt_ok f attempt n p : first_attempt f attempt n = Some p -> exists i, f i = Some p.
Proof.
  revert attempt. induction n as [|n IH]; intros attempt; cbn; [done|].
  destruct (f attempt) eqn:E; [|apply IH]. intros [= <-]. eauto.
Qed.

Lemma res_mapM_Forall {A B} (f : A -> result B) (Q : B -> Prop) l ys :
  (forall a b, f a = Ok b -> Q b) -> res_mapM f l = Ok ys -> forall y, y ∈ ys -> Q y.
Proof.
  intros Hf H%res_mapM_ok. induction H as [|x y l ys Hxy _ IH].
  - intros y H%elem_of_nil. done.
  - intros z [->|Hz]%elem_of_cons; eauto.
Qed.

Lemma step_of_json_fresh i v s : step_of_json i v = Ok s -> is_ready s = true /\ max_retries s = 1.
Proof.
  destruct v; try done. cbn.
  intros (? & _ & (? & _ & (? & _ & (? & _ & (? & _ & [= <-])%res_bind_ok)%res_bind_ok)%res_bind_ok)%res_bind_ok)%res_bind_ok.
  done.
Qed.

Lemma plan_of_json_fresh id g v p :
  plan_of_json id g v = Ok p ->
  plan_id p = id /\ goal p = g /\ forall s, s ∈ steps p -> is_ready s = true /\ max_retries s = 1.
Proof.
  destruct v as [| | | | | |data]; try done. cbn.
  intros (ss & Hss & (? & _ & (? & _ & (? & _ & [= <-])%res_bind_ok)%res_bind_ok)%res_bind_ok)%res_bind_ok.
  split; [done|]. split; [done|]. cbn. destruct (dget_or data "steps" (JArr [])); try done.
  by apply (res_mapM_Forall _ (fun s => is_ready s = true /\ max_retries s = 1) _ _
              (fun p s => step_of_json_fresh (fst p) (snd p) s) Hss).
Qed.

Lemma plan_attempt_ok set_order limit llm v id g prompt i p :
  plan_attempt set_order limit llm v id g prompt i = Some p ->
  plan_status p = PlanVALIDATED /\ plan_id p = id /\ goal p = g /\
  (exists val, validate set_order limit v p = Ok val /\ pv_valid val = true) /\
  forall s, s ∈ steps p -> is_ready s = true /\ max_retries s = 1.
Proof.
  unfold plan_attempt. intros H.
  destruct (res_bind _ _) as [r|e] eqn:E; [subst r|done].
  apply res_bind_ok in E as (p0 & Hgen & (val & Hval & [= E])%res_bind_ok).
  destruct (pv_valid val) eqn:Hv; [injection E as <-|done].
  unfold generate_plan in Hgen. apply res_bind_ok in Hgen as (raw & _ & Hgen).
  destruct (loads _) as [data|]; [|done]. apply plan_of_json_fresh in Hgen as (Hid & Hg & Hs).
  split; [done|]. split; [done|]. split; [done|]. split; [|done]. exists val. by split.
Qed.

(** ** Properties *)

(** C19: for any iteration order of the sets involved, the validator accepts
    a plan, without raising, exactly when the plan has between one and the maximum number
    of steps, distinct step ids, only known and permitted tools, only dependencies that
    are steps of the plan, no dependency cycle, and a goal. *)
Theorem plan_validation_correct set_order limit v p :
  (forall l, set_order l ≡ₚ l) -> (length (steps p) <= limit)%nat ->
  (exists val, validate set_order limit v p = Ok val /\ pv_valid val = true) <-> plan_ok v p.
Proof. intros Hperm. by apply plan_ok_valid. Qed.

Definition witness_step (id : string) (deps : list string) : PlanStep :=
  {| step_id := id; objective := "look"; tool_candidates := ["get_balance"]; dependencies := deps;
     risk_level := "low"; step_status := "pending"; max_retries := 1 |}.

Definition witness_plan (ss : list PlanStep) : ExecutionPlan :=
  {| plan_id := "p"; goal := "check"; assumptions := []; required_user_inputs := []; steps := ss;
     completion_criteria := []; max_replans := 2; plan_status := PlanDRAFT |}.

Definition witness_validator : PlanValidator :=
  {| vl_registry := None; vl_max_steps := 15; vl_forbidden := [] |}.

Lemma plan_validation_correct_witness :
  plan_ok witness_validator (witness_plan [witness_step "a" []; witness_step "b" ["a"]]).
Proof.
  apply (plan_validation_correct (fun l => l) 1000).
  - intros l. reflexivity.
  - vm_compute. lia.
  - eexists. split; [vm_compute; reflexivity|reflexivity].
Defined.

(** A cyclic plan is reported, or, when a later step depends on an abandoned search,
    the validator raises: which of the two depends on the order of a set. *)
Example cycle_report_ex :
  detect_cycles (fun l => l) 1000 [witness_step "c" ["a"]; witness_step "a" ["b"]; witness_step "b" ["a"]]
  = Ok ["Circular dependency: a → b → a"].
Proof. by vm_compute. Qed.

Example cycle_raise_ex :
  detect_cycles (@rev string) 1000 [witness_step "c" ["a"]; witness_step "a" ["b"]; witness_step "b" ["a"]]
  = Raise (ValueError "'a' is not in list").
Proof. by vm_compute. Qed.

(** whatever the model answers, the planner returns a rejected plan without
    steps, or a plan for the goal asked that passes every check of the validator and whose
    steps are all pending. *)
Theorem planner_plans_are_valid set_order limit llm registry retries uuid g context :
  (forall l, set_order l ≡ₚ l) -> (15 <= limit)%nat ->
  let p := plan set_order limit llm registry retries uuid g context in
  (plan_status p = PlanREJECTED /\ steps p = [] \/
   plan_status p = PlanVALIDATED /\ plan_ok (default_validator registry) p) /\
  plan_id p = take_str 8 uuid /\ goal p = g /\
  forall s, s ∈ steps p -> is_ready s = true /\ max_retries s = 1.
Proof.
  intros Hperm Hlim. cbn zeta. unfold plan.
  destruct (first_attempt _ _ _) as [p|] eqn:E; cbn [default].
  - apply first_attempt_ok in E as (i & (Hst & Hid & Hg & (val & Hval & Hv) & Hs)%plan_attempt_ok).
    split; [right; split; [done|]|done]. apply (plan_ok_valid set_order Hperm limit); [|eauto].
    apply (validate_ok _ _ _ _ _ Hval) in Hv as (Hc%count_errors_nil & _).
    unfold plan_step_count in Hc. cbn in Hc |- *. lia.
  - split; [by left|]. split; [done|]. split; [done|]. by intros s H%elem_of_nil.
Qed.

Lemma planner_plans_are_valid_witness :
  let p := plan (fun l => l) 1000 (fun _ _ => Raise JSONDecodeError) None 3 "0123456789" "pay rent" "" in
  (plan_status p = PlanREJECTED /\ steps p = [] \/
   plan_status p = PlanVALIDATED /\ plan_ok (default_validator None) p) /\
  plan_id p = take_str 8 "0123456789" /\ goal p = "pay rent" /\
  forall s, s ∈ steps p -> is_ready s = true /\ max_retries s = 1.
Proof.
  apply (planner_plans_are_valid (fun l => l) 1000); [intros l; reflexivity|].
  apply Nat.leb_le. vm_compute. reflexivity.
Defined.

(** The prompt asks for at most ten steps, each depending on earlier ones only; a plan of eleven
    steps whose first depends on its second is accepted. *)
Lemma prompt_limits_not_enforced :
  let step i := JObj [("step_id", JStr (str_of_Z i)); ("objective", JStr "pay");
                      ("dependencies", JArr (if i =? 1 then [JStr "2"] else []))] in
  let answer := dumps false (JObj [("steps", JArr (map step (seqZ 1 11)))]) in
  let p := plan (fun l => l) 1000 (fun _ _ => Ok answer) None 3 "0123456789" "pay rent" "" in
  plan_status p = PlanVALIDATED /\ length (steps p) = 11%nat /\ map dependencies (firstn 1 (steps p)) = [["2"]].
Proof. vm_compute. auto. Qed.

(** executing a step calls the server at most once, with the first
    candidate and the arguments given, and only for a pending step whose operation the
    gateway did not deny; an operation left PENDING is executed like an approved one. *)
Theorem execute_step_calls {P} `{AuthorizationPolicy P} registry p s args (gw : AuthorizationGateway P)
    now mcp w :
  w_calls (snd (run now mcp (execute_step registry p s args gw) w))
  = w_calls w ++
    match tool_candidates s with
    | tool :: _ =>
        match gw_authorize now
                {| op_kind := step_kind registry tool; op_name := tool;
                   op_target := "step:" +:+ step_id s;
                   op_details := [("args", JObj args); ("plan_id", JStr (plan_id p))] |} gw with
        | Ok (d, _) =>
            if is_ready s && negb (bool_decide (ad_decision d = DENIED))
            then [{| tc_name := tool; tc_arguments := JObj args |}] else []
        | Raise _ => []
        end
    | [] => []
    end.
Proof.
  unfold execute_step, is_ready. destruct (String.eqb (step_status s) "pending"); cbn.
  2:{ destruct (tool_candidates s); [by rewrite app_nil_r|].
      destruct (gw_authorize _ _ _) as [[d g']|e]; cbn; by rewrite app_nil_r. }
  destruct (tool_candidates s) as [|tool ts]; [cbn; by rewrite app_nil_r|]. cbn.
  destruct (gw_authorize _ _ _) as [[d g']|e]; [|cbn; by rewrite app_nil_r]. cbn.
  destruct (ad_decision d); cbn; try by rewrite app_nil_r.
  all: destruct (mcp _) as [r|e]; [|done]; by destruct (tr_success r).
Qed.

(** No criterion, plan or risk level makes a failed step pass, and the
    failure of a step that is critical never leads to a silent abort. *)
Theorem verifier_never_overrides_failure s r p :
  (vr_passed (verify s r p) = true -> sr_success r = true) /\
  (vr_passed (verify s r p) = true <-> vr_action (verify s r p) = Continue) /\
  (sr_success r = false -> risk_level s = "critical" -> vr_action (verify s r p) <> AbortPlan).
Proof.
  unfold verify, next_action_for_failure, verdict. split; [|split].
  - by destruct (sr_success r).
  - destruct (sr_success r); cbn; [|repeat case_match; by split].
    repeat case_match; by split.
  - intros -> ->. cbn. by destruct (_ >? _).
Qed.
