(* ===== verification/Security.v ===== *)
(** Identity and resource access: the trusted request context
    ([security/context.py]), the middleware that fills it ([auth_middleware.py]), the
    roles and permissions ([iam.py]) and the tenant, role and composite policies
    ([security/authorization.py]).

    Request headers are a lookup function, as Starlette gives it. *)
From S2P Require Import Prelude PyStr.

(** ** Context *)

Record TrustedRequestContext : Type := {
  subject_id : string;
  tenant_id : string;
  roles : gset string;
  scopes : gset string;
  account_ids : gset string;
  auth_session_id : string;
  token_id : string;
  issuer : string;
  request_id : string;
  correlation_id : string;
  source : string;
}.

Definition context_of (subject tenant : string) (rs : gset string) (session request src : string)
    : TrustedRequestContext :=
  {| subject_id := subject; tenant_id := tenant; roles := rs; scopes := ∅; account_ids := ∅;
     auth_session_id := session; token_id := ""; issuer := ""; request_id := request;
     correlation_id := ""; source := src |}.

Definition has_role (c : TrustedRequestContext) (role : string) : bool := bool_decide (role ∈ roles c).

Definition can_access_account (c : TrustedRequestContext) (account : string) : bool :=
  if bool_decide (account_ids c = ∅) then true else bool_decide (account ∈ account_ids c).

Definition is_same_tenant (c : TrustedRequestContext) (other : string) : bool :=
  String.eqb (tenant_id c) other.

Definition to_injection_dict (c : TrustedRequestContext) : list (string * string) :=
  [("user_id", subject_id c); ("tenant_id", tenant_id c)].

Definition ANONYMOUS_CONTEXT : TrustedRequestContext :=
  context_of "anonymous" "default" ∅ "" "" "none".

(** ** Middleware *)

Definition Headers : Type := string -> option string.

Definition resolve_development (h : Headers) (correlation : option string) : TrustedRequestContext :=
  context_of (default "default" (h "X-User-Id")) (default "default" (h "X-Tenant-Id"))
    (list_to_set (split_char ","%char (default "customer" (h "X-User-Roles"))))
    (default "" (h "X-Session-Id")) (default "" correlation) "development-header".

Definition resolve_production (h : Headers) : TrustedRequestContext :=
  if startswith (default "" (h "Authorization")) "Bearer "
  then context_of "authenticated-user" "default" ∅ "" "" "oidc"
  else ANONYMOUS_CONTEXT.

(** [dispatch]: the context stored in [request.state]. *)
Definition auth_dispatch (production : bool) (h : Headers) (correlation : option string)
    : TrustedRequestContext :=
  if production then resolve_production h else resolve_development h correlation.

Definition get_trusted_context (state : option TrustedRequestContext) : TrustedRequestContext :=
  default ANONYMOUS_CONTEXT state.

(** ** Roles and permissions *)

Inductive Role : Type :=
  | CUSTOMER | BANKING_OFFICER | APPROVER | COMPLIANCE_OFFICER | ADMIN | AUDITOR | SYSTEM.

#[export] Instance Role_eq_dec : EqDecision Role.
Proof. solve_decision. Defined.

Definition role_value (r : Role) : string :=
  match r with
  | CUSTOMER => "customer" | BANKING_OFFICER => "banking_officer" | APPROVER => "approver"
  | COMPLIANCE_OFFICER => "compliance_officer" | ADMIN => "admin" | AUDITOR => "auditor"
  | SYSTEM => "system"
  end.

Definition all_roles : list Role :=
  [CUSTOMER; BANKING_OFFICER; APPROVER; COMPLIANCE_OFFICER; ADMIN; AUDITOR; SYSTEM].

Inductive Permission : Type :=
  | ACCOUNT_READ | ACCOUNT_READ_OWN
  | P_TRANSFER_CREATE | P_TRANSFER_SUBMIT | P_TRANSFER_CANCEL | TRANSFER_READ
  | BENEFICIARY_READ
  | AUDIT_READ | USER_MANAGE | REPORT_SUSPICIOUS
  | APPROVE_LOW_RISK | APPROVE_HIGH_RISK | APPROVE_CRITICAL.

#[export] Instance Permission_eq_dec : EqDecision Permission.
Proof. solve_decision. Defined.

Definition permission_value (p : Permission) : string :=
  match p with
  | ACCOUNT_READ => "account:read" | ACCOUNT_READ_OWN => "account:read_own"
  | P_TRANSFER_CREATE => "transfer:create" | P_TRANSFER_SUBMIT => "transfer:submit"
  | P_TRANSFER_CANCEL => "transfer:cancel" | TRANSFER_READ => "transfer:read"
  | BENEFICIARY_READ => "beneficiary:read" | AUDIT_READ => "audit:read"
  | USER_MANAGE => "user:manage" | REPORT_SUSPICIOUS => "report:suspicious"
  | APPROVE_LOW_RISK => "approve:low_risk" | APPROVE_HIGH_RISK => "approve:high_risk"
  | APPROVE_CRITICAL => "approve:critical"
  end.

(** [permission in ROLE_PERMISSIONS\[role\]]; the system role has every permission. *)
Definition ROLE_PERMISSIONS (r : Role) (p : Permission) : bool :=
  match r with
  | CUSTOMER =>
      bool_decide (p ∈ [ACCOUNT_READ_OWN; P_TRANSFER_CREATE; P_TRANSFER_CANCEL; TRANSFER_READ;
                        BENEFICIARY_READ; REPORT_SUSPICIOUS])
  | BANKING_OFFICER =>
      bool_decide (p ∈ [ACCOUNT_READ; P_TRANSFER_CREATE; P_TRANSFER_SUBMIT; P_TRANSFER_CANCEL;
                        TRANSFER_READ; BENEFICIARY_READ; APPROVE_LOW_RISK; REPORT_SUSPICIOUS])
  | APPROVER =>
      bool_decide (p ∈ [ACCOUNT_READ; TRANSFER_READ; APPROVE_LOW_RISK; APPROVE_HIGH_RISK;
                        APPROVE_CRITICAL])
  | COMPLIANCE_OFFICER =>
      bool_decide (p ∈ [ACCOUNT_READ; TRANSFER_READ; AUDIT_READ; REPORT_SUSPICIOUS; APPROVE_CRITICAL])
  | ADMIN => bool_decide (p ∈ [ACCOUNT_READ; TRANSFER_READ; AUDIT_READ; USER_MANAGE])
  | AUDITOR => bool_decide (p ∈ [AUDIT_READ])
  | SYSTEM => true
  end.

Definition has_permission (rs : list Role) (p : Permission) : bool :=
  existsb (fun r => ROLE_PERMISSIONS r p) rs.

(** ** Policies *)

Record ResourceAttributes : Type := {
  resource_type : string;
  resource_id : string;
  resource_tenant_id : string;
  owner_subject_id : string;
  resource_risk_level : string;
  resource_side_effect : bool;
}.

Record AuthzDecision : Type := { allowed : bool; az_reason : string; error_code : string }.

Definition deny (reason code : string) : AuthzDecision :=
  {| allowed := false; az_reason := reason; error_code := code |}.
Definition allow (reason : string) : AuthzDecision :=
  {| allowed := true; az_reason := reason; error_code := "" |}.

(** The [authorize] method of a policy. *)
Notation Policy := (TrustedRequestContext -> ResourceAttributes -> string -> AuthzDecision).

Definition tenant_scoped : Policy := fun c r _ =>
  if str_true (resource_tenant_id r) && negb (String.eqb (tenant_id c) (resource_tenant_id r))
  then deny "Cross-tenant access denied" "CROSS_TENANT_DENIED"
  else if String.eqb (resource_type r) "account" && str_true (owner_subject_id r)
          && negb (String.eqb (subject_id c) (owner_subject_id r))
          && negb (has_role c "banking_officer")
  then deny "Account access denied" "ACCOUNT_ACCESS_DENIED"
  else if String.eqb (resource_risk_level r) "critical" && negb (has_role c "approver")
  then deny "Critical operation requires approver role" "INSUFFICIENT_ROLE"
  else allow ("Access granted to " +:+ subject_id c).

Definition action_to_permission (action : string) : option Permission :=
  oget [("read_account", ACCOUNT_READ); ("read_own_account", ACCOUNT_READ_OWN);
        ("create_transfer", P_TRANSFER_CREATE); ("submit_transfer", P_TRANSFER_SUBMIT);
        ("cancel_transfer", P_TRANSFER_CANCEL); ("read_transfer", TRANSFER_READ);
        ("read_beneficiary", BENEFICIARY_READ); ("audit_read", AUDIT_READ);
        ("report_suspicious", REPORT_SUSPICIOUS); ("approve_low_risk", APPROVE_LOW_RISK);
        ("approve_high_risk", APPROVE_HIGH_RISK); ("approve_critical", APPROVE_CRITICAL)] action.

(** The roles of the enumeration among the strings of the context. *)
Definition valid_roles (c : TrustedRequestContext) : list Role :=
  List.filter (fun r => has_role c (role_value r)) all_roles.

Definition rbac : Policy := fun c _ action =>
  if negb (list_true (valid_roles c)) then deny "No valid roles" "NO_ROLES"
  else
    match action_to_permission action with
    | None => deny ("Unknown action: " +:+ action) "UNKNOWN_ACTION"
    | Some p =>
        if has_permission (valid_roles c) p
        then allow ("Permission " +:+ permission_value p +:+ " granted")
        else deny ("Missing permission: " +:+ permission_value p) "INSUFFICIENT_PERMISSION"
    end.

Fixpoint composite (ps : list Policy) : Policy := fun c r action =>
  match ps with
  | [] => allow "All policies passed"
  | p :: ps' => let d := p c r action in if negb (allowed d) then d else composite ps' c r action
  end.

(** ** Lemmas *)

Lemma composite_allows ps c r action :
  allowed (composite ps c r action) = true <-> forall p : Policy, p ∈ ps -> allowed (p c r action) = true.
Proof.
  induction ps as [|p ps IH]; cbn.
  - split; [intros _ p H; by apply elem_of_nil in H|done].
  - destruct (allowed (p c r action)) eqn:E; cbn.
    + rewrite IH. split; [intros H q [->|Hq]%elem_of_cons; auto|intros H q Hq; apply H; by right].
    + rewrite E. split; [done|]. intros H. rewrite <- E. apply H. by left.
Qed.

Lemma tenant_scoped_allows c r action :
  allowed (tenant_scoped c r action) = true <->
  (resource_tenant_id r <> "" -> tenant_id c = resource_tenant_id r) /\
  (resource_type r = "account" -> owner_subject_id r <> "" ->
     subject_id c = owner_subject_id r \/ "banking_officer" ∈ roles c) /\
  (resource_risk_level r = "critical" -> "approver" ∈ roles c).
Proof.
  unfold tenant_scoped, has_role, str_true.
  destruct (String.eqb_spec (resource_tenant_id r) ""), (String.eqb_spec (tenant_id c) (resource_tenant_id r)),
    (String.eqb_spec (resource_type r) "account"), (String.eqb_spec (owner_subject_id r) ""),
    (String.eqb_spec (subject_id c) (owner_subject_id r)),
    (String.eqb_spec (resource_risk_level r) "critical"); cbn;
    repeat case_bool_decide; cbn; split; try done; tauto.
Qed.

Lemma valid_roles_elem c r : r ∈ valid_roles c <-> role_value r ∈ roles c.
Proof.
  unfold valid_roles. rewrite list_elem_of_In, filter_In. unfold has_role. rewrite bool_decide_eq_true.
  split; [by intros []|]. intros H. split; [|done]. destruct r; cbn; tauto.
Qed.

Lemma rbac_allows c r action :
  allowed (rbac c r action) = true <->
  exists role p, role_value role ∈ roles c /\ action_to_permission action = Some p /\
    ROLE_PERMISSIONS role p = true.
Proof.
  unfold rbac. split.
  - destruct (list_true _); cbn [negb allowed deny]; [|done].
    destruct (action_to_permission action) as [p|]; cbn [allowed deny]; [|done].
    destruct (has_permission _ p) eqn:E; cbn [allowed deny]; [|done]. intros _.
    apply existsb_exists in E as (role & Hr & Hp). exists role, p.
    by rewrite <- valid_roles_elem, list_elem_of_In.
  - intros (role & p & Hr%valid_roles_elem & -> & Hp).
    assert (has_permission (valid_roles c) p = true) as ->.
    { apply existsb_exists. exists role. by rewrite <- list_elem_of_In. }
    destruct (valid_roles c); [by apply elem_of_nil in Hr|done].
Qed.

(** ** Properties *)

(** the tenant policy followed by the role policy lets a request through
    exactly when the resource belongs to no tenant or to the caller's, an owned account is
    the caller's or the caller is a banking officer, a critical resource meets an approver,
    and one of the caller's known roles has the permission the action stands for. *)
Theorem composite_access_exact c r action :
  allowed (composite [tenant_scoped; rbac] c r action) = true <->
  ((resource_tenant_id r <> "" -> tenant_id c = resource_tenant_id r) /\
   (resource_type r = "account" -> owner_subject_id r <> "" ->
      subject_id c = owner_subject_id r \/ "banking_officer" ∈ roles c) /\
   (resource_risk_level r = "critical" -> "approver" ∈ roles c)) /\
  exists role p, role_value role ∈ roles c /\ action_to_permission action = Some p /\
    ROLE_PERMISSIONS role p = true.
Proof.
  rewrite composite_allows. split.
  - intros H. split; [apply (tenant_scoped_allows _ _ action)|apply (rbac_allows _ r)]; apply H.
    + by left.
    + right; by left.
  - intros [Ht Hr] p [->|[->|H%elem_of_nil]%elem_of_cons]%elem_of_cons; [| |done].
    + by apply tenant_scoped_allows.
    + by apply rbac_allows.
Qed.

(** No single role other than the system one can both submit a transfer
    and approve a critical operation, customers can do neither, and administrators and
    auditors can move no money at all. *)
Theorem separation_of_duties role :
  role <> SYSTEM ->
  ~ (has_permission [role] P_TRANSFER_SUBMIT = true /\ has_permission [role] APPROVE_CRITICAL = true) /\
  (role = CUSTOMER -> has_permission [role] P_TRANSFER_SUBMIT = false /\
                      has_permission [role] APPROVE_CRITICAL = false) /\
  (role = ADMIN \/ role = AUDITOR ->
   forall p, has_permission [role] p = true ->
     p ∈ [ACCOUNT_READ; TRANSFER_READ; AUDIT_READ; USER_MANAGE]).
Proof.
  intros Hr. split; [|split].
  - destruct role; vm_compute; naive_solver.
  - by intros ->.
  - intros [-> | ->] p; destruct p; vm_compute; intros H; try done; repeat constructor.
Qed.

Lemma separation_of_duties_witness :
  ~ (has_permission [BANKING_OFFICER] P_TRANSFER_SUBMIT = true /\
     has_permission [BANKING_OFFICER] APPROVE_CRITICAL = true) /\
  (BANKING_OFFICER = CUSTOMER -> has_permission [BANKING_OFFICER] P_TRANSFER_SUBMIT = false /\
                      has_permission [BANKING_OFFICER] APPROVE_CRITICAL = false) /\
  (BANKING_OFFICER = ADMIN \/ BANKING_OFFICER = AUDITOR ->
   forall p, has_permission [BANKING_OFFICER] p = true ->
     p ∈ [ACCOUNT_READ; TRANSFER_READ; AUDIT_READ; USER_MANAGE]).
Proof. apply (separation_of_duties BANKING_OFFICER). discriminate. Defined.

(** In production mode every header that starts with the bearer prefix is
    given the same authenticated identity, whatever token follows; in development mode a
    request without identity headers is the user called default, not the anonymous one. *)
Theorem middleware_identity h correlation token :
  (h "Authorization" = Some ("Bearer " +:+ token) ->
   subject_id (auth_dispatch true h correlation) = "authenticated-user") /\
  (h "X-User-Id" = None -> subject_id (auth_dispatch false h correlation) = "default").
Proof.
  split; intros H; unfold auth_dispatch, resolve_production, resolve_development; rewrite H; cbn; [|done].
  by destruct token.
Qed.
