(* ===== verification/Records.v ===== *)
(** Data that modules declare and no operation of the program uses: service states, objectives and
    drills ([reliability.py]), red-team results ([ai_security.py]), rollout and incident records ([agentops.py]), approval and
    tenant settings ([iam.py]), conversation summaries ([memory/models.py]), storage settings
    ([storage.py]) and the logging pipeline ([logging.py]); and the signal of a pending
    approval ([hitl_signal.py]), which nothing raises. *)
From S2P Require Import Prelude PyStr PyFloat PyTime Json Security.

(** A decimal literal whose numerator and denominator are exact: the quotient is rounded once. *)
Definition decimal (n d : Z) : f64 := f_div (f_of_Z n) (f_of_Z d).

(** ** Reliability *)

Inductive ServiceState : Type := HEALTHY | DEGRADED | READ_ONLY | UNAVAILABLE.

Record SLO : Type := {
  slo_name : string;
  target_percent : f64;
  measurement_window_days : Z;
  current_value : option f64;
}.

Definition slo (name : string) (target : f64) : SLO :=
  {| slo_name := name; target_percent := target; measurement_window_days := 30; current_value := None |}.

Definition DEFAULT_SLOS : list SLO :=
  [slo "api_availability" (decimal 999 10); slo "read_task_success_rate" (decimal 995 10);
   slo "write_task_exactly_once_rate" (decimal 9999 100); slo "approval_resume_success_rate" (decimal 999 10);
   slo "p95_latency_ms" (decimal 950 10); slo "audit_event_loss_rate" (decimal 1 100)].

Record ReconciliationTask : Type := {
  task_id : string;
  rt_idempotency_key : string;
  rt_tool_name : string;
  rt_session_id : string;
  rt_created_at : string;
  retry_count : Z;
  max_retries : Z;
  resolved : bool;
  resolution : string;
}.

Definition new_task (id key tool : string) : ReconciliationTask :=
  {| task_id := id; rt_idempotency_key := key; rt_tool_name := tool; rt_session_id := ""; rt_created_at := "";
     retry_count := 0; max_retries := 5; resolved := false; resolution := "" |}.

(** Names and descriptions. *)
Definition CHAOS_SCENARIOS : list (string * string) :=
  [("llm_provider_timeout", "LLM returns 429/500 — circuit breaker opens, fallback model used");
   ("tool_gateway_timeout", "MCP tool call times out — UNKNOWN outcome, reconciliation queued");
   ("postgres_failover", "Primary PostgreSQL fails — reads continue from replica, writes queued");
   ("redis_unavailable", "Redis down — rate limits and cache gracefully degraded");
   ("crash_before_approval", "Pod crashes after interrupt, before HITL — resume from checkpoint");
   ("crash_after_approval", "Pod crashes after approval dispatch — idempotency prevents double execution");
   ("duplicate_webhook", "Same webhook delivered twice — idempotency key deduplication");
   ("clock_skew", "System clock jumps — timestamps still monotonically ordered in audit")].

(** ** Red team *)

(** The result of a red-team case ([ai_security.py]). *)
Record RedTeamResult : Type := {
  rr_case_id : string;
  rr_passed : bool;
  rr_actual_response : string;
  rr_tool_called : string;
  rr_details_leaked : list string;
}.

Definition new_red_team_result (case : string) : RedTeamResult :=
  {| rr_case_id := case; rr_passed := false; rr_actual_response := ""; rr_tool_called := ""; rr_details_leaked := [] |}.

(** ** Rollout and incidents *)

Inductive TrafficMode : Type := OFFLINE | SHADOW | INTERNAL_PILOT | CANARY | FULL_ROLLOUT.

Record TrafficPolicy : Type := {
  mode : TrafficMode;
  candidate_percent : f64;
  tenant_allowlist : list string;
  write_kill_switch : bool;
}.

Definition default_traffic : TrafficPolicy :=
  {| mode := OFFLINE; candidate_percent := f_zero; tenant_allowlist := []; write_kill_switch := false |}.

Record CostReport : Type := {
  cr_task_id : string;
  cr_model : string;
  cr_input_tokens : Z;
  cr_output_tokens : Z;
  cr_tool_calls : Z;
  cr_duration_ms : f64;
  estimated_cost_usd : f64;
  cache_hit : bool;
}.

Definition new_cost (id : string) : CostReport :=
  {| cr_task_id := id; cr_model := ""; cr_input_tokens := 0; cr_output_tokens := 0; cr_tool_calls := 0;
     cr_duration_ms := f_zero; estimated_cost_usd := f_zero; cache_hit := false |}.

Record IncidentRecord : Type := {
  incident_id : string;
  severity : string;
  title : string;
  timeline : list string;
  kill_switch_activated : bool;
  rollback_target : string;
  ir_resolved : bool;
  postmortem_url : string;
}.

Definition new_incident (id : string) : IncidentRecord :=
  {| incident_id := id; severity := "low"; title := ""; timeline := []; kill_switch_activated := false;
     rollback_target := ""; ir_resolved := false; postmortem_url := "" |}.

(** ** Approval and tenant settings *)

Record ApprovalRequirement : Type := {
  required_count : Z;
  distinct_from_requester : bool;
  required_roles : list Role;
  require_different_roles : bool;
  ttl_minutes : Z;
}.

Definition default_requirement : ApprovalRequirement :=
  {| required_count := 1; distinct_from_requester := true; required_roles := [APPROVER; BANKING_OFFICER];
     require_different_roles := false; ttl_minutes := 30 |}.

Record TenantConfig : Type := {
  tc_tenant_id : string;
  tc_tenant_name : string;
  isolation_mode : string;
  rate_limit_per_minute : Z;
  max_concurrent_sessions : Z;
  allowed_currencies : list string;
  jurisdiction : string;
  data_residency : string;
}.

Definition new_tenant (id : string) : TenantConfig :=
  {| tc_tenant_id := id; tc_tenant_name := ""; isolation_mode := "shared"; rate_limit_per_minute := 60;
     max_concurrent_sessions := 10; allowed_currencies := ["USD"]; jurisdiction := ""; data_residency := "" |}.

(** ** Conversation summaries *)

Record ConversationSummary : Type := {
  user_goal : string;
  confirmed_facts : dict;
  unresolved_questions : list string;
  completed_actions : list string;
  denied_actions : list string;
  references : list string;
  cs_version : Z;
  cs_created_at : string;
}.

Definition new_summary (now : Z) : ConversationSummary :=
  {| user_goal := ""; confirmed_facts := []; unresolved_questions := []; completed_actions := []; denied_actions := [];
     references := []; cs_version := 1; cs_created_at := isoformat now |}.

(** ** Storage settings *)

Inductive StorageBackend : Type := SQLITE | POSTGRESQL | REDIS.

Record StorageConfig : Type := {
  backend : StorageBackend;
  url : string;
  pool_size : Z;
  pool_timeout_seconds : Z;
  echo : bool;
}.

Definition default_storage : StorageConfig :=
  {| backend := SQLITE; url := "sqlite:///./data/agent.db"; pool_size := 5; pool_timeout_seconds := 30; echo := false |}.

(** ** Logging *)

(** The processors of structlog, in the order an event passes them. *)
Inductive Processor : Type :=
  | merge_contextvars
  | add_log_level
  | TimeStamper (fmt : string)
  | dict_tracebacks
  | JSONRenderer
  | ConsoleRenderer.

Definition shared_processors : list Processor := [merge_contextvars; add_log_level; TimeStamper "iso"].

Definition configure_logging (json_format : bool) : list Processor :=
  shared_processors ++ (if json_format then [dict_tracebacks; JSONRenderer] else [ConsoleRenderer]).

(** ** The signal of a pending approval *)

Record HITLPending : Type := {
  hp_tool_name : string;
  hp_tool_args : dict;
  hp_tool_call_id : string;
  hp_session_id : string;
  hp_thread_id : string;
  hp_idempotency_key : string;
}.

Definition hitl_message (p : HITLPending) : string :=
  "HITLPending(tool=" +:+ hp_tool_name p +:+ ", session=" +:+ hp_session_id p +:+ ", idem="
  +:+ (if str_true (hp_idempotency_key p) then String.substring 0 16 (hp_idempotency_key p) else "none") +:+ ")".

(** ** Lemmas *)

(** Both renderings end in exactly one renderer and time every event. *)
Lemma logging_renders_last b :
  TimeStamper "iso" ∈ configure_logging b /\
  exists ps r, configure_logging b = ps ++ [r] /\ (r = JSONRenderer \/ r = ConsoleRenderer) /\
    JSONRenderer ∉ ps /\ ConsoleRenderer ∉ ps.
Proof.
  split; [destruct b; set_solver|].
  destruct b; [exists (shared_processors ++ [dict_tracebacks]), JSONRenderer|exists shared_processors, ConsoleRenderer];
    (split; [done|]; split; [tauto|]; split; unfold shared_processors; set_solver).
Qed.

(** A target is called a success rate; that of lost audit events admits losing all but one in
    ten thousand of them when it is read as one. *)
Lemma loss_target_is_no_success_rate :
  Forall (fun s => f_lt (decimal 90 1) (target_percent s) = bool_decide (slo_name s <> "audit_event_loss_rate")) DEFAULT_SLOS.
Proof. repeat constructor. Qed.
