(* ===== verification/Runtime.v ===== *)
(** The agent runtime ([agent.py]): a request is routed, and answered directly by one
    tool, by the planner, from retrieved documents, by the transfer workflow, or by the
    agent graph; plus the resume service ([resume_service.py]).

    The models are parameters, as in the graph and the planner; so is [retriever], the
    attribute the RAG route looks up.  The thread of a run is taken to be new.  The
    gateway's audit trail is threaded through a run and not returned.  Logging is
    left out; what the shared metrics do to runs that overlap is in Runs. *)
From S2P Require Import Prelude PyStr PyFloat PyTime Json PyRepr Auth Tools.
From S2P Require Import HitlStore GrantRepo IdempotencyStore EventStore Effects Graph.
From S2P Require Import Approval Routing Orchestration Security.

#[local] Open Scope prog_scope.

Definition IDENTITY_TOOLS : list string :=
  ["get_account_summary"; "get_balance"; "list_transactions"; "create_transfer_draft";
   "submit_transfer"; "cancel_transfer"; "report_suspicious_transaction"].

(** The dictionary [run] returns. *)
Record RunResult : Type := {
  rr_interrupt : option json;
  rr_session_id : string;
  rr_final_answer : option string;
  rr_step_count : Z;
  rr_status : option string;
}.

Definition reply (session answer : string) (steps : Z) (status : option string) : RunResult :=
  {| rr_interrupt := None; rr_session_id := session; rr_final_answer := Some answer;
     rr_step_count := steps; rr_status := status |}.

Definition is_runtime_error (e : exn) : bool :=
  match e with RuntimeError _ | RecursionError _ | HITLConfigurationError _ => true | _ => false end.

(** [args\[k\] = v] *)
Definition set_item (k : string) (v args : json) : result json :=
  match args with
  | JObj d => Ok (JObj (dset d k v))
  | _ => Raise (TypeError ("'" +:+ type_name args +:+ "' object does not support item assignment"))
  end.

Definition message_content (m : Message) : string :=
  match m with
  | SystemMessage c | HumanMessage c | AIMessage c _ | ToolMessage c _ _ => c
  end.

Definition initial_state (run_id user_message : string) : AgentState :=
  {| as_messages := [HumanMessage user_message]; as_final_answer := None; as_step_count := 0;
     as_session_id := Some run_id; as_executed := ∅ |}.

Section runtime.
Context {P : Type} `{AuthorizationPolicy P}.
Context (registry : option ToolRegistry) (durable has_events : bool) (max_agent_steps : Z).
Context (llm : list Message -> option (list json) -> result (string * list ToolRequest)).
Context (plan_llm : nat -> list Message -> result string).
Context (retriever : option (string -> result (list (string * string)))).
Context (set_order : list string -> list string) (recursion_limit : nat).

Definition persist (run_id : string) (seq : Z) (kind : EventKind) (payload : json) : prog unit :=
  if has_events then perform (OEvent run_id seq kind payload) else Ret tt.

Definition persist_answer (run_id : string) (seq : Z) (answer : option string) : prog unit :=
  persist run_id seq AGENT_MESSAGE
    (JObj [("final_answer", match answer with Some s => JStr s | None => JNull end)]).

(** ** The direct route *)

Definition auth_required (run_id : string) : RunResult :=
  reply run_id "Authentication is required for this operation." 1 (Some "auth_required").

Definition direct_prompt (tool : string) : string :=
  "You are a banking assistant. Extract the required parameters for the tool '" +:+ tool
  +:+ "' from the user's request. Do NOT include user_id or tenant_id — these are handled by the system. "
  +:+ "Respond with ONLY a JSON object. Do not add any other text.".

(** The block of JSON in an answer: the code is that of the planner's. *)
Definition extract_json_block (text : string) : string := extract_json text.

(** The arguments the model extracts. *)
Definition direct_args (tool user_message : string) : result json :=
  let* (content, _) := llm [SystemMessage (direct_prompt tool); HumanMessage user_message] None in
  loads (extract_json_block (strip content)).

(** The identity fields are set by the server, whatever the model wrote. *)
Definition inject_identity (tool : string) (ctx : option TrustedRequestContext) (args : json) : result json :=
  match ctx with
  | Some c =>
      if str_in tool IDENTITY_TOOLS then
        let* a := set_item "user_id" (JStr (subject_id c)) args in
        set_item "tenant_id" (JStr (tenant_id c)) a
      else Ok args
  | None => Ok args
  end.

Definition unauthenticated (ctx : option TrustedRequestContext) : bool :=
  match ctx with None => true | Some c => str_in (subject_id c) ["anonymous"; ""] end.

Definition execute_direct (suggested : list string) (run_id user_message : string)
    (ctx : option TrustedRequestContext) : prog (option RunResult) :=
  match suggested with
  | [] => Ret None
  | tool :: _ =>
      if str_in tool IDENTITY_TOOLS && unauthenticated ctx then Ret (Some (auth_required run_id))
      else
        match direct_args tool user_message with
        | Raise _ =>
            Ret (Some (reply run_id
              ("I had trouble understanding your request. Could you rephrase it "
               +:+ "with the specific account or details you're asking about?") 1 (Some "error_recovery")))
        | Ok args0 =>
            do args <- lift (inject_identity tool ctx args0) ;;
            do r <- performE (ODispatch {| tc_name := tool; tc_arguments := args |}) ;;
            let final := if tr_success r then tr_content r
                         else "Error: " +:+ default "None" (tr_error r) in
            do_ persist_answer run_id 2 (Some final) ;;
            Ret (Some (reply run_id final 1 None))
        end
  end.

(** ** The planner route *)

Fixpoint run_steps (p : ExecutionPlan) (run_id : string) (ss : list PlanStep) (results : list StepResult)
    (gw : AuthorizationGateway P) : prog (RunResult + list StepResult) :=
  match ss with
  | [] => Ret (inr results)
  | s :: ss' =>
      do r <- execute_step registry p s [] gw ;;
      let v := verify s (fst r) (Some p) in
      if negb (vr_passed v) then
        if bool_decide (vr_action v = Retry) && (max_retries s >? 0) then
          do r2 <- execute_step registry p s [] (snd r) ;;
          run_steps p run_id ss' (results ++ [fst r2]) (snd r2)
        else if bool_decide (vr_action v = AbortPlan \/ vr_action v = AskUser) then
          Ret (inl (reply run_id ("Step '" +:+ objective s +:+ "' failed: " +:+ vr_reason v)
                      (Z.of_nat (length results) + 1) None))
        else run_steps p run_id ss' (results ++ [fst r]) (snd r)
      else run_steps p run_id ss' (results ++ [fst r]) (snd r)
  end.

Definition plan_summary (results : list StepResult) : string :=
  join "
" (map (fun r => "- " +:+ take_str 200 (sr_output r)) (List.filter sr_success results)).

Definition execute_planner (max_steps : option Z) (uuid run_id user_message : string)
    (gw : AuthorizationGateway P) : prog (option RunResult) :=
  let p := plan set_order recursion_limit plan_llm registry 3 uuid user_message "" in
  if bool_decide (plan_status p = PlanREJECTED)
  then Ret (Some (reply run_id
         "I could not create a valid plan for this request. Could you rephrase?" 0 None))
  else
    do val <- lift (validate set_order recursion_limit
                      {| vl_registry := registry;
                         vl_max_steps := (match max_steps with
                                          | Some n => if n =? 0 then 15 else n | None => 15 end);
                         vl_forbidden := [] |} p) ;;
    if negb (pv_valid val)
    then Ret (Some (reply run_id ("I'm unable to process this request: " +:+ pv_reason val) 0 None))
    else
      do_ persist run_id 1 CHECKPOINT
            (JObj [("kind", JStr "PLAN_CREATED"); ("plan_id", JStr (plan_id p));
                   ("steps", JInt (plan_step_count p))]) ;;
      do res <- run_steps p run_id (steps p) [] gw ;;
      match res with
      | inl failure => Ret (Some failure)
      | inr results =>
          Ret (Some (reply run_id ("Task completed in " +:+ str_of_Z (Z.of_nat (length results))
                                   +:+ " steps:
" +:+ plan_summary results) (Z.of_nat (length results)) None))
      end.

(** ** The RAG route *)

Definition rag_prompt (docs : list (string * string)) : string :=
  "You are a banking knowledge assistant. Answer the user's "
  +:+ "question based ONLY on the provided document excerpts. "
  +:+ "Cite your sources. If the documents don't contain the "
  +:+ "answer, say 'The knowledge base does not contain this information.'

Documents:
" +:+ join "

" (map (fun cd => fst cd +:+ "
" +:+ take_str 500 (snd cd)) docs).

Definition rag_fallback_prompt : string :=
  "You are a banking knowledge assistant. Answer the user's question "
  +:+ "to the best of your knowledge, but clearly state when you are "
  +:+ "uncertain. Never fabricate specific fee amounts, policy details, "
  +:+ "or regulatory information. Suggest the user contact their bank "
  +:+ "for definitive answers.".

Definition answer_with (system run_id user_message : string) : prog (option RunResult) :=
  do r <- lift (llm [SystemMessage system; HumanMessage user_message] None) ;;
  do_ persist_answer run_id 2 (Some (fst r)) ;;
  Ret (Some (reply run_id (fst r) 1 None)).

(** An exception while answering from documents falls back to the model alone. *)
Definition execute_rag (run_id user_message : string) : prog (option RunResult) :=
  let fallback := answer_with rag_fallback_prompt run_id user_message in
  match retriever with
  | Some f =>
      match f user_message with
      | Ok (d :: ds) => catch (answer_with (rag_prompt (d :: ds)) run_id user_message) (fun _ => fallback)
      | _ => fallback
      end
  | None => fallback
  end.

(** ** The transfer route *)

Definition transfer_prompt : string :=
  "You are a banking transfer assistant. Help the user create a transfer "
  +:+ "by extracting: source_account_id, beneficiary name/id, amount, and currency. "
  +:+ "After creating a draft, summarize the transfer details and ask for "
  +:+ "confirmation before submitting. Use the tools: find_beneficiary, "
  +:+ "create_transfer_draft. Do NOT call submit_transfer — the user must "
  +:+ "explicitly confirm first.".

(** The definitions offered; an empty registry is false. *)
Definition transfer_tools : result (option (list json)) :=
  match registry with
  | Some r => if registry_count r >? 0 then res_map Some (provider_definitions false r) else Ok None
  | None => Ok None
  end.

Definition result_state (r : GraphResult) : AgentState :=
  match r with Finished st | Suspended _ st => st end.

Definition out_of_passes {A} : prog A := Throw (RuntimeError "out of passes").

Definition execute_transfer_workflow (run_id user_message : string) (gw : AuthorizationGateway P)
    : prog (option RunResult) :=
  match (let* tools := transfer_tools in
         llm [SystemMessage transfer_prompt; HumanMessage user_message] tools) with
  | Raise _ =>
      Ret (Some (reply run_id
        ("I was unable to process your transfer request. Please try again "
         +:+ "with the recipient name, amount, and currency clearly specified.") 0 (Some "error")))
  | Ok (content, tcs) =>
      do r <- invoke registry durable max_agent_steps llm gw
                {| as_messages := [HumanMessage user_message; AIMessage content tcs];
                   as_final_answer := None; as_step_count := 1; as_session_id := Some run_id;
                   as_executed := ∅ |} ;;
      match r with
      | None => out_of_passes
      | Some g =>
          let st := result_state g in
          let text := match last_message (as_messages st) with
                      | Some m => message_content m | None => "Transfer processed." end in
          Ret (Some (reply run_id (opt_or (as_final_answer st) text) (as_step_count st) None))
      end
  end.

(** ** The graph *)

Definition checkpoint_payload (st : AgentState) (run_id : string) : json :=
  JObj [("state", JObj [("step_count", JInt (as_step_count st)); ("session_id", JStr run_id)])].

Definition run_graph (run_id : string) (st : AgentState) (gw : AuthorizationGateway P) : prog RunResult :=
  do r <- catch (invoke registry durable max_agent_steps llm gw st)
            (fun e => if is_runtime_error e
                      then do_ persist run_id (as_step_count st + 1) CHECKPOINT
                                 (checkpoint_payload st run_id) ;; Throw e
                      else Throw e) ;;
  match r with
  | None => out_of_passes
  | Some (Suspended info _) =>
      do_ persist run_id (as_step_count st + 1) CHECKPOINT
            (JObj [("kind", JStr "HITL_INTERRUPT"); ("interrupt", info)]) ;;
      Ret {| rr_interrupt := Some info; rr_session_id := run_id; rr_final_answer := None;
             rr_step_count := as_step_count st; rr_status := None |}
  | Some (Finished st') =>
      do_ persist_answer run_id (as_step_count st + 1) (as_final_answer st') ;;
      Ret {| rr_interrupt := None; rr_session_id := default run_id (as_session_id st');
             rr_final_answer := as_final_answer st'; rr_step_count := as_step_count st';
             rr_status := None |}
  end.

(** ** [run] *)

(** The route taken for a new message; [None] leaves the request to the graph. *)
Definition follow_route (rt : Route) (plan_uuid run_id user_message : string)
    (ctx : option TrustedRequestContext) (gw : AuthorizationGateway P) : prog (option RunResult) :=
  match rt_kind rt with
  | DIRECT =>
      match rt_suggested_tools rt with
      | Some ts => execute_direct ts run_id user_message ctx
      | None => Ret None
      end
  | PLANNER => execute_planner (rt_max_steps rt) plan_uuid run_id user_message gw
  | RAG => execute_rag run_id user_message
  | TRANSFER_STATE_MACHINE => execute_transfer_workflow run_id user_message gw
  | REJECT => Ret None
  end.

Definition rejection (run_id : string) : RunResult :=
  reply run_id
    ("I'm sorry, but I can't help with that request. "
     +:+ "I can assist with account inquiries, transfers, "
     +:+ "beneficiary lookups, and policy questions.") 0 (Some "rejected").

(** [router] is the optional router's model, if there is a router. *)
Definition run_agent (router : option (option (string -> result string))) (uuid plan_uuid : string)
    (user_message : string) (run_id_arg : option string) (resume_from : option AgentState)
    (ctx : option TrustedRequestContext) (gw : AuthorizationGateway P) : prog RunResult :=
  let run_id := opt_or run_id_arg uuid in
  let st := match resume_from with
            | Some s => {| as_messages := as_messages s; as_final_answer := as_final_answer s;
                           as_step_count := as_step_count s; as_session_id := Some run_id;
                           as_executed := as_executed s |}
            | None => initial_state run_id user_message
            end in
  let seq := match resume_from with Some s => as_step_count s | None => 0 end in
  do_ (match resume_from with
       | None => persist run_id seq USER_MESSAGE (JObj [("content", JStr user_message)])
       | Some _ => Ret tt
       end) ;;
  match router with
  | None => run_graph run_id st gw
  | Some router_llm =>
      let rt := route router_llm true user_message in
      do_ persist run_id (seq + 1) CHECKPOINT
            (JObj [("kind", JStr "INTENT_CLASSIFIED"); ("intent", JStr (intent_value (rt_intent rt)));
                   ("route", JStr (route_value (rt_kind rt)))]) ;;
      do early <- (match resume_from with
                   | None => follow_route rt plan_uuid run_id user_message ctx gw
                   | Some _ => Ret None
                   end) ;;
      match early with
      | Some res => Ret res
      | None => if bool_decide (rt_kind rt = REJECT) then Ret (rejection run_id)
                else run_graph run_id st gw
      end
  end.

(** ** [resume] *)

(** The state the checkpointer saved when the thread was suspended, and the values of
    its earlier resumes, are arguments. *)
Definition resume_agent (uuid : string) (run_id_arg : option string) (saved : AgentState)
    (earlier : list json) (value : json) (gw : AuthorizationGateway P) : prog GraphResult :=
  let run_id := opt_or run_id_arg uuid in
  do r <- resume_graph registry durable max_agent_steps llm gw (earlier ++ [value]) saved ;;
  match r with
  | None => out_of_passes
  | Some g => do_ persist_answer run_id 0 (as_final_answer (result_state g)) ;; Ret g
  end.
End runtime.

(** ** The resume service *)

Section resume_service.
Context (llm : list Message -> option (list json) -> result (string * list ToolRequest)).

Definition resume_tool_content (session : HITLSession) (r : ApprovalResult) : string :=
  if String.eqb (ap_decision r) "approved"
  then "Tool '" +:+ hs_tool_name session +:+ "' executed successfully.
Result: " +:+ opt_or (ap_answer r) "done"
  else "Tool '" +:+ hs_tool_name session +:+ "' was rejected by human operator.
Reason: " +:+ opt_or (ap_answer r) "Operation rejected".

Definition build_resume_state (r : ApprovalResult) : prog (option AgentState) :=
  if negb (str_in (ap_decision r) ["approved"; "rejected"]) then Ret None
  else
    do found <- performE (OHitlGet (ap_session_id r)) ;;
    match found with
    | None => Ret None
    | Some session =>
        Ret (Some {| as_messages := [ToolMessage (resume_tool_content session r)
                                       (hs_tool_call_id session) (hs_tool_name session)];
                     as_final_answer := None; as_step_count := 0;
                     as_session_id := Some (ap_session_id r);
                     as_executed := if str_true (hs_tool_call_id session)
                                    then {[hs_tool_call_id session]} else ∅ |})
    end.

(** The last model message with a content. *)
Definition last_answer (ms : list Message) : option string :=
  match List.find (fun m => match m with AIMessage c _ => str_true c | _ => false end) (rev ms) with
  | Some m => Some (message_content m)
  | None => None
  end.

Definition resume_and_respond (st : AgentState) : prog (option string) :=
  catch
    (do r <- invoke None false 5 llm {| gw_policy := AutoApprove; gw_decisions := [] |} st ;;
     match r with
     | None => out_of_passes
     | Some g =>
         let st' := result_state g in
         if opt_str_true (as_final_answer st') then Ret (as_final_answer st')
         else Ret (last_answer (as_messages st'))
     end)
    (fun _ => Ret None).
End resume_service.

(** ** Lemmas *)

Section runtime_lemmas.
Context {P : Type} `{AuthorizationPolicy P}.
Context (registry : option ToolRegistry) (durable has_events : bool) (max_agent_steps : Z).
Context (llm : list Message -> option (list json) -> result (string * list ToolRequest)).
Context (plan_llm : nat -> list Message -> result string).
Context (retriever : option (string -> result (list (string * string)))).
Context (set_order : list string -> list string) (recursion_limit : nat).

Lemma set_item_ok k v args a :
  set_item k v args = Ok a -> exists d, args = JObj d /\ a = JObj (dset d k v).
Proof. destruct args; try done. intros [= <-]. eauto. Qed.

(** What a direct call carries: the arguments the model extracted from the message, with the
    identity of an authenticated caller put in for the tools that take one, and as they are for
    the others. *)
Definition direct_call (tool msg : string) (ctx : option TrustedRequestContext) (c : ToolCall) : Prop :=
  tc_name c = tool /\
  exists args0, direct_args llm tool msg = Ok args0 /\
    if str_in tool IDENTITY_TOOLS then
      exists id d, ctx = Some id /\ subject_id id <> "" /\ subject_id id <> "anonymous" /\ args0 = JObj d /\
        tc_arguments c = JObj (dset (dset d "user_id" (JStr (subject_id id))) "tenant_id" (JStr (tenant_id id)))
    else tc_arguments c = args0.

Lemma inject_identity_call tool msg ctx args0 args :
  str_in tool IDENTITY_TOOLS && unauthenticated ctx = false ->
  direct_args llm tool msg = Ok args0 -> inject_identity tool ctx args0 = Ok args ->
  direct_call tool msg ctx {| tc_name := tool; tc_arguments := args |}.
Proof.
  intros Hu Ha Hi. split; [done|]. exists args0. split; [done|]. unfold inject_identity in Hi. cbn.
  destruct (str_in tool IDENTITY_TOOLS) eqn:Ht; [|by destruct ctx; injection Hi as ->]. cbn in Hu.
  destruct ctx as [id|]; [|done]. cbn in Hu. apply str_in_false in Hu.
  apply res_bind_ok in Hi as (a & (d & -> & ->)%set_item_ok & (d' & [= <-] & ->)%set_item_ok).
  exists id, d. repeat split; set_solver.
Qed.

Lemma dispatches_persist Q run_id seq kind payload : dispatches Q (persist has_events run_id seq kind payload).
Proof. unfold persist. destruct has_events; cbn; auto. Qed.

Lemma dispatches_direct Q ts run_id msg ctx :
  (forall tool rest c, ts = tool :: rest -> direct_call tool msg ctx c -> Q c) ->
  dispatches Q (execute_direct has_events llm ts run_id msg ctx).
Proof.
  intros HQ. unfold execute_direct. destruct ts as [|tool rest]; [done|].
  destruct (_ && _) eqn:Hu; [done|]. destruct (direct_args llm tool msg) as [args0|] eqn:Ha; [|done].
  destruct (inject_identity tool ctx args0) as [args|] eqn:Hi; [|done]. cbn.
  split; [eapply HQ, inject_identity_call; done|]. intros [r|e]; [|done]. cbn.
  apply dispatches_bind'; [apply dispatches_persist|done].
Qed.

(** A step's calls are those of a decision that is not a denial, taken by the run's gateway. *)
Definition step_call (gw0 : AuthorizationGateway P) (p : ExecutionPlan) (s : PlanStep) (args : dict) (c : ToolCall) : Prop :=
  exists now (gw gw' : AuthorizationGateway P) d rest,
    gw_later gw0 gw /\ tool_candidates s = tc_name c :: rest /\ tc_arguments c = JObj args /\
    gw_authorize now
      {| op_kind := step_kind registry (tc_name c); op_name := tc_name c; op_target := "step:" +:+ step_id s;
         op_details := [("args", JObj args); ("plan_id", JStr (plan_id p))] |} gw = Ok (d, gw') /\
    ad_decision d <> DENIED.

Lemma dispatches_step Q gw0 p s args (gw : AuthorizationGateway P) :
  gw_later gw0 gw -> (forall c, step_call gw0 p s args c -> Q c) -> dispatches Q (execute_step registry p s args gw).
Proof.
  intros Hgw HQ. unfold execute_step. destruct (negb _); [done|].
  destruct (tool_candidates s) as [|tool rest] eqn:Et; [done|]. cbn. split; [done|]. intros now.
  destruct (gw_authorize _ _ _) as [[d gw']|e] eqn:Ea; [|done].
  destruct (String.eqb_spec (decision_value (ad_decision d)) "denied") as [|Hd]; [done|]. cbn. split.
  - apply HQ. exists now, gw, gw', d, rest. repeat split; [done..|]. intros Hx. by rewrite Hx in Hd.
  - intros [r|e]; [|done]. by destruct (tr_success r).
Qed.

Lemma leaf_step_gateway gw0 p s args (gw : AuthorizationGateway P) :
  gw_later gw0 gw -> leaf (fun r => gw_later gw0 (snd r)) (execute_step registry p s args gw).
Proof.
  intros Hgw. unfold execute_step. destruct (negb _); [done|].
  destruct (tool_candidates s) as [|tool rest]; [done|]. cbn. intros now.
  destruct (gw_authorize _ _ _) as [[d gw']|e] eqn:Ea; [|done].
  assert (Hgw' : gw_later gw0 gw') by (by eapply gw_later_step).
  destruct (String.eqb _ _); [done|]. cbn. intros [r|e]; [|done]. by destruct (tr_success r).
Qed.

Lemma dispatches_run_steps Q gw0 p run_id ss results (gw : AuthorizationGateway P) :
  gw_later gw0 gw -> (forall s c, s ∈ ss -> step_call gw0 p s [] c -> Q c) ->
  dispatches Q (run_steps registry p run_id ss results gw).
Proof.
  revert results gw. induction ss as [|s ss IH]; intros results gw Hgw HQ; [done|]. cbn [run_steps].
  assert (Hs : forall (gw : AuthorizationGateway P) B (f : StepResult * AuthorizationGateway P -> prog B),
    gw_later gw0 gw -> (forall r, gw_later gw0 (snd r) -> dispatches Q (f r)) ->
    dispatches Q (bind (execute_step registry p s [] gw) f)).
  { intros gw' B f Hg Hf. eapply dispatches_bind; [|by apply (leaf_step_gateway gw0)|exact Hf].
    apply (dispatches_step Q gw0); [done|]. intros c. apply HQ. by left. }
  assert (Hss : forall s' c, s' ∈ ss -> step_call gw0 p s' [] c -> Q c) by (intros s' c Hin; apply HQ; by right).
  apply Hs; [done|]. intros r Hr. destruct (negb _); [|by apply IH].
  destruct (_ && _); [apply Hs; [done|]; intros r2 Hr2; by apply IH|].
  destruct (bool_decide _); [done|by apply IH].
Qed.

Lemma dispatches_catch {A} Q (p : prog A) (h : exn -> prog A) :
  dispatches Q p -> (forall e, dispatches Q (h e)) -> dispatches Q (catch p h).
Proof. intros Hp Hh. induction p; cbn in *; auto. destruct Hp. split; auto. Qed.

Lemma dispatches_answer_with Q system run_id msg :
  dispatches Q (answer_with has_events llm system run_id msg).
Proof.
  unfold answer_with. apply dispatches_bind'; [apply dispatches_lift|]. intros r.
  apply dispatches_bind'; [apply dispatches_persist|done].
Qed.

Lemma dispatches_rag Q run_id msg : dispatches Q (execute_rag has_events llm retriever run_id msg).
Proof.
  unfold execute_rag. destruct retriever as [f|]; [|apply dispatches_answer_with].
  destruct (f msg) as [[|d ds]|]; try apply dispatches_answer_with.
  apply dispatches_catch; [apply dispatches_answer_with|]. intros _. apply dispatches_answer_with.
Qed.

Lemma dispatches_run_graph Q run_id st (gw : AuthorizationGateway P) :
  (forall tcs c, proposal registry llm (as_messages st) tcs -> justified registry gw [] tcs c -> Q c) ->
  dispatches Q (run_graph registry durable has_events max_agent_steps llm run_id st gw).
Proof.
  intros HQ. unfold run_graph. apply dispatches_bind'.
  - apply dispatches_catch; [eapply dispatches_proposed; [apply gw_later_refl|apply continues_refl|exact HQ]|]. intros e.
    destruct (is_runtime_error e); [|done]. apply dispatches_bind'; [apply dispatches_persist|done].
  - intros [[st'|info st']|]; [| |done]; apply dispatches_bind'; try apply dispatches_persist; done.
Qed.

Lemma dispatches_transfer Q run_id msg (gw : AuthorizationGateway P) :
  (forall tcs c, proposal registry llm [HumanMessage msg] tcs -> justified registry gw [] tcs c -> Q c) ->
  dispatches Q (execute_transfer_workflow registry durable max_agent_steps llm run_id msg gw).
Proof.
  intros HQ. unfold execute_transfer_workflow. destruct (res_bind _ _) as [[content tcs]|]; [|done].
  apply dispatches_bind'; [|by intros [g|]]. eapply dispatches_proposed; [apply gw_later_refl| |exact HQ].
  by exists [AIMessage content tcs].
Qed.

(** The validator of the planner's route: the router's step bound, or 15 when it gives none or 0. *)
Definition route_validator (max_steps : option Z) : PlanValidator :=
  {| vl_registry := registry;
     vl_max_steps := (match max_steps with Some n => if n =? 0 then 15 else n | None => 15 end); vl_forbidden := [] |}.

Definition accepts (v : PlanValidator) (p : ExecutionPlan) : Prop :=
  exists val, validate set_order recursion_limit v p = Ok val /\ pv_valid val = true.

(** The message a run's conversation with the model begins with. *)
Definition opening (msg : string) (resume_from : option AgentState) : list Message :=
  match resume_from with Some s => as_messages s | None => [HumanMessage msg] end.

(** Everything a run can dispatch: [rt] is the route of its message, if it has a router. *)
Definition run_call (rt : option Route) (msg plan_uuid : string) (resume_from : option AgentState)
    (ctx : option TrustedRequestContext) (gw : AuthorizationGateway P) (c : ToolCall) : Prop :=
  (exists r tool rest, rt = Some r /\ resume_from = None /\ rt_kind r = DIRECT /\
     rt_suggested_tools r = Some (tool :: rest) /\ direct_call tool msg ctx c) \/
  (exists r s, rt = Some r /\ resume_from = None /\ rt_kind r = PLANNER /\
     let p := plan set_order recursion_limit plan_llm registry 3 plan_uuid msg "" in
     accepts (default_validator registry) p /\ accepts (route_validator (rt_max_steps r)) p /\
     s ∈ steps p /\ step_call gw p s [] c) \/
  (option_map rt_kind rt <> Some REJECT /\
   exists tcs, proposal registry llm (opening msg resume_from) tcs /\ justified registry gw [] tcs c).

Lemma dispatches_planner Q max_steps uuid run_id msg (gw : AuthorizationGateway P) :
  (forall s c, let p := plan set_order recursion_limit plan_llm registry 3 uuid msg "" in
     accepts (default_validator registry) p -> accepts (route_validator max_steps) p ->
     s ∈ steps p -> step_call gw p s [] c -> Q c) ->
  dispatches Q (execute_planner registry has_events plan_llm set_order recursion_limit max_steps uuid run_id msg gw).
Proof.
  intros HQ. unfold execute_planner. case_bool_decide as Hr; [done|].
  set (p := plan _ _ _ _ _ _ _ _) in *.
  assert (Hp : steps p = [] \/ accepts (default_validator registry) p).
  { unfold p, plan. destruct (first_attempt _ _ _) as [p'|] eqn:E; cbn [default]; [|by left].
    apply first_attempt_ok in E as (i & (_ & _ & _ & Hv & _)%plan_attempt_ok). by right. }
  eapply dispatches_bind; [apply dispatches_lift|apply leaf_lift; intros val Hval; exact Hval|].
  intros val Hval. cbn beta in Hval. destruct (pv_valid val) eqn:Hv; [|done]. cbn [negb].
  apply dispatches_bind'; [apply dispatches_persist|]. intros _.
  apply dispatches_bind'; [|by intros []].
  apply (dispatches_run_steps Q gw); [apply gw_later_refl|]. intros s c Hs.
  destruct Hp as [Hp|Hp]; [rewrite Hp in Hs; by apply elem_of_nil in Hs|].
  apply HQ; [done|by exists val|done].
Qed.

Lemma dispatches_run_agent router uuid plan_uuid msg run_id resume_from ctx (gw : AuthorizationGateway P) :
  dispatches (run_call (option_map (fun m => route m true msg) router) msg plan_uuid resume_from ctx gw)
    (run_agent registry durable has_events max_agent_steps llm plan_llm retriever set_order recursion_limit
       router uuid plan_uuid msg run_id resume_from ctx gw).
Proof.
  assert (Hj : forall rt tcs c, option_map rt_kind rt <> Some REJECT ->
    proposal registry llm (opening msg resume_from) tcs -> justified registry gw [] tcs c ->
    run_call rt msg plan_uuid resume_from ctx gw c).
  { intros rt tcs c Hrt Hp Hc. right. right. eauto. }
  assert (Hgraph : forall rt run_id, option_map rt_kind rt <> Some REJECT ->
    dispatches (run_call rt msg plan_uuid resume_from ctx gw)
      (run_graph registry durable has_events max_agent_steps llm run_id
         (match resume_from with
          | Some s => {| as_messages := as_messages s; as_final_answer := as_final_answer s;
                         as_step_count := as_step_count s; as_session_id := Some run_id;
                         as_executed := as_executed s |}
          | None => initial_state run_id msg
          end) gw)).
  { intros rt id Hrt. apply dispatches_run_graph. intros tcs c Hp. apply Hj; [done|]. by destruct resume_from. }
  unfold run_agent. apply dispatches_bind'; [destruct resume_from; [done|apply dispatches_persist]|].
  intros _. destruct router as [m|]; [|by apply Hgraph]. cbn [option_map].
  apply dispatches_bind'; [apply dispatches_persist|]. intros _. apply dispatches_bind'.
  - destruct resume_from; [done|]. unfold follow_route. destruct (rt_kind _) eqn:Ek; [| | | |done].
    + destruct (rt_suggested_tools _) as [ts|] eqn:Et; [|done]. apply dispatches_direct.
      intros tool rest c -> Hc. left. eauto 8.
    + apply dispatches_rag.
    + apply dispatches_planner. intros s c p Hv Hv' Hs Hc. right. left.
      exists (route m true msg), s. done.
    + apply dispatches_transfer. intros tcs c. apply Hj. cbn [option_map]. by rewrite Ek.
  - intros [res|]; [done|]. case_bool_decide as Hk; [done|]. apply Hgraph. cbn. by intros [= Hx].
Qed.
End runtime_lemmas.

(** ** Properties *)

(** C15: whatever the models, the tools and the database answer, every call a run
    dispatches is of one of three kinds.  For a new message routed DIRECT, it is the first
    suggested tool with the arguments the model extracted: for the seven tools that take an
    identity the user and tenant are then those of the authenticated caller, whatever the model
    wrote, and for the others the model's arguments go out as they are, under no gateway.  For a new
    message routed to the planner, it is a step of the plan made for that message, accepted by the
    planner's validator and the route's, that the run's gateway did not deny; the arguments are
    empty.  Otherwise, and never for a message the router rejects, it is a call the model
    proposed when shown the tools of the registry and a conversation beginning with this message
    (or with the state the run resumes from), which the registry validates and the run's gateway
    approves. *)
Theorem run_dispatches_only_allowed {P} `{AuthorizationPolicy P} registry durable has_events
    max_agent_steps llm plan_llm retriever set_order limit router uuid plan_uuid msg run_id resume_from ctx
    (gw : AuthorizationGateway P) now mcp w :
  exists cs,
    w_calls (snd (run now mcp
      (run_agent registry durable has_events max_agent_steps llm plan_llm retriever set_order limit
         router uuid plan_uuid msg run_id resume_from ctx gw) w)) = w_calls w ++ cs /\
    Forall (run_call registry llm plan_llm set_order limit
              (option_map (fun m => route m true msg) router) msg plan_uuid resume_from ctx gw) cs.
Proof. apply dispatches_run, dispatches_run_agent. Qed.

(** A model that asks for one tool and then answers. *)
Definition ask_once (tc : ToolRequest) (msgs : list Message) (tools : option (list json))
    : result (string * list ToolRequest) :=
  if (length msgs <? 2)%nat then Ok ("", [tc]) else Ok ("done", []).

(** the resume service runs the graph with a policy that approves
    everything and without a registry: any further tool the model asks for, with any
    arguments, is dispatched, and its answer is given to the user. *)
Theorem resume_service_skips_authorization tc st m now mcp w res :
  as_messages st = [m] -> as_step_count st = 0 -> rq_id tc <> "" -> rq_id tc ∉ as_executed st ->
  mcp {| tc_name := rq_name tc; tc_arguments := rq_args tc |} = Ok res ->
  exists w', run now mcp (resume_and_respond (ask_once tc) st) w = (Done (Some "done"), w') /\
    w_calls w' = w_calls w ++ [{| tc_name := rq_name tc; tc_arguments := rq_args tc |}].
Proof.
  intros Hm Hs Hid%str_true_spec Hex Hmcp.
  destruct st as [ms fa sc sid ex]. cbn in Hm, Hs, Hex. subst.
  eexists. unfold resume_and_respond, invoke, passes_left. cbn. unfold tools_then, tool_node. cbn.
  rewrite Hid. cbn. rewrite bool_decide_false by done. cbn.
  unfold execute_approved. rewrite Hid. cbn. rewrite Hmcp. cbn.
  change (Z.to_nat (5 - 0)) with 5%nat. cbn. destruct (tr_success res); split; reflexivity.
Qed.

Lemma resume_service_skips_authorization_witness :
  let st := {| as_messages := [ToolMessage "Tool 'get_balance' executed successfully." "call-1" "get_balance"];
               as_final_answer := None; as_step_count := 0; as_session_id := Some "s-1";
               as_executed := {["call-1"]} |} in
  let tc := {| rq_id := "call-2"; rq_name := "submit_transfer"; rq_args := JObj [("draft_id", JStr "d-1")] |} in
  exists w', run noon_2026 witness_answer (resume_and_respond (ask_once tc) st) empty_world
    = (Done (Some "done"), w') /\
    w_calls w' = [{| tc_name := "submit_transfer"; tc_arguments := JObj [("draft_id", JStr "d-1")] |}].
Proof.
  intros st tc.
  eapply (resume_service_skips_authorization tc st _ noon_2026 witness_answer empty_world);
    [reflexivity|reflexivity|discriminate|vm_compute; intros Hx; by inversion Hx|reflexivity].
Defined.
