(* ===== verification/Config.v ===== *)
(** Typed configuration ([config.py]): the records and the checks their constructors
    make, and the production checklist. *)
From S2P Require Import Prelude PyStr PyFloat.

Inductive LogLevel : Type := LDEBUG | LINFO | LWARNING | LERROR.

Inductive Environment : Type := DEVELOPMENT | STAGING | PRODUCTION.

#[export] Instance Environment_eq_dec : EqDecision Environment.
Proof. solve_decision. Defined.

Record LLMConfig : Type := {
  lc_provider : string;
  lc_model : string;
  lc_api_base : option string;
  lc_max_tokens : Z;
  lc_temperature : f64;
  lc_max_retries : Z;
  lc_timeout_seconds : Z;
}.

(** A constructor: the record, or the error of the first check that fails. *)
Definition check_that (ok : bool) (msg : string) : result unit :=
  if ok then Ok tt else Raise (ValueError msg).

Definition make_llm_config (c : LLMConfig) : result LLMConfig :=
  let* _ := check_that (negb (lc_max_tokens c <? 1)) "max_tokens must be >= 1" in
  let* _ := check_that (f_le f_zero (lc_temperature c) && f_le (lc_temperature c) (f_of_Z 2))
              "temperature must be in [0.0, 2.0]" in
  let* _ := check_that (negb (lc_max_retries c <? 0)) "max_retries must be >= 0" in
  let* _ := check_that (negb (lc_timeout_seconds c <? 1)) "timeout_seconds must be >= 1" in
  Ok c.

Record DatabaseConfig : Type := {
  dc_url : string;
  dc_pool_size : Z;
  dc_pool_timeout_seconds : Z;
  dc_echo_sql : bool;
}.

Definition make_database_config (c : DatabaseConfig) : result DatabaseConfig :=
  let* _ := check_that (negb (dc_pool_size c <? 1)) "pool_size must be >= 1" in
  let* _ := check_that (negb (dc_pool_timeout_seconds c <? 1)) "pool_timeout_seconds must be >= 1" in
  Ok c.

Record MCPConfig : Type := {
  mc_server_command : string;
  mc_server_args : list string;
  mc_env : list (string * string);
  mc_timeout_seconds : Z;
}.

Definition make_mcp_config (c : MCPConfig) : result MCPConfig :=
  let* _ := check_that (negb (mc_timeout_seconds c <? 1)) "timeout_seconds must be >= 1" in
  Ok c.

Record PersistenceConfig : Type := {
  pc_db_path : string;
  pc_checkpoint_path : string;
  pc_hitl_expiry_minutes : Z;
  pc_idempotency_retention_days : Z;
  pc_connection_timeout : Z;
}.

Definition make_persistence_config (c : PersistenceConfig) : result PersistenceConfig :=
  let* _ := check_that (negb (pc_hitl_expiry_minutes c <? 1)) "hitl_expiry_minutes must be >= 1" in
  let* _ := check_that (negb (pc_connection_timeout c <? 1)) "connection_timeout must be >= 1" in
  Ok c.

Record EnvironmentConfig : Type := {
  ec_env : Environment;
  allow_dev_headers : bool;
  allow_cors_wildcard : bool;
  oidc_issuer : string;
  oidc_audience : string;
  oidc_jwks_url : string;
  oidc_jwks_cache_ttl_seconds : Z;
  database_url : string;
  redis_url : string;
  cors_allowed_origins : string;
  request_timeout_seconds : Z;
  provider_timeout_seconds : Z;
  max_request_body_bytes : Z;
  max_prompt_chars : Z;
}.

Definition is_production (c : EnvironmentConfig) : bool := bool_decide (ec_env c = PRODUCTION).

(** The messages of the checks that fail, in order. *)
Definition failing (checks : list (bool * string)) : list string :=
  map snd (List.filter (fun c => fst c) checks).

Definition validate_production (c : EnvironmentConfig) : list string :=
  failing
    [(negb (str_true (oidc_issuer c)), "OIDC_ISSUER is required in production");
     (negb (str_true (oidc_audience c)), "OIDC_AUDIENCE is required in production");
     (negb (str_true (database_url c)), "DATABASE_URL is required in production");
     (negb (str_true (redis_url c)), "REDIS_URL is required in production");
     (allow_dev_headers c, "Development identity headers must be disabled in production");
     (allow_cors_wildcard c, "CORS wildcard must be disabled in production");
     (contains "sqlite" (lower (database_url c)), "SQLite is not allowed in production")].

Record AgentConfig : Type := {
  ac_environment : Environment;
  ac_environ : EnvironmentConfig;
  ac_log_level : LogLevel;
  ac_llm : LLMConfig;
  ac_database : DatabaseConfig;
  ac_mcp : MCPConfig;
  ac_persistence : PersistenceConfig;
  max_agent_steps : Z;
  human_approval_required : bool;
}.

Definition make_agent_config (c : AgentConfig) : result AgentConfig :=
  let* _ := check_that (negb (max_agent_steps c <? 1)) "max_agent_steps must be >= 1" in
  Ok c.

(** ** Defaults *)

Definition default_llm_config : LLMConfig :=
  {| lc_provider := "anthropic"; lc_model := "claude-sonnet-4-6"; lc_api_base := None;
     lc_max_tokens := 4096; lc_temperature := f_zero; lc_max_retries := 3; lc_timeout_seconds := 120 |}.
Definition default_database_config : DatabaseConfig :=
  {| dc_url := "sqlite+aiosqlite:///./data/agent.db"; dc_pool_size := 5; dc_pool_timeout_seconds := 30;
     dc_echo_sql := false |}.
Definition default_mcp_config : MCPConfig :=
  {| mc_server_command := "npx"; mc_server_args := []; mc_env := []; mc_timeout_seconds := 30 |}.
Definition persistence_at (path : string) : PersistenceConfig :=
  {| pc_db_path := path; pc_checkpoint_path := ""; pc_hitl_expiry_minutes := 30;
     pc_idempotency_retention_days := 90; pc_connection_timeout := 30 |}.
Definition default_environment_config : EnvironmentConfig :=
  {| ec_env := DEVELOPMENT; allow_dev_headers := true; allow_cors_wildcard := true; oidc_issuer := "";
     oidc_audience := ""; oidc_jwks_url := ""; oidc_jwks_cache_ttl_seconds := 300; database_url := "";
     redis_url := ""; cors_allowed_origins := ""; request_timeout_seconds := 30;
     provider_timeout_seconds := 120; max_request_body_bytes := 100000; max_prompt_chars := 20000 |}.
Definition default_agent_config : AgentConfig :=
  {| ac_environment := DEVELOPMENT; ac_environ := default_environment_config; ac_log_level := LINFO;
     ac_llm := default_llm_config; ac_database := default_database_config; ac_mcp := default_mcp_config;
     ac_persistence := persistence_at ""; max_agent_steps := 50; human_approval_required := true |}.

(** ** Lemmas *)

Lemma failing_nil checks : failing checks = [] <-> forall c, c ∈ checks -> fst c = false.
Proof.
  unfold failing. induction checks as [|c cs IH]; cbn.
  - split; [intros _ c H; by apply elem_of_nil in H|done].
  - destruct (fst c) eqn:E; cbn; split.
    + done.
    + intros H. rewrite H in E; [done|by left].
    + intros H x [->|Hx]%elem_of_cons; [done|]. by apply IH.
    + intros H. apply IH. intros x Hx. apply H. by right.
Qed.

(** ** Properties *)

(** The production checklist is empty exactly when the identity
    provider, the database and the cache are configured, neither development headers nor a
    wildcard origin are allowed, and the database is not SQLite under any spelling. *)
Theorem production_checklist_exact c :
  validate_production c = [] <->
  oidc_issuer c <> "" /\ oidc_audience c <> "" /\ database_url c <> "" /\ redis_url c <> "" /\
  allow_dev_headers c = false /\ allow_cors_wildcard c = false /\
  contains "sqlite" (lower (database_url c)) = false.
Proof.
  unfold validate_production. rewrite failing_nil.
  rewrite <- !str_true_spec. split.
  - intros H. repeat split; try (apply negb_false_iff); eapply (H (_, _));
      repeat first [by left | right].
  - intros (H1 & H2 & H3 & H4 & H5 & H6 & H7) x Hx.
    repeat (apply elem_of_cons in Hx as [->|Hx]; [cbn; by rewrite ?H1, ?H2, ?H3, ?H4, ?H5, ?H6, ?H7|]).
    by apply elem_of_nil in Hx.
Qed.
