(* ===== verification/Bootstrap.v ===== *)
(** The composition root ([bootstrap.py], [mcp/client.py], [server.py]): the checks made
    before any resource is opened, the tool registry built from the banking schemas,
    the read-only gateway, and the in-process MCP client; and what the assembled
    application can and cannot do. *)
From S2P Require Import Prelude PyStr PyFloat PyTime Json PyRepr Auth Tools Banking BankingTools.
From S2P Require Import HitlStore GrantRepo IdempotencyStore EventStore Effects Approval Graph.
From S2P Require Import Routing Orchestration Security Runtime Config.

#[local] Open Scope prog_scope.

(** ** Validation *)

Inductive ResolverKind : Type := DevelopmentResolver | CustomResolver.

Record BootInput : Type := {
  bi_config : option AgentConfig;
  bi_token_env_var : string;
  bi_token : option string;
  bi_db_path : option string;
  bi_production : bool;
  bi_resolver : option ResolverKind;
}.

(** Phase 1: the effective configuration and the actor resolver. *)
Definition boot_checks (b : BootInput) : result (AgentConfig * ResolverKind) :=
  let cfg := default default_agent_config (bi_config b) in
  let* cfg :=
    (if opt_str_true (bi_db_path b)
     then make_agent_config
            {| ac_environment := ac_environment cfg; ac_environ := default_environment_config;
               ac_log_level := LINFO; ac_llm := ac_llm cfg; ac_database := default_database_config;
               ac_mcp := default_mcp_config; ac_persistence := persistence_at (opt_or (bi_db_path b) "");
               max_agent_steps := 50; human_approval_required := true |}
     else if bi_production b
     then Raise (RuntimeError "Production mode requires db_path — refusing to start without durable storage")
     else Ok cfg) in
  let* _ := (if str_true (default "" (bi_token b)) then Ok tt
             else Raise (RuntimeError ("Environment variable " +:+ bi_token_env_var b +:+ " is not set"))) in
  let* resolver :=
    (match bi_resolver b with
     | Some r => Ok r
     | None => if bi_production b
               then Raise (RuntimeError "Production mode requires approval_actor_resolver")
               else Ok DevelopmentResolver
     end) in
  match resolver with
  | DevelopmentResolver =>
      if bi_production b
      then Raise (RuntimeError "DevelopmentHeaderResolver not allowed in production mode")
      else Ok (cfg, resolver)
  | CustomResolver => Ok (cfg, resolver)
  end.

(** ** The tool registry *)

Definition has_side_effect (name : string) : bool :=
  negb (startswith name "get_" || startswith name "list_" || startswith name "find_").

Definition boot_risk (name : string) : RiskLevel :=
  if str_in name ["submit_transfer"] then Critical
  else if str_in name ["create_transfer_draft"; "cancel_transfer"; "report_suspicious_transaction"] then High
  else if has_side_effect name then Medium
  else Low.

Definition tool_of_schema (s : json) : result ToolDefinition :=
  let* d := py_dict s in
  let* name := str_arg d "name" in
  let* description := str_arg d "description" in
  let* parameters := py_dict (dget_or d "parameters" (JObj [])) in
  Ok {| td_name := name; td_description := description; td_input_schema := parameters;
        td_side_effect := has_side_effect name; td_risk_level := boot_risk name;
        td_required_permissions := [name]; td_approval_policy := ApprNever;
        td_idempotency_required := false; td_retry_policy := RetryAllow;
        td_data_classification := "internal"; td_timeout_seconds := f_of_Z 30; td_tags := [] |}.

Definition boot_registry : result ToolRegistry :=
  let* defs := res_mapM tool_of_schema tool_schemas in make_registry defs.

(** ** The application *)

Record Application : Type := {
  app_config : AgentConfig;
  app_durable : bool;
  app_registry : ToolRegistry;
  app_gateway : AuthorizationGateway ReadOnlyPolicy;
  app_resolver : option ResolverKind;
}.

(** Phase 2, when every resource opens: the HITL dependencies and the executor exist
    exactly when there is a database path. *)
Definition bootstrap_app (b : BootInput) : result Application :=
  let* (cfg, resolver) := boot_checks b in
  let durable := opt_str_true (bi_db_path b) in
  let* _ := (if negb durable && bi_production b
             then Raise (HITLConfigurationError "Production mode requires full HITL dependency set")
             else Ok tt) in
  let* registry := boot_registry in
  Ok {| app_config := cfg; app_durable := durable; app_registry := registry;
        app_gateway := {| gw_policy := ReadOnly; gw_decisions := [] |};
        app_resolver := if durable then Some resolver else None |}.

(** [server.main]: the database path has a default, and no resolver is passed. *)
Definition server_input (fxfill_env db_path token_var : string) (token : option string) : BootInput :=
  {| bi_config := None; bi_token_env_var := token_var; bi_token := token; bi_db_path := Some db_path;
     bi_production := String.eqb (lower (strip fxfill_env)) "production"; bi_resolver := None |}.

(** [MCPClientAdapter.call_tool] over the banking server. *)
Definition call_tool (connected : bool) (w : Draws) (c : ToolCall) (r : BankingRepository)
    : result ToolResult * BankingRepository :=
  if negb connected then (Raise (RuntimeError "MCP client not connected"), r)
  else
    let '(res, r') := mcp_invoke_tool w (tc_name c) (tc_arguments c) r in
    (Ok {| tr_tool_name := tc_name c; tr_success := mtr_success res; tr_content := mtr_content res;
           tr_error := mtr_error res |}, r').

(** ** Lemmas *)

Definition the_registry : ToolRegistry := match boot_registry with Ok r => r | Raise _ => [] end.

Lemma boot_registry_ok : boot_registry = Ok the_registry.
Proof. vm_compute. reflexivity. Qed.

(** A tool the registry does not mark as having a side effect does not write. *)
Lemma unmarked_tool_reads name :
  match registry_get the_registry name with Some td => td_side_effect td = false | None => True end ->
  is_read_only_tool name = true.
Proof.
  intros H. unfold is_read_only_tool. apply bool_decide_eq_true. unfold TOOL_RISK. cbn [oget].
  repeat (match goal with |- context [String.eqb name ?t] =>
    destruct (String.eqb_spec name t) as [->|] end;
    [first [vm_compute in H; discriminate H|reflexivity]|]).
  done.
Qed.

Lemma kind_read name td :
  registry_get the_registry name = Some td -> kind_from_metadata td = READ -> td_side_effect td = false.
Proof. intros _. unfold kind_from_metadata. destruct (td_side_effect td); [|done]. by destruct (td_risk_level td). Qed.

Lemma read_only_gateway now op (gw gw' : AuthorizationGateway ReadOnlyPolicy) d :
  gw_authorize now op gw = Ok (d, gw') ->
  ad_decision d <> PENDING /\ (ad_decision d <> DENIED -> op_kind op = READ).
Proof.
  unfold gw_authorize, policy_authorize, read_only_authorize. case_bool_decide; cbn; intros [= <- <-]; done.
Qed.

Lemma step_kind_read tool :
  step_kind (Some the_registry) tool = READ -> is_read_only_tool tool = true.
Proof.
  intros H. apply unmarked_tool_reads. unfold step_kind in H.
  destruct (registry_get the_registry tool) as [td|] eqn:E; [by eapply kind_read|done].
Qed.

Lemma operation_kind_read tc :
  operation_kind (Some the_registry) tc = READ -> is_read_only_tool (rq_name tc) = true.
Proof.
  intros H. apply unmarked_tool_reads. unfold operation_kind in H.
  destruct (registry_get the_registry (rq_name tc)) as [td|] eqn:E; [by eapply kind_read|done].
Qed.

(** What the classifier suggests depends only on the intent. *)
Lemma classify_suggests in_loop msg llm :
  let r := classify in_loop msg llm in
  ir_suggested_tools r = suggest_tools (ir_intent r) \/ ir_suggested_tools r = [].
Proof.
  unfold classify, classify_with. cbn zeta.
  destruct (match_keywords _ _) as [r|] eqn:E.
  { left. revert E. generalize keyword_rules. induction l as [|k l IH]; cbn; [done|].
    destruct (existsb _ _); [by intros [= <-]|done]. }
  destruct (match_patterns _) as [r|] eqn:Ep.
  { left. unfold match_patterns in Ep. repeat case_match; by simplify_eq. }
  destruct llm as [f|]; [|by right]. unfold llm_classify.
  repeat case_match; first [by right|by left].
Qed.

Lemma direct_tools_read llm in_loop msg ts tool :
  rt_kind (route llm in_loop msg) = DIRECT -> rt_suggested_tools (route llm in_loop msg) = Some ts ->
  tool ∈ ts -> is_read_only_tool tool = true.
Proof.
  unfold route, policy_route. cbn. pose proof (classify_suggests in_loop msg llm) as Hs. cbn in Hs.
  destruct (classify in_loop msg llm) as [i c reason subs tools]. cbn in *. intros Hk.
  destruct (list_true tools) eqn:Et; [|done]. intros [= <-] Hin.
  destruct Hs as [-> | ->]; [|done].
  destruct i; try done; cbn in Hin; revert Hin; rewrite ?elem_of_cons, ?elem_of_nil;
    intros; destruct_or?; subst; done || (vm_compute; reflexivity).
Qed.

Lemma run_call_reads llm plan_llm set_order limit router msg plan_uuid resume_from ctx gw0 c :
  run_call (P := ReadOnlyPolicy) (Some the_registry) llm plan_llm set_order limit
    (option_map (fun m => route m true msg) router) msg plan_uuid resume_from ctx gw0 c ->
  is_read_only_tool (tc_name c) = true.
Proof.
  intros [(r & tool & rest & Hr & _ & Hk & Ht & [-> _])|[(r & s & _ & _ & _ & _ & _ & _ & Hc)|(_ & tcs & _ & Hj)]].
  - destruct router as [m|]; [injection Hr as <-|done]. eapply direct_tools_read; [exact Hk|exact Ht|by left].
  - destruct Hc as (now & gw & gw' & d & rest & _ & _ & _ & Ha & Hd).
    apply read_only_gateway in Ha as [_ Ha]. specialize (Ha Hd). cbn in Ha. by apply step_kind_read.
  - destruct Hj as (tc & _ & <- & _ & now & gw & gw' & d & _ & Ha & Hd).
    apply read_only_gateway in Ha as [Hp Ha]. apply operation_kind_read.
    destruct Hd as [[Hd _]|[Hd _]]; [|done]. apply Ha. by rewrite Hd.
Qed.

(** ** Lemmas: a gateway that never leaves an operation pending never interrupts *)

Section decisive.
Context (registry : option ToolRegistry) (durable : bool) (max_steps : Z).
Context (llm : list Message -> option (list json) -> result (string * list ToolRequest)).
Notation Loop := (LoopState ReadOnlyPolicy).

Lemma no_pause_record key tc (l : Loop) : no_pause (dispatch_and_record key tc l).
Proof.
  unfold dispatch_and_record. apply no_pause_bind.
  - destruct key; [|done]. cbn. intros [[rec|]|e]; cbn; try done. by intros [r|e].
  - intros _. cbn. intros [r|e]; cbn; [|done]. apply no_pause_bind; [|done].
    destruct key; [|done]. destruct (tr_success r); done.
Qed.

Lemma no_pause_execute sid tc (l : Loop) : no_pause (execute_approved registry durable sid tc l).
Proof.
  unfold execute_approved. apply no_pause_bind.
  { destruct (_ && durable); [|done]. cbn. by intros [r|e]. }
  intros existing. apply no_pause_bind; [|done].
  destruct existing as [rec|]; [|apply no_pause_record].
  destruct (ir_status rec); cbn; try done; try (intros _; apply no_pause_record);
    destruct (bool_decide _); cbn; try done; apply no_pause_record.
Qed.

Lemma no_pause_tool_step sid tc (l : Loop) : no_pause (tool_step registry durable sid tc l).
Proof.
  unfold tool_step. apply no_pause_bind; [apply no_pause_lift|]. intros [error|]; [done|].
  destruct (_ && _); [done|]. cbn. intros now.
  destruct (gw_authorize _ _ _) as [[d gw']|e] eqn:Ea; [|done]. cbn [lift bind fst snd].
  apply read_only_gateway in Ea as [Hp _].
  destruct (ad_decision d); [apply no_pause_execute|done|done].
Qed.

Lemma no_pause_tool_node gw resume st :
  no_pause (tool_node (P := ReadOnlyPolicy) registry durable gw resume st).
Proof.
  unfold tool_node. destruct (last_message _) as [m|]; [|done]. destruct (list_true _); [|done].
  apply no_pause_bind; [|done]. generalize (tool_calls_of m). intros tcs.
  generalize {| lp_gateway := gw; lp_resume := resume; lp_results := []; lp_calls := []; lp_executed := as_executed st |}.
  induction tcs as [|tc tcs IH]; intros l; [done|]. cbn [tool_loop].
  apply no_pause_bind; [apply no_pause_tool_step|]. intros l'. apply IH.
Qed.

Definition not_suspended (r : option GraphResult) : Prop :=
  match r with Some (Suspended _ _) => False | _ => True end.

Lemma graph_never_suspends fuel gw resume st :
  leaf not_suspended (graph_loop (P := ReadOnlyPolicy) registry durable max_steps llm fuel gw resume st).
Proof.
  revert gw resume st. induction fuel as [|fuel IH]; intros gw resume st; [done|]. cbn [graph_loop].
  apply (leaf_bind (fun _ => True)); [apply leaf_true|]. intros st1 _.
  destruct (has_tool_calls st1); [|done]. unfold tools_then.
  apply (leaf_bind (fun r => match r with inl _ => True | inr _ => False end)).
  - apply leaf_on_pause_never.
    + apply no_pause_bind; [apply no_pause_tool_node|done].
    + eapply leaf_bind; [apply leaf_true|done].
  - intros [[[st' gw'] res']|v] Hr; [apply IH|done].
Qed.
End decisive.

Lemma leaf_catch {A} (Q : A -> Prop) (p : prog A) (h : exn -> prog A) :
  leaf Q p -> (forall e, leaf Q (h e)) -> leaf Q (catch p h).
Proof. intros Hp Hh. induction p; cbn in *; auto. Qed.

Lemma leaf_after {A B} (Q : B -> Prop) (p : prog A) (f : A -> prog B) :
  (forall a, leaf Q (f a)) -> leaf Q (bind p f).
Proof. intros Hf. eapply leaf_bind; [apply leaf_true|auto]. Qed.

Definition uninterrupted (r : RunResult) : Prop := rr_interrupt r = None.

Lemma run_never_interrupts registry durable has_events max_steps llm plan_llm retriever set_order limit
    router uuid plan_uuid msg run_id resume_from ctx (gw : AuthorizationGateway ReadOnlyPolicy) :
  leaf uninterrupted
    (run_agent registry durable has_events max_steps llm plan_llm retriever set_order limit
       router uuid plan_uuid msg run_id resume_from ctx gw).
Proof.
  set (opt_ok := fun o : option RunResult => match o with Some r => uninterrupted r | None => True end).
  assert (Hg : forall id st, leaf uninterrupted (run_graph registry durable has_events max_steps llm id st gw)).
  { intros id st. unfold run_graph. apply (leaf_bind not_suspended).
    - apply leaf_catch; [apply graph_never_suspends|]. intros e. destruct (is_runtime_error e); [|done].
      by apply leaf_after.
    - intros [[st'|v st']|] Hr; [by apply leaf_after|done|done]. }
  assert (Ha : forall system id, leaf opt_ok (answer_with has_events llm system id msg)).
  { intros system id. unfold answer_with. apply leaf_after. intros r. by apply leaf_after. }
  assert (Hs : forall p id ss results (gw : AuthorizationGateway ReadOnlyPolicy),
             leaf (fun r => match r with inl r => uninterrupted r | inr _ => True end)
               (run_steps registry p id ss results gw)).
  { intros p id ss. induction ss as [|s ss IH]; intros results gw'; [done|]. cbn [run_steps].
    apply leaf_after. intros r. destruct (negb _); [|apply IH].
    destruct (_ && _); [apply leaf_after; intros r2; apply IH|]. destruct (bool_decide _); [done|apply IH]. }
  unfold run_agent. apply leaf_after. intros _. destruct router as [m|]; [|apply Hg].
  apply leaf_after. intros _. apply (leaf_bind opt_ok).
  - destruct resume_from; [done|]. unfold follow_route. destruct (rt_kind _).
    + destruct (rt_suggested_tools _) as [[|tool rest]|]; [done| |done]. unfold execute_direct.
      destruct (_ && _); [done|]. destruct (direct_args _ _ _); [|done]. apply leaf_after. intros args.
      apply leaf_after. intros r. by apply leaf_after.
    + unfold execute_rag. destruct retriever as [f|]; [|apply Ha].
      destruct (f msg) as [[|d ds]|]; try apply Ha. apply leaf_catch; [apply Ha|]. intros _. apply Ha.
    + unfold execute_planner. destruct (bool_decide _); [done|]. apply leaf_after. intros val.
      destruct (negb _); [done|]. apply leaf_after. intros _. eapply leaf_bind; [apply Hs|].
      by intros [r|results].
    + unfold execute_transfer_workflow. destruct (res_bind _ _) as [[content tcs]|]; [|done].
      apply leaf_after. by intros [g|].
    + done.
  - intros [res|] Hr; [done|]. destruct (bool_decide _); [done|apply Hg].
Qed.

(** ** Lemmas: planned steps carry no arguments, and every banking tool needs some *)

Lemma execute_without_args w name r :
  exists e, execute w name [] r = (tool_error e, r) /\ str_true e = true.
Proof.
  unfold execute, tool_method.
  repeat (match goal with |- context [String.eqb name ?t] => destruct (String.eqb name t) end;
    [eexists; split; [reflexivity|reflexivity]|]).
  eexists. split; reflexivity.
Qed.

Definition from_bank (mcp : ToolCall -> result ToolResult) : Prop :=
  forall c, exists w repo, mcp c = fst (call_tool true w c repo).

Lemma bank_refuses_empty mcp tool :
  from_bank mcp -> exists res, mcp {| tc_name := tool; tc_arguments := JObj [] |} = Ok res /\ tr_success res = false.
Proof.
  intros H. destruct (H {| tc_name := tool; tc_arguments := JObj [] |}) as (w & repo & ->).
  unfold call_tool. cbn [negb tc_arguments tc_name]. unfold mcp_invoke_tool. cbn [execute_json].
  destruct (execute_without_args w tool repo) as (e & -> & He). unfold tool_error. cbn. rewrite He. eauto.
Qed.

Lemma planned_step_fails {P} `{AuthorizationPolicy P} registry p s (gw : AuthorizationGateway P) now mcp w :
  from_bank mcp ->
  exists r gw' w', run now mcp (execute_step registry p s [] gw) w = (Done (r, gw'), w') /\ sr_success r = false.
Proof.
  intros Hb. unfold execute_step. destruct (negb _); [cbn; eauto 6|].
  destruct (tool_candidates s) as [|tool rest]; [cbn; eauto 6|]. cbn.
  destruct (gw_authorize _ _ _) as [[d gw']|e]; [|cbn; eauto 6].
  destruct (String.eqb _ _); [cbn; eauto 6|]. cbn.
  destruct (bank_refuses_empty mcp tool Hb) as (res & -> & Hres). cbn. rewrite Hres. cbn. eauto 6.
Qed.

Lemma run_persist has_events run_id seq kind payload now mcp w :
  exists w', run now mcp (persist has_events run_id seq kind payload) w = (Done tt, w').
Proof. unfold persist. destruct has_events; cbn; eauto. Qed.

Lemma run_steps_stop {P} `{AuthorizationPolicy P} registry p run_id s ss (gw : AuthorizationGateway P) now mcp w :
  from_bank mcp -> max_retries s = 1 ->
  exists reason w', run now mcp (run_steps registry p run_id (s :: ss) [] gw) w
    = (Done (inl (reply run_id ("Step '" +:+ objective s +:+ "' failed: " +:+ reason) 1 None)), w').
Proof.
  intros Hb Hm. cbn [run_steps]. rewrite run_bind.
  destruct (planned_step_fails registry p s gw now mcp w Hb) as (r & gw' & w' & -> & Hr). cbn [fst].
  unfold verify. rewrite Hr. cbn. unfold next_action_for_failure. rewrite Hm. cbn.
  destruct (String.eqb (risk_level s) "critical"); cbn; eauto.
Qed.

Lemma plan_ok_more registry p n m :
  n <= m -> plan_ok {| vl_registry := registry; vl_max_steps := n; vl_forbidden := [] |} p ->
  plan_ok {| vl_registry := registry; vl_max_steps := m; vl_forbidden := [] |} p.
Proof. intros Hle [[]]. split; try done. cbn in *. lia. Qed.

(** Executing a read-only tool leaves the bank as it was. *)
Lemma read_only_call_keeps_bank draws c repo :
  is_read_only_tool (tc_name c) = true -> snd (call_tool true draws c repo) = repo.
Proof.
  intros Hr. unfold call_tool, mcp_invoke_tool. cbn [negb].
  assert (snd (execute_json draws (tc_name c) (tc_arguments c) repo) = repo) as He
    by (destruct (tc_arguments c); try done; by apply execute_read_only).
  destruct (execute_json _ _ _ _) as [[content error] r']. cbn in *. by destruct (opt_str_true error).
Qed.

Lemma bootstrapped_registry b app : bootstrap_app b = Ok app -> app_registry app = the_registry.
Proof.
  unfold bootstrap_app. intros ([cfg res] & _ & (_ & _ & (reg & Hreg & [= <-])%res_bind_ok)%res_bind_ok)%res_bind_ok.
  rewrite boot_registry_ok in Hreg. by injection Hreg.
Qed.

(** ** Properties *)

(** nothing the bootstrapped application dispatches for a new request,
    on any route and whatever the models answer, changes the bank: every call is a
    read-only tool, and executing it with any arguments returns the repository as it was. *)
Theorem bootstrapped_app_never_writes b app durable has_events max_steps llm plan_llm retriever set_order
    limit router uuid plan_uuid msg run_id resume_from ctx now mcp w :
  bootstrap_app b = Ok app ->
  exists cs,
    w_calls (snd (run now mcp
      (run_agent (Some (app_registry app)) durable has_events max_steps llm plan_llm retriever set_order limit
         router uuid plan_uuid msg run_id resume_from ctx (app_gateway app)) w)) = w_calls w ++ cs /\
    forall c, c ∈ cs -> is_read_only_tool (tc_name c) = true /\
      forall draws repo, snd (call_tool true draws c repo) = repo.
Proof.
  intros Hb. rewrite (bootstrapped_registry b) by done.
  destruct (dispatches_run _ now mcp _ w (dispatches_run_agent (Some the_registry) durable has_events max_steps
    llm plan_llm retriever set_order limit router uuid plan_uuid msg run_id resume_from ctx (app_gateway app)))
    as (cs & Hcs & Hall).
  exists cs. split; [done|]. intros c Hc. rewrite Forall_forall in Hall.
  assert (Hr : is_read_only_tool (tc_name c) = true) by (eapply run_call_reads; by apply Hall).
  split; [done|]. intros draws repo. by apply read_only_call_keeps_bank.
Qed.

Definition witness_boot : BootInput :=
  {| bi_config := None; bi_token_env_var := "DEEPSEEK_API_KEY"; bi_token := Some "t";
     bi_db_path := Some "/data/agent.db"; bi_production := false; bi_resolver := None |}.

Lemma bootstrapped_app_never_writes_witness :
  exists app cs, bootstrap_app witness_boot = Ok app /\
    w_calls (snd (run noon_2026 witness_answer
      (run_agent (Some (app_registry app)) true true 50
         (fun _ _ => Ok ("{}", [])) (fun _ _ => Raise JSONDecodeError) None (fun l => l) 1000
         (Some None) "run-1" "plan-1" "what is my balance?" None None
         (Some (context_of "user-alice" "default" ∅ "" "" "test")) (app_gateway app)) empty_world)) = [] ++ cs /\
    (forall c, c ∈ cs -> is_read_only_tool (tc_name c) = true /\
      forall draws repo, snd (call_tool true draws c repo) = repo).
Proof.
  destruct (bootstrap_app witness_boot) as [app|e] eqn:E; [|vm_compute in E; discriminate E].
  destruct (bootstrapped_app_never_writes witness_boot app true true 50
    (fun _ _ => Ok ("{}", [])) (fun _ _ => Raise JSONDecodeError) None (fun l => l) 1000
    (Some None) "run-1" "plan-1" "what is my balance?" None None
    (Some (context_of "user-alice" "default" ∅ "" "" "test")) noon_2026 witness_answer empty_world E)
    as (cs & Hcs & Hall).
  exists app, cs. split; [reflexivity|]. split; [exact Hcs|exact Hall].
Defined.

(** the bootstrapped gateway denies what it does not approve, so no run is
    ever suspended for a human: the approval flow of the API is unreachable. *)
Theorem bootstrapped_app_never_asks_approval app durable has_events max_steps llm plan_llm retriever
    set_order limit router uuid plan_uuid msg run_id resume_from ctx now mcp w r w' :
  run now mcp
    (run_agent (Some (app_registry app)) durable has_events max_steps llm plan_llm retriever set_order limit
       router uuid plan_uuid msg run_id resume_from ctx (app_gateway app)) w = (Done r, w') ->
  rr_interrupt r = None.
Proof.
  intros Hr. eapply (leaf_run uninterrupted); [apply run_never_interrupts|exact Hr].
Qed.

Lemma bootstrapped_app_never_asks_approval_witness :
  exists app r w', bootstrap_app witness_boot = Ok app /\
    run noon_2026 witness_answer
      (run_agent (Some (app_registry app)) true true 50
         (fun _ _ => Ok ("{}", [])) (fun _ _ => Raise JSONDecodeError) None (fun l => l) 1000
         (Some None) "run-1" "plan-1" "what is my balance?" None None
         (Some (context_of "user-alice" "default" ∅ "" "" "test")) (app_gateway app)) empty_world
      = (Done r, w') /\ rr_interrupt r = None.
Proof.
  destruct (bootstrap_app witness_boot) as [app|e] eqn:E; [|vm_compute in E; discriminate E].
  destruct (run noon_2026 witness_answer
      (run_agent (Some (app_registry app)) true true 50
         (fun _ _ => Ok ("{}", [])) (fun _ _ => Raise JSONDecodeError) None (fun l => l) 1000
         (Some None) "run-1" "plan-1" "what is my balance?" None None
         (Some (context_of "user-alice" "default" ∅ "" "" "test")) (app_gateway app)) empty_world)
    as [[r|x|v] w'] eqn:Er.
  - exists app, r, w'. split; [reflexivity|]. split; [exact Er|].
    eapply bootstrapped_app_never_asks_approval. exact Er.
  - vm_compute in E. injection E as <-. vm_compute in Er. discriminate Er.
  - vm_compute in E. injection E as <-. vm_compute in Er. discriminate Er.
Defined.

(** a planned step is always executed without arguments, which every
    banking tool needs: whatever plan the model makes and whatever the policy, the planner
    route ends with a refusal or with the failure of the first step, never with a result. *)
Theorem planner_never_completes {P} `{AuthorizationPolicy P} registry has_events plan_llm set_order limit
    uuid run_id msg (gw : AuthorizationGateway P) now mcp w :
  (forall l, set_order l ≡ₚ l) -> (15 <= limit)%nat -> from_bank mcp ->
  exists answer n w',
    run now mcp (execute_planner registry has_events plan_llm set_order limit (Some 20) uuid run_id msg gw) w
      = (Done (Some (reply run_id answer n None)), w') /\
    (n = 0 /\ answer = "I could not create a valid plan for this request. Could you rephrase?" \/
     n = 1 /\ exists s reason, answer = "Step '" +:+ objective s +:+ "' failed: " +:+ reason).
Proof.
  intros Hperm Hlim Hb. unfold execute_planner. case_bool_decide as Hr; [cbn; eauto 8|].
  set (p := plan _ _ _ _ _ _ _ _) in *.
  assert (plan_ok (default_validator registry) p /\ forall s, s ∈ steps p -> max_retries s = 1) as [Hok Hs].
  { unfold p, plan in *. destruct (first_attempt _ _ _) as [p'|] eqn:E; cbn [default] in *; [|done].
    apply first_attempt_ok in E as (i & (_ & _ & _ & (val & Hval & Hv) & Hs)%plan_attempt_ok).
    unfold id in *. split; [|intros s Hin; by destruct (Hs s Hin)]. apply (plan_ok_valid set_order Hperm limit); [|eauto].
    apply (validate_ok _ _ _ _ _ Hval) in Hv as (Hc%count_errors_nil & _).
    unfold plan_step_count in Hc. cbn in Hc. lia. }
  clearbody p. pose proof (ok_count _ _ Hok) as Hc. unfold plan_step_count in Hc. cbn in Hc.
  change (if 20 =? 0 then 15 else 20) with 20.
  assert (plan_ok {| vl_registry := registry; vl_max_steps := 20; vl_forbidden := [] |} p) as Hok20
    by (by apply (plan_ok_more registry p 15)).
  apply (plan_ok_valid set_order Hperm limit) in Hok20 as (val & -> & Hv); [|lia].
  rewrite run_bind. cbn [lift run]. rewrite Hv. cbn [negb]. rewrite run_bind.
  destruct (run_persist has_events run_id 1 CHECKPOINT
    (JObj [("kind", JStr "PLAN_CREATED"); ("plan_id", JStr (plan_id p)); ("steps", JInt (plan_step_count p))])
    now mcp w) as (w1 & ->).
  rewrite run_bind. destruct (steps p) as [|s ss]; [cbn in Hc; lia|].
  destruct (run_steps_stop registry p run_id s ss gw now mcp w1 Hb) as (reason & w2 & ->); [apply Hs; by left|].
  cbn. eauto 10.
Qed.

Lemma planner_never_completes_witness :
  exists answer n w',
    run noon_2026 (fun c => fst (call_tool true witness_draws c witness_repo))
      (execute_planner (Some the_registry) true (fun _ _ => Raise JSONDecodeError) (fun l => l) 15 (Some 20)
         "0123456789" "run-1" "report fraud" {| gw_policy := AutoApprove; gw_decisions := [] |}) empty_world
      = (Done (Some (reply "run-1" answer n None)), w') /\
    (n = 0 /\ answer = "I could not create a valid plan for this request. Could you rephrase?" \/
     n = 1 /\ exists s reason, answer = "Step '" +:+ objective s +:+ "' failed: " +:+ reason).
Proof.
  apply (planner_never_completes (Some the_registry) true (fun _ _ => Raise JSONDecodeError) (fun l => l) 15).
  - intros l. reflexivity.
  - apply le_n.
  - intros c. exists witness_draws, witness_repo. reflexivity.
Defined.

Lemma boot_tool_schema name req props :
  declared name = Some (req, props) ->
  exists td, registry_get the_registry name = Some td /\ schema_shape (td_input_schema td) req props.
Proof.
  unfold declared. cbn [oget].
  repeat (match goal with |- context [String.eqb name ?t] => destruct (String.eqb_spec name t) as [->|] end;
    [intros [= <- <-]; eexists; split; [vm_compute; reflexivity|]; split; [reflexivity|];
     eexists; split; [reflexivity|]; repeat constructor; eexists; split; reflexivity|]).
  done.
Qed.

Lemma identity_tool_declared name :
  name ∈ IDENTITY_TOOLS -> exists req props, declared name = Some (req, props) /\ "user_id" ∈ req.
Proof.
  unfold IDENTITY_TOOLS. rewrite !elem_of_cons, elem_of_nil. intros H. destruct_or?; subst;
    eexists _, _; (split; [reflexivity|]); apply str_in_spec; reflexivity.
Qed.

Lemma registry_rejects_missing name d f req props id :
  declared name = Some (req, props) -> f ∈ req -> dget d f = None ->
  exists error, rejected_by_registry (Some the_registry) {| rq_id := id; rq_name := name; rq_args := JObj d |}
    = Ok (Some error).
Proof.
  intros (td & Htd & Hs)%boot_tool_schema Hf Hd.
  assert (Hread : forall e, ~ unreadable (JObj d) e) by (intros e (text & E & _); discriminate E).
  destruct (validate_tool_call_spec name (JObj d) _ td _ _ Htd Hs Hread) as (v & Hv & _ & Hiff & _).
  unfold rejected_by_registry. cbn [rq_name rq_args]. rewrite Hv. cbn.
  destruct (tcv_valid v) eqn:E; [|eauto].
  destruct (proj1 Hiff eq_refl) as (d' & [= <-] & [Hreq _]). destruct (Hreq f Hf) as (x & Hx & _). congruence.
Qed.

(** unlike the direct route, the graph never sets the caller's
    identity: a call to an identity tool that leaves it out, as the schema shown to the
    model asks, is rejected; and one with any user the model writes is dispatched as is. *)
Theorem graph_takes_identity_from_model :
  (forall id name d, name ∈ IDENTITY_TOOLS -> dget d "user_id" = None ->
     exists error, rejected_by_registry (Some the_registry) {| rq_id := id; rq_name := name; rq_args := JObj d |}
       = Ok (Some error)) /\
  (forall sid id account user (l : LoopState ReadOnlyPolicy) now mcp w,
     id ∉ lp_executed l ->
     let args := JObj [("account_id", JStr account); ("user_id", JStr user)] in
     w_calls (snd (run now mcp
        (tool_step (Some the_registry) false sid {| rq_id := id; rq_name := "get_balance"; rq_args := args |} l) w))
     = w_calls w ++ [{| tc_name := "get_balance"; tc_arguments := args |}]).
Proof.
  split.
  - intros id name d (req & props & Hdecl & Hu)%identity_tool_declared Hd.
    by eapply registry_rejects_missing.
  - intros sid id account user l now mcp w Hid. cbn zeta.
    set (tc := {| rq_id := id; rq_name := "get_balance";
                  rq_args := JObj [("account_id", JStr account); ("user_id", JStr user)] |}).
    assert (Hr : rejected_by_registry (Some the_registry) tc = Ok None) by (vm_compute; reflexivity).
    assert (Ha : exists d gw', gw_authorize now (operation_of (Some the_registry) tc) (lp_gateway l) = Ok (d, gw')
                               /\ ad_decision d = APPROVED).
    { unfold gw_authorize, policy_authorize, read_only_authorize.
      rewrite bool_decide_true by (vm_compute; reflexivity). cbn. eauto. }
    destruct Ha as (d & gw' & Ha & Hd). revert Hr Ha. generalize the_registry. intros reg Hr Ha.
    unfold tool_step. rewrite run_bind, Hr. cbn [lift run].
    rewrite (bool_decide_false (rq_id tc ∈ lp_executed l)), andb_false_r by done.
    cbn. rewrite Ha. cbn. rewrite Hd. unfold execute_approved. rewrite andb_false_r. cbn.
    destruct (mcp _) as [r|e]; cbn; [|done]. by destruct (tr_success r).
Qed.

(** bootstrapping succeeds exactly when the model's token is set and, in
    production, a database path and an actor resolver other than the development one are
    given; a database path silently resets the step limit to its default; and the server
    entry point, which passes no resolver, never starts in production. *)
Theorem bootstrap_checks_exact b :
  (is_ok (bootstrap_app b) = true <->
   str_true (default "" (bi_token b)) = true /\
   (bi_production b = true -> opt_str_true (bi_db_path b) = true /\ bi_resolver b = Some CustomResolver)) /\
  (forall app, bootstrap_app b = Ok app -> opt_str_true (bi_db_path b) = true ->
     max_agent_steps (app_config app) = 50) /\
  (forall env path var token, lower (strip env) = "production" ->
     is_ok (bootstrap_app (server_input env path var token)) = false).
Proof.
  split; [|split].
  - unfold bootstrap_app, boot_checks. rewrite boot_registry_ok.
    destruct (opt_str_true (bi_db_path b)), (bi_production b), (str_true (default "" (bi_token b))),
      (bi_resolver b) as [[|]|]; cbn; naive_solver.
  - intros app. unfold bootstrap_app, boot_checks. rewrite boot_registry_ok.
    destruct (opt_str_true (bi_db_path b)); [|done].
    destruct (bi_production b), (str_true (default "" (bi_token b))), (bi_resolver b) as [[|]|]; cbn;
      intros [= <-]; done.
  - intros env path var token E. unfold bootstrap_app, boot_checks, server_input. cbn. rewrite E. cbn.
    by destruct path, token as [[|]|].
Qed.
