(* ===== verification/Conversation.v ===== *)
(** Conversation threads ([conversation_service.py]): the in-memory registry of thread
    metadata, in insertion order.  Looking a thread up gives the shared object, whose
    fields the service changes in place: the registry holds it once, so an update of the
    entry is that change. *)
From S2P Require Import Prelude PyStr PyTime PyRepr.

Record ThreadInfo : Type := {
  ti_thread_id : string;
  ti_created_at : string;
  ti_updated_at : string;
  ti_message_count : Z;
  ti_status : string;
}.

Definition ThreadService : Type := list (string * ThreadInfo).

Definition new_thread (now : Z) (id : string) : ThreadInfo :=
  {| ti_thread_id := id; ti_created_at := isoformat now; ti_updated_at := isoformat now;
     ti_message_count := 0; ti_status := "active" |}.

Definition set_status (st : string) (i : ThreadInfo) : ThreadInfo :=
  {| ti_thread_id := ti_thread_id i; ti_created_at := ti_created_at i; ti_updated_at := ti_updated_at i;
     ti_message_count := ti_message_count i; ti_status := st |}.

Definition create_thread (now : Z) (id : string) (s : ThreadService) : result (ThreadInfo * ThreadService) :=
  match oget s id with
  | Some i =>
      if String.eqb (ti_status i) "deleted" then Ok (new_thread now id, oset s id (new_thread now id))
      else Raise (ValueError ("Thread already exists: " +:+ repr_str id))
  | None => Ok (new_thread now id, oset s id (new_thread now id))
  end.

Definition get_thread (id : string) (s : ThreadService) : option ThreadInfo :=
  match oget s id with
  | Some i => if String.eqb (ti_status i) "deleted" then None else Some i
  | None => None
  end.

Definition touch_thread (now : Z) (id : string) (s : ThreadService) : bool * ThreadService :=
  match oget s id with
  | Some i =>
      if String.eqb (ti_status i) "deleted" then (false, s)
      else (true, oset s id {| ti_thread_id := ti_thread_id i; ti_created_at := ti_created_at i;
                               ti_updated_at := isoformat now; ti_message_count := ti_message_count i + 1;
                               ti_status := ti_status i |})
  | None => (false, s)
  end.

Definition archive_thread (id : string) (s : ThreadService) : bool * ThreadService :=
  match oget s id with
  | Some i => (true, oset s id (set_status "archived" i))
  | None => (false, s)
  end.

Definition delete_thread (id : string) (s : ThreadService) : bool * ThreadService :=
  match oget s id with
  | Some i => (true, oset s id (set_status "deleted" i))
  | None => (false, s)
  end.

Definition list_active_threads (s : ThreadService) : list ThreadInfo :=
  List.filter (fun i => negb (str_in (ti_status i) ["deleted"; "archived"])) (ovalues s).

Definition active_count (s : ThreadService) : Z := Z.of_nat (length (list_active_threads s)).

(** ** Runs *)

Inductive ThreadOp : Type :=
  | TCreate (now : Z) (id : string)
  | TTouch (now : Z) (id : string)
  | TArchive (id : string)
  | TDelete (id : string).

Definition thread_step (op : ThreadOp) (s : ThreadService) : ThreadService :=
  match op with
  | TCreate now id => match create_thread now id s with Ok (_, s') => s' | Raise _ => s end
  | TTouch now id => snd (touch_thread now id s)
  | TArchive id => snd (archive_thread id s)
  | TDelete id => snd (delete_thread id s)
  end.

Definition thread_status (s : ThreadService) (id : string) : option string := ti_status <$> oget s id.

(** The status changes of one operation on one thread. *)
Inductive thread_next (op : ThreadOp) (id : string) : option string -> option string -> Prop :=
  | tn_same st : thread_next op id st st
  | tn_created st now : op = TCreate now id -> st = None \/ st = Some "deleted" ->
      thread_next op id st (Some "active")
  | tn_archived st : op = TArchive id -> thread_next op id (Some st) (Some "archived")
  | tn_deleted st : op = TDelete id -> thread_next op id (Some st) (Some "deleted").

Lemma status_oset s id i id' :
  thread_status (oset s id i) id' = if String.eqb id' id then Some (ti_status i) else thread_status s id'.
Proof. unfold thread_status. rewrite oget_oset. by destruct (String.eqb id' id). Qed.

(** ** Properties *)

(** an operation changes the status of no other thread; a thread is
    created only when it is unknown or deleted, and a deleted one is not seen by a lookup;
    but archiving does not ask whether the thread was deleted, and brings it back. *)
Theorem thread_state_machine op s id :
  thread_next op id (thread_status s id) (thread_status (thread_step op s) id) /\
  (thread_status s id = Some "deleted" -> get_thread id s = None) /\
  (thread_status s id = Some "deleted" ->
     exists i, get_thread id (thread_step (TArchive id) s) = Some i /\ ti_status i = "archived").
Proof.
  split; [|split].
  - destruct op as [now k|now k|k|k]; cbn [thread_step];
      unfold create_thread, touch_thread, archive_thread, delete_thread;
      destruct (oget s k) as [i|] eqn:E;
      try destruct (String.eqb_spec (ti_status i) "deleted"); cbn [snd]; try apply tn_same;
      rewrite status_oset; destruct (String.eqb_spec id k) as [->|]; try apply tn_same;
      unfold thread_status; rewrite E; cbn.
    + eapply tn_created; [done|right; by f_equal].
    + eapply tn_created; [done|by left].
    + apply tn_same.
    + by apply tn_archived.
    + by apply tn_archived.
    + by apply tn_deleted.
    + by apply tn_deleted.
  - unfold thread_status, get_thread. destruct (oget s id) as [i|]; [|done]. cbn. by intros [= ->].
  - unfold thread_status, get_thread. cbn. unfold archive_thread.
    destruct (oget s id) as [i|]; [|done]. cbn. intros _. rewrite oget_oset_eq. cbn. eauto.
Qed.
