(* ===== verification/Api.v ===== *)
(** The HTTP service ([api.py]): the agent endpoint with the durable approval session
    and grant it leaves for an interrupted run, the approval endpoint, the thread and
    audit endpoints, and the rate limiter.

    An error response is the exception [HTTPException] with its status; a structured
    detail is the JSON text of it.  The checkpointer gives back the suspended state of a
    thread and the resume values given before: they are arguments of the approval
    endpoint.  The probes see the clients through the attributes they ask for.
    The stack of middleware and the routes are in Server. *)
From Stdlib Require Import Sorting.Sorted.
From S2P Require Import Prelude PyStr PyFloat PyTime Json PyRepr Auth Tools.
From S2P Require Import HitlStore GrantRepo IdempotencyStore EventStore Effects Approval Graph.
From S2P Require Import Routing Orchestration Security Runtime Conversation.

#[local] Open Scope prog_scope.

(** ** Schemas *)

Record AgentRequest : Type := { aq_message : string; aq_session_id : option string }.

Record AgentResponse : Type := {
  as_session : string;
  as_answer : option string;
  as_steps : Z;
  as_status : string;
}.

Inductive ApprovalChoice : Type := ChooseApprove | ChooseReject.

Record ApprovalRequest : Type := {
  aprq_session_id : string;
  aprq_decision : ApprovalChoice;
}.

Record ApprovalResponse : Type := {
  aprs_session_id : string;
  aprs_decision : string;
  aprs_result : option (option string * Z);
}.

(** The checks of the request model. *)
Definition agent_request_ok (q : AgentRequest) : bool :=
  (1 <=? Z.of_nat (String.length (aq_message q))) && (Z.of_nat (String.length (aq_message q)) <=? 10000).

Definition error_detail (code message correlation : string) : string :=
  dumps false (JObj [("error_code", JStr code); ("message", JStr message);
                     ("correlation_id", JStr correlation)]).

(** ** [create_app]'s consistency guard *)

Definition create_app_guard (has_gateway has_hitl has_grants has_db has_executor : bool) : result unit :=
  if negb has_gateway
  then Raise (RuntimeError "create_app requires an explicit AuthorizationGateway — refusing to fail open")
  else if ((has_hitl && has_grants) || has_db) && negb has_executor
  then Raise (HITLConfigurationError
         ("HITL is fully enabled (hitl_store + grant_repo configured) "
          +:+ "but approval_executor is not provided. "
          +:+ "An HITL-enabled application requires HITLApprovalExecutor, "
          +:+ "HITL store, GrantRepository, IdempotencyStore, EventStore, "
          +:+ "and actor resolver."))
  else Ok tt.

(** ** The agent endpoint *)

(** The session and the grant stored for an interrupted run. *)
Definition interrupt_field (d : dict) (k default : string) : string := py_str (dget_or d k (JStr default)).

Definition interrupt_args (d : dict) : json :=
  match dget_or d "tool_args" (JObj []) with JObj a => JObj a | _ => JObj [] end.

Definition pending_session (sid user now : string) (d : dict) : HITLSession :=
  let call := interrupt_field d "tool_call_id" "" in
  {| hs_session_id := sid; hs_user_id := user; hs_thread_id := interrupt_field d "thread_id" sid;
     hs_status := HPENDING; hs_tool_name := interrupt_field d "tool_name" "unknown";
     hs_tool_args := interrupt_args d; hs_authorization_decision := Some "PENDING";
     hs_approval_requirement := Some "required";
     hs_idempotency_key := Some (interrupt_field d "idempotency_key" (sid +:+ ":" +:+ call));
     hs_version := 1; hs_created_at := now; hs_updated_at := now; hs_expires_at := None;
     hs_tool_call_id := call |}.

Definition pending_grant_of (sid user now : string) (d : dict) : GrantRecord :=
  let call := interrupt_field d "tool_call_id" "" in
  {| g_session_id := sid; g_requesting_user_id := user; g_approving_actor_id := "";
     g_thread_id := interrupt_field d "thread_id" sid; g_run_id := Some sid; g_checkpoint_id := Some "";
     g_tool_call_id := call; g_tool_name := interrupt_field d "tool_name" "unknown";
     g_canonical_tool_args := dumps true (interrupt_args d); g_argument_digest := digest (interrupt_args d);
     g_idempotency_key := interrupt_field d "idempotency_key" (sid +:+ ":" +:+ call);
     g_decision := "PENDING"; g_status := GPENDING; g_created_at := now; g_approved_at := None;
     g_expires_at := None; g_consuming_at := None; g_consumed_at := None; g_failed_at := None;
     g_version := 1 |}.

Section endpoints.
Context {P : Type} `{AuthorizationPolicy P}.
Context (registry : option ToolRegistry) (durable has_events has_hitl has_grants : bool) (max_agent_steps : Z).
Context (llm : list Message -> option (list json) -> result (string * list ToolRequest)).
Context (plan_llm : nat -> list Message -> result string).
Context (retriever : option (string -> result (list (string * string)))).
Context (set_order : list string -> list string) (recursion_limit : nat).
Context (router : option (option (string -> result string))).

Definition store_interrupt (user : string) (request_session : option string) (d : dict) : prog AgentResponse :=
  let sid := opt_or request_session (interrupt_field d "session_id" "unknown") in
  do now <- perform ONow ;;
  do_ (if has_hitl then performE (OHitlInsert (pending_session sid user (isoformat now) d)) else Ret tt) ;;
  do_ (if has_grants then performE (OGrantInsert (pending_grant_of sid user (isoformat now) d)) else Ret tt) ;;
  Throw (HTTPException 202
    ("Action requires approval. Use POST /agent/approve with session_id=" +:+ sid)).

Definition agent_operation (q : AgentRequest) (c : TrustedRequestContext) : Operation :=
  {| op_kind := READ; op_name := "agent_request";
     op_target := "session:" +:+ opt_or (aq_session_id q) "new";
     op_details := [("message", JStr (aq_message q)); ("subject_id", JStr (subject_id c))] |}.

(** What an exception of the run becomes. *)
Definition run_failure (c : TrustedRequestContext) (e : exn) : exn :=
  if is_runtime_error e
  then HTTPException 500 (error_detail "AGENT_EXECUTION_FAILED" "The request could not be completed."
                            (correlation_id c))
  else HTTPException 500 (error_detail "INTERNAL_ERROR" "An unexpected error occurred." (correlation_id c)).

Definition agent_endpoint (uuid plan_uuid : string) (q : AgentRequest) (c : TrustedRequestContext)
    (gw : AuthorizationGateway P) : prog AgentResponse :=
  if str_in (subject_id c) ["anonymous"; ""]
  then Throw (HTTPException 401 "Authentication required — provide valid credentials")
  else
    do now <- perform ONow ;;
    do r <- lift (gw_authorize now (agent_operation q c) gw) ;;
    match ad_decision (fst r) with
    | DENIED => Throw (HTTPException 403 "Request denied by authorization policy")
    | PENDING => Throw (HTTPException 401 "Request requires human approval")
    | APPROVED =>
        if Z.of_nat (String.length (aq_message q)) >? 10000
        then Throw (HTTPException 422
               (dumps false (JObj [("error_code", JStr "PROMPT_TOO_LONG");
                                   ("message", JStr "Request message exceeds maximum length.")])))
        else
          do res <- catch (run_agent registry durable has_events max_agent_steps llm plan_llm retriever
                             set_order recursion_limit router uuid plan_uuid (aq_message q)
                             (aq_session_id q) None (Some c) (snd r))
                      (fun e => Throw (run_failure c e)) ;;
          match rr_interrupt res with
          | Some (JObj (kv :: d)) => store_interrupt (subject_id c) (aq_session_id q) (kv :: d)
          | _ => Ret {| as_session := rr_session_id res; as_answer := rr_final_answer res;
                        as_steps := rr_step_count res; as_status := "complete" |}
          end
    end.

(** ** The approval endpoint *)

Definition map_executor_result (r : ApprovalResult) : result unit :=
  if opt_str_true (ap_error r) then
    let error := opt_or (ap_error r) "" in
    if String.eqb (ap_decision r) "reconciliation_required" then Raise (HTTPException 409 error)
    else Raise (HTTPException (if contains "Already" error then 409 else 500) error)
  else Ok tt.

(** [a or b] for optional texts. *)
Definition either_text (a b : option string) : option string := if opt_str_true a then a else b.

Definition approval_response (r : ApprovalResult) (g : GraphResult) : ApprovalResponse :=
  let answer := either_text (as_final_answer (result_state g)) (ap_answer r) in
  {| aprs_session_id := ap_session_id r; aprs_decision := ap_decision r;
     aprs_result := if opt_str_true answer then Some (answer, as_step_count (result_state g)) else None |}.

Definition rejection_value : json :=
  JObj [("decision", JStr "rejected"); ("reason", JStr "Human operator rejected the operation")].

Definition approval_value (session : option HITLSession) : json :=
  JObj [("decision", JStr "approved");
        ("canonical_args", match session with
                           | Some s => match hs_tool_args s with JObj d => JObj d | _ => JObj [] end
                           | None => JObj [] end);
        ("tool_name", JStr (match session with Some s => hs_tool_name s | None => "" end));
        ("tool_call_id", JStr (match session with Some s => hs_tool_call_id s | None => "" end))].

(** The request's own context is not passed on: the executor is called with [None]. *)
Definition approve_endpoint {R} `{ApprovalActorResolver R} (executor : option R) (uuid : string)
    (saved : AgentState) (earlier : list json) (q : ApprovalRequest) (gw : AuthorizationGateway P)
    : prog ApprovalResponse :=
  match executor with
  | None => Throw (HTTPException 501 "HITL approval executor not configured")
  | Some actors =>
      match aprq_decision q with
      | ChooseReject =>
          do r <- reject actors (aprq_session_id q) None ;;
          do_ lift (map_executor_result r) ;;
          do g <- resume_agent registry durable has_events max_agent_steps llm uuid None saved earlier
                    rejection_value gw ;;
          Ret (approval_response r g)
      | ChooseApprove =>
          do r <- approve actors (aprq_session_id q) None ;;
          do_ lift (map_executor_result r) ;;
          do session <- (if has_hitl then performE (OHitlGet (aprq_session_id q)) else Ret None) ;;
          do g <- resume_agent registry durable has_events max_agent_steps llm uuid None saved earlier
                    (approval_value session) gw ;;
          Ret (approval_response r g)
      end
  end.
End endpoints.

(** ** Threads and audit *)

(** Each request makes a service of its own. *)
Definition api_create_thread (now : Z) (uuid : string) : result ThreadInfo :=
  res_map fst (create_thread now uuid []).

Definition api_get_thread (id : string) : result ThreadInfo :=
  match get_thread id [] with
  | Some i => Ok i
  | None => Raise (HTTPException 404 "Thread not found")
  end.

Definition api_delete_thread (id : string) : result string :=
  if fst (delete_thread id []) then Ok id else Raise (HTTPException 404 "Thread not found").

(** The event store has no method [list_by_run]: asking for a run raises
    AttributeError, which becomes an error response. *)
Definition list_audit_events (has_store : bool) (run_id : string) : result Z :=
  if negb has_store then Raise (HTTPException 501 "Event store not configured")
  else if str_true run_id then Raise (HTTPException 500 "Failed to query audit events")
  else Ok 0.

(** ** Rate limiting *)

(** The counters of [RateLimitMiddleware], per tenant and path: the clock readings, in
    microseconds, of the requests admitted in the last window. *)
Notation Counters := (gmap string (list Z)).

Definition rate_key (tenant : option string) (path : string) : string :=
  default "default" tenant +:+ ":" +:+ path.

Definition rate_dispatch (max_requests window : Z) (key : string) (now : Z) (c : Counters)
    : result unit * Counters :=
  let c0 := match c !! key with Some _ => c | None => <[key := []]> c end in
  let timestamps := List.filter (fun t => now - t <? window) (default [] (c0 !! key)) in
  if Z.of_nat (length timestamps) >=? max_requests
  then (Raise (HTTPException 429 "Rate limit exceeded"), c0)
  else (Ok tt, <[key := timestamps ++ [now]]> c0).

(** A run of requests: the counters at the end, and the admitted ones in order. *)
Fixpoint rate_run (max_requests window : Z) (reqs : list (string * Z)) (c : Counters) (log : list (string * Z))
    : Counters * list (string * Z) :=
  match reqs with
  | [] => (c, log)
  | (key, now) :: reqs' =>
      let '(r, c') := rate_dispatch max_requests window key now c in
      rate_run max_requests window reqs' c' (if is_ok r then log ++ [(key, now)] else log)
  end.

(** ** Health probes *)

Definition version : string := "0.2.0".

(** The clients the probes look at: how many tools the MCP client has, if it has that
    attribute at all, and whether there is a model. *)
Definition liveness : dict := [("status", JStr "alive")].

Definition readiness_checks (mcp_tools : option Z) (has_llm : bool) : list (string * string) :=
  [("mcp", if is_some mcp_tools then "ok" else "degraded"); ("provider", if has_llm then "configured" else "missing")].

Definition readiness (mcp_tools : option Z) (has_llm : bool) : Z * dict :=
  let checks := readiness_checks mcp_tools has_llm in
  let failed := map fst (List.filter (fun kv => str_in (snd kv) ["error"; "missing"]) checks) in
  let shown := JObj (map (fun kv => (fst kv, JStr (snd kv))) checks) in
  if list_true failed
  then (503, [("status", JStr "not_ready"); ("checks", shown); ("failed", JArr (map JStr failed))])
  else (200, [("status", JStr "ready"); ("checks", shown)]).

Definition health : dict := [("status", JStr "ok"); ("version", JStr version)].

Definition deep_health (mcp_tools : option Z) (has_llm : bool) : dict :=
  [("status", JStr "ok"); ("version", JStr version); ("mcp_tools", JInt (default 0 mcp_tools));
   ("provider_configured", JBool has_llm)].

(** ** Lemmas: the stored session keeps its operation *)

Definition same_operation (s s' : HITLSession) : Prop :=
  hs_tool_name s' = hs_tool_name s /\ hs_tool_args s' = hs_tool_args s /\
  hs_tool_call_id s' = hs_tool_call_id s.

Definition stored_operation (sid : string) (s : HITLSession) (w : World) : Prop :=
  exists s', hitl_get sid (w_hitl w) = Ok (Some s') /\ same_operation s s'.

Lemma stored_operation_exec sid s now mcp R (o : op R) w :
  stored_operation sid s w -> stored_operation sid s (snd (exec now mcp o w)).
Proof.
  intros (s' & Hs & Hop).
  assert (Hkeep : forall w', w_hitl w' = w_hitl w -> stored_operation sid s w').
  { intros w' E. exists s'. by rewrite E. }
  destruct o; cbn; try (by apply Hkeep);
    repeat match goal with |- context [let '(_, _) := ?x in _] => destruct x eqn:? end; try by apply Hkeep.
  - (* insert *) destruct (hitl_insert s0 (w_hitl w)) as [t|] eqn:E; [|by apply Hkeep].
    unfold hitl_insert in E. destruct (w_hitl w !! hs_session_id s0) eqn:Es0; [done|].
    destruct (key_taken _ _); [done|]. injection E as <-. exists s'. split; [|done]. cbn.
    unfold hitl_get in *. destruct (decide (hs_session_id s0 = sid)) as [Heq|Hne].
    + rewrite <-Heq, Es0 in Hs. done.
    + by rewrite lookup_insert_ne.
  - (* update *) match goal with E : hitl_update_status _ _ _ _ _ = _ |- _ => revert E end.
    unfold hitl_update_status. destruct (w_hitl w !! id) as [r|] eqn:Er; [|intros [= <- <-]; by apply Hkeep].
    destruct (hr_version r =? expected_version); intros [= <- <-]; [|by apply Hkeep].
    unfold stored_operation, hitl_get in *. cbn. destruct (decide (id = sid)) as [->|Hne].
    + rewrite Er in Hs. rewrite lookup_insert_eq. revert Hs. unfold row_to_hitl_session. cbn.
      rewrite hitl_status_roundtrip. intros (x & (st0 & _ & (args & Ha & [= <-])%res_bind_ok)%res_bind_ok & [= <-])%res_bind_ok.
      rewrite Ha. cbn. eexists. split; [done|]. unfold same_operation in *. by cbn in *.
    + rewrite lookup_insert_ne by done. eauto.
  - (* grant insert *) destruct (insert_pending g (w_grants w)); by apply Hkeep.
Qed.

Lemma stored_operation_run {A} sid s now mcp (p : prog A) w :
  stored_operation sid s w -> stored_operation sid s (snd (run now mcp p w)).
Proof. apply run_invariant. intros R o w0. apply stored_operation_exec. Qed.

(** Resuming a suspended state whose one tool call was approved, with its key still
    RESERVED, dispatches the call. *)
Lemma resume_dispatches {P} `{AuthorizationPolicy P} registry max_steps llm (gw gw' : AuthorizationGateway P)
    st sid tc content v dv args d rec now mcp w :
  last_message (as_messages st) = Some (AIMessage content [tc]) -> as_session_id st = Some sid ->
  rq_id tc <> "" -> rq_id tc ∉ as_executed st -> rejected_by_registry registry tc = Ok None ->
  gw_authorize now (operation_of registry tc) gw = Ok (d, gw') -> ad_decision d = PENDING ->
  v = JObj dv -> resume_decision v = "approved" -> dget dv "canonical_args" = Some args ->
  idem_get (sid +:+ ":" +:+ rq_id tc) (w_idem w) = Ok (Some rec) -> ir_status rec = IRESERVED ->
  calls_first now mcp {| tc_name := rq_name tc; tc_arguments := args |}
    (resume_graph registry true max_steps llm gw [v] st) w.
Proof.
  intros Hlast Hsid Hid Hex Hrej Ha Hd -> Hdec Hargs Hget Hst. unfold resume_graph, tools_then.
  apply calls_first_bind, calls_first_on_pause, calls_first_bind. unfold tool_node. rewrite Hlast. cbn [tool_calls_of list_true].
  apply calls_first_bind. cbn [tool_loop]. apply calls_first_bind. unfold tool_step. rewrite Hrej. cbn [lift bind].
  rewrite (bool_decide_false (_ ∈ lp_executed _)), andb_false_r by done.
  eapply calls_first_after; [exact (run_op now mcp _ _ w)|done|]. cbn [exec fst snd lp_gateway].
  rewrite Ha. cbn [lift bind fst snd lp_resume]. rewrite Hd. unfold after_interrupt. rewrite Hdec, String.eqb_refl, Hargs, Hsid.
  by eapply (reserved_key_dispatches registry (Some sid) {| rq_id := rq_id tc; rq_name := rq_name tc; rq_args := args |}).
Qed.

(** ** Lemmas: the rate limiter *)

(** The times of the admitted requests of a key. *)
Definition admitted (key : string) (log : list (string * Z)) : list Z :=
  map snd (List.filter (fun kt => String.eqb (fst kt) key) log).

Definition in_window (window t : Z) (x : Z) : bool := (t - window <? x) && (x <=? t).

(** What the counters know: every admitted time is in the counter of its key or too old
    to matter now, and none is in the future. *)
Definition counters_ok (max_requests window now : Z) (c : Counters) (log : list (string * Z)) : Prop :=
  forall key, exists old,
    admitted key log ≡ₚ old ++ default [] (c !! key) /\
    (forall x, x ∈ old -> x <= now - window) /\
    (forall x, x ∈ admitted key log -> x <= now) /\
    Z.of_nat (length (default [] (c !! key))) <= max_requests /\
    forall t, t ∈ admitted key log -> Z.of_nat (countb (in_window window t) (admitted key log)) <= max_requests.

Lemma admitted_app key log key' t :
  admitted key (log ++ [(key', t)]) = admitted key log ++ (if String.eqb key' key then [t] else []).
Proof.
  unfold admitted. rewrite List.filter_app, map_app. cbn. by destruct (String.eqb key' key).
Qed.

Lemma countb_le_length {A} (p : A -> bool) l : (countb p l <= length l)%nat.
Proof. unfold countb. apply List.filter_length_le. Qed.

Lemma filter_split {A} (p : A -> bool) l : List.filter p l ++ List.filter (fun x => negb (p x)) l ≡ₚ l.
Proof.
  induction l as [|x l IH]; cbn; [done|]. destruct (p x); cbn; [by constructor|].
  rewrite <-Permutation_middle. by constructor.
Qed.

Section rate.
Context (max_requests window : Z).
Hypothesis max_nonneg : 0 <= max_requests.
Hypothesis window_pos : 0 < window.

Definition recent (now : Z) (l : list Z) : list Z := List.filter (fun t => now - t <? window) l.

(** The requests still in the counter are those of the window. *)
Lemma recent_count last now c log key :
  counters_ok max_requests window last c log -> last <= now ->
  countb (in_window window now) (admitted key log) = length (recent now (default [] (c !! key))).
Proof.
  intros Hok Hle. destruct (Hok key) as (old & Hperm & Hold & Hpast & _ & _).
  rewrite (countb_perm _ _ _ Hperm), countb_app.
  assert (countb (in_window window now) old = 0%nat) as ->.
  { apply countb_0. intros x Hx. specialize (Hold x Hx). unfold in_window.
    destruct (Z.ltb_spec (now - window) x); [lia|done]. }
  cbn. unfold countb, recent. f_equal. apply List.filter_ext_in. intros x Hx%list_elem_of_In.
  assert (x <= last).
  { apply Hpast. rewrite Hperm. apply elem_of_app. by right. }
  unfold in_window. destruct (Z.ltb_spec (now - window) x), (Z.leb_spec x now), (Z.ltb_spec (now - x) window);
    done || lia.
Qed.

Lemma counters_ok_same last now c c' log :
  (forall k, default [] (c' !! k) = default [] (c !! k)) -> last <= now ->
  counters_ok max_requests window last c log -> counters_ok max_requests window now c' log.
Proof.
  intros Hc Hle Hok key. destruct (Hok key) as (old & Hperm & Hold & Hpast & Hlen & Hcnt).
  exists old. rewrite Hc. split; [done|]. split; [intros x Hx%Hold; lia|]. split; [intros x Hx%Hpast; lia|done].
Qed.

Lemma counters_ok_admit last now c log key :
  counters_ok max_requests window last c log -> last <= now ->
  Z.of_nat (length (recent now (default [] (c !! key)))) < max_requests ->
  counters_ok max_requests window now (<[key := recent now (default [] (c !! key)) ++ [now]]> c) (log ++ [(key, now)]).
Proof.
  intros Hok Hle Hlt k. rewrite admitted_app. destruct (String.eqb_spec key k) as [<-|Hne].
  2:{ rewrite lookup_insert_ne, app_nil_r by done.
      by destruct (counters_ok_same last now c c log (fun _ => eq_refl) Hle Hok k) as (old & Hold); exists old. }
  pose proof (recent_count last now c log key Hok Hle) as Hrc.
  destruct (Hok key) as (old & Hperm & Hold & Hpast & Hlen & Hcnt). set (C := default [] (c !! key)) in *.
  rewrite lookup_insert_eq. change (default [] (Some (recent now C ++ [now]))) with (recent now C ++ [now]).
  exists (old ++ List.filter (fun x => negb (now - x <? window)) C). split; [|split; [|split; [|split]]].
  - rewrite Hperm, <-!(assoc_L (++)). apply Permutation_app_head.
    rewrite (assoc_L (++)). apply Permutation_app_tail. rewrite Permutation_app_comm.
    symmetry. apply (filter_split (fun x => now - x <? window)).
  - intros x [Hx|Hx]%elem_of_app; [specialize (Hold x Hx); lia|].
    apply list_elem_of_In, List.filter_In in Hx as [_ Hx]. apply negb_true_iff, Z.ltb_ge in Hx. lia.
  - intros x [Hx|Hx]%elem_of_app; [specialize (Hpast x Hx); lia|].
    apply list_elem_of_singleton in Hx. lia.
  - rewrite length_app. cbn. lia.
  - intros t Ht. rewrite countb_app.
    assert (Hnow : in_window window now now = true).
    { unfold in_window. destruct (Z.ltb_spec (now - window) now), (Z.leb_spec now now); done || lia. }
    assert (t = now \/ t < now /\ t ∈ admitted key log) as [->|[Hlt' Ht']].
    { apply elem_of_app in Ht as [Ht|Ht%list_elem_of_singleton]; [|by left].
      specialize (Hpast t Ht). destruct (decide (t = now)); [by left|right; split; [lia|done]]. }
    + rewrite Hrc. unfold countb. cbn. rewrite Hnow. cbn. lia.
    + specialize (Hcnt t Ht'). unfold countb in *. cbn. unfold in_window at 2.
      destruct (Z.leb_spec now t); [lia|]. rewrite andb_false_r. cbn. lia.
Qed.

Lemma rate_dispatch_ok last now c log key r c' :
  counters_ok max_requests window last c log -> last <= now ->
  rate_dispatch max_requests window key now c = (r, c') ->
  counters_ok max_requests window now c' (if is_ok r then log ++ [(key, now)] else log) /\
  (is_ok r = true <-> Z.of_nat (countb (in_window window now) (admitted key log)) < max_requests).
Proof.
  intros Hok Hle. unfold rate_dispatch. set (c0 := match c !! key with Some _ => c | None => _ end).
  assert (Hc0 : forall k, default [] (c0 !! k) = default [] (c !! k)).
  { intros k. subst c0. destruct (c !! key) eqn:E; [done|]. destruct (decide (k = key)) as [->|Hne];
      [by rewrite lookup_insert_eq, E|by rewrite lookup_insert_ne]. }
  assert (Hok0 : counters_ok max_requests window last c0 log) by (by apply (counters_ok_same last last c)).
  rewrite (recent_count last now c0 log key Hok0 Hle). fold (recent now (default [] (c0 !! key))).
  destruct (Z.geb_spec (Z.of_nat (length (recent now (default [] (c0 !! key))))) max_requests) as [Hge|Hlt];
    intros [= <- <-]; cbn [is_ok].
  - split; [by apply (counters_ok_same last now c0)|]. split; [done|lia].
  - split; [by apply (counters_ok_admit last)|]. by split.
Qed.

Lemma rate_run_ok reqs last c log :
  counters_ok max_requests window last c log -> Sorted Z.le (last :: map snd reqs) ->
  exists now, counters_ok max_requests window now (fst (rate_run max_requests window reqs c log))
                (snd (rate_run max_requests window reqs c log)) /\
    forall key t, Sorted Z.le (last :: map snd (reqs ++ [(key, t)])) -> now <= t.
Proof.
  revert last c log. induction reqs as [|[key now] reqs IH]; intros last c log Hok Hs; cbn.
  - exists last. split; [done|]. intros key t Ht. apply Sorted_inv in Ht as [_ Ht]. by inversion Ht.
  - apply Sorted_inv in Hs as [Hs Hle]. inversion Hle as [|? ? Hle']. subst. cbn in *.
    destruct (rate_dispatch max_requests window key now c) as [r c'] eqn:E.
    destruct (rate_dispatch_ok _ _ _ _ _ _ _ Hok Hle' E) as [Hok' _].
    destruct (IH now c' _ Hok' Hs) as (now' & H1 & H2). exists now'. split; [done|].
    intros k t Ht. apply Sorted_inv in Ht as [Ht _]. by apply (H2 k).
Qed.

Lemma counters_ok_empty now : counters_ok max_requests window now ∅ [].
Proof.
  intros key. exists []. rewrite lookup_empty. cbn. split; [done|].
  repeat split; try (intros x Hx; by apply elem_of_nil in Hx). lia.
Qed.
End rate.

(** A bound from below for the clock readings of a run. *)
Lemma sorted_from_first {A} (reqs : list (A * Z)) (x : A) now :
  Sorted Z.le (map snd (reqs ++ [(x, now)])) ->
  exists first, Sorted Z.le (first :: map snd (reqs ++ [(x, now)])).
Proof.
  intros Hs. destruct (map snd (reqs ++ [(x, now)])) as [|t l]; [exists 0; repeat constructor|].
  exists t. constructor; [done|]. constructor. lia.
Qed.

Lemma sorted_prefix (l k : list Z) : Sorted Z.le (l ++ k) -> Sorted Z.le l.
Proof.
  induction l as [|x l IH]; cbn; [constructor|]. intros [Hs Hx]%Sorted_inv.
  constructor; [by apply IH|]. destruct l; [constructor|]. inversion Hx. by constructor.
Qed.

(** Readiness depends on the model alone: a client without a connection or without tools, and
    the stores, never make the service unready. *)
Lemma readiness_needs_model mcp_tools has_llm :
  fst (readiness mcp_tools has_llm) = if has_llm then 200 else 503.
Proof. by destruct mcp_tools, has_llm. Qed.

(** ** Properties *)

(** C27: with a clock that does not go back, the rate limiter is exact: every request
    it admits is, with those admitted before it in the last window for the same tenant and
    path, one of at most [max_requests]; and the next request is admitted if and only if
    fewer than [max_requests] were admitted in the window that ends with it. *)
Theorem rate_limit_exact max_requests window reqs key now c log :
  0 <= max_requests -> 0 < window -> Sorted Z.le (map snd (reqs ++ [(key, now)])) ->
  rate_run max_requests window reqs ∅ [] = (c, log) ->
  (forall k t, t ∈ admitted k log ->
     Z.of_nat (countb (in_window window t) (admitted k log)) <= max_requests) /\
  (is_ok (fst (rate_dispatch max_requests window key now c)) = true <->
     Z.of_nat (countb (in_window window now) (admitted key log)) < max_requests).
Proof.
  intros Hm Hw Hs Hr. destruct (sorted_from_first _ _ _ Hs) as (first & Hf).
  assert (Hp : Sorted Z.le (first :: map snd reqs)).
  { rewrite map_app in Hf. by apply (sorted_prefix (first :: map snd reqs) [now]). }
  destruct (rate_run_ok max_requests window Hw reqs first ∅ [] (counters_ok_empty _ _ Hm first) Hp)
    as (last & Hok & Hlast). rewrite Hr in Hok. cbn [fst snd] in Hok. specialize (Hlast key now Hf). split.
  - intros k t Ht. destruct (Hok k) as (old & _ & _ & _ & _ & Hcnt). by apply Hcnt.
  - destruct (rate_dispatch max_requests window key now c) as [r c'] eqn:E.
    by destruct (rate_dispatch_ok max_requests window Hw last now c log key r c' Hok Hlast E) as [_ Hiff].
Qed.

Lemma rate_limit_exact_witness :
  let reqs := [("t:/x", 0); ("t:/x", 10); ("u:/x", 11); ("t:/x", 20)] in
  let '(c, log) := rate_run 2 60 reqs ∅ [] in
  log = [("t:/x", 0); ("t:/x", 10); ("u:/x", 11)] /\
  is_ok (fst (rate_dispatch 2 60 "t:/x" 65 c)) = true.
Proof.
  destruct (rate_run 2 60 [("t:/x", 0); ("t:/x", 10); ("u:/x", 11); ("t:/x", 20)] ∅ []) as [c log] eqn:E.
  destruct (rate_limit_exact 2 60 [("t:/x", 0); ("t:/x", 10); ("u:/x", 11); ("t:/x", 20)] "t:/x" 65 c log
    ltac:(lia) ltac:(lia)) as [_ H].
  - cbn. repeat (constructor; try lia).
  - exact E.
  - vm_compute in E. injection E as <- <-. split; [reflexivity|]. apply H. vm_compute. reflexivity.
Defined.

(** C11: an approved operation whose dispatch succeeds is dispatched again.  The
    approval executor dispatches it as granted and leaves its idempotency record RESERVED;
    the endpoint then resumes the graph, whose tool node finds the key RESERVED, marks it
    EXECUTING and dispatches the approved tool with the approved arguments a second time.
    This holds for every policy that leaves the call pending, and any model and contents of the
    stores, taken as maps (on the shared file the claim may find it locked, as in
    [SqlWorld.approval_after_first_event_is_locked_out]). *)
Theorem approved_operation_runs_twice {P} `{AuthorizationPolicy P} {R} `{ApprovalActorResolver R}
    registry has_events max_agent_steps llm (actors : R) uuid saved (gw gw' : AuthorizationGateway P)
    now mcp w sid s g actor c res args content tc d :
  ready actors now w sid None s g actor c -> mcp c = Ok res -> tr_success res = true ->
  hs_tool_args s = JObj args -> hs_idempotency_key s = Some (sid +:+ ":" +:+ rq_id tc) ->
  last_message (as_messages saved) = Some (AIMessage content [tc]) -> as_session_id saved = Some sid ->
  rq_id tc <> "" -> rq_id tc ∉ as_executed saved -> rejected_by_registry registry tc = Ok None ->
  gw_authorize now (operation_of registry tc) gw = Ok (d, gw') -> ad_decision d = PENDING ->
  exists cs, w_calls (snd (run now mcp
      (approve_endpoint registry true has_events true max_agent_steps llm (Some actors) uuid saved []
         {| aprq_session_id := sid; aprq_decision := ChooseApprove |} gw) w))
    = w_calls w ++ c :: {| tc_name := rq_name tc; tc_arguments := JObj args |} :: cs.
Proof.
  intros Hready Hm Hok Hargs Hkey Hlast Hsid Hid Hex Hrej Ha Hd.
  destruct (approve_settles actors now mcp _ _ _ _ _ _ _ Hready) as (w1 & Hrun & Hcalls & _ & _ & Hk).
  assert (Hs : stored_operation sid s w1).
  { change w1 with (snd (Done (final_result sid (mcp c)), w1)). rewrite <-Hrun. apply stored_operation_run.
    exists s. split; [apply (rd_session _ _ _ _ _ _ _ _ _ Hready)|done]. }
  destruct Hs as (s' & Hget & Hname & Hargs' & Hcall).
  rewrite Hm, Hkey in Hk. cbn [final_key] in Hk. rewrite Hok in Hk.
  assert (opt_or (Some (sid +:+ ":" +:+ rq_id tc)) sid = sid +:+ ":" +:+ rq_id tc) as Eo by (by destruct sid).
  rewrite Eo in Hk. unfold key_status in Hk.
  destruct (idem_get _ (w_idem w1)) as [[rec|]|] eqn:Hi; try done. cbn in Hk. injection Hk as Hst.
  assert (calls_first now mcp {| tc_name := rq_name tc; tc_arguments := JObj args |}
            (resume_agent registry true has_events max_agent_steps llm uuid None saved [] (approval_value (Some s')) gw)
            w1) as (cs & Hcs).
  { apply calls_first_bind. cbn [app]. eapply resume_dispatches; try done.
    cbn. by rewrite Hargs', Hargs. }
  cbn [approve_endpoint aprq_decision aprq_session_id]. rewrite run_bind, Hrun, Hm. cbn [final_result].
  rewrite Hok, run_bind. cbn [map_executor_result ap_error ap_answer_result opt_str_true lift run].
  rewrite run_doE. cbn [exec fst snd]. rewrite Hget. rewrite run_bind.
  destruct (run now mcp (resume_agent _ _ _ _ _ _ _ _ _ _ _) w1) as [[r|e|v] w2]; cbn in *;
    exists cs; by rewrite Hcs, Hcalls, <-(assoc_L (++)).
Qed.

Definition witness_saved : AgentState :=
  {| as_messages := [AIMessage "" [{| rq_id := "call-1"; rq_name := "submit_transfer";
                                      rq_args := hs_tool_args witness_session |}]];
     as_final_answer := None; as_step_count := 1; as_session_id := Some "s-1"; as_executed := ∅ |}.

Lemma approved_operation_runs_twice_witness :
  let endpoint := approve_endpoint None true false true 50 witness_llm (Some {| fixed_actor_id := "bob" |})
                    "u-1" witness_saved [] {| aprq_session_id := "s-1"; aprq_decision := ChooseApprove |}
                    {| gw_policy := RequireApproval; gw_decisions := [] |} in
  exists cs, w_calls (snd (run noon_2026 witness_mcp endpoint witness_world))
    = witness_call :: witness_call :: cs.
Proof.
  destruct (gw_authorize noon_2026 (operation_of None {| rq_id := "call-1"; rq_name := "submit_transfer";
    rq_args := hs_tool_args witness_session |}) {| gw_policy := RequireApproval; gw_decisions := [] |})
    as [[d gw']|e] eqn:E; [|vm_compute in E; discriminate E].
  destruct (approved_operation_runs_twice None false 50 witness_llm {| fixed_actor_id := "bob" |} "u-1"
    witness_saved {| gw_policy := RequireApproval; gw_decisions := [] |} gw' noon_2026 witness_mcp witness_world
    "s-1" witness_session (pending_grant witness_grant_record) {| actor_id := "bob"; actor_source := "test" |}
    witness_call {| tr_tool_name := "submit_transfer"; tr_success := true; tr_content := "done"; tr_error := None |}
    [("draft_id", JStr "d-1"); ("user_id", JStr "user-alice")] ""
    {| rq_id := "call-1"; rq_name := "submit_transfer"; rq_args := hs_tool_args witness_session |} d
    witness_ready eq_refl eq_refl eq_refl eq_refl eq_refl eq_refl) as (cs & Hcs);
    [discriminate|apply not_elem_of_empty|reflexivity|exact E|vm_compute in E; by injection E as <- <-|].
  exists cs. exact Hcs.
Defined.

(** C26: what the agent endpoint stores for an interrupted run can be approved.  The
    request is answered with status 202; the stored session and grant are exactly what the
    approval executor demands, for the tool and the arguments of the interrupt, by any
    resolved actor; nothing is dispatched.  No expiry is stored: the operation stays
    approvable at every later time. *)
Theorem handoff_is_approvable {R} `{ApprovalActorResolver R} (actors : R) ctx actor user request_session d
    now later mcp w :
  let sid := opt_or request_session (interrupt_field d "session_id" "unknown") in
  let call := interrupt_field d "tool_call_id" "" in
  let key := interrupt_field d "idempotency_key" (sid +:+ ":" +:+ call) in
  w_hitl w !! sid = None -> key_taken (w_hitl w) (Some key) = false ->
  w_grants w !! sid = None -> (forall id g, w_grants w !! id = Some g -> g_idempotency_key g <> key) ->
  w_idem w !! opt_or (Some key) sid = None -> call <> "" -> json_ok (interrupt_args d) = true ->
  resolve actors ctx = Some actor ->
  exists w' s g,
    run now mcp (store_interrupt true true user request_session d) w
      = (Failed (HTTPException 202
           ("Action requires approval. Use POST /agent/approve with session_id=" +:+ sid)), w') /\
    w_calls w' = w_calls w /\
    ready actors later w' sid ctx s g actor
      {| tc_name := interrupt_field d "tool_name" "unknown"; tc_arguments := canon true (interrupt_args d) |}.
Proof.
  cbv zeta. set (sid := opt_or _ _). set (call := interrupt_field d "tool_call_id" "").
  set (key := interrupt_field d "idempotency_key" _).
  intros Hs Hk Hg Hgk Hi Hcall Hj Ha.
  assert (Hins : hitl_insert (pending_session sid user (isoformat now) d) (w_hitl w)
     = Ok (<[sid := session_to_row (pending_session sid user (isoformat now) d)]> (w_hitl w))).
  { unfold hitl_insert. cbn [hs_session_id hs_idempotency_key pending_session]. rewrite Hs.
    fold call. fold key. by rewrite Hk. }
  assert (Hgins : insert_pending (pending_grant_of sid user (isoformat now) d) (w_grants w)
     = Ok (<[sid := pending_grant (pending_grant_of sid user (isoformat now) d)]> (w_grants w))).
  { unfold insert_pending. cbn [g_decision g_session_id g_idempotency_key pending_grant_of].
    change (decision_allowed "PENDING") with true. cbn [negb]. rewrite Hg. fold call. fold key.
    destruct (existsb _ _) eqn:E; [|done]. apply existsb_exists in E as ([id g] & Hin & E%String.eqb_eq).
    apply list_elem_of_In, elem_of_map_to_list in Hin. by apply Hgk in Hin. }
  eexists _, (pending_session sid user (isoformat now) d),
    (pending_grant (pending_grant_of sid user (isoformat now) d)).
  split; [|split].
  - unfold store_interrupt. fold sid. rewrite run_do. cbn [exec fst snd]. rewrite run_doE. cbn [exec].
    rewrite Hins. cbn [fst snd]. rewrite run_doE. cbn [exec w_grants upd_hitl]. rewrite Hgins. reflexivity.
  - done.
  - split; try done.
    + cbn. unfold hitl_get. rewrite lookup_insert_eq. by rewrite row_roundtrip.
    + cbn. by rewrite lookup_insert_eq.
    + unfold issued_for. cbn. by rewrite String.eqb_refl.
    + cbn [g_canonical_tool_args pending_grant pending_grant_of tc_arguments]. by apply loads_dumps.
Qed.

Lemma handoff_is_approvable_witness :
  let d := [("tool_name", JStr "submit_transfer"); ("tool_args", JObj [("draft_id", JStr "d-1")]);
            ("tool_call_id", JStr "call-1"); ("thread_id", JStr "t-1"); ("idempotency_key", JStr "s-1:call-1")] in
  exists w' s g,
    run noon_2026 witness_mcp (store_interrupt true true "user-alice" (Some "s-1") d) empty_world
      = (Failed (HTTPException 202
           "Action requires approval. Use POST /agent/approve with session_id=s-1"), w') /\
    w_calls w' = [] /\
    ready {| fixed_actor_id := "bob" |} noon_2026 w' "s-1" None s g {| actor_id := "bob"; actor_source := "test" |}
      {| tc_name := "submit_transfer"; tc_arguments := JObj [("draft_id", JStr "d-1")] |}.
Proof.
  apply (handoff_is_approvable {| fixed_actor_id := "bob" |} None {| actor_id := "bob"; actor_source := "test" |}
    "user-alice" (Some "s-1")
    [("tool_name", JStr "submit_transfer"); ("tool_args", JObj [("draft_id", JStr "d-1")]);
     ("tool_call_id", JStr "call-1"); ("thread_id", JStr "t-1"); ("idempotency_key", JStr "s-1:call-1")]
    noon_2026 noon_2026 witness_mcp empty_world); try reflexivity.
  - intros id g Hg. vm_compute in Hg. discriminate Hg.
  - discriminate.
Defined.
