(* ===== verification/Sandbox.v ===== *)
(** The core-banking ports ([adapters/banking_ports.py]) as type classes with the contract a
    client relies on, and the sandbox adapter that implements them
    ([adapters/sandbox_banking.py]).

    The digits of the UUID drawn for a transaction are an argument. *)
From S2P Require Import Prelude PyStr PyFloat.

(** ** The ports *)

Record TransferRequest : Type := {
  source_account_id : string;
  beneficiary_id : string;
  amount : f64;
  currency : string;
  reference : string;
  idempotency_key : string;
  correlation_id : string;
}.

Record TransferResponse : Type := {
  success : bool;
  transaction_id : string;
  status : string;
  failure_reason : string;
  upstream_reference : string;
}.

Record AccountInfo : Type := {
  account_id : string;
  owner_id : string;
  balance : f64;
  account_currency : string;
  account_type : string;
  active : bool;
}.

Class CoreBankingPort (S : Type) : Type := {
  get_balance : string -> string -> S -> option AccountInfo;
  submit_transfer : string -> TransferRequest -> string -> S -> TransferResponse * S;
  get_transfer_status : string -> string -> S -> TransferResponse;
}.

Class PaymentsPort (S : Type) : Type := {
  initiate_payment : string -> TransferRequest -> string -> S -> TransferResponse * S;
  check_payment_status : string -> string -> S -> TransferResponse;
}.

(** What a client may rely on: a refused transfer changes nothing, and the status of an
    accepted one is its response until another transfer gets its number. *)
Class CoreBankingLaws (S : Type) `{CoreBankingPort S} : Prop := {
  refused_changes_nothing uuid q tenant s :
    success (fst (submit_transfer uuid q tenant s)) = false -> snd (submit_transfer uuid q tenant s) = s;
  accepted_is_reported uuid q tenant s :
    success (fst (submit_transfer uuid q tenant s)) = true ->
    get_transfer_status (transaction_id (fst (submit_transfer uuid q tenant s))) tenant
      (snd (submit_transfer uuid q tenant s)) = fst (submit_transfer uuid q tenant s);
  other_reports_kept uuid q tenant s id :
    id <> transaction_id (fst (submit_transfer uuid q tenant s)) ->
    get_transfer_status id tenant (snd (submit_transfer uuid q tenant s)) = get_transfer_status id tenant s;
}.

(** Requests of one tenant, each with the digits drawn for it, in order. *)
Section client.
Context {S : Type} `{CoreBankingPort S}.

Fixpoint submit_all (tenant : string) (qs : list (string * TransferRequest)) (s : S) : list TransferResponse * S :=
  match qs with
  | [] => ([], s)
  | (uuid, q) :: qs' =>
      let '(r, s1) := submit_transfer uuid q tenant s in
      let '(rs, s2) := submit_all tenant qs' s1 in
      (r :: rs, s2)
  end.

Definition accepted (rs : list TransferResponse) : list string := map transaction_id (List.filter success rs).
End client.

(** ** The sandbox *)

Record SandboxBankingAdapter : Type := {
  accounts : list (string * AccountInfo);
  transfers : list (string * TransferResponse);
}.

Definition account (id owner : string) (b : Z) (type : string) : AccountInfo :=
  {| account_id := id; owner_id := owner; balance := f_of_Z b; account_currency := "USD"; account_type := type;
     active := true |}.

Definition seed_data : list (string * AccountInfo) :=
  [("ACC-1001", account "ACC-1001" "user-alice" 15000 "checking");
   ("ACC-1002", account "ACC-1002" "user-bob" 8500 "savings");
   ("ACC-1003", account "ACC-1003" "user-carol" 25000 "checking")].

(** The constructor, which seeds an adapter without accounts. *)
Definition new_sandbox (accounts : list (string * AccountInfo)) (transfers : list (string * TransferResponse))
    : SandboxBankingAdapter :=
  {| accounts := if list_true accounts then accounts else seed_data; transfers := transfers |}.

Definition upper_char (c : Ascii.ascii) : Ascii.ascii :=
  if is_lower c then Ascii.ascii_of_nat (Ascii.nat_of_ascii c - 32) else c.

Fixpoint upper (s : string) : string :=
  match s with EmptyString => EmptyString | String c s' => String (upper_char c) (upper s') end.

Definition refusal (reason : string) : TransferResponse :=
  {| success := false; transaction_id := ""; status := ""; failure_reason := reason; upstream_reference := "" |}.

Definition completed (txn_id : string) : TransferResponse :=
  {| success := true; transaction_id := txn_id; status := "completed"; failure_reason := "";
     upstream_reference := "SAND-" +:+ txn_id |}.

Definition number_of (uuid_hex : string) : string := "TXN-" +:+ upper (take_str 8 uuid_hex).

Definition sandbox_submit (uuid_hex : string) (q : TransferRequest) (tenant : string) (s : SandboxBankingAdapter)
    : TransferResponse * SandboxBankingAdapter :=
  match oget (accounts s) (source_account_id q) with
  | None => (refusal "Source account not found", s)
  | Some source =>
      if f_lt (balance source) (amount q) then (refusal "Insufficient funds", s)
      else
        let txn_id := number_of uuid_hex in
        (completed txn_id,
         {| accounts := oset (accounts s) (source_account_id q)
              {| account_id := account_id source; owner_id := owner_id source;
                 balance := f_sub (balance source) (amount q); account_currency := account_currency source;
                 account_type := account_type source; active := active source |};
            transfers := oset (transfers s) txn_id (completed txn_id) |})
  end.

Definition sandbox_status (id tenant : string) (s : SandboxBankingAdapter) : TransferResponse :=
  default (refusal "Transaction not found") (oget (transfers s) id).

#[export] Instance sandbox_core : CoreBankingPort SandboxBankingAdapter := {|
  get_balance id tenant s := oget (accounts s) id;
  submit_transfer := sandbox_submit;
  get_transfer_status := sandbox_status;
|}.

#[export] Instance sandbox_payments : PaymentsPort SandboxBankingAdapter := {|
  initiate_payment := sandbox_submit;
  check_payment_status := sandbox_status;
|}.

(** ** Lemmas: any port that keeps the contract *)

Section lawful.
Context {S : Type} `{CoreBankingLaws S}.

Lemma submit_all_reports tenant qs s id :
  id ∉ accepted (fst (submit_all tenant qs s)) ->
  get_transfer_status id tenant (snd (submit_all tenant qs s)) = get_transfer_status id tenant s.
Proof.
  revert s. induction qs as [|[uuid q] qs IH]; intros s; cbn [submit_all]; [done|].
  destruct (submit_transfer uuid q tenant s) as [r s1] eqn:E.
  specialize (IH s1). destruct (submit_all tenant qs s1) as [rs s2]. cbn [fst snd] in *.
  unfold accepted in *. cbn [List.filter]. destruct (success r) eqn:Er; cbn [map]; intros Hid.
  - apply not_elem_of_cons in Hid as [Hne Hid]. rewrite (IH Hid).
    pose proof (other_reports_kept uuid q tenant s id) as Ho. rewrite E in Ho. by apply Ho.
  - rewrite (IH Hid). pose proof (refused_changes_nothing uuid q tenant s) as Hr. rewrite E in Hr. cbn in Hr. by rewrite Hr.
Qed.

(** Every accepted transfer of a run is still reported at its end, if the numbers differ. *)
Lemma submit_all_reported tenant qs s :
  NoDup (accepted (fst (submit_all tenant qs s))) ->
  forall r, r ∈ fst (submit_all tenant qs s) -> success r = true ->
  get_transfer_status (transaction_id r) tenant (snd (submit_all tenant qs s)) = r.
Proof.
  revert s. induction qs as [|[uuid q] qs IH]; intros s; cbn [submit_all].
  { intros _ r Hr. by apply elem_of_nil in Hr. }
  destruct (submit_transfer uuid q tenant s) as [r1 s1] eqn:E. specialize (IH s1).
  pose proof (submit_all_reports tenant qs s1 (transaction_id r1)) as Hk.
  destruct (submit_all tenant qs s1) as [rs s2]. cbn [fst snd] in *. unfold accepted in *. cbn [List.filter].
  intros Hnd r [-> |Hr]%elem_of_cons Hs.
  - rewrite Hs in Hnd. cbn in Hnd. apply NoDup_cons in Hnd as [Hn _]. rewrite Hk by done.
    pose proof (accepted_is_reported uuid q tenant s) as Ha. rewrite E in Ha. by apply Ha.
  - apply IH; [|done|done]. destruct (success r1); [|done]. cbn in Hnd. by apply NoDup_cons in Hnd as [_ ?].
Qed.
End lawful.

#[export] Instance sandbox_laws : CoreBankingLaws SandboxBankingAdapter.
Proof.
  split; cbn; unfold sandbox_submit, sandbox_status; intros uuid q tenant s;
    destruct (oget (accounts s) (source_account_id q)) as [a|]; try done;
    destruct (f_lt (balance a) (amount q)); try done; cbn.
  - intros _. by rewrite oget_oset_eq.
  - intros id Hid. by rewrite oget_oset_ne.
Qed.

(** ** Lemmas: the sandbox *)

(** An amount a transfer may have: a number, neither negative nor infinite. *)
Definition sane (x : f64) : Prop := f_valid x = true /\ f_nonneg x = true /\ x <> S754_infinity false.

(** The balance of an account after the transfers of a run, those that exceed it left out. *)
Fixpoint replay (id : string) (b : f64) (qs : list (string * TransferRequest)) : f64 :=
  match qs with
  | [] => b
  | (_, q) :: qs' =>
      replay id (if String.eqb (source_account_id q) id && negb (f_lt b (amount q)) then f_sub b (amount q) else b) qs'
  end.

Lemma sandbox_submit_balance uuid q tenant s id a :
  oget (accounts s) id = Some a ->
  oget (accounts (snd (sandbox_submit uuid q tenant s))) id =
  Some {| account_id := account_id a; owner_id := owner_id a;
          balance := (if String.eqb (source_account_id q) id && negb (f_lt (balance a) (amount q))
                      then f_sub (balance a) (amount q) else balance a);
          account_currency := account_currency a; account_type := account_type a; active := active a |}.
Proof.
  intros Ha. unfold sandbox_submit. destruct (String.eqb_spec (source_account_id q) id) as [<-|Hne].
  - rewrite Ha. destruct (f_lt (balance a) (amount q)); cbn; [rewrite Ha; by destruct a|by rewrite oget_oset_eq].
  - cbn [andb]. destruct (oget (accounts s) (source_account_id q)) as [a'|]; [|cbn; rewrite Ha; by destruct a].
    destruct (f_lt (balance a') (amount q)); cbn; [rewrite Ha; by destruct a|]. rewrite oget_oset_ne by done.
    rewrite Ha. by destruct a.
Qed.

Lemma sandbox_replay tenant qs s id a :
  oget (accounts s) id = Some a ->
  exists a', oget (accounts (snd (submit_all tenant qs s))) id = Some a' /\ balance a' = replay id (balance a) qs /\
    owner_id a' = owner_id a /\ active a' = active a.
Proof.
  revert s a. induction qs as [|[uuid q] qs IH]; intros s a Ha; cbn [submit_all replay]; [eauto|].
  apply (sandbox_submit_balance uuid q tenant) in Ha.
  change (submit_transfer uuid q tenant s) with (sandbox_submit uuid q tenant s).
  destruct (sandbox_submit uuid q tenant s) as [r s1]. cbn [snd] in Ha. apply IH in Ha.
  by destruct (submit_all tenant qs s1).
Qed.

Lemma replay_sane id b qs :
  f_valid b = true -> f_nonneg b = true -> (forall uuid q, (uuid, q) ∈ qs -> sane (amount q)) ->
  f_valid (replay id b qs) = true /\ f_nonneg (replay id b qs) = true.
Proof.
  revert b. induction qs as [|[uuid q] qs IH]; intros b Hv Hn Hq; cbn [replay]; [done|].
  destruct (Hq uuid q ltac:(by left)) as (Hqv & Hqn & Hqi).
  assert (forall uuid q, (uuid, q) ∈ qs -> sane (amount q)) by (intros; eapply Hq; by right).
  destruct (String.eqb _ _ && _) eqn:E; [|by apply IH]. apply andb_true_iff in E as [_ E%negb_true_iff].
  apply IH; [by apply f_valid_sub|by apply f_sub_nonneg|done].
Qed.

(** ** Properties *)

(** The sandbox keeps the contract of its ports over any run of transfers: at the end
    each balance is the replay of the transfers from it that it covered, in order, and with
    amounts that are numbers at least zero it is never negative; every accepted transfer is
    still reported as accepted when its numbers are distinct. *)
Theorem sandbox_run_exact tenant qs s :
  (forall id a, oget (accounts s) id = Some a ->
     exists a', get_balance id tenant (snd (submit_all tenant qs s)) = Some a' /\
       balance a' = replay id (balance a) qs /\
       (f_valid (balance a) = true -> f_nonneg (balance a) = true ->
        (forall uuid q, (uuid, q) ∈ qs -> sane (amount q)) -> f_nonneg (balance a') = true)) /\
  (NoDup (accepted (fst (submit_all tenant qs s))) ->
   forall r, r ∈ fst (submit_all tenant qs s) -> success r = true ->
   check_payment_status (transaction_id r) tenant (snd (submit_all tenant qs s)) = r).
Proof.
  split.
  - intros id a Ha. destruct (sandbox_replay tenant qs s id a Ha) as (a' & Hg & Hb & _).
    exists a'. split; [done|]. split; [done|]. intros. rewrite Hb. by apply replay_sane.
  - intros Hnd r. exact (submit_all_reported tenant qs s Hnd r).
Qed.

(** The same request sent twice, with the same idempotency key, is paid twice whenever the
    balance covers it; the tenant and the state of the account play no part. *)
Theorem sandbox_ignores_idempotency_key uuid1 uuid2 q tenant1 tenant2 s a :
  oget (accounts s) (source_account_id q) = Some a ->
  f_lt (balance a) (amount q) = false -> f_lt (f_sub (balance a) (amount q)) (amount q) = false ->
  let '(r1, s1) := initiate_payment uuid1 q tenant1 s in
  let '(r2, s2) := initiate_payment uuid2 q tenant2 s1 in
  success r1 = true /\ success r2 = true /\
  exists a', oget (accounts s2) (source_account_id q) = Some a' /\
    balance a' = f_sub (f_sub (balance a) (amount q)) (amount q) /\ active a' = active a.
Proof.
  intros Ha H1 H2. cbn. unfold sandbox_submit at 1. rewrite Ha, H1. unfold sandbox_submit at 1.
  cbn [accounts]. rewrite oget_oset_eq. cbn [balance]. rewrite H2. cbn.
  split_and!; [done..|]. eexists. by rewrite oget_oset_eq.
Qed.

Definition request (src : string) (x : f64) (key : string) : TransferRequest :=
  {| source_account_id := src; beneficiary_id := "BEN-001"; amount := x; currency := "USD"; reference := "";
     idempotency_key := key; correlation_id := "" |}.

Definition sandbox : SandboxBankingAdapter := new_sandbox [] [].

Example sandbox_run_exact_witness :
  let qs := [("0a1b2c3d4e", request "ACC-1001" (f_of_Z 100) "k1"); ("ffee00112233", request "ACC-1001" (f_of_Z 20000) "k2");
             ("77665544aa", request "ACC-1001" (f_of_Z 14900) "k3")] in
  let '(rs, s') := submit_all "default" qs sandbox in
  map transaction_id rs = ["TXN-0A1B2C3D"; ""; "TXN-77665544"] /\
  exists a', get_balance "ACC-1001" "default" s' = Some a' /\ f_nonneg (balance a') = true.
Proof.
  intros qs. destruct (submit_all "default" qs sandbox) as [rs s'] eqn:E.
  pose proof (sandbox_run_exact "default" qs sandbox) as [Hb _]. rewrite E in Hb.
  split; [vm_compute in E; injection E as <- <-; reflexivity|].
  destruct (Hb "ACC-1001" _ eq_refl) as (a' & Ha & _ & Hn). exists a'. split; [exact Ha|].
  apply Hn; [vm_compute; reflexivity|vm_compute; reflexivity|].
  intros uuid q Hq. subst qs. repeat (apply elem_of_cons in Hq as [Hq|Hq];
    [injection Hq as -> ->; split; [vm_compute; reflexivity|split; [vm_compute; reflexivity|vm_compute; discriminate]]|]).
  by apply not_elem_of_nil in Hq.
Defined.

Example sandbox_ignores_idempotency_key_witness :
  let '(_, s1) := initiate_payment "0a1b2c3d4e" (request "ACC-1002" (f_of_Z 4000) "k1") "acme" sandbox in
  let '(r2, _) := initiate_payment "aabbccdd00" (request "ACC-1002" (f_of_Z 4000) "k1") "default" s1 in
  success r2 = true.
Proof.
  pose proof (sandbox_ignores_idempotency_key "0a1b2c3d4e" "aabbccdd00" (request "ACC-1002" (f_of_Z 4000) "k1")
    "acme" "default" sandbox _ eq_refl) as H.
  destruct (initiate_payment _ _ _ _) as [r1 s1]. destruct (initiate_payment _ _ _ s1) as [r2 s2].
  apply H; vm_compute; reflexivity.
Defined.
