(* ===== verification/Upstream.v ===== *)
(** The lock of the upstream benchmark ([upstream.py]): its parser and the check of the
    checked-out commit.

    The content of the file, what exists on disk and the answer of git are arguments; line
    breaks are the ASCII ones. *)
From S2P Require Import Prelude PyStr PyFloat Json PyRepr.

Record UpstreamLock : Type := {
  repository : string;
  commit : string;
  branch : string;
  domain : string;
  integration_mode : string;
  upstream_path : string;
  official_evaluation_mode : string;
  python_requires : string;
}.

(** ** Lines *)

Definition is_break (c : Ascii.ascii) : bool :=
  ((10 <=? code c) && (code c <=? 13)) || ((28 <=? code c) && (code c <=? 30)).

(** [s.splitlines()]; a carriage return takes a following line feed with it. *)
Fixpoint splitlines (s : string) : list string :=
  match s with
  | EmptyString => []
  | String c s' =>
      if is_break c then
        "" :: (match s' with
               | String c' s'' => if (code c =? 13) && (code c' =? 10) then splitlines s'' else splitlines s'
               | EmptyString => []
               end)
      else match splitlines s' with
           | [] => [String c ""]
           | l :: ls => String c l :: ls
           end
  end.

(** ** The parser *)

Definition skipped (line : string) : bool := negb (str_true line) || startswith line "#".

Fixpoint read_lines (ls : list string) (raw : list (string * string)) : result (list (string * string)) :=
  match ls with
  | [] => Ok raw
  | line :: ls' =>
      let line := strip line in
      if skipped line then read_lines ls' raw
      else match split_sub "=" line with
           | None => Raise (ValueError ("Invalid lock line (missing '='): " +:+ repr_str line))
           | Some (key, value) => read_lines ls' (oset raw key value)
           end
  end.

Definition required : list string :=
  ["repository"; "commit"; "branch"; "domain"; "integration_mode"; "upstream_path"; "official_evaluation_mode";
   "python_requires"].

Definition raw_item (raw : list (string * string)) (k : string) : string := default "" (oget raw k).

Definition from_lock_text (text : string) : result UpstreamLock :=
  let* raw := read_lines (splitlines (strip text)) [] in
  match List.find (fun k => negb (ohas raw k)) required with
  | Some k => Raise (ValueError ("Missing required key in UPSTREAM.lock: " +:+ repr_str k))
  | None =>
      Ok {| repository := raw_item raw "repository"; commit := raw_item raw "commit"; branch := raw_item raw "branch";
            domain := raw_item raw "domain"; integration_mode := raw_item raw "integration_mode";
            upstream_path := raw_item raw "upstream_path";
            official_evaluation_mode := raw_item raw "official_evaluation_mode";
            python_requires := raw_item raw "python_requires" |}
  end.

(** The file's content, if there is a file, and its resolved path. *)
Definition from_lock_file (resolved : string) (file : option string) : result UpstreamLock :=
  match file with
  | None => Raise (FileNotFoundError ("UPSTREAM.lock not found at " +:+ resolved))
  | Some text => from_lock_text text
  end.

(** Whether the resolved path is a directory, and what [git rev-parse HEAD] prints there. *)
Definition verify_upstream_commit (resolved : string) (is_dir : bool) (head : result string) (lock : UpstreamLock)
    : result bool :=
  if negb is_dir then Raise (FileNotFoundError ("Upstream directory not found: " +:+ resolved))
  else let* out := head in Ok (String.eqb (strip out) (commit lock)).

(** ** Lemmas: spaces around a line do not matter *)

Lemma is_break_space c : is_break c = true -> is_space c = true.
Proof. unfold is_break, is_space. rewrite !orb_true_iff, !andb_true_iff, !Z.leb_le, Z.eqb_eq. lia. Qed.

Lemma rstrip_cons c s : is_space c = false -> rstrip (String c s) = String c (rstrip s).
Proof. intros H. cbn. destruct (rstrip s); by rewrite ?H. Qed.

Lemma rstrip_blank c s : is_space c = true -> rstrip s = "" -> rstrip (String c s) = "".
Proof. intros H Hs. cbn. by rewrite Hs, H. Qed.

Lemma rstrip_rstrip_cons c a b : rstrip a = rstrip b -> rstrip (String c a) = rstrip (String c b).
Proof. intros H. cbn. by rewrite H. Qed.

Lemma strip_space c s : is_space c = true -> strip (String c s) = strip s.
Proof. intros H. unfold strip. cbn. by rewrite H. Qed.

Lemma rstrip_lstrip s : rstrip (lstrip s) = lstrip (rstrip s).
Proof.
  induction s as [|c s IH]; [done|]. cbn. destruct (is_space c) eqn:E.
  - rewrite IH. destruct (rstrip s) eqn:Er; cbn; by rewrite ?E.
  - cbn. destruct (rstrip s) eqn:Er; cbn; by rewrite E.
Qed.

Lemma strip_rstrip a b : rstrip a = rstrip b -> strip a = strip b.
Proof. unfold strip. rewrite !rstrip_lstrip. by intros ->. Qed.

Lemma read_lines_strip a b raw : map strip a = map strip b -> read_lines a raw = read_lines b raw.
Proof.
  revert b raw. induction a as [|x a IH]; intros [|y b] raw; cbn [map]; try done.
  intros [= Hx H]. cbn [read_lines]. rewrite Hx. destruct (skipped (strip y)); [by apply IH|].
  destruct (split_sub "=" (strip y)) as [[k v]|]; [by apply IH|done].
Qed.

Lemma read_lines_app a b raw : read_lines (a ++ b) raw = (let* r := read_lines a raw in read_lines b r).
Proof.
  revert raw. induction a as [|x a IH]; intros raw; [done|]. cbn [app read_lines].
  destruct (skipped (strip x)); [apply IH|]. destruct (split_sub "=" (strip x)) as [[k v]|]; [apply IH|done].
Qed.

Lemma read_lines_skipped ls raw : (forall l, l ∈ ls -> skipped (strip l) = true) -> read_lines ls raw = Ok raw.
Proof.
  induction ls as [|l ls IH]; intros H; [done|]. cbn [read_lines]. rewrite H by (by left). apply IH. intros. apply H. by right.
Qed.

Lemma read_lines_lstrip t raw : read_lines (splitlines (lstrip t)) raw = read_lines (splitlines t) raw.
Proof.
  induction t as [|c t IH]; [done|]. cbn [lstrip]. destruct (is_space c) eqn:E; [|done]. rewrite IH. cbn [splitlines].
  destruct (is_break c).
  - cbn [read_lines]. change (skipped (strip "")) with true. cbn [negb]. destruct t as [|c' t']; [done|].
    destruct (_ && _) eqn:Ec; [|done]. apply andb_true_iff in Ec as [_ Ec%Z.eqb_eq]. cbn [splitlines].
    assert (is_break c' = true) as -> by (unfold is_break; by rewrite Ec). cbn [read_lines].
    change (skipped (strip "")) with true. destruct t' as [|c'' t'']; [done|]. by rewrite Ec.
  - destruct (splitlines t) as [|l ls]; cbn [read_lines]; by rewrite strip_space.
Qed.

Lemma rstrip_head c s c' r : rstrip (String c s) = String c' r -> c' = c /\ r = rstrip s.
Proof. cbn. destruct (rstrip s); [destruct (is_space c); [done|]|]; by intros [= <- <-]. Qed.

Lemma rstrip_empty c s : rstrip (String c s) = "" -> is_space c = true /\ rstrip s = "".
Proof. cbn. destruct (rstrip s); [|done]. by destruct (is_space c). Qed.

Lemma string_strong (Q : string -> Prop) :
  (forall s, (forall s', (String.length s' < String.length s)%nat -> Q s') -> Q s) -> forall s, Q s.
Proof.
  intros H s. assert (forall n s, (String.length s < n)%nat -> Q s) as Hn; [|by apply (Hn (S (String.length s))); lia].
  clear s. intros n. induction n as [|n IH]; intros s Hs; [lia|]. apply H. intros s' Hs'. apply IH. lia.
Qed.

Lemma splitlines_blank t : rstrip t = "" -> forall l, l ∈ splitlines t -> rstrip l = "".
Proof.
  induction t as [t IH] using string_strong. destruct t as [|c s]; intros Ht l; [by intros ?%elem_of_nil|].
  apply rstrip_empty in Ht as [Hc Hs]. cbn [splitlines]. destruct (is_break c).
  - intros [-> |Hl]%elem_of_cons; [done|]. destruct s as [|c' s']; [by apply elem_of_nil in Hl|].
    destruct (_ && _); [|by apply (IH (String c' s')); [cbn; lia|..]].
    apply (IH s'); [cbn; lia| |done]. by apply rstrip_empty in Hs as [_ Hs].
  - specialize (IH s ltac:(cbn; lia) Hs). destruct (splitlines s) as [|x xs].
    + intros ->%list_elem_of_singleton. cbn. by rewrite Hc.
    + intros [-> |Hl]%elem_of_cons; [|apply IH; by right]. apply rstrip_blank; [done|]. apply IH. by left.
Qed.

(** Spaces at the end of a text end its last lines or add blank ones. *)
Lemma splitlines_rstrip t :
  exists blanks, map rstrip (splitlines t) = map rstrip (splitlines (rstrip t)) ++ blanks /\ (forall l, l ∈ blanks -> l = "").
Proof.
  induction t as [t IH] using string_strong. destruct t as [|c s].
  { exists []. split; [done|]. by intros l ?%elem_of_nil. }
  destruct (rstrip (String c s)) as [|c1 r] eqn:Er.
  { exists (map rstrip (splitlines (String c s))). split; [done|].
    intros l (x & -> & Hx)%list_elem_of_fmap. by apply (splitlines_blank (String c s)). }
  pose proof (rstrip_head c s c1 r Er) as [-> ->]. cbn [splitlines]. destruct (is_break c) eqn:Eb.
  - destruct (rstrip s) as [|c' r'] eqn:Es.
    { cbn in Er. by rewrite Es, (is_break_space c Eb) in Er. }
    destruct s as [|c2 s2]; [done|]. pose proof (rstrip_head c2 s2 c' r' Es) as [-> ->]. destruct (_ && _).
    + destruct (IH s2 ltac:(cbn; lia)) as (bs & H & Hb). exists bs. split; [|done]. cbn. by rewrite H.
    + destruct (IH (String c2 s2) ltac:(cbn; lia)) as (bs & H & Hb). rewrite Es in H. exists bs. split; [|done].
      cbn [map app]. by rewrite H.
  - destruct (IH s ltac:(cbn; lia)) as (bs & H & Hb).
    destruct (splitlines s) as [|x xs] eqn:Ex, (splitlines (rstrip s)) as [|y ys] eqn:Ey; cbn [map app] in H.
    + exists []. split; [done|]. by intros l ?%elem_of_nil.
    + done.
    + exists (map rstrip xs). rewrite <-H in Hb. cbn [map app]. split.
      * f_equal. apply rstrip_rstrip_cons. apply Hb. by left.
      * intros l Hl. apply Hb. by right.
    + injection H as Hh Ht. exists bs. split; [|done]. cbn [map app]. rewrite Ht. f_equal. by apply rstrip_rstrip_cons.
Qed.

Lemma read_lines_rstrip t raw : read_lines (splitlines (rstrip t)) raw = read_lines (splitlines t) raw.
Proof.
  destruct (splitlines_rstrip t) as (bs & H & Hb).
  apply map_eq_app in H as (l1 & l2 & -> & H1 & H2). rewrite read_lines_app.
  replace (read_lines l1 raw) with (read_lines (splitlines (rstrip t)) raw).
  - destruct (read_lines (splitlines (rstrip t)) raw) as [raw'|e]; [|done]. cbn. symmetry. apply read_lines_skipped.
    intros l Hl. unfold skipped. rewrite (strip_rstrip l ""); [done|]. apply Hb. rewrite <-H2. by apply list_elem_of_fmap_2.
  - apply read_lines_strip. clear H2. revert H1. generalize (splitlines (rstrip t)). clear t.
    induction l1 as [|x l1 IH]; intros [|y l]; cbn; try done. intros [= Hx Hl]. f_equal; [by apply strip_rstrip|by apply IH].
Qed.

Lemma read_lines_text t raw : read_lines (splitlines (strip t)) raw = read_lines (splitlines t) raw.
Proof. unfold strip. by rewrite read_lines_rstrip, read_lines_lstrip. Qed.

(** ** Lemmas: texts made of lines *)

Definition one_line (l : string) : bool := negb (has_char is_break l).

Definition NL : string := String (Ascii.ascii_of_nat 10) "".

Lemma splitlines_line l t : one_line l = true -> t = "" \/ (exists t', t = NL +:+ t') -> l <> "" \/ t <> "" ->
  splitlines (l +:+ t) = l :: splitlines (tail_str t).
Proof.
  unfold one_line. induction l as [|c l IH]; intros Hl Ht Hne; str_simpl.
  - destruct Ht as [->|(t' & ->)]; [by destruct Hne|]. cbn. destruct t'; [done|]. reflexivity.
  - cbn in Hl. apply negb_true_iff, orb_false_iff in Hl as [Hc Hl%negb_true_iff]. rewrite Hc.
    destruct (decide (l = "" /\ t = "")) as [[-> ->]|Hn]; [done|].
    rewrite IH; [done|done|done|]. destruct (decide (l = "")); [right; naive_solver|by left].
Qed.

Lemma read_lines_join ls raw :
  (forall l, l ∈ ls -> one_line l = true) -> read_lines (splitlines (join NL ls)) raw = read_lines ls raw.
Proof.
  revert raw. induction ls as [|l ls IH]; intros raw Hls; [done|].
  assert (Hl : one_line l = true) by (apply Hls; by left).
  assert (Hrest : forall raw, read_lines (splitlines (join NL ls)) raw = read_lines ls raw).
  { intros raw'. apply IH. intros l' Hl'. apply Hls. by right. }
  destruct ls as [|l2 ls]; cbn [join].
  - destruct (decide (l = "")) as [->|Hne]; [done|].
    rewrite <-(app_empty_r l) at 1. by rewrite splitlines_line by auto.
  - rewrite splitlines_line by eauto. cbn [tail_str NL String.append]. cbn [read_lines].
    destruct (skipped (strip l)); [apply Hrest|]. by destruct (split_sub "=" (strip l)) as [[k v]|].
Qed.

Lemma rstrip_idemp s : rstrip (rstrip s) = rstrip s.
Proof.
  induction s as [|c s IH]; [done|]. cbn. destruct (rstrip s) as [|c' r] eqn:E.
  - destruct (is_space c) eqn:Ec; [done|]. cbn. by rewrite Ec.
  - cbn in IH |- *. by rewrite IH.
Qed.

Lemma lstrip_idemp s : lstrip (lstrip s) = lstrip s.
Proof. induction s as [|c s IH]; [done|]. cbn. destruct (is_space c) eqn:E; [done|]. cbn. by rewrite E. Qed.

Lemma strip_idemp s : strip (strip s) = strip s.
Proof. unfold strip. by rewrite <-rstrip_lstrip, lstrip_idemp, rstrip_idemp. Qed.

Definition entries (ls : list string) : list string := List.filter (fun l => negb (skipped l)) (map strip ls).

Lemma read_lines_entries ls raw : read_lines ls raw = read_lines (entries ls) raw.
Proof.
  revert raw. induction ls as [|l ls IH]; intros raw; [done|]. unfold entries in *. cbn [map List.filter read_lines].
  destruct (skipped (strip l)) eqn:E; cbn [negb]; [apply IH|]. cbn [read_lines]. rewrite strip_idemp, E.
  by destruct (split_sub "=" (strip l)) as [[k v]|].
Qed.

(** The lines that say what a lock holds. *)
Definition fields (k : UpstreamLock) : list (string * string) :=
  [("repository", repository k); ("commit", commit k); ("branch", branch k); ("domain", domain k);
   ("integration_mode", integration_mode k); ("upstream_path", upstream_path k);
   ("official_evaluation_mode", official_evaluation_mode k); ("python_requires", python_requires k)].

Definition lock_line (kv : string * string) : string := fst kv +:+ "=" +:+ snd kv.

Definition no_trailing_space (k : UpstreamLock) : Prop := forall kv, kv ∈ fields k -> rstrip (snd kv) = snd kv.

Lemma split_at_equals key v : lacks "="%char key = true -> split_sub "=" (key +:+ "=" +:+ v) = Some (key, v).
Proof.
  induction key as [|c key IH]; rewrite ?lacks_cons.
  - intros _. str_simpl. cbn. rewrite Nat.sub_0_r, substring_full by lia. by destruct v.
  - intros [Hc%negb_true_iff Hk]%andb_true_iff. apply Ascii.eqb_neq in Hc. rewrite app_cons. cbn [split_sub].
    rewrite prefix_head_ne by congruence. by rewrite IH.
Qed.

Lemma lock_line_read key v :
  key ∈ required -> rstrip v = v ->
  strip (lock_line (key, v)) = lock_line (key, v) /\ skipped (lock_line (key, v)) = false /\
  split_sub "=" (lock_line (key, v)) = Some (key, v).
Proof.
  intros Hk Hv. unfold required in Hk. unfold lock_line. cbn [fst snd].
  repeat (apply elem_of_cons in Hk as [->|Hk];
    [split_and!;
     [rewrite !app_cons, !app_nil; unfold strip; simpl lstrip; rewrite !rstrip_cons by reflexivity; by rewrite Hv
     |rewrite !app_cons; reflexivity
     |by apply split_at_equals]|]).
  by apply elem_of_nil in Hk.
Qed.

Lemma read_fields kvs raw :
  (forall kv, kv ∈ kvs -> fst kv ∈ required /\ rstrip (snd kv) = snd kv) ->
  exists raw', read_lines (map lock_line kvs) raw = Ok raw' /\
    (forall k, k ∉ map fst kvs -> oget raw' k = oget raw k) /\
    (NoDup (map fst kvs) -> forall k v, (k, v) ∈ kvs -> oget raw' k = Some v).
Proof.
  revert raw. induction kvs as [|[key v] kvs IH]; intros raw H; cbn [map].
  { exists raw. split_and!; [done..|]. by intros _ k v ?%elem_of_nil. }
  destruct (H (key, v) ltac:(by left)) as [Hk Hv]. cbn [read_lines].
  destruct (lock_line_read key v Hk Hv) as (-> & -> & ->).
  destruct (IH (oset raw key v)) as (raw' & Hr & Hother & Hin); [intros kv Hkv; apply H; by right|].
  exists raw'. split_and!; [done| |].
  - intros k [Hne Hnk]%not_elem_of_cons. rewrite Hother by done. by rewrite oget_oset_ne.
  - intros [Hn Hnd]%NoDup_cons k v' [[= -> ->]|Hkv]%elem_of_cons; [|by apply Hin].
    rewrite Hother by done. apply oget_oset_eq.
Qed.

Lemma split_equals_inv t key v : split_sub "=" t = Some (key, v) -> t = key +:+ "=" +:+ v.
Proof.
  revert key. induction t as [|c t IH]; intros key; cbn [split_sub]; [done|].
  destruct (String.prefix "=" (String c t)) eqn:E.
  - apply prefix_app in E as (s & E). rewrite E. injection E as -> ->. intros [= <- <-]. str_simpl.
    cbn. by rewrite Nat.sub_0_r, substring_full by lia.
  - destruct (split_sub "=" t) as [[a b]|]; [|done]. intros [= <- ->]. by rewrite (IH a eq_refl), app_cons.
Qed.

Lemma read_lines_keys ls raw :
  match read_lines ls raw with
  | Ok raw' => forall k, ohas raw' k = true -> ohas raw k = true \/ exists v, lock_line (k, v) ∈ entries ls
  | Raise e => exists line, line ∈ entries ls /\ e = ValueError ("Invalid lock line (missing '='): " +:+ repr_str line)
  end.
Proof.
  revert raw. induction ls as [|l ls IH]; intros raw; [by left|]. unfold entries in *. cbn [map List.filter read_lines].
  destruct (skipped (strip l)); cbn [negb]; [apply IH|].
  destruct (split_sub "=" (strip l)) as [[k v]|] eqn:E; [|exists (strip l); split; [by left|done]].
  apply split_equals_inv in E. specialize (IH (oset raw k v)). destruct (read_lines ls (oset raw k v)) as [raw'|e].
  - intros k' Hk'. destruct (IH k' Hk') as [Hh|(v' & Hv)]; [|right; exists v'; by right].
    unfold ohas in *. rewrite oget_oset in Hh. destruct (String.eqb_spec k' k) as [->|]; [|by left].
    right. exists v. rewrite E. by left.
  - destruct IH as (line & Hl & ->). exists line. split; [by right|done].
Qed.

(** ** Properties *)

(** A lock file is read back: whatever blank lines, comments and indentation stand between
    and around its eight lines, and in whatever order they are, parsing gives the lock they
    say; and the commit check then accepts exactly a checkout whose head is that commit. *)
Theorem lock_roundtrip k ls resolved head :
  no_trailing_space k -> (forall l, l ∈ ls -> one_line l = true) -> entries ls ≡ₚ map lock_line (fields k) ->
  from_lock_file resolved (Some (join NL ls)) = Ok k /\
  (verify_upstream_commit resolved true (Ok head) k = Ok true <-> strip head = commit k).
Proof.
  intros Hc Hl Hp. split.
  - cbn [from_lock_file]. unfold from_lock_text. rewrite read_lines_text, read_lines_join, read_lines_entries by done.
    apply Permutation_map_inv in Hp as (kvs & -> & Hp).
    destruct (read_fields kvs []) as (raw & -> & _ & Hin).
    { intros kv Hkv. rewrite <-Hp in Hkv. split; [|by apply Hc]. apply (list_elem_of_fmap_2 fst) in Hkv. exact Hkv. }
    assert (Hg : forall k' v, (k', v) ∈ fields k -> oget raw k' = Some v).
    { intros k' v. rewrite Hp. apply Hin. rewrite <-Hp. by apply (bool_decide_unpack _). }
    cbn [res_bind]. unfold required, ohas, raw_item. cbn [List.find].
    rewrite !(Hg "repository" (repository k)), !(Hg "commit" (commit k)), !(Hg "branch" (branch k)),
      !(Hg "domain" (domain k)), !(Hg "integration_mode" (integration_mode k)), !(Hg "upstream_path" (upstream_path k)),
      !(Hg "official_evaluation_mode" (official_evaluation_mode k)), !(Hg "python_requires" (python_requires k))
      by (unfold fields; set_solver). cbn. by destruct k.
  - cbn. rewrite <-String.eqb_eq. destruct (String.eqb (strip head) (commit k)); naive_solver.
Qed.

(** What is missing or malformed is refused with a [ValueError]: a lock is returned only when
    every line says something and every required key is on one. *)
Theorem lock_errors ls resolved :
  (forall l, l ∈ ls -> one_line l = true) ->
  match from_lock_file resolved (Some (join NL ls)) with
  | Ok _ => forall k, k ∈ required -> exists v, lock_line (k, v) ∈ entries ls
  | Raise e => exists m, e = ValueError m
  end.
Proof.
  intros Hl. cbn [from_lock_file]. unfold from_lock_text. rewrite read_lines_text, read_lines_join by done.
  pose proof (read_lines_keys ls []) as H. destruct (read_lines ls []) as [raw|e]; cbn [res_bind].
  - destruct (List.find _ required) as [k|] eqn:E; [eauto|]. intros k Hk%list_elem_of_In.
    apply (find_none _ _ E), negb_false_iff in Hk. destruct (H k Hk); done.
  - destruct H as (line & _ & ->). eauto.
Qed.

(** The lock of this repository, with a comment before it. *)
Definition the_lock : UpstreamLock :=
  {| repository := "https://github.com/sierra-research/tau2-bench"; commit := "5ebebbe827b455b3ed04fcb9294235c6ef4e5fd6";
     branch := "main"; domain := "banking_knowledge"; integration_mode := "external-pinned-upstream";
     upstream_path := "../tau2-bench-upstream"; official_evaluation_mode := "manual-outside-claude-code";
     python_requires := ">=3.12,<3.14" |}.

Example lock_roundtrip_witness :
  from_lock_file "/repo/UPSTREAM.lock" (Some (join NL (["# pinned"; ""] ++ map lock_line (rev (fields the_lock)) ++ ["  "])))
  = Ok the_lock.
Proof.
  apply (lock_roundtrip the_lock _ _ "").
  - intros kv Hkv. unfold fields in Hkv. repeat (apply elem_of_cons in Hkv as [->|Hkv]; [vm_compute; reflexivity|]).
    by apply elem_of_nil in Hkv.
  - intros l Hl. apply list_elem_of_In in Hl. revert l Hl. apply forallb_forall. vm_compute. reflexivity.
  - replace (entries _) with (rev (map lock_line (fields the_lock))) by (vm_compute; reflexivity).
    symmetry. apply Permutation_rev.
Defined.

Example lock_errors_witness :
  from_lock_file "/repo/UPSTREAM.lock" (Some (join NL ["commit=abc"; "branch main"]))
  = Raise (ValueError "Invalid lock line (missing '='): 'branch main'") /\
  exists m, ValueError "Invalid lock line (missing '='): 'branch main'" = ValueError m.
Proof.
  pose proof (lock_errors ["commit=abc"; "branch main"] "/repo/UPSTREAM.lock") as H. split; [vm_compute; reflexivity|].
  replace (from_lock_file _ _) with
    (@Raise UpstreamLock (ValueError "Invalid lock line (missing '='): 'branch main'")) in H by (vm_compute; reflexivity).
  apply H. intros l Hl. repeat (apply elem_of_cons in Hl as [->|Hl]; [vm_compute; reflexivity|]). by apply elem_of_nil in Hl.
Defined.
