(* ===== verification/Observability.v ===== *)
(** Spans and the redaction of their attributes ([observability.py]), step metrics
    ([metrics.py]), the texts shown to clients for error codes ([errors.py]) and the
    telemetry middleware ([telemetry.py]).

    Durations divide microseconds by 10^6 after rounding them to binary64, which is exact
    below 2^53 microseconds.  The readings of the clocks, the draw of the sampler, the fresh
    identifier, and the lookup of a request header are arguments. *)
From S2P Require Import Prelude PyStr PyFloat PyTime Json PyRepr DataProtection.

(** ** Spans *)

Inductive SpanKind : Type :=
  | HTTP_REQUEST | AGENT_RUN | PROMPT_BUILD | LLM_CALL | RETRIEVAL | AUTHORIZATION | TOOL_CALL | APPROVAL_WAIT
  | HITL_RESUME | FINAL_RESPONSE.

Record Span : Type := {
  span_id : string;
  parent_span_id : string;
  trace_id : string;
  kind : SpanKind;
  start_time : string;
  end_time : string;
  attributes : dict;
  span_status : string;
}.

(** A time read with its offset, or without one. *)
Definition read_time (s : string) : option (bool * Z) :=
  match fromisoformat s, fromisoformat (s +:+ "+00:00"), fromisoformat (s +:+ "T00:00:00+00:00") with
  | Some t, _, _ => Some (true, t)
  | None, Some t, _ | None, None, Some t => Some (false, t)
  | None, None, None => None
  end.

Definition million : Z := 1000000.

(** Times that do not parse, or of which only one has an offset, give zero. *)
Definition span_duration_ms (s : Span) : f64 :=
  if str_true (start_time s) && str_true (end_time s) then
    match read_time (start_time s), read_time (end_time s) with
    | Some (o0, t0), Some (o1, t1) =>
        if Bool.eqb o0 o1 then f_mul (f_div (f_of_Z (t1 - t0)) (f_of_Z million)) (f_of_Z 1000) else f_zero
    | _, _ => f_zero
    end
  else f_zero.

Definition REDACT_FIELDS : list string :=
  ["api_key"; "token"; "authorization"; "x-api-key"; "password"; "secret"; "account_number"; "full_account"; "ssn";
   "credit_card"].

Definition redacted_attribute (key : string) : bool :=
  str_in (lower key) REDACT_FIELDS || any_in ["token"; "secret"; "password"] (lower key).

Definition redact_attributes (attrs : dict) : dict :=
  map (fun kv => (fst kv, if redacted_attribute (fst kv) then JStr "[REDACTED]" else snd kv)) attrs.

(** ** Metrics *)

Record StepMetrics : Type := {
  step_index : Z;
  duration_ms : f64;
  input_tokens : Z;
  output_tokens : Z;
  tool_call_count : Z;
  tool_duration_ms : f64;
}.

Record RunMetrics : Type := {
  run_id : string;
  run_steps : list StepMetrics;
  total_duration_ms : f64;
  total_input_tokens : Z;
  total_output_tokens : Z;
  total_tool_calls : Z;
  started_at : string;
  completed_at : string;
}.

Record InMemoryMetricsCollector : Type := { current : option RunMetrics; start_clock : f64 }.

Definition new_collector : InMemoryMetricsCollector := {| current := None; start_clock := f_zero |}.

Definition start_run (now : Z) (monotonic : f64) (id : string) (c : InMemoryMetricsCollector) : InMemoryMetricsCollector :=
  {| current := Some {| run_id := id; run_steps := []; total_duration_ms := f_zero; total_input_tokens := 0;
                        total_output_tokens := 0; total_tool_calls := 0; started_at := isoformat now;
                        completed_at := "" |};
     start_clock := monotonic |}.

Definition no_active_run : exn := RuntimeError "No active run — call start_run first".

Definition record_step (m : StepMetrics) (c : InMemoryMetricsCollector) : result InMemoryMetricsCollector :=
  match current c with
  | None => Raise no_active_run
  | Some r =>
      Ok {| current := Some {| run_id := run_id r; run_steps := run_steps r ++ [m];
                               total_duration_ms := f_add (total_duration_ms r) (duration_ms m);
                               total_input_tokens := total_input_tokens r + input_tokens m;
                               total_output_tokens := total_output_tokens r + output_tokens m;
                               total_tool_calls := total_tool_calls r + tool_call_count m;
                               started_at := started_at r; completed_at := completed_at r |};
            start_clock := start_clock c |}
  end.

Definition finish_run (now : Z) (monotonic : f64) (c : InMemoryMetricsCollector)
    : result (RunMetrics * InMemoryMetricsCollector) :=
  match current c with
  | None => Raise no_active_run
  | Some r =>
      Ok ({| run_id := run_id r; run_steps := run_steps r;
             total_duration_ms := f_mul (f_sub monotonic (start_clock c)) (f_of_Z 1000);
             total_input_tokens := total_input_tokens r; total_output_tokens := total_output_tokens r;
             total_tool_calls := total_tool_calls r; started_at := started_at r; completed_at := isoformat now |},
          {| current := None; start_clock := start_clock c |})
  end.

Fixpoint record_steps (ms : list StepMetrics) (c : InMemoryMetricsCollector) : result InMemoryMetricsCollector :=
  match ms with [] => Ok c | m :: ms' => let* c' := record_step m c in record_steps ms' c' end.

(** ** Error texts *)

Inductive AgentErrorCode : Type :=
  | PROVIDER_TIMEOUT | PROVIDER_AUTHENTICATION_FAILED | PROVIDER_RATE_LIMITED | PROVIDER_INTERNAL_ERROR
  | UNKNOWN_TOOL | INVALID_TOOL_ARGUMENTS | TOOL_EXECUTION_FAILED | TOOL_OUTCOME_UNKNOWN | TOOL_TIMEOUT
  | AUTHORIZATION_DENIED | APPROVAL_REQUIRED | APPROVAL_EXPIRED | APPROVAL_ALREADY_CONSUMED
  | AUTHENTICATION_REQUIRED | INSUFFICIENT_PERMISSIONS | CROSS_TENANT_ACCESS_DENIED | CROSS_ACCOUNT_ACCESS_DENIED
  | CHECKPOINT_CONFLICT | THREAD_NOT_FOUND | THREAD_ALREADY_EXISTS | RECONCILIATION_REQUIRED
  | AGENT_STEP_LIMIT_EXCEEDED | CONFIGURATION_ERROR | INTERNAL_ERROR.

#[export] Instance error_code_eq_dec : EqDecision AgentErrorCode.
Proof. solve_decision. Defined.

Definition ERROR_MESSAGES : list (AgentErrorCode * string) :=
  [(PROVIDER_TIMEOUT, "The AI service timed out. Please try again.");
   (PROVIDER_AUTHENTICATION_FAILED, "AI service configuration error.");
   (PROVIDER_RATE_LIMITED, "The service is busy. Please try again shortly.");
   (PROVIDER_INTERNAL_ERROR, "The AI service encountered an error. Please try again.");
   (UNKNOWN_TOOL, "The requested operation is not available.");
   (INVALID_TOOL_ARGUMENTS, "Invalid operation parameters.");
   (TOOL_EXECUTION_FAILED, "The operation could not be completed.");
   (TOOL_OUTCOME_UNKNOWN, "The operation outcome is uncertain. Please contact support.");
   (TOOL_TIMEOUT, "The operation timed out. Please try again.");
   (AUTHORIZATION_DENIED, "You are not authorized to perform this operation.");
   (APPROVAL_REQUIRED, "This operation requires human approval.");
   (APPROVAL_EXPIRED, "The approval window has expired. Please request again.");
   (APPROVAL_ALREADY_CONSUMED, "This approval has already been used.");
   (AUTHENTICATION_REQUIRED, "Authentication is required.");
   (INSUFFICIENT_PERMISSIONS, "You do not have sufficient permissions.");
   (CROSS_TENANT_ACCESS_DENIED, "Access denied.");
   (CROSS_ACCOUNT_ACCESS_DENIED, "Access denied.");
   (CHECKPOINT_CONFLICT, "A conflict occurred. Please retry.");
   (THREAD_NOT_FOUND, "Conversation not found.");
   (THREAD_ALREADY_EXISTS, "A conversation with this ID already exists.");
   (RECONCILIATION_REQUIRED, "This operation requires manual review.");
   (AGENT_STEP_LIMIT_EXCEEDED, "The request was too complex. Please simplify and try again.");
   (CONFIGURATION_ERROR, "Service configuration error.");
   (INTERNAL_ERROR, "An unexpected error occurred. Please try again.")].

Definition safe_error_message (code : AgentErrorCode) : string :=
  match List.find (fun cm => bool_decide (fst cm = code)) ERROR_MESSAGES with
  | Some (_, m) => m
  | None => "An unexpected error occurred."
  end.

(** ** The telemetry middleware *)

(** [round(x, 1)]: the tenths nearest to the exact value, ties to even. *)
Definition tenths (m : positive) (e : Z) : Z :=
  let num := Z.pos m * 10 * (if 0 <=? e then 2 ^ e else 1) in
  let den := if 0 <=? e then 1 else 2 ^ (- e) in
  let q := num / den in
  let r := num mod den in
  if (den <? 2 * r) || ((2 * r =? den) && Z.odd q) then q + 1 else q.

Definition round1 (x : f64) : f64 :=
  match x with
  | S754_finite s m e =>
      let t := tenths m e in
      if t =? 0 then S754_zero s else (if s then f_neg (dec_to_f64 t (-1)) else dec_to_f64 t (-1))
  | _ => x
  end.

Record TelemetryMiddleware : Type := { app_name : string; sample_rate : f64 }.

(** What the middleware leaves for the handlers below it. *)
Record RequestState : Type := { correlation_id : option string; span_start : option f64 }.

(** An answer: [body] is the JSON content. *)
Record Response : Type := { status_code : Z; headers : list (string * string); body : json }.

(** [call_next] runs the layers below on the service's state. *)
Definition dispatch {S} (draw : f64) (header : string -> option string) (uuid : string) (t0 t1 : f64)
    (call_next : RequestState -> S -> result Response * S) (mw : TelemetryMiddleware) (s : S) : result Response * S :=
  if f_gt draw (sample_rate mw) then call_next {| correlation_id := None; span_start := None |} s
  else
    let cid := default uuid (header "X-Correlation-Id") in
    let '(r, s') := call_next {| correlation_id := Some cid; span_start := Some t0 |} s in
    let ms := f_mul (f_sub t1 t0) (f_of_Z 1000) in
    (res_map (fun response =>
       {| status_code := status_code response;
          headers := oset (oset (headers response) "X-Correlation-Id" cid) "X-Response-Time-Ms" (repr_float (round1 ms));
          body := body response |}) r, s').

(** ** Lemmas *)

Definition sum_of (f : StepMetrics -> Z) (ms : list StepMetrics) : Z := fold_right Z.add 0 (map f ms).

Lemma record_steps_sums ms c r :
  current c = Some r ->
  exists r', record_steps ms c = Ok {| current := Some r'; start_clock := start_clock c |} /\
    run_id r' = run_id r /\ started_at r' = started_at r /\ run_steps r' = run_steps r ++ ms /\
    total_input_tokens r' = total_input_tokens r + sum_of input_tokens ms /\
    total_output_tokens r' = total_output_tokens r + sum_of output_tokens ms /\
    total_tool_calls r' = total_tool_calls r + sum_of tool_call_count ms.
Proof.
  revert c r. induction ms as [|m ms IH]; intros c r Hc; cbn [record_steps].
  - exists r. destruct c as [c0 s0]. cbn in *. subst. rewrite List.app_nil_r. cbn. split_and!; try done; lia.
  - unfold record_step. rewrite Hc. cbn [res_bind].
    edestruct IH as (r' & -> & Hid & Hst & Hsteps & Hi & Ho & Ht); [reflexivity|]. exists r'. cbn in *.
    rewrite <-app_assoc in Hsteps. unfold sum_of in *. cbn [map fold_right].
    split_and!; try done; lia.
Qed.

(** A draw below one is always sampled by a rate of one. *)
Lemma sampled draw : f_lt draw (f_of_Z 1) = true -> f_gt draw (f_of_Z 1) = false.
Proof. unfold f_gt, f_lt, SFltb. rewrite (SFcompare_antisym draw). by destruct (SFcompare _ _) as [[]|]. Qed.

(** ** Properties *)

(** Between start and finish the collector keeps the steps in order and sums tokens and
    calls exactly; the total duration it reports is the time between the two clock readings,
    whatever the steps took; afterwards, as before a start, recording and finishing raise. *)
Theorem metrics_exact now0 now1 t0 t1 id ms c :
  exists c1 r c2,
    record_steps ms (start_run now0 t0 id c) = Ok c1 /\ finish_run now1 t1 c1 = Ok (r, c2) /\
    run_id r = id /\ run_steps r = ms /\ total_input_tokens r = sum_of input_tokens ms /\
    total_output_tokens r = sum_of output_tokens ms /\ total_tool_calls r = sum_of tool_call_count ms /\
    total_duration_ms r = f_mul (f_sub t1 t0) (f_of_Z 1000) /\
    started_at r = isoformat now0 /\ completed_at r = isoformat now1 /\
    (forall m, record_step m c2 = Raise no_active_run) /\ finish_run now1 t1 c2 = Raise no_active_run.
Proof.
  destruct (record_steps_sums ms (start_run now0 t0 id c) _ eq_refl) as (r' & Hr & Hid & Hst & Hsteps & Hi & Ho & Ht).
  do 3 eexists. split; [exact Hr|]. unfold finish_run. cbn [current]. split; [reflexivity|]. cbn in *.
  split_and!; done.
Qed.

(** A span attribute is exported as it is exactly when its name, in lower case, is not
    one of the listed ones and contains none of the three words; the keys and their order
    are kept; redacting again changes nothing. *)
Theorem span_redaction_exact attrs :
  dkeys (redact_attributes attrs) = dkeys attrs /\
  (forall k v, (k, v) ∈ redact_attributes attrs <->
     (redacted_attribute k = true /\ v = JStr "[REDACTED]" /\ k ∈ dkeys attrs) \/
     (redacted_attribute k = false /\ (k, v) ∈ attrs)) /\
  redact_attributes (redact_attributes attrs) = redact_attributes attrs.
Proof.
  unfold redact_attributes, dkeys. split_and!.
  - by rewrite map_map.
  - intros k v. rewrite !list_elem_of_fmap. split.
    + intros ([k' v'] & [= -> ->] & H). cbn. destruct (redacted_attribute k'); [left|right]; [|done].
      split_and!; [done..|]. by exists (k', v').
    + intros [(Hs & -> & [k' v'] & -> & H)|[Hs H]]; [exists (k', v')|exists (k, v)]; cbn in *; by rewrite Hs.
  - rewrite map_map. apply List.map_ext. intros [k v]. cbn. by destruct (redacted_attribute k).
Qed.

(** The two redactions of the program disagree: what one hides of an account, the other
    shows. *)
Theorem redactions_disagree v w :
  let attrs := [("account_number", v); ("full_account_number", w)] in
  redact_attributes attrs = [("account_number", JStr "[REDACTED]"); ("full_account_number", w)] /\
  safe_log_data attrs = [("account_number", v); ("full_account_number", REDACTED)].
Proof. split; reflexivity. Qed.

(** Every error code has its own entry, whose text is shown to the client: none falls
    back to the default, and none holds a slash, a brace or a quote. *)
Theorem error_texts_are_safe code :
  (exists m, (code, m) ∈ ERROR_MESSAGES /\ safe_error_message code = m) /\
  any_in ["/"; "{"; "}"; "'"; "SELECT"; "token"; "Traceback"] (safe_error_message code) = false.
Proof.
  split; [|by destruct code]. unfold safe_error_message.
  destruct (List.find _ ERROR_MESSAGES) as [[c m]|] eqn:E; [|by destruct code].
  apply find_some in E as [Hin Hc%bool_decide_eq_true]. cbn in Hc. subst. exists m. split; [|done]. by apply list_elem_of_In.
Qed.

(** With the sample rate the application sets, every request is traced: the handler gets
    the caller's correlation id or a fresh one, and an answer carries the same one back with
    the time it took; an exception passes through, and so does what the handler did. *)
Theorem telemetry_traces_every_request {S} draw header uuid t0 t1 call_next name (s : S) :
  f_lt draw (f_of_Z 1) = true ->
  let cid := default uuid (header "X-Correlation-Id") in
  let '(r0, s0) := call_next {| correlation_id := Some cid; span_start := Some t0 |} s in
  let '(r, s') := dispatch draw header uuid t0 t1 call_next {| app_name := name; sample_rate := f_of_Z 1 |} s in
  s' = s0 /\
  match r0 with
  | Raise e => r = Raise e
  | Ok a =>
      exists a', r = Ok a' /\ status_code a' = status_code a /\ body a' = body a /\
        oget (headers a') "X-Correlation-Id" = Some cid /\
        oget (headers a') "X-Response-Time-Ms" = Some (repr_float (round1 (f_mul (f_sub t1 t0) (f_of_Z 1000)))) /\
        (forall h, h <> "X-Correlation-Id" -> h <> "X-Response-Time-Ms" -> oget (headers a') h = oget (headers a) h)
  end.
Proof.
  intros Hd cid. unfold dispatch. cbn [sample_rate]. rewrite sampled by done. fold cid.
  destruct (call_next _ s) as [[a|e] s0]; [|done]. cbn [res_map res_bind]. split; [done|].
  eexists. split; [reflexivity|]. cbn [status_code headers body].
  split_and!; [done|done|by rewrite oget_oset_ne, oget_oset_eq|by rewrite oget_oset_eq|].
  intros h H1 H2. by rewrite !oget_oset_ne.
Qed.

Example telemetry_traces_every_request_witness :
  let next st n := (Ok {| status_code := 200; headers := [("X-Seen", default "" (correlation_id st))]; body := JNull |}, n + 1) in
  let '(r, n) := dispatch (dec_to_f64 5 (-1)) (fun _ => Some "c-1") "u" (f_of_Z 1) (dec_to_f64 10123 (-4)) next
    {| app_name := "fxfill-agent"; sample_rate := f_of_Z 1 |} 0 in
  n = 1 /\ exists a, r = Ok a /\ oget (headers a) "X-Correlation-Id" = Some "c-1" /\
    oget (headers a) "X-Response-Time-Ms" = Some "12.3".
Proof.
  intros next.
  pose proof (telemetry_traces_every_request (dec_to_f64 5 (-1)) (fun _ => Some "c-1") "u" (f_of_Z 1)
    (dec_to_f64 10123 (-4)) next "fxfill-agent" 0 ltac:(vm_compute; reflexivity)) as H.
  cbn [next] in H. destruct (dispatch _ _ _ _ _ _ _ _) as [r n]. destruct H as (Hn & a & Hr & _ & _ & Hc & Ht & _).
  split; [exact Hn|]. exists a. split; [exact Hr|]. split; [exact Hc|]. rewrite Ht. vm_compute. reflexivity.
Defined.
