(* ===== verification/Runs.v ===== *)
(** Runs of one agent runtime ([agent.py]): what the constructor keeps, the configuration
    each run hands to the graph and what the graph requires of it ([graph.py]), and the
    metrics collector ([metrics.py]) that all runs of a runtime share.

    A run starts the collector when it begins and finishes it when it returns; between the two
    it awaits, and other requests run.  The relation [runs_step] interleaves runs at their
    awaits. *)
From S2P Require Import Prelude PyStr PyFloat PyTime Json PyRepr Auth Tools.
From S2P Require Import HitlStore GrantRepo IdempotencyStore EventStore Effects Graph.
From S2P Require Import Security Runtime Config Api Observability.

(** ** The runtime *)

Inductive CheckpointSaver (S : Type) : Type :=
  | GivenSaver (s : S)
  | SqliteCheckpointSaver (db_path : string)
  | MemorySaver.
Arguments GivenSaver {S} _.
Arguments SqliteCheckpointSaver {S} _.
Arguments MemorySaver {S}.

(** [config\["configurable"\]] of the graph; a missing entry and one that is [None] are told apart
    by no reader. *)
Record Configurable (L M G I : Type) : Type := {
  cf_llm : option L;
  cf_mcp_client : option M;
  cf_agent_config : option AgentConfig;
  cf_auth_gateway : option G;
  cf_idempotency_store : option I;
  cf_tool_registry : option ToolRegistry;
  cf_metrics_collector : option InMemoryMetricsCollector;
  cf_thread_id : string;
  cf_run_id : string;
}.
Arguments cf_llm {L M G I} _.
Arguments cf_mcp_client {L M G I} _.
Arguments cf_agent_config {L M G I} _.
Arguments cf_auth_gateway {L M G I} _.
Arguments cf_idempotency_store {L M G I} _.
Arguments cf_tool_registry {L M G I} _.
Arguments cf_metrics_collector {L M G I} _.
Arguments cf_thread_id {L M G I} _.
Arguments cf_run_id {L M G I} _.

Section runtime.
(** The provider, the client, the gateway, the stores and the saver. *)
Context {L M G E I S : Type}.

Record AgentRuntime : Type := {
  rt_config : AgentConfig;
  rt_llm : L;
  rt_mcp_client : M;
  rt_event_store : option E;
  rt_metrics_collector : InMemoryMetricsCollector;
  rt_auth_gateway : G;
  rt_checkpoint_saver : CheckpointSaver S;
  rt_idempotency_store : option I;
  rt_tool_registry : option ToolRegistry;
}.

Definition make_runtime (config : option AgentConfig) (llm : L) (mcp : M) (events : option E)
    (metrics : option InMemoryMetricsCollector) (gateway : option G) (saver : option S) (idem : option I)
    (registry : option ToolRegistry) : result AgentRuntime :=
  let cfg := default default_agent_config config in
  let collector := default new_collector metrics in
  match gateway with
  | None => Raise (RuntimeError "AgentRuntime requires an explicit AuthorizationGateway — refusing to fail open")
  | Some gw =>
      let db_path := pc_db_path (ac_persistence cfg) in
      Ok {| rt_config := cfg; rt_llm := llm; rt_mcp_client := mcp; rt_event_store := events;
            rt_metrics_collector := collector; rt_auth_gateway := gw;
            rt_checkpoint_saver := match saver with
                                   | Some s => GivenSaver s
                                   | None => if str_true db_path then SqliteCheckpointSaver db_path else MemorySaver
                                   end;
            rt_idempotency_store := idem; rt_tool_registry := registry |}
  end.

(** The same for a run, a transfer and a resumption. *)
Definition graph_config (rt : AgentRuntime) (thread_id run_id : string) : Configurable L M G I :=
  {| cf_llm := Some (rt_llm rt); cf_mcp_client := Some (rt_mcp_client rt); cf_agent_config := Some (rt_config rt);
     cf_auth_gateway := Some (rt_auth_gateway rt); cf_idempotency_store := rt_idempotency_store rt;
     cf_tool_registry := rt_tool_registry rt; cf_metrics_collector := Some (rt_metrics_collector rt);
     cf_thread_id := thread_id; cf_run_id := run_id |}.

Definition require_deps (cf : Configurable L M G I)
    : result (L * M * AgentConfig * G * option I * option ToolRegistry) :=
  match cf_llm cf with
  | None => Raise (KeyError "llm")
  | Some llm =>
      match cf_mcp_client cf with
      | None => Raise (KeyError "mcp_client")
      | Some mcp =>
          match cf_auth_gateway cf with
          | None => Raise (RuntimeError
              "graph requires an explicit AuthorizationGateway in configurable — refusing to fail open")
          | Some auth =>
              Ok (llm, mcp, default default_agent_config (cf_agent_config cf), auth, cf_idempotency_store cf,
                  cf_tool_registry cf)
          end
      end
  end.
End runtime.
Arguments AgentRuntime : clear implicits.

(** ** Metrics of a step *)

(** Best effort: what the collector raises is swallowed. *)
Definition record_step_metrics (m : StepMetrics) (c : InMemoryMetricsCollector) : InMemoryMetricsCollector :=
  match record_step m c with Ok c' => c' | Raise _ => c end.

Definition node_metrics (step : Z) (t0 t1 : f64) : StepMetrics :=
  {| step_index := step; duration_ms := f_mul (f_sub t1 t0) (f_of_Z 1000); input_tokens := 0; output_tokens := 0;
     tool_call_count := 0; tool_duration_ms := f_zero |}.

(** The agent node with its metrics: a step is recorded when the model has answered. *)
Definition measured_node (registry : option ToolRegistry) (max_agent_steps : Z)
    (llm : list Message -> option (list json) -> result (string * list ToolRequest)) (t0 t1 : f64) (st : AgentState)
    (c : InMemoryMetricsCollector) : result AgentState * InMemoryMetricsCollector :=
  match agent_node registry max_agent_steps llm st with
  | Ok st' => (Ok st', record_step_metrics (node_metrics (as_step_count st) t0 t1) c)
  | Raise e => (Raise e, c)
  end.

(** ** Runs interleaved *)

(** Where a run is: not begun, between its start and its finish, returned with its
    metrics, failed by its own [finish_run], or gone without one (it raised, or it was interrupted). *)
Inductive Run : Type :=
  | Arriving (id : string)
  | Measured (id : string)
  | Answered (id : string) (m : RunMetrics)
  | Refused (id : string) (e : exn)
  | Gone (id : string).

Inductive run_step : Run -> InMemoryMetricsCollector -> Run -> InMemoryMetricsCollector -> Prop :=
  | Starts id now t c : run_step (Arriving id) c (Measured id) (start_run now t id c)
  | Records id m c : run_step (Measured id) c (Measured id) (record_step_metrics m c)
  | Leaves id c : run_step (Measured id) c (Gone id) c
  | Finishes id now t c m c' : finish_run now t c = Ok (m, c') -> run_step (Measured id) c (Answered id m) c'
  | CannotFinish id now t c e : finish_run now t c = Raise e -> run_step (Measured id) c (Refused id e) c.

(** No requests but the given ones. *)
Definition runs_step : list Run * InMemoryMetricsCollector -> list Run * InMemoryMetricsCollector -> Prop :=
  interleave run_step (fun _ => False).

Definition finished (r : Run) : Prop := match r with Answered _ _ | Refused _ _ => True | _ => False end.

(** ** Lemmas *)

(** Every run hands the graph all it requires, its own gateway above all. *)
Lemma run_has_deps {L M G E I S} (rt : AgentRuntime L M G E I S) thread_id run_id :
  require_deps (graph_config rt thread_id run_id) =
  Ok (rt_llm rt, rt_mcp_client rt, rt_config rt, rt_auth_gateway rt, rt_idempotency_store rt, rt_tool_registry rt).
Proof. reflexivity. Qed.

(** A measured node records one step for each answer of the model and changes nothing else
    of the metrics. *)
Lemma measured_node_records registry n llm t0 t1 st c m :
  current c = Some m ->
  let '(r, c') := measured_node registry n llm t0 t1 st c in
  r = agent_node registry n llm st /\
  exists m', current c' = Some m' /\ run_id m' = run_id m /\
    run_steps m' = run_steps m ++ match r with Ok _ => [node_metrics (as_step_count st) t0 t1] | Raise _ => [] end.
Proof.
  intros Hc. unfold measured_node. destruct (agent_node _ _ _ st) as [st'|e].
  - split; [done|]. unfold record_step_metrics, record_step. rewrite Hc. cbn. eauto.
  - split; [done|]. exists m. by rewrite List.app_nil_r.
Qed.

Lemma recorded_current m c :
  match current c with
  | Some r => exists r', current (record_step_metrics m c) = Some r' /\ run_id r' = run_id r
  | None => record_step_metrics m c = c
  end.
Proof. unfold record_step_metrics, record_step. destruct (current c); cbn; eauto. Qed.

(** The collector is with a run of this id. *)
Definition started (id : string) (c : InMemoryMetricsCollector) : Prop :=
  exists r, current c = Some r /\ run_id r = id.

Definition answered (r : Run) : bool := match r with Answered _ _ => true | _ => false end.

(** [last] is the run that starts after every other one: when only it has not begun, its start
    brings the collector where the runs go on from. *)
Definition started_last (ids : list string) (last : string) (c0 c : InMemoryMetricsCollector) : Prop :=
  exists ids1 ids2 c1 now t, ids = ids1 ++ last :: ids2 /\
    reach runs_step (map Arriving ids, c0) (map Measured ids1 ++ Arriving last :: map Measured ids2, c1) /\
    reach runs_step (map Measured ids, start_run now t last c1) (map Measured ids, c).

(** What can have become of runs that had all started when the collector was with [id]. *)
Definition outcome_of (id : string) (r : Run) : Prop :=
  match r with
  | Arriving _ => False
  | Measured _ | Gone _ => True
  | Answered _ m => run_id m = id
  | Refused _ e => e = no_active_run
  end.

(** Whoever finishes first takes the metrics; from then on nobody can finish. *)
Definition taken (id : string) (p : list Run * InMemoryMetricsCollector) : Prop :=
  Forall (outcome_of id) (fst p) /\
  ((started id (snd p) /\ Forall (fun t => ~ finished t) (fst p)) \/
   (current (snd p) = None /\ countb answered (fst p) = 1%nat)).

Definition name_of (r : Run) : string :=
  match r with Arriving id | Measured id | Answered id _ | Refused id _ | Gone id => id end.

Definition ended (r : Run) : Prop := match r with Arriving _ | Measured _ => False | _ => True end.

Lemma names_kept p p' : runs_step p p' -> map name_of (fst p') = map name_of (fst p).
Proof.
  intros Hs. inversion Hs as [ts1 ts2 t t' s s' Ht|? ? ? []]; subst. cbn. rewrite !map_app. f_equal. cbn. f_equal.
  by inversion Ht.
Qed.

Lemma started_records id m c : started id c -> started id (record_step_metrics m c).
Proof. intros (r & Hr & Hi). pose proof (recorded_current m c) as H. rewrite Hr in H. destruct H as (r' & ? & ?). exists r'. by split; [|congruence]. Qed.

Lemma taken_kept id p p' : taken id p -> runs_step p p' -> taken id p'.
Proof.
  intros [Ho Hp] Hs. inversion Hs as [ts1 ts2 t t' s s' Ht|? ? ? []]; subst. unfold taken in *. cbn [fst snd] in *.
  rewrite Forall_app, Forall_cons in Ho |- *. destruct Ho as (Ho1 & Ht0 & Ho2).
  rewrite Forall_app, Forall_cons, !countb_app, !countb_cons in *.
  inversion Ht as [i now tm c|i m c|i c|i now tm c m c' Hf|i now tm c e Hf]; subst; cbn [outcome_of finished answered] in *.
  - done.
  - split; [done|]. destruct Hp as [[Hst Hn]|[Hn Hc]]; [left; by split; [apply started_records|]|right].
    pose proof (recorded_current m s) as H. rewrite Hn in H. by rewrite H.
  - split; [done|]. destruct Hp as [[Hst Hn]|Hn]; [left|by right]. split; [done|]. naive_solver.
  - unfold finish_run in Hf. destruct Hp as [[(r & Hr & Hi) (Hn1 & _ & Hn2)]|[Hn _]]; [|by rewrite Hn in Hf].
    rewrite Hr in Hf. injection Hf as <- <-. cbn [run_id current]. split; [done|]. right. split; [done|].
    assert (Hnone : forall l, Forall (fun t => ~ finished t) l -> countb answered l = 0%nat).
    { intros l Hl. apply countb_0. intros x Hx. rewrite Forall_forall in Hl. specialize (Hl x Hx). by destruct x. }
    by rewrite !Hnone.
  - unfold finish_run in Hf. destruct Hp as [[(r & Hr & Hi) _]|[Hn Hc]]; [by rewrite Hr in Hf|].
    rewrite Hn in Hf. injection Hf as <-. by split; [|right].
Qed.

Lemma names_reached p p' : reach runs_step p p' -> map name_of (fst p') = map name_of (fst p).
Proof. induction 1 as [|p1 p2 p3 Hs _ IH]; [done|]. by rewrite IH, (names_kept _ _ Hs). Qed.

(** While no run has ended, one has not begun, or all have started, one of them last. *)
Definition beginning (ids : list string) (c0 : InMemoryMetricsCollector) (p : list Run * InMemoryMetricsCollector) : Prop :=
  Exists ended (fst p) \/ Exists (fun t => exists i, t = Arriving i) (fst p) \/
  (fst p = map Measured ids /\ exists last, started_last ids last c0 (snd p)).

(** Runs of which none has ended and none has not begun. *)
Lemma all_measured ts :
  ~ Exists ended ts -> ~ Exists (fun t => exists i, t = Arriving i) ts -> ts = map Measured (map name_of ts).
Proof.
  induction ts as [|t ts IH]; [done|]. rewrite !Exists_cons. intros He Ha. cbn. rewrite <-IH by tauto.
  destruct t as [i|i|i m|i e|i]; cbn in *; [by destruct Ha; eauto|done|tauto..].
Qed.

Lemma ended_dec ts : Exists ended ts \/ ~ Exists ended ts.
Proof. induction ts as [|t ts IH]; [right; by intros H%Exists_nil|]. rewrite Exists_cons. destruct t; cbn; tauto. Qed.

Lemma arriving_dec ts : Exists (fun t => exists i, t = Arriving i) ts \/ ~ Exists (fun t => exists i, t = Arriving i) ts.
Proof.
  induction ts as [|t ts IH]; [right; by intros H%Exists_nil|]. rewrite Exists_cons.
  destruct t; [left; eauto|destruct IH; [tauto|]; right; intros [[? ?]|?]; done..].
Qed.

Lemma beginning_kept ids c0 p p' :
  reach runs_step (map Arriving ids, c0) p -> beginning ids c0 p -> runs_step p p' -> beginning ids c0 p'.
Proof.
  intros Hreach Hp Hs. pose proof (names_reached _ _ (reach_trans _ _ _ _ Hreach (reach_one _ _ _ Hs))) as Hn.
  cbn [fst] in Hn. rewrite map_map, map_id in Hn.
  inversion Hs as [ts1 ts2 t t' s s' Ht|? ? ? []]; subst p p'. unfold beginning in *. cbn [fst snd] in *.
  inversion Ht; subst; try (left; rewrite Exists_app, Exists_cons; cbn; tauto).
  - destruct (ended_dec (ts1 ++ Measured id :: ts2)) as [?|He]; [by left|].
    destruct (arriving_dec (ts1 ++ Measured id :: ts2)) as [?|Ha]; [by right; left|]. right. right.
    split; [by apply all_measured|]. rewrite Exists_app, Exists_cons in He, Ha.
    exists id, (map name_of ts1), (map name_of ts2), s, now, t0. rewrite map_app. cbn [map name_of].
    split; [done|]. rewrite map_app in Hreach. cbn [map name_of] in Hreach.
    rewrite <-(all_measured ts1), <-(all_measured ts2) by tauto. split; [exact Hreach|constructor].
  - destruct Hp as [Hp|[Hp|[Hp (last & i1 & i2 & c1 & now & tm & Hi & H1 & H2)]]]; [by left| |].
    + right. left. rewrite Exists_app, Exists_cons in *. destruct Hp as [?|[[? ?]|?]]; [tauto|done|tauto].
    + right. right. split; [done|]. exists last, i1, i2, c1, now, tm. split; [done|]. split; [done|].
      eapply reach_trans; [exact H2|]. apply reach_one. rewrite <-Hp. exact Hs.
Qed.

(** Some run starts last. *)
Lemma someone_starts_last ids c0 c :
  ids <> [] -> reach runs_step (map Arriving ids, c0) (map Measured ids, c) -> exists last, started_last ids last c0 c.
Proof.
  intros Hne Hr.
  assert (Hb : reach runs_step (map Arriving ids, c0) (map Measured ids, c) /\ beginning ids c0 (map Measured ids, c)).
  { refine (reach_invariant runs_step (fun p => reach runs_step (map Arriving ids, c0) p /\ beginning ids c0 p) _ _ _ _ Hr).
    - intros p p' [H1 H2] Hs. split; [eapply reach_trans; [exact H1|by apply reach_one]|by eapply beginning_kept].
    - split; [constructor|]. right. left. destruct ids as [|i ids]; [done|]. cbn. apply Exists_cons_hd. eauto. }
  destruct Hb as [_ [He|[Ha|[_ H]]]]; [| |exact H]; cbn [fst] in *.
  - by apply Exists_exists in He as (x & (i & -> & _)%list_elem_of_fmap & He).
  - by apply Exists_exists in Ha as (x & (i & -> & _)%list_elem_of_fmap & [? ?]).
Qed.

(** ** Properties *)

(** C13: Requests that overlap fail all but one.  When the runs of a runtime have all started before
    the first of them finished, then however they go on, as soon as one finishes exactly one of
    them is answered, and the metrics it is given carry the name of the run
    that started last; every other run that comes to finish raises after its work, tool calls
    included, is done, which the endpoint reports as a failed execution.  A run that is
    interrupted or raises before it finishes takes no part in this. *)
Theorem overlapping_runs_fail_but_one ids c0 c ts c' ctx :
  ids <> [] ->
  reach runs_step (map Arriving ids, c0) (map Measured ids, c) ->
  reach runs_step (map Measured ids, c) (ts, c') ->
  map name_of ts = ids /\
  (Exists finished ts -> countb answered ts = 1%nat) /\
  exists last, started_last ids last c0 c /\
    Forall (fun t =>
      match t with
      | Arriving _ => False
      | Measured _ | Gone _ => True
      | Answered _ m => run_id m = last
      | Refused _ e => e = no_active_run /\ exists detail, run_failure ctx e = HTTPException 500 detail
      end) ts.
Proof.
  intros Hne Hs Hr. destruct (someone_starts_last ids c0 c Hne Hs) as (last & Hlast).
  pose proof (names_reached _ _ Hr) as Hn. cbn [fst] in Hn. rewrite map_map, map_id in Hn.
  pose proof Hlast as (i1 & i2 & c1 & now & tm & _ & _ & Hrec). pose proof (reach_trans _ _ _ _ Hrec Hr) as Hall.
  apply (reach_invariant runs_step (taken last) (taken_kept last)) in Hall.
  - destruct Hall as [Ho Hc]. cbn [fst snd] in *. split; [done|]. split.
    { intros (x & Hx & Hfx)%Exists_exists. destruct Hc as [[_ Hu]|[_ Hc]]; [|done]. rewrite Forall_forall in Hu. by destruct (Hu x Hx). }
    exists last. split; [done|]. eapply Forall_impl; [exact Ho|]. intros [| |id m|id e|] H; try done. cbn in H. subst e.
    split; [done|]. eexists. reflexivity.
  - unfold taken. cbn [fst snd]. split; [|left; split; [by eexists; split|]]; apply Forall_forall; intros x (i & -> & _)%list_elem_of_fmap; [done|].
    by intros H.
Qed.

(** Runs one after the other do not meet: each gets the metrics of its own steps. *)
Lemma runs_in_turn id ms now0 t0 now1 t1 c :
  exists m c', reach runs_step ([Arriving id], c) ([Answered id m], c') /\
    run_id m = id /\ run_steps m = ms /\ finish_run now1 t1 (fold_left (fun c m => record_step_metrics m c) ms (start_run now0 t0 id c)) = Ok (m, c').
Proof.
  assert (Hrec : forall ms c r, current c = Some r ->
    exists r', current (fold_left (fun c m => record_step_metrics m c) ms c) = Some r' /\ run_id r' = run_id r /\
      run_steps r' = run_steps r ++ ms /\
      reach runs_step ([Measured id], c) ([Measured id], fold_left (fun c m => record_step_metrics m c) ms c)).
  { clear. induction ms as [|m ms IH]; intros c r Hc; cbn [fold_left].
    - exists r. rewrite List.app_nil_r. split_and!; [done..|constructor].
    - destruct (IH (record_step_metrics m c)
        {| run_id := run_id r; run_steps := run_steps r ++ [m]; total_duration_ms := f_add (total_duration_ms r) (duration_ms m);
           total_input_tokens := total_input_tokens r + input_tokens m; total_output_tokens := total_output_tokens r + output_tokens m;
           total_tool_calls := total_tool_calls r + tool_call_count m; started_at := started_at r; completed_at := completed_at r |})
        as (r' & Hr & Hi & Hs & Hreach).
      { unfold record_step_metrics, record_step. by rewrite Hc. }
      exists r'. split_and!; [done..| |].
      + rewrite Hs. cbn. by rewrite <-(assoc_L (++)).
      + eapply reach_trans; [|exact Hreach]. apply (step_in run_step _ [] _ []), Records. }
  destruct (Hrec ms (start_run now0 t0 id c) _ eq_refl) as (r & Hr & Hi & Hs & Hreach).
  destruct (finish_run now1 t1 (fold_left (fun c m => record_step_metrics m c) ms (start_run now0 t0 id c))) as [[m c']|e] eqn:Ef;
    pose proof Ef as Ef'; unfold finish_run in Ef'; rewrite Hr in Ef'; [|done].
  exists m, c'. injection Ef' as <- <-. split_and!; [|exact Hi|exact Hs|reflexivity].
  eapply reach_trans; [apply (step_in run_step _ [] _ []), (Starts id now0 t0)|].
  eapply reach_trans; [exact Hreach|]. apply (step_in run_step _ [] _ []), (Finishes id now1 t1 _ _ _ Ef).
Qed.

(** ** Witnesses *)

Definition witness_metrics : RunMetrics :=
  {| run_id := "run-b"; run_steps := []; total_duration_ms := f_mul (f_sub f_zero f_zero) (f_of_Z 1000); total_input_tokens := 0;
     total_output_tokens := 0; total_tool_calls := 0; started_at := isoformat 0; completed_at := isoformat 0 |}.

(** The second of three runs starts last; one is interrupted. *)
Example overlapping_runs_fail_but_one_witness :
  let ts := [Answered "run-a" witness_metrics; Refused "run-b" no_active_run; Gone "run-c"] in
  let started := start_run 0 f_zero "run-b" (start_run 0 f_zero "run-c" (start_run 0 f_zero "run-a" new_collector)) in
  map name_of ts = ["run-a"; "run-b"; "run-c"] /\
  (Exists finished ts -> countb answered ts = 1%nat) /\
  exists last, started_last ["run-a"; "run-b"; "run-c"] last new_collector started /\
    Forall (fun t =>
      match t with
      | Arriving _ => False
      | Measured _ | Gone _ => True
      | Answered _ m => run_id m = last
      | Refused _ e => e = no_active_run /\ exists detail, run_failure ANONYMOUS_CONTEXT e = HTTPException 500 detail
      end) ts.
Proof.
  intros ts started.
  apply (overlapping_runs_fail_but_one ["run-a"; "run-b"; "run-c"] new_collector started ts {| current := None; start_clock := f_zero |}
           ANONYMOUS_CONTEXT); [discriminate|..].
  - eapply reach_step; [apply (task_steps run_step _ [] [Arriving "run-b"; Arriving "run-c"] (Arriving "run-a")), (Starts _ 0 f_zero)|].
    eapply reach_step; [apply (task_steps run_step _ [Measured "run-a"; Arriving "run-b"] [] (Arriving "run-c")), (Starts _ 0 f_zero)|].
    eapply reach_step; [apply (task_steps run_step _ [Measured "run-a"] [Measured "run-c"] (Arriving "run-b")), (Starts _ 0 f_zero)|]. apply reach_refl.
  - eapply reach_step; [apply (task_steps run_step _ [Measured "run-a"; Measured "run-b"] [] (Measured "run-c")), Leaves|].
    eapply reach_step; [apply (task_steps run_step _ [] [Measured "run-b"; Gone "run-c"] (Measured "run-a")), (Finishes _ 0 f_zero); reflexivity|].
    eapply reach_step; [apply (task_steps run_step _ [Answered "run-a" witness_metrics] [Gone "run-c"] (Measured "run-b")), (CannotFinish _ 0 f_zero); reflexivity|].
    apply reach_refl.
Defined.
