(* ===== verification/Clients.v ===== *)
(** The clients and stores the runtime is wired with: the MCP client over a transport
    ([mcp/client.py]), the stub client ([mcp_client.py]), the in-memory key-value store
    ([storage.py]), the PostgreSQL back end ([postgres_backend.py]) and the factory that
    wires a runtime ([runtime_factory.py]).

    The transport is an interface; the in-process banking server implements it. *)
From S2P Require Import Prelude PyStr PyFloat Json PyRepr Auth Tools Banking BankingTools.
From S2P Require Import HitlStore GrantRepo IdempotencyStore EventStore Effects Config.
From S2P Require Bootstrap.

(** ** The client over a transport *)

Class MCPTransport (S : Type) : Type := {
  transport_connect : S -> result unit * S;
  transport_list_tools : S -> result (list MCPToolSchema) * S;
  transport_invoke_tool : string -> dict -> S -> result MCPToolResult * S;
  transport_disconnect : S -> result unit * S;
}.

Record MCPClientAdapter (S : Type) : Type := {
  transport : S;
  connected : bool;
  tools : list (string * MCPToolSchema);
}.
Arguments transport {S} _.
Arguments connected {S} _.
Arguments tools {S} _.

Definition new_client {S} (t : S) : MCPClientAdapter S := {| transport := t; connected := false; tools := [] |}.

Definition not_connected : exn := RuntimeError "MCP client not connected".

Section adapter.
Context {S : Type} `{MCPTransport S}.

(** The last of several tools with one name stays, at the place of the first. *)
Definition by_name (ts : list MCPToolSchema) : list (string * MCPToolSchema) :=
  fold_left (fun d t => oset d (mts_name t) t) ts [].

(** The client is connected before the tools are asked for. *)
Definition connect (c : MCPClientAdapter S) : result unit * MCPClientAdapter S :=
  let '(r, t1) := transport_connect (transport c) in
  match r with
  | Raise e => (Raise e, {| transport := t1; connected := connected c; tools := tools c |})
  | Ok _ =>
      let '(listed, t2) := transport_list_tools t1 in
      match listed with
      | Raise e => (Raise e, {| transport := t2; connected := true; tools := tools c |})
      | Ok ts => (Ok tt, {| transport := t2; connected := true; tools := by_name ts |})
      end
  end.

Definition disconnect (c : MCPClientAdapter S) : result unit * MCPClientAdapter S :=
  let '(r, t1) := transport_disconnect (transport c) in
  match r with
  | Raise e => (Raise e, {| transport := t1; connected := connected c; tools := tools c |})
  | Ok _ => (Ok tt, {| transport := t1; connected := false; tools := [] |})
  end.

Definition client_call (name : string) (args : dict) (c : MCPClientAdapter S) : result ToolResult * MCPClientAdapter S :=
  if negb (connected c) then (Raise not_connected, c)
  else
    let '(r, t1) := transport_invoke_tool name args (transport c) in
    (Ok (match r with
         | Ok res => {| tr_tool_name := name; tr_success := mtr_success res; tr_content := mtr_content res;
                        tr_error := mtr_error res |}
         | Raise e => {| tr_tool_name := name; tr_success := false; tr_content := ""; tr_error := Some (str_exn e) |}
         end), {| transport := t1; connected := connected c; tools := tools c |}).
End adapter.

(** The in-process banking server; the draws are those of the call. *)
#[export] Instance banking_transport (w : Draws) : MCPTransport BankingRepository := {|
  transport_connect r := (Ok tt, r);
  transport_list_tools r := (mcp_list_tools, r);
  transport_invoke_tool name args r := let '(res, r') := mcp_invoke_tool w name (JObj args) r in (Ok res, r');
  transport_disconnect r := (Ok tt, r);
|}.

(** ** The stub client *)

Record StubMCPClient : Type := {
  stub_tools : list (string * list ToolResult);
  counters : list (string * nat);
  calls : list ToolCall;
}.

Definition new_stub (programmed : list (string * list ToolResult)) : StubMCPClient :=
  {| stub_tools := programmed; counters := map (fun kv => (fst kv, 0%nat)) programmed; calls := [] |}.

Definition register (name : string) (results : list ToolResult) (s : StubMCPClient) : StubMCPClient :=
  {| stub_tools := oset (stub_tools s) name results; counters := oset (counters s) name 0%nat; calls := calls s |}.

Definition unknown_tool (name : string) : ToolResult :=
  {| tr_tool_name := name; tr_success := false; tr_content := ""; tr_error := Some ("Unknown tool: " +:+ repr_str name) |}.

Definition stub_exhausted (name : string) (idx : nat) : exn :=
  RuntimeError ("StubMCPClient exhausted for tool " +:+ repr_str name +:+ " after " +:+ str_of_Z (Z.of_nat idx)
                +:+ " call(s)").

Definition stub_call (c : ToolCall) (s : StubMCPClient) : result ToolResult * StubMCPClient :=
  let s := {| stub_tools := stub_tools s; counters := counters s; calls := calls s ++ [c] |} in
  match oget (stub_tools s) (tc_name c) with
  | None => (Ok (unknown_tool (tc_name c)), s)
  | Some results =>
      match oget (counters s) (tc_name c) with
      | None => (Raise (KeyError (tc_name c)), s)
      | Some idx =>
          match results !! idx with
          | None => (Raise (stub_exhausted (tc_name c) idx), s)
          | Some r => (Ok r, {| stub_tools := stub_tools s; counters := oset (counters s) (tc_name c) (S idx); calls := calls s |})
          end
      end
  end.

Fixpoint stub_calls (cs : list ToolCall) (s : StubMCPClient) : list (result ToolResult) * StubMCPClient :=
  match cs with
  | [] => ([], s)
  | c :: cs' => let '(r, s1) := stub_call c s in let '(rs, s2) := stub_calls cs' s1 in (r :: rs, s2)
  end.

(** ** The key-value store *)

Definition InMemoryKVStore : Type := gmap string string.

Definition kv_get (key : string) (s : InMemoryKVStore) : option string := s !! key.
Definition kv_set (key value : string) (ttl_seconds : Z) (s : InMemoryKVStore) : InMemoryKVStore := <[key := value]> s.
Definition kv_delete (key : string) (s : InMemoryKVStore) : bool * InMemoryKVStore :=
  if is_some (s !! key) then (true, delete key s) else (false, s).
Definition kv_exists (key : string) (s : InMemoryKVStore) : bool := is_some (s !! key).

Inductive kv_op : Type := KSet (key value : string) (ttl : Z) | KDelete (key : string).

Definition kv_step (o : kv_op) (s : InMemoryKVStore) : InMemoryKVStore :=
  match o with KSet k v ttl => kv_set k v ttl s | KDelete k => snd (kv_delete k s) end.

(** ** The PostgreSQL back end *)

(** A pool of the driver: [true] until it is closed. *)
Record PostgresBackend : Type := { dsn : string; pool : option bool; pg_connected : bool }.

(** What asking the driver for a pool comes to. *)
Inductive PoolAttempt : Type := DriverMissing | PoolFails (e : exn) | PoolCreated.

Definition new_postgres (dsn : string) : PostgresBackend := {| dsn := dsn; pool := None; pg_connected := false |}.

Definition pg_connect (attempt : PoolAttempt) (b : PostgresBackend) : result unit * PostgresBackend :=
  if negb (str_true (dsn b)) || pg_connected b then (Ok tt, b)
  else
    match attempt with
    | DriverMissing => (Ok tt, b)
    | PoolFails e => (Raise e, {| dsn := dsn b; pool := pool b; pg_connected := false |})
    | PoolCreated => (Ok tt, {| dsn := dsn b; pool := Some true; pg_connected := true |})
    end.

(** [closing] is what closing the pool raises, if anything. *)
Definition pg_close (closing : option exn) (b : PostgresBackend) : result unit * PostgresBackend :=
  match pool b with
  | None => (Ok tt, b)
  | Some _ =>
      match closing with
      | Some e => (Raise e, b)
      | None => (Ok tt, {| dsn := dsn b; pool := Some false; pg_connected := false |})
      end
  end.

(** [probe] is the outcome of the test query on a pool. *)
Definition pg_health (probe : bool -> result unit) (b : PostgresBackend) : bool :=
  match pool b with
  | Some p => pg_connected b && is_ok (probe p)
  | None => false
  end.

Definition pg_execute {R} (fetch : bool -> result R) (b : PostgresBackend) : result R :=
  match pool b with
  | None => Raise (RuntimeError "PostgreSQL backend not connected")
  | Some p => fetch p
  end.

Inductive pg_step : PostgresBackend -> PostgresBackend -> Prop :=
  | pg_connects attempt b : pg_step b (snd (pg_connect attempt b))
  | pg_closes closing b : pg_step b (snd (pg_close closing b)).

(** ** The runtime factory *)

(** Which saver, store and log a runtime gets; a saver of [None] is LangGraph's in memory. *)
Record RuntimeWiring : Type := {
  wired_checkpoints : option string;
  wired_idempotency : option string;
  wired_events : option string;
}.

(** [events] is the event store given by the caller. *)
Definition create_runtime (cfg : AgentConfig) (has_llm has_mcp has_gateway : bool) (events : option string)
    : result RuntimeWiring :=
  if negb has_llm then Raise (RuntimeError "LLM provider is required")
  else if negb has_mcp then Raise (RuntimeError "MCP client is required")
  else
    let db_path := pc_db_path (ac_persistence cfg) in
    let checkpoint_path := str_or (pc_checkpoint_path (ac_persistence cfg)) db_path in
    let durable := str_true db_path in
    if negb has_gateway
    then Raise (RuntimeError "AgentRuntime requires an explicit AuthorizationGateway — refusing to fail open")
    else Ok {| wired_checkpoints := if durable then Some checkpoint_path else None;
               wired_idempotency := if durable then Some db_path else None;
               wired_events := match events with Some e => Some e | None => if durable then Some db_path else None end |}.

(** ** Lemmas *)

Lemma by_name_get ts d name :
  oget (fold_left (fun d t => oset d (mts_name t) t) ts d) name =
  match List.find (fun t => String.eqb (mts_name t) name) (rev ts) with Some t => Some t | None => oget d name end.
Proof.
  revert d. induction ts as [|t ts IH]; intros d; [done|]. cbn [fold_left rev]. rewrite IH, find_app. cbn [List.find].
  destruct (List.find _ (rev ts)) as [t'|]; [done|]. destruct (String.eqb_spec (mts_name t) name) as [<-|Hne].
  - by rewrite oget_oset_eq.
  - by rewrite oget_oset_ne.
Qed.

(** Earlier calls of the same tool. *)
Definition earlier (name : string) (cs : list ToolCall) : nat := countb (fun c => String.eqb (tc_name c) name) cs.

(** What the stub owes the next call after these. *)
Definition owed (programmed : list (string * list ToolResult)) (before : list ToolCall) (c : ToolCall) : result ToolResult :=
  match oget programmed (tc_name c) with
  | None => Ok (unknown_tool (tc_name c))
  | Some results =>
      match results !! earlier (tc_name c) before with
      | Some r => Ok r
      | None => Raise (stub_exhausted (tc_name c) (length results))
      end
  end.

(** The counters after some calls. *)
Definition counted (programmed : list (string * list ToolResult)) (s : StubMCPClient) : Prop :=
  stub_tools s = programmed /\
  forall name results, oget programmed name = Some results ->
    oget (counters s) name = Some (Nat.min (earlier name (calls s)) (length results)).

Lemma stub_call_owed programmed c s :
  counted programmed s ->
  fst (stub_call c s) = owed programmed (calls s) c /\ counted programmed (snd (stub_call c s)) /\
  calls (snd (stub_call c s)) = calls s ++ [c].
Proof.
  intros [Ht Hc]. unfold stub_call, owed. cbn [stub_tools counters calls]. rewrite Ht.
  assert (Hstep : forall name, earlier name (calls s ++ [c]) = (earlier name (calls s) + (if String.eqb (tc_name c) name then 1 else 0))%nat).
  { intros name. unfold earlier. rewrite countb_app, countb_cons. cbn. lia. }
  destruct (oget programmed (tc_name c)) as [results|] eqn:Er.
  2: { split_and!; [done| |done]. split; [done|]. intros name rs Hn. cbn [calls counters]. rewrite Hstep.
       destruct (String.eqb_spec (tc_name c) name) as [<-|]; [congruence|]. rewrite Nat.add_0_r. by apply Hc. }
  rewrite (Hc _ _ Er). set (k := earlier (tc_name c) (calls s)).
  destruct (results !! k) as [r|] eqn:El.
  - apply lookup_lt_Some in El as Hlt. rewrite Nat.min_l, El by lia. cbn [fst snd].
    split_and!; [done| |done]. split; [done|]. cbn [calls counters]. intros name rs Hn. rewrite Hstep.
    destruct (String.eqb_spec (tc_name c) name) as [<-|Hne].
    + rewrite oget_oset_eq. rewrite Er in Hn. injection Hn as <-. fold k. f_equal. lia.
    + rewrite oget_oset_ne, Nat.add_0_r by done. by apply Hc.
  - apply lookup_ge_None in El as Hge. rewrite Nat.min_r by lia. rewrite lookup_ge_None_2 by lia. cbn [fst snd].
    split_and!; [done| |done]. split; [done|]. cbn [calls counters]. intros name rs Hn. rewrite Hstep, (Hc _ _ Hn).
    destruct (String.eqb_spec (tc_name c) name) as [<-|Hne]; [|by rewrite Nat.add_0_r].
    rewrite Er in Hn. injection Hn as <-. fold k. f_equal. lia.
Qed.

(** ** Properties *)

(** The client keeps calls behind its connection: before a connection and after a
    disconnection a call raises and the transport is not touched; while connected every call
    returns a result under the name that was called, the server's outcome or, if the
    transport raises, a failure with its text.  A connection lists the tools by name, the
    last of each; when listing them fails the client is left connected without them. *)
Theorem client_contract {S} `{MCPTransport S} (c : MCPClientAdapter S) :
  (forall name args, connected c = false -> client_call name args c = (Raise not_connected, c)) /\
  (forall name args, connected c = true ->
     exists res, fst (client_call name args c) = Ok res /\ tr_tool_name res = name /\
       transport (snd (client_call name args c)) = snd (transport_invoke_tool name args (transport c)) /\
       match fst (transport_invoke_tool name args (transport c)) with
       | Ok m => tr_success res = mtr_success m /\ tr_content res = mtr_content m /\ tr_error res = mtr_error m
       | Raise e => tr_success res = false /\ tr_error res = Some (str_exn e)
       end) /\
  (is_ok (fst (transport_connect (transport c))) = true -> connected (snd (connect c)) = true) /\
  (forall ts, fst (connect c) = Ok tt -> fst (transport_list_tools (snd (transport_connect (transport c)))) = Ok ts ->
     forall name, oget (tools (snd (connect c))) name = List.find (fun t => String.eqb (mts_name t) name) (rev ts)) /\
  (fst (disconnect c) = Ok tt -> forall name args,
     fst (client_call name args (snd (disconnect c))) = Raise not_connected).
Proof.
  unfold client_call, connect, disconnect. split_and!.
  - intros name args ->. done.
  - intros name args ->. cbn [negb]. destruct (transport_invoke_tool name args (transport c)) as [[m|e] t1]; cbn; eauto 8.
  - destruct (transport_connect (transport c)) as [[u|e] t1]; [|done]. intros _. by destruct (transport_list_tools t1) as [[ts|e] t2].
  - intros ts. destruct (transport_connect (transport c)) as [[u|e] t1]; [|done].
    destruct (transport_list_tools t1) as [[ts'|e] t2] eqn:El; [|done]. cbn. intros _ Hl name. rewrite El in Hl. injection Hl as <-.
    unfold by_name. rewrite by_name_get. by destruct (List.find _ _).
  - destruct (transport_disconnect (transport c)) as [[u|e] t1]; [|done]. done.
Qed.

(** Over the in-process banking server the client is the call the application is proved
    with: once connected, a call with these draws has the result and leaves the bank that
    [Bootstrap.call_tool] says. *)
Theorem client_refines_call_tool w name args bank :
  let c := snd (connect (H := banking_transport w) (new_client bank)) in
  fst (connect (H := banking_transport w) (new_client bank)) = Ok tt /\
  (fst (client_call (H := banking_transport w) name args c),
   transport (snd (client_call (H := banking_transport w) name args c))) =
  Bootstrap.call_tool true w {| tc_name := name; tc_arguments := JObj args |} bank.
Proof.
  assert (Hl : exists ts, mcp_list_tools = Ok ts) by (vm_compute; eauto). destruct Hl as (ts & Hl).
  unfold connect, new_client. cbn [transport transport_connect transport_list_tools banking_transport]. rewrite Hl.
  cbn [fst snd]. split; [done|]. unfold client_call, Bootstrap.call_tool. cbn. by destruct (mcp_invoke_tool w name (JObj args) bank).
Qed.

(** The stub replays: over any calls, each gets the programmed result whose number is
    that of the earlier calls of the same tool, or the exhaustion error once they are used
    up; a tool that is not programmed gets a failed result, not an exception; and every call
    is recorded. *)
Theorem stub_replays programmed cs :
  (forall i c, cs !! i = Some c -> fst (stub_calls cs (new_stub programmed)) !! i = Some (owed programmed (take i cs) c)) /\
  calls (snd (stub_calls cs (new_stub programmed))) = cs.
Proof.
  assert (Hnew : counted programmed (new_stub programmed)).
  { split; [done|]. intros name rs Hn. cbn. induction programmed as [|[k v] l IH]; [done|]. cbn in *.
    destruct (String.eqb name k); [by injection Hn as <-|by apply IH]. }
  assert (Hgen : forall cs s before, counted programmed s -> calls s = before ->
    (forall i c, cs !! i = Some c -> fst (stub_calls cs s) !! i = Some (owed programmed (before ++ take i cs) c)) /\
    calls (snd (stub_calls cs s)) = before ++ cs).
  { clear cs Hnew. intros cs. induction cs as [|c cs IH]; intros s before Hs <-; cbn [stub_calls].
    { split; [done|]. by rewrite List.app_nil_r. }
    destruct (stub_call_owed programmed c s Hs) as (Ho & Hs1 & Hc1). destruct (stub_call c s) as [r s1]. cbn [fst snd] in *.
    destruct (IH s1 _ Hs1 Hc1) as [Hi Hall]. destruct (stub_calls cs s1) as [rs s2]. cbn [fst snd] in *. split.
    - intros [|i] c' Hc'.
      + injection Hc' as <-. cbn. by rewrite List.app_nil_r, Ho.
      + change (rs !! i = Some (owed programmed (calls s ++ [c] ++ take i cs) c')).
        rewrite (Hi i c' Hc'). by rewrite <-app_assoc.
    - rewrite Hall. by rewrite <-app_assoc. }
  exact (Hgen cs (new_stub programmed) [] Hnew eq_refl).
Qed.

(** The store is a map without expiry: after any operations a key has the value of the
    last one that concerns it, however long ago its time to live ran out. *)
Theorem kv_last_write_wins ops s key :
  kv_get key (fold_left (fun s o => kv_step o s) ops s) =
  match List.find (fun o => match o with KSet k _ _ | KDelete k => String.eqb k key end) (rev ops) with
  | Some (KSet _ v _) => Some v
  | Some (KDelete _) => None
  | None => kv_get key s
  end /\
  kv_exists key s = is_some (kv_get key s) /\ fst (kv_delete key s) = kv_exists key s.
Proof.
  split; [|unfold kv_exists, kv_get, kv_delete; by destruct (s !! key)].
  revert s. induction ops as [|o ops IH]; intros s; [done|]. cbn [fold_left rev]. rewrite IH, find_app. cbn [List.find].
  destruct (List.find _ (rev ops)) as [o'|]; [done|]. unfold kv_get. destruct o as [k v ttl|k]; cbn [kv_step];
    destruct (String.eqb_spec k key) as [->|Hne].
  - apply (lookup_insert_eq (M := gmap string)).
  - by apply (lookup_insert_ne (M := gmap string)).
  - unfold kv_delete. destruct (s !! key) eqn:E; cbn; [apply (lookup_delete_eq (M := gmap string))|done].
  - unfold kv_delete. destruct (is_some (s !! k)); cbn; [by apply (lookup_delete_ne (M := gmap string))|done].
Qed.

(** In every state the back end reaches, it says it is connected exactly while it holds an
    open pool, it is healthy only then, and no query is sent before a pool was made; but a
    query after closing goes to the closed pool instead of raising "not connected". *)
Theorem postgres_lifecycle d b :
  reach pg_step (new_postgres d) b ->
  (pg_connected b = true <-> pool b = Some true) /\
  (forall probe, pg_health probe b = true -> pg_connected b = true) /\
  (pool b = None -> forall R (fetch : bool -> result R), pg_execute fetch b = Raise (RuntimeError "PostgreSQL backend not connected")) /\
  (pool b <> None -> forall R (fetch : bool -> result R),
     pg_execute fetch (snd (pg_close None b)) = fetch false).
Proof.
  intros Hr.
  assert (Hi : pg_connected b = true <-> pool b = Some true).
  { refine (reach_invariant pg_step (fun b => pg_connected b = true <-> pool b = Some true) _ _ _ _ Hr); [|done].
    intros b1 b2 Hb Hs. destruct Hs as [attempt b1|closing b1].
    - unfold pg_connect. destruct (negb (str_true (dsn b1)) || pg_connected b1) eqn:E; [done|].
      apply orb_false_iff in E as [_ E]. destruct attempt; cbn; [done| |done]. by rewrite <-Hb, E.
    - unfold pg_close. destruct (pool b1) as [p|] eqn:E; [|cbn; by rewrite E]. destruct closing; [cbn; by rewrite E|done]. }
  split_and!; [exact Hi| | |].
  - intros probe. unfold pg_health. destruct (pool b); [|done]. by intros [? _]%andb_true_iff.
  - intros Hp R fetch. unfold pg_execute. by rewrite Hp.
  - intros Hp R fetch. unfold pg_execute, pg_close. by destruct (pool b).
Qed.

Example postgres_lifecycle_witness :
  let b := snd (pg_connect PoolCreated (new_postgres "postgresql://db")) in
  pg_health (fun _ => Ok tt) b = true /\ pg_execute (fun p : bool => Ok p) (snd (pg_close None b)) = Ok false.
Proof.
  intros b. split; [reflexivity|].
  apply (postgres_lifecycle "postgresql://db" b); [|discriminate].
  apply reach_one. apply (pg_connects PoolCreated).
Defined.

(** A checkpoint path without a database path is dropped: the runtime then keeps its
    checkpoints in memory. *)
Theorem checkpoint_path_needs_db_path cfg events :
  pc_db_path (ac_persistence cfg) = "" ->
  create_runtime cfg true true true events =
  Ok {| wired_checkpoints := None; wired_idempotency := None; wired_events := events |}.
Proof. intros H. unfold create_runtime. cbn [negb]. rewrite H. cbn. by destruct events. Qed.

Example checkpoint_path_needs_db_path_witness :
  let cfg := {| ac_environment := DEVELOPMENT; ac_environ := default_environment_config; ac_log_level := LINFO;
                ac_llm := default_llm_config; ac_database := default_database_config; ac_mcp := default_mcp_config;
                ac_persistence := {| pc_db_path := ""; pc_checkpoint_path := "/data/cp.db"; pc_hitl_expiry_minutes := 30;
                                     pc_idempotency_retention_days := 90; pc_connection_timeout := 30 |};
                max_agent_steps := 50; human_approval_required := true |} in
  create_runtime cfg true true true None =
  Ok {| wired_checkpoints := None; wired_idempotency := None; wired_events := None |}.
Proof. intros cfg. apply checkpoint_path_needs_db_path. reflexivity. Defined.
