(* ===== verification/EndToEnd.v ===== *)
(** Components put together: the agent graph with the DeepSeek provider as its model, and the
    agent runtime with the in-memory retriever as its documents.

    [ai_message] stands for LangChain's message constructor, which gives the content and the
    tool calls of the message; the hypotheses say that it keeps the calls it is given.  What the
    transport answers depends on the address, the token, the body and the attempt. *)
From S2P Require Import Prelude PyStr PyFloat PyTime Json PyRepr Auth Tools.
From S2P Require Import HitlStore GrantRepo IdempotencyStore EventStore Effects Graph.
From S2P Require Import Approval Routing Orchestration Security Runtime.
From S2P Require Provider Retrieval.

#[local] Open Scope prog_scope.

(** ** The provider as the graph's model *)

Section provider.
Context (ai_message : json -> list (json * json * json) -> result (string * list ToolRequest)).
Context (call_dict : ToolRequest -> dict).
Context (transport : string -> string -> string -> nat -> result (Z * string)).
Context (uniform : nat -> f64 -> f64) (latency : f64) (p : Provider.DeepSeekProvider).

(** The graph offers its tools with the choice left to the model. *)
Definition graph_llm (msgs : list Message) (tools : option (list json)) : result (string * list ToolRequest) :=
  let* (content, calls) := Provider.invoke call_dict transport uniform latency p msgs tools (Some (JStr "auto")) in
  ai_message content calls.

(** A tool call that an answer of the endpoint holds. *)
Definition endpoint_call (name : string) (args : json) : Prop :=
  exists body attempt status raw parsed id,
    transport (Provider.base_url (Provider.config p) +:+ "/chat/completions") ("Bearer " +:+ Provider.token p) body attempt
      = Ok (status, raw) /\
    Provider.parse_response (Provider.config p) status raw latency = Ok parsed /\
    (JStr name, args, id) ∈ Provider.pr_tool_calls parsed.

(** The retry loop returns one of the answers. *)
Lemma retry_answer post uni cfg x :
  fst (fst (Provider.request_with_retry post uni cfg)) = Ok x -> exists attempt, post attempt = Ok x.
Proof.
  unfold Provider.request_with_retry. destruct (_ <? _); [done|].
  destruct (Provider.attempts_spec post uni (Provider.max_retries cfg) (Z.to_nat (Provider.max_retries cfg)) 0
              (Provider.retry_backoff cfg)) as (k & _ & _ & _ & ->). cbn [fst].
  destruct (post (0 + k)%nat) as [y|e] eqn:E; [|done]. intros [= <-]. eauto.
Qed.

Context (keeps_calls : forall content calls s rs, ai_message content calls = Ok (s, rs) ->
  forall r, r ∈ rs -> (JStr (rq_name r), rq_args r, JStr (rq_id r)) ∈ calls).

Lemma graph_llm_calls msgs tools content rs r :
  graph_llm msgs tools = Ok (content, rs) -> r ∈ rs -> endpoint_call (rq_name r) (rq_args r).
Proof.
  unfold graph_llm, Provider.invoke. destruct (Provider.closed p); [done|].
  intros ([c calls] & ([status raw] & Hreq & (parsed & Hp & Heq)%res_bind_ok)%res_bind_ok & Hai)%res_bind_ok Hr.
  apply retry_answer in Hreq as (attempt & Hreq). cbn [fst snd] in Hp.
  pose proof (keeps_calls _ _ _ _ Hai r Hr) as Hin. unfold Provider.to_ai_message in Heq. injection Heq as _ <-. do 6 eexists. split_and!; [exact Hreq|exact Hp|exact Hin].
Qed.
End provider.

(** ** The retriever as the runtime's documents *)

(** What the RAG route reads: three documents of the default tenant, cited. *)
Definition rag_documents (now : Z) (docs : Retrieval.InMemoryRetriever) (msg : string) : result (list (string * string)) :=
  let* res := Retrieval.retrieve now msg 3 None "default" None docs in
  Ok (zip (map Retrieval.to_text (Retrieval.citations res)) (map Retrieval.content (Retrieval.chunks res))).

Definition default_tenant (c : Retrieval.DocumentChunk) : bool := String.eqb (Retrieval.tenant_id c) "default".

Lemma rag_documents_own now docs docs' msg :
  List.filter default_tenant docs = List.filter default_tenant docs' ->
  rag_documents now docs msg = rag_documents now docs' msg.
Proof.
  intros H. unfold rag_documents, Retrieval.retrieve.
  rewrite (Retrieval.candidates_own now None "default" docs), (Retrieval.candidates_own now None "default" docs').
  unfold default_tenant in H. by rewrite H.
Qed.

Lemma rag_documents_sound now docs msg l :
  rag_documents now docs msg = Ok l ->
  (length l <= 3)%nat /\
  forall cite text, (cite, text) ∈ l ->
    exists c, c ∈ docs /\ Retrieval.tenant_id c = "default" /\ Retrieval.is_effective now c = Ok true /\
      cite = Retrieval.to_text (Retrieval.cite c) /\ text = Retrieval.content c.
Proof.
  unfold rag_documents. intros (res & Hres & [= <-])%res_bind_ok.
  assert (Hz : zip (map Retrieval.to_text (Retrieval.citations res)) (map Retrieval.content (Retrieval.chunks res))
             = map (fun c => (Retrieval.to_text (Retrieval.cite c), Retrieval.content c)) (Retrieval.chunks res)).
  { unfold Retrieval.citations. induction (Retrieval.chunks res) as [|c cs IH]; [done|]. cbn. by f_equal. }
  rewrite Hz. split.
  - rewrite length_map. unfold Retrieval.retrieve in Hres. destruct (Retrieval.candidates _ _ _ _) as [cs|]; [|done].
    injection Hres as <-. cbn [Retrieval.chunks]. rewrite length_map, Retrieval.slice_to_length by lia. lia.
  - intros ct text (c & [= -> ->] & Hc)%list_elem_of_fmap.
    destruct (Retrieval.retrieve_chunks _ _ _ _ _ _ _ _ c Hres Hc) as (cs & Hcs & Hin).
    apply Retrieval.candidates_spec in Hcs. rewrite Hcs in Hin.
    apply list_elem_of_In, List.filter_In in Hin as [Hd Hf]. apply andb_true_iff in Hf as [Ht He]. cbn [andb] in Ht.
    apply String.eqb_eq in Ht. exists c. split_and!; [by apply list_elem_of_In|done| |done|done].
    by destruct (Retrieval.is_effective now c) as [[]|].
Qed.

Lemma execute_rag_ext has_events llm f g rid msg :
  f msg = g msg -> execute_rag has_events llm (Some f) rid msg = execute_rag has_events llm (Some g) rid msg.
Proof. intros H. unfold execute_rag. by rewrite H. Qed.

(** ** Lemmas: endpoints that always answer alike *)

Section constant.
Context (ai_message : json -> list (json * json * json) -> result (string * list ToolRequest)).
Context (call_dict : ToolRequest -> dict) (uniform : nat -> f64 -> f64) (latency : f64) (p : Provider.DeepSeekProvider).
Context (transport : string -> string -> string -> nat -> result (Z * string)) (status : Z) (raw : string).
Context (Hopen : Provider.closed p = false) (Hretries : 0 <= Provider.max_retries (Provider.config p)).
Context (Htransport : forall url auth body attempt, transport url auth body attempt = Ok (status, raw)).

Lemma graph_llm_constant msgs tools :
  graph_llm ai_message call_dict transport uniform latency p msgs tools =
  (let* parsed := Provider.parse_response (Provider.config p) status raw latency in
   ai_message (fst (Provider.to_ai_message parsed)) (snd (Provider.to_ai_message parsed))).
Proof.
  unfold graph_llm, Provider.invoke. rewrite Hopen. set (post := transport _ _ _).
  assert (fst (fst (Provider.request_with_retry post uniform (Provider.config p))) = Ok (status, raw)) as ->.
  { unfold Provider.request_with_retry. replace (_ <? 0) with false by lia.
    destruct (Provider.attempts_spec post uniform (Provider.max_retries (Provider.config p))
                (Z.to_nat (Provider.max_retries (Provider.config p))) 0 (Provider.retry_backoff (Provider.config p)))
      as (k & _ & _ & _ & ->). unfold post. cbn [fst]. by rewrite Htransport. }
  cbn [res_bind fst snd]. by destruct (Provider.parse_response _ _ _ _).
Qed.
End constant.

(** ** Properties *)

(** C16: No call out of thin air: whatever the conversation, the policy, the tools and the
    database, every call the graph dispatches with the provider as its model is a tool call
    of some answer of the endpoint, with its name and exactly its arguments, which the
    registry validated and a decision of the gateway approved. *)
Theorem dispatched_calls_come_from_the_endpoint {P} `{AuthorizationPolicy P} registry durable max_agent_steps
    ai_message call_dict transport uniform latency p (gw : AuthorizationGateway P) st now mcp w :
  (forall content calls s rs, ai_message content calls = Ok (s, rs) ->
     forall r, r ∈ rs -> (JStr (rq_name r), rq_args r, JStr (rq_id r)) ∈ calls) ->
  exists cs,
    w_calls (snd (run now mcp (invoke registry durable max_agent_steps
      (graph_llm ai_message call_dict transport uniform latency p) gw st) w)) = w_calls w ++ cs /\
    Forall (fun c =>
      endpoint_call transport latency p (tc_name c) (tc_arguments c) /\
      exists tc now' (gw1 gw2 : AuthorizationGateway P) d,
        rq_name tc = tc_name c /\ rq_args tc = tc_arguments c /\ rejected_by_registry registry tc = Ok None /\
        gw_authorize now' (operation_of registry tc) gw1 = Ok (d, gw2) /\ ad_decision d = APPROVED) cs.
Proof.
  intros Hai. apply dispatches_run.
  eapply dispatches_proposed; [apply gw_later_refl|apply continues_refl|].
  intros tcs c (msgs & tools & content & _ & _ & Hllm).
  intros (tc & Hin & Hn & Hrej & now' & gw1 & gw2 & d & _ & Hauth & [[Hd Hargs]|(_ & v & Hv & _)]).
  2: { by apply elem_of_nil in Hv. }
  rewrite <-Hn, Hargs. split; [by eapply graph_llm_calls|]. exists tc, now', gw1, gw2, d. done.
Qed.

(** An outage looks like an answer: when the endpoint keeps answering with a status the
    parser lets through (409, say) and an error object, a run through the graph ends without
    an exception after one step, with an empty final answer and no call. *)
Theorem outage_is_an_empty_answer {P} `{AuthorizationPolicy P} registry durable has_events max_agent_steps plan_llm retriever
    set_order limit ai_message call_dict transport uniform latency p status raw d uuid plan_uuid msg rid ctx
    (gw : AuthorizationGateway P) now mcp w tools :
  Provider.closed p = false -> 0 <= Provider.max_retries (Provider.config p) ->
  (forall url auth body attempt, transport url auth body attempt = Ok (status, raw)) ->
  Provider.status_passes status = true -> loads raw = Ok (JObj d) ->
  dhas d "choices" = false -> dhas d "message" = false -> dhas d "content" = false -> dhas d "usage" = false ->
  ai_message (JStr "") [] = Ok ("", []) -> offered_tools registry = Ok tools -> 0 < max_agent_steps ->
  exists w',
    run now mcp (run_agent registry durable has_events max_agent_steps
      (graph_llm ai_message call_dict transport uniform latency p) plan_llm retriever set_order limit
      None uuid plan_uuid msg rid None ctx gw) w
    = (Done (reply (opt_or rid uuid) "" 1 None), w') /\ w_calls w' = w_calls w.
Proof.
  intros Hopen Hret Htr Hst Hraw Hch Hm Hc Hu Hai Htools Hmax.
  destruct (Provider.parse_error_body (Provider.config p) status raw latency d Hst Hraw Hch Hm Hc Hu) as (parsed & Hp & Hto).
  set (llm := graph_llm ai_message call_dict transport uniform latency p).
  assert (Hllm : forall msgs tools, llm msgs tools = Ok ("", [])).
  { intros ms ts. unfold llm. rewrite (graph_llm_constant _ _ _ _ _ transport status raw) by done. rewrite Hp. cbn [res_bind].
    rewrite Hto. done. }
  assert (Hgraph : forall st, as_step_count st = 0 -> invoke registry durable max_agent_steps llm gw st =
    Ret (Some (Finished {| as_messages := as_messages st ++ [AIMessage "" []]; as_final_answer := Some "";
                           as_step_count := 0 + 1; as_session_id := as_session_id st; as_executed := as_executed st |}))).
  { intros st Hs. unfold invoke, passes_left. cbn [graph_loop]. unfold agent_node. rewrite Hs.
    replace (0 >=? max_agent_steps) with false by lia. rewrite Htools. cbn [res_bind]. rewrite Hllm. cbn [res_bind lift bind].
    unfold has_tool_calls. cbn [as_messages]. by rewrite last_message_app. }
  unfold run_agent. rewrite run_bind.
  assert (Hpers : forall rid seq kind payload w, exists w', run now mcp (persist has_events rid seq kind payload) w = (Done tt, w')
            /\ w_calls w' = w_calls w) by (intros; unfold persist; destruct has_events; cbn; eauto).
  edestruct (Hpers (opt_or rid uuid) 0 USER_MESSAGE (JObj [("content", JStr msg)]) w) as (w1 & -> & Hc1).
  unfold run_graph. rewrite (Hgraph (initial_state (opt_or rid uuid) msg)) by done. cbn [catch bind].
  rewrite run_bind. unfold persist_answer.
  edestruct (Hpers (opt_or rid uuid) (as_step_count (initial_state (opt_or rid uuid) msg) + 1)) as (w2 & -> & Hc2).
  exists w2. split; [done|]. by rewrite Hc2.
Qed.

(** C36: A completion reaches the tool node unchanged: when, of the attempts to send the
    conversation and the offered tools, the first that is not retried is answered with a
    completion, the agent node appends one message with its content and exactly its tool calls,
    in order, with their ids, names and decoded arguments, and the graph goes on to the tools
    precisely when there are any. *)
Theorem provider_turn_exact registry max_agent_steps ai_message call_dict transport uniform latency p content rs k raw data st tools :
  Provider.closed p = false -> offered_tools registry = Ok tools -> as_step_count st < max_agent_steps ->
  let cfg := Provider.config p in
  let post := transport (Provider.base_url cfg +:+ "/chat/completions") ("Bearer " +:+ Provider.token p)
    (dumps false (JObj (Provider.build_request_body call_dict cfg (as_messages st) tools (Some (JStr "auto"))))) in
  Z.of_nat k <= Provider.max_retries cfg -> (forall i, (i < k)%nat -> Provider.final (post i) = false) ->
  post k = Ok (200, raw) -> loads raw = Ok data -> Provider.is_completion content rs data ->
  ai_message (JStr content) (map (fun r => (JStr (rq_name r), rq_args r, JStr (rq_id r))) rs) = Ok (content, rs) ->
  exists st',
    agent_node registry max_agent_steps (graph_llm ai_message call_dict transport uniform latency p) st = Ok st' /\
    as_messages st' = as_messages st ++ [AIMessage content rs] /\ as_step_count st' = as_step_count st + 1 /\
    has_tool_calls st' = list_true rs /\ as_final_answer st' = (if list_true rs then as_final_answer st else Some content).
Proof.
  intros Hopen Htools Hlt cfg post Hk Hi Hpost Hraw Hcomp Hai.
  destruct (Provider.parse_completion cfg latency content rs raw data Hraw Hcomp) as (parsed & Hp & Hc & Hcalls).
  eexists. split.
  - unfold agent_node. replace (_ >=? _) with false by lia. rewrite Htools. cbn [res_bind].
    unfold graph_llm, Provider.invoke. rewrite Hopen. fold cfg. fold post.
    rewrite (Provider.request_answer post uniform cfg k 200 raw Hk Hi Hpost) by (by rewrite Hpost). cbn [res_bind fst snd].
    rewrite Hp. cbn [res_bind]. unfold Provider.to_ai_message. rewrite Hc, Hcalls. cbn [res_bind].
    replace (Provider.json_or _ _) with (JStr content) by (unfold Provider.json_or; cbn; by destruct content, rs).
    rewrite Hai. reflexivity.
  - cbn. unfold has_tool_calls. cbn. rewrite last_message_app. done.
Qed.

(** C40: Retrieval in the agent belongs to the default tenant: runs over two libraries with the
    same documents of that tenant are the same program, whoever asks, so no other tenant's
    document, not even the caller's own, influences an answer; and what the model is shown
    are at most three documents of that tenant that are in effect, cited as they are. *)
Theorem rag_noninterference {P} `{AuthorizationPolicy P} registry durable has_events max_agent_steps llm plan_llm set_order limit
    router uuid plan_uuid msg rid resume_from ctx (gw : AuthorizationGateway P) now docs docs' :
  List.filter default_tenant docs = List.filter default_tenant docs' ->
  run_agent registry durable has_events max_agent_steps llm plan_llm (Some (rag_documents now docs)) set_order limit
    router uuid plan_uuid msg rid resume_from ctx gw =
  run_agent registry durable has_events max_agent_steps llm plan_llm (Some (rag_documents now docs')) set_order limit
    router uuid plan_uuid msg rid resume_from ctx gw /\
  (forall l, rag_documents now docs msg = Ok l ->
     (length l <= 3)%nat /\
     forall cite text, (cite, text) ∈ l ->
       exists c, c ∈ docs /\ Retrieval.tenant_id c = "default" /\ Retrieval.is_effective now c = Ok true /\
         cite = Retrieval.to_text (Retrieval.cite c) /\ text = Retrieval.content c).
Proof.
  intros Hf. split; [|apply rag_documents_sound]. unfold run_agent, follow_route.
  by rewrite (execute_rag_ext has_events llm (rag_documents now docs) (rag_documents now docs') _ msg
    (rag_documents_own now docs docs' msg Hf)).
Qed.

(** ** Witnesses *)

(** A message constructor that accepts texts only. *)
Definition text_message (content : json) (calls : list (json * json * json)) : result (string * list ToolRequest) :=
  match content with
  | JStr s =>
      let* rs := res_mapM (fun call : json * json * json =>
        match call with
        | (JStr n, a, JStr i) => Ok {| rq_id := i; rq_name := n; rq_args := a |}
        | _ => Raise (ValueError "tool_calls")
        end) calls in
      Ok (s, rs)
  | _ => Raise (ValueError "content")
  end.

Lemma text_message_keeps content calls s rs :
  text_message content calls = Ok (s, rs) ->
  forall r, r ∈ rs -> (JStr (rq_name r), rq_args r, JStr (rq_id r)) ∈ calls.
Proof.
  destruct content as [| | | |c| |]; try done. intros (rs' & H & [= <- <-])%res_bind_ok r Hr.
  revert rs' H Hr. induction calls as [|[[n a] i] calls IH]; intros rs' H Hr; cbn in H.
  { injection H as <-. by apply elem_of_nil in Hr. }
  destruct n, i; try done. cbn in H. apply res_bind_ok in H as (rs1 & H & [= <-]).
  apply elem_of_cons in Hr as [->|Hr]; [by left|right; by eapply IH].
Qed.

Definition open_provider : Provider.DeepSeekProvider :=
  {| Provider.config := Provider.default_provider_config; Provider.token := "sk-1"; Provider.closed := false |}.

Definition balance_request : ToolRequest :=
  {| rq_id := "call-1"; rq_name := "get_balance";
     rq_args := JObj [("account_id", JStr "ACC-1001"); ("user_id", JStr "user-alice")] |}.

Definition call_answer : string :=
  dumps false (JObj (Provider.completion "" [Provider.provider_call balance_request (dumps false (rq_args balance_request))])).

(** Asks for the balance, then answers. *)
Definition two_turns (url auth body : string) (attempt : nat) : result (Z * string) :=
  if contains "assistant" body then Ok (200, dumps false (JObj (Provider.completion "Your balance is 15000." [])))
  else Ok (200, call_answer).

Definition full_jitter (attempt : nat) (hi : f64) : f64 := hi.

Example dispatched_calls_come_from_the_endpoint_witness :
  let w' := snd (run noon_2026 witness_answer (invoke (Some witness_registry) true 50
              (graph_llm text_message Provider.langchain_dict two_turns full_jitter f_zero open_provider)
              {| gw_policy := AutoApprove; gw_decisions := [] |} witness_state) empty_world) in
  w_calls w' = [{| tc_name := "get_balance"; tc_arguments := rq_args balance_request |}] /\
  endpoint_call two_turns f_zero open_provider "get_balance" (rq_args balance_request).
Proof.
  intros w'. assert (Hw : w_calls w' = [{| tc_name := "get_balance"; tc_arguments := rq_args balance_request |}])
    by (vm_compute; reflexivity).
  split; [exact Hw|].
  destruct (dispatched_calls_come_from_the_endpoint (Some witness_registry) true 50 text_message Provider.langchain_dict two_turns
    full_jitter f_zero open_provider {| gw_policy := AutoApprove; gw_decisions := [] |} witness_state noon_2026 witness_answer
    empty_world text_message_keeps) as (cs & Hcs & HF).
  fold w' in Hcs. rewrite Hw in Hcs. cbn [empty_world w_calls app] in Hcs. subst cs.
  exact (proj1 (proj1 (proj1 (Forall_cons _ _ _) HF))).
Defined.

Example outage_is_an_empty_answer_witness :
  exists w', run noon_2026 witness_answer (run_agent (Some witness_registry) true true 50
    (graph_llm text_message Provider.langchain_dict
       (fun _ _ _ _ => Ok (409, dumps false (JObj [("error", JStr "conflict")]))) full_jitter f_zero open_provider)
    (fun _ _ => Ok "") None (fun l => l) 100 None "u-1" "p-1" "balance?" None None None
    {| gw_policy := AutoApprove; gw_decisions := [] |}) empty_world = (Done (reply "u-1" "" 1 None), w') /\ w_calls w' = [].
Proof.
  destruct (offered_tools (Some witness_registry)) as [tools|e] eqn:Et; [|vm_compute in Et; discriminate Et].
  apply (outage_is_an_empty_answer (Some witness_registry) true true 50 (fun _ _ => Ok "") None (fun l => l) 100 text_message
    Provider.langchain_dict (fun _ _ _ _ => Ok (409, dumps false (JObj [("error", JStr "conflict")]))) full_jitter f_zero
    open_provider 409 (dumps false (JObj [("error", JStr "conflict")])) [("error", JStr "conflict")] "u-1" "p-1" "balance?" None
    None {| gw_policy := AutoApprove; gw_decisions := [] |} noon_2026 witness_answer empty_world tools);
    try (vm_compute; reflexivity); try exact Et; try lia; cbn; lia.
Defined.

(** The first attempt is answered with a 503. *)
Definition busy_once (url auth body : string) (attempt : nat) : result (Z * string) :=
  match attempt with 0%nat => Ok (503, "") | _ => Ok (200, Provider.balance_answer) end.

Example provider_turn_exact_witness :
  exists st', agent_node (Some witness_registry) 50
      (graph_llm text_message Provider.langchain_dict busy_once full_jitter f_zero open_provider) witness_state = Ok st' /\
    as_messages st' = [HumanMessage "balance?"; AIMessage "" [Provider.balance_call]] /\ has_tool_calls st' = true.
Proof.
  destruct (offered_tools (Some witness_registry)) as [tools|e] eqn:Et; [|vm_compute in Et; discriminate Et].
  destruct Provider.balance_completion as (data & Hl & Hc).
  destruct (provider_turn_exact (Some witness_registry) 50 text_message Provider.langchain_dict busy_once full_jitter f_zero open_provider
    "" [Provider.balance_call] 1 Provider.balance_answer data witness_state tools)
    as (st' & Hst & Hm & _ & Ht & _);
    [reflexivity|exact Et|reflexivity|vm_compute; discriminate|intros [|i] Hi; [reflexivity|lia]|reflexivity|exact Hl|exact Hc|reflexivity|].
  exists st'. split; [exact Hst|]. split; [exact Hm|exact Ht].
Defined.

(** The second library lacks the documents of the other tenant. *)
Example rag_noninterference_witness :
  rag_documents noon_2026 Retrieval.library "transfer fees"
  = rag_documents noon_2026 (List.filter default_tenant Retrieval.library) "transfer fees" /\
  run_agent None true true 50 witness_llm (fun _ _ => Ok "") (Some (rag_documents noon_2026 Retrieval.library)) (fun l => l) 100
    (Some None) "u-1" "p-1" "transfer fees" None None None {| gw_policy := AutoApprove; gw_decisions := [] |} =
  run_agent None true true 50 witness_llm (fun _ _ => Ok "")
    (Some (rag_documents noon_2026 (List.filter default_tenant Retrieval.library))) (fun l => l) 100
    (Some None) "u-1" "p-1" "transfer fees" None None None {| gw_policy := AutoApprove; gw_decisions := [] |}.
Proof.
  split; [vm_compute; reflexivity|].
  exact (proj1 (rag_noninterference None true true 50 witness_llm (fun _ _ => Ok "") (fun l => l) 100 (Some None) "u-1" "p-1"
    "transfer fees" None None None {| gw_policy := AutoApprove; gw_decisions := [] |} noon_2026 Retrieval.library
    (List.filter default_tenant Retrieval.library) ltac:(vm_compute; reflexivity))).
Defined.
