(* ===== verification/Server.v ===== *)
(** The served application: what [create_app] ([api.py]) assembles and [server.main]
    ([server.py]) serves.  A request goes through the middleware stack to a route, whose
    endpoint runs against the database, the bank and the model; the service's state is the
    limiter's counters, the database and the bank.

    FastAPI and Starlette are the class [WebFramework]: the order in which added middleware
    runs, what becomes of exceptions inside and outside of the routes, the resolution of a
    request to a declared route with its validated payload, and the CORS layer.  Clock
    readings, fresh identifiers, the sampler's draw, the models' answers and what the
    checkpointer holds come with each request, in [Env].  Requests are served one after the
    other; Runs shows what becomes of runs that overlap. *)
From S2P Require Import Prelude PyStr PyFloat PyTime Json PyRepr Auth Tools Banking BankingTools.
From S2P Require Import HitlStore GrantRepo IdempotencyStore EventStore Effects Approval Graph.
From S2P Require Import Routing Orchestration Security Runtime Config Bootstrap Conversation Api.
From S2P Require Import Observability Evaluation.

#[local] Open Scope prog_scope.

(** ** Requests and handlers *)

Inductive Method : Type := GET | POST | DELETE | OPTIONS.

Record HttpCall : Type := { hc_method : Method; hc_path : string; hc_header : Headers; hc_body : string }.

(** What a request finds outside of the service. *)
Record Env : Type := {
  en_now : Z;
  en_monotonic : Z;
  en_draw : f64;
  en_t0 : f64;
  en_t1 : f64;
  en_correlation : string;
  en_uuid : string;
  en_plan_uuid : string;
  en_llm : list Message -> option (list json) -> result (string * list ToolRequest);
  en_plan_llm : nat -> list Message -> result string;
  en_retriever : option (string -> result (list (string * string)));
  en_set_order : list string -> list string;
  en_saved : AgentState;
  en_earlier : list json;
  en_draws : Draws;
}.

(** [request.state]. *)
Record Scope : Type := { sc_trace : RequestState; sc_identity : option TrustedRequestContext }.

Definition empty_scope : Scope :=
  {| sc_trace := {| correlation_id := None; span_start := None |}; sc_identity := None |}.

(** What the process keeps between requests. *)
Record Service : Type := { sv_counters : Counters; sv_world : World; sv_bank : BankingRepository }.

Definition set_counters (c : Counters) (s : Service) : Service :=
  {| sv_counters := c; sv_world := sv_world s; sv_bank := sv_bank s |}.

Definition Handler : Type := Env -> HttpCall -> Scope -> Service -> result Response * Service.
Definition Middleware : Type := Handler -> Handler.

(** The endpoints, with their validated payloads. *)
Inductive Endpoint : Type :=
  | Liveness
  | Readiness
  | Health
  | DeepHealth
  | AgentEndpoint (q : AgentRequest)
  | ApproveEndpoint (q : ApprovalRequest)
  | V1Health
  | V1Agent (q : AgentRequest)
  | V1Approve (q : ApprovalRequest)
  | CreateThread
  | GetThread (thread_id : string)
  | DeleteThread (thread_id : string)
  | ListAuditEvents (run_id : string) (limit : Z).

Definition endpoint_name (e : Endpoint) : string :=
  match e with
  | Liveness => "liveness" | Readiness => "readiness" | Health => "health" | DeepHealth => "deep_health"
  | AgentEndpoint _ => "agent_endpoint" | ApproveEndpoint _ => "approve_endpoint"
  | V1Health => "v1_health" | V1Agent _ => "v1_agent" | V1Approve _ => "v1_approve"
  | CreateThread => "create_thread" | GetThread _ => "get_thread" | DeleteThread _ => "delete_thread"
  | ListAuditEvents _ _ => "list_audit_events"
  end.

(** The routes in the order they are declared; those of the router follow when it is
    included. *)
Definition routes : list (Method * string * string) :=
  [(GET, "/live", "liveness"); (GET, "/ready", "readiness"); (GET, "/health", "health");
   (GET, "/health/deep", "deep_health"); (POST, "/agent", "agent_endpoint");
   (POST, "/agent/approve", "approve_endpoint"); (GET, "/v1/health", "v1_health");
   (POST, "/v1/agent", "v1_agent"); (POST, "/v1/agent/approve", "v1_approve");
   (POST, "/v1/threads", "create_thread"); (GET, "/v1/threads/{thread_id}", "get_thread");
   (DELETE, "/v1/threads/{thread_id}", "delete_thread"); (GET, "/v1/audit/events", "list_audit_events")].

(** A payload the request models accept. *)
Definition payload_ok (e : Endpoint) : bool :=
  match e with
  | AgentEndpoint q | V1Agent q => agent_request_ok q
  | ApproveEndpoint q | V1Approve q => str_true (aprq_session_id q)
  | _ => true
  end.

(** A route with its payload, or an answer of the framework (no such route, a refused payload,
    its documentation pages). *)
Inductive Resolution : Type := To (e : Endpoint) | Direct (r : Response).

(** ** The framework *)

(** What the program relies on: an endpoint's HTTPException becomes a response before any
    added middleware sees it, every other exception travels outwards; the middleware added
    last is the outermost; what leaves the whole stack as an exception is answered with 500;
    only declared routes are resolved, with valid payloads.  CORS answers a preflight itself and otherwise only
    adds headers of its own. *)
Class WebFramework : Type := {
  http_error : Z -> string -> Response;
  stack : list Middleware -> Handler -> Handler;
  answer : result Response -> Response;
  resolve_route : list (Method * string * string) -> HttpCall -> Resolution;
  cors : Middleware;
  preflight : HttpCall -> bool;
  http_error_status : forall code detail, status_code (http_error code detail) = code;
  stack_routes : forall h env c sc s,
    stack [] h env c sc s =
    match h env c sc s with
    | (Raise (HTTPException code detail), s') => (Ok (http_error code detail), s')
    | other => other
    end;
  stack_add : forall ms m h, stack (ms ++ [m]) h = m (stack ms h);
  answer_response : forall r, answer (Ok r) = r;
  answer_error : forall e, status_code (answer (Raise e)) = 500;
  resolve_declared : forall rs c e, resolve_route rs c = To e ->
    payload_ok e = true /\ exists template, (hc_method c, template, endpoint_name e) ∈ rs;
  cors_preflight : forall h env c sc s, preflight c = true -> exists r, cors h env c sc s = (Ok r, s);
  cors_passes : forall h env c sc s, preflight c = false ->
    match h env c sc s with
    | (Raise e, s') => cors h env c sc s = (Raise e, s')
    | (Ok r, s') => exists r', cors h env c sc s = (Ok r', s') /\ status_code r' = status_code r /\
        body r' = body r /\
        (forall k, startswith k "Access-Control-" = false -> k <> "Vary" -> oget (headers r') k = oget (headers r) k)
    end;
}.

(** ** Running an endpoint against the database and the bank *)

Definition bank_after {R} (draws : Draws) (o : op R) (b : BankingRepository) : BankingRepository :=
  match o with ODispatch c => snd (call_tool true draws c b) | _ => b end.

Fixpoint run_bank {A} (now : Z) (draws : Draws) (p : prog A) (w : World) (b : BankingRepository)
    : outcome A * World * BankingRepository :=
  match p with
  | Ret a => (Done a, w, b)
  | Throw e => (Failed e, w, b)
  | Pause v => (Paused v, w, b)
  | Op o k =>
      let '(r, w') := exec now (fun c => fst (call_tool true draws c b)) o w in
      run_bank now draws (k r) w' (bank_after draws o b)
  end.

Definition json_response (code : Z) (content : json) : Response :=
  {| status_code := code; headers := []; body := content |}.

Definition opt_text (o : option string) : json := match o with Some s => JStr s | None => JNull end.

Definition agent_content (r : AgentResponse) : json :=
  JObj [("session_id", JStr (as_session r)); ("answer", opt_text (as_answer r));
        ("step_count", JInt (as_steps r)); ("status", JStr (as_status r))].

Definition approval_content (r : ApprovalResponse) : json :=
  JObj [("session_id", JStr (aprs_session_id r)); ("decision", JStr (aprs_decision r));
        ("result", match aprs_result r with
                   | Some (text, n) => JObj [("answer", opt_text text); ("step_count", JInt n)]
                   | None => JNull
                   end)].

Definition created_content (i : ThreadInfo) : json :=
  JObj [("thread_id", JStr (ti_thread_id i)); ("created_at", JStr (ti_created_at i)); ("status", JStr (ti_status i))].

Definition thread_content (i : ThreadInfo) : json :=
  JObj [("thread_id", JStr (ti_thread_id i)); ("created_at", JStr (ti_created_at i));
        ("updated_at", JStr (ti_updated_at i)); ("message_count", JInt (ti_message_count i));
        ("status", JStr (ti_status i))].

Section service.
Context {R : Type} `{ApprovalActorResolver R} (executor : option R) (app : Application).
Context (recursion_limit : nat).

(** How many tools the MCP client lists. *)
Definition listed_tools : option Z := Some (Z.of_nat (length tool_schemas)).

Definition agent_call (env : Env) (sc : Scope) (q : AgentRequest) : prog AgentResponse :=
  agent_endpoint (Some (app_registry app)) (app_durable app) (app_durable app) (app_durable app) (app_durable app)
    (max_agent_steps (app_config app)) (en_llm env) (en_plan_llm env) (en_retriever env) (en_set_order env)
    recursion_limit (Some None) (en_uuid env) (en_plan_uuid env) q (get_trusted_context (sc_identity sc))
    (app_gateway app).

Definition approve_call (env : Env) (q : ApprovalRequest) : prog ApprovalResponse :=
  approve_endpoint (Some (app_registry app)) (app_durable app) (app_durable app) (app_durable app)
    (max_agent_steps (app_config app)) (en_llm env) executor (en_uuid env) (en_saved env) (en_earlier env) q
    (app_gateway app).

Definition endpoint_prog (env : Env) (sc : Scope) (e : Endpoint) : prog Response :=
  match e with
  | Liveness => Ret (json_response 200 (JObj liveness))
  | Readiness => let '(code, content) := readiness listed_tools true in Ret (json_response code (JObj content))
  | Health | V1Health => Ret (json_response 200 (JObj health))
  | DeepHealth => Ret (json_response 200 (JObj (deep_health listed_tools true)))
  | AgentEndpoint q | V1Agent q => do r <- agent_call env sc q ;; Ret (json_response 200 (agent_content r))
  | ApproveEndpoint q | V1Approve q => do r <- approve_call env q ;; Ret (json_response 200 (approval_content r))
  | CreateThread =>
      do i <- lift (api_create_thread (en_now env) (en_uuid env)) ;; Ret (json_response 200 (created_content i))
  | GetThread id => do i <- lift (api_get_thread id) ;; Ret (json_response 200 (thread_content i))
  | DeleteThread id =>
      do i <- lift (api_delete_thread id) ;;
      Ret (json_response 200 (JObj [("thread_id", JStr i); ("status", JStr "deleted")]))
  | ListAuditEvents run_id limit =>
      do n <- lift (list_audit_events (app_durable app) run_id) ;;
      Ret (json_response 200 (JObj [("events", JArr []); ("count", JInt n)]))
  end.

(** No program of an endpoint pauses ([endpoint_no_pause]): an interrupt stays in the graph. *)
Definition run_endpoint (env : Env) (sc : Scope) (e : Endpoint) (s : Service) : result Response * Service :=
  let '(o, w, b) := run_bank (en_now env) (en_draws env) (endpoint_prog env sc e) (sv_world s) (sv_bank s) in
  (match o with Done r => Ok r | Failed x => Raise x | Paused _ => Raise (RuntimeError "interrupt") end,
   {| sv_counters := sv_counters s; sv_world := w; sv_bank := b |}).

(** ** The middleware *)

(** [production_mode] keeps its default: the application adds the class without arguments. *)
Definition auth_middleware (production_mode : bool) : Middleware := fun next env c sc s =>
  next env c {| sc_trace := sc_trace sc;
                sc_identity := Some (auth_dispatch production_mode (hc_header c) (correlation_id (sc_trace sc))) |} s.

Definition telemetry_middleware (mw : TelemetryMiddleware) : Middleware := fun next env c sc s =>
  dispatch (en_draw env) (hc_header c) (en_correlation env) (en_t0 env) (en_t1 env)
    (fun st => next env c {| sc_trace := st; sc_identity := sc_identity sc |}) mw s.

Definition second : Z := 1000000.

Definition rate_middleware (max_requests window_seconds : Z) : Middleware := fun next env c sc s =>
  let '(r, counters) := rate_dispatch max_requests (window_seconds * second)
                          (rate_key (hc_header c "X-Tenant-Id") (hc_path c)) (en_monotonic env) (sv_counters s) in
  match r with
  | Ok _ => next env c sc (set_counters counters s)
  | Raise e => (Raise e, set_counters counters s)
  end.

(** In the order they are added. *)
Definition middlewares `{WebFramework} : list Middleware :=
  [auth_middleware false;
   telemetry_middleware {| app_name := "fxfill-agent"; sample_rate := f_of_Z 1 |};
   rate_middleware 60 60;
   cors].

(** ** The application *)

Definition router `{WebFramework} : Handler := fun env c sc s =>
  match resolve_route routes c with
  | Direct r => (Ok r, s)
  | To e => run_endpoint env sc e s
  end.

(** The stores, the repository and the executor come with the database path. *)
Definition create_app `{WebFramework} : result Handler :=
  let* _ := create_app_guard true (app_durable app) (app_durable app) (str_true (pc_db_path (ac_persistence (app_config app))))
              (is_some executor) in
  Ok (stack middlewares router).

(** One request, and a sequence of them. *)
Definition serve `{WebFramework} (http : Handler) (env : Env) (c : HttpCall) (s : Service) : Response * Service :=
  let '(r, s') := http env c empty_scope s in (answer r, s').

Fixpoint serve_all `{WebFramework} (http : Handler) (calls : list (Env * HttpCall)) (s : Service)
    : list Response * Service :=
  match calls with
  | [] => ([], s)
  | (env, c) :: calls' =>
      let '(r, s1) := serve http env c s in
      let '(rs, s2) := serve_all http calls' s1 in
      (r :: rs, s2)
  end.
End service.

(** ** Lemmas *)

Lemma run_bank_bind {A B} now draws (p : prog A) (f : A -> prog B) w b :
  run_bank now draws (bind p f) w b =
  match run_bank now draws p w b with
  | (Done a, w', b') => run_bank now draws (f a) w' b'
  | (Failed e, w', b') => (Failed e, w', b')
  | (Paused v, w', b') => (Paused v, w', b')
  end.
Proof.
  revert w b; induction p as [a|e|v|R o k IH]; intros w b; cbn; try done.
  destruct (exec now _ o w) as [r w']. apply IH.
Qed.

(** A program that only calls read-only tools runs as if the bank were a fixed server. *)
Lemma run_bank_read_only {A} now draws (p : prog A) w b :
  dispatches (fun c => is_read_only_tool (tc_name c) = true) p ->
  run_bank now draws p w b =
  (fst (run now (fun c => fst (call_tool true draws c b)) p w),
   snd (run now (fun c => fst (call_tool true draws c b)) p w), b).
Proof.
  revert w; induction p as [a|e|v|R o k IH]; intros w Hd; cbn; try done. destruct Hd as [Ho Hk].
  destruct (exec now _ o w) as [r w']. assert (bank_after draws o b = b) as ->.
  { destruct o; try done. by apply read_only_call_keeps_bank. }
  by apply IH.
Qed.

Section approvals.
Context {R : Type} `{ApprovalActorResolver R} (actors : R).
Hypothesis nobody : resolve actors None = None.

(** The executor answered with an error. *)
Definition refused (r : ApprovalResult) : Prop :=
  exists code, code ∈ [409; 500] /\ exists detail, map_executor_result r = Raise (HTTPException code detail).

Lemma error_refused r : opt_str_true (ap_error r) = true -> refused r.
Proof.
  unfold refused, map_executor_result. intros ->. destruct (String.eqb _ _).
  - exists 409. split; [set_solver|eauto].
  - destruct (contains _ _); [exists 409|exists 500]; (split; [set_solver|eauto]).
Qed.

(** An exception that is not an HTTP answer. *)
Definition internal (e : exn) : Prop := match e with HTTPException _ _ => False | _ => True end.

Lemma hitl_get_internal sid t e : hitl_get sid t = Raise e -> internal e.
Proof.
  unfold hitl_get. destruct (t !! sid) as [r|]; [|done]. unfold row_to_hitl_session, hitl_status_of.
  destruct (oget _ _); cbn; [|by intros [= <-]]. destruct (loads _) eqn:El; cbn; [done|]. intros [= <-].
  by apply loads_raises in El as [->|[[n ->]| ->]].
Qed.

Lemma session_expired_internal now s e : session_expired now s = Raise e -> internal e.
Proof. unfold session_expired, expired_at. repeat case_match; try done; by intros [= <-]. Qed.

(** How an executor call ends: refused, or with an exception that becomes a 500. *)
Definition ends_refused (o : outcome ApprovalResult) : Prop :=
  match o with Done r => refused r | Failed e => internal e | Paused _ => False end.

Lemma approve_ends_refused now mcp sid w : ends_refused (fst (run now mcp (approve actors sid None) w)).
Proof.
  unfold approve. rewrite run_doE. cbn [exec fst snd]. destruct (hitl_get sid (w_hitl w)) as [[session|]|e] eqn:Eg;
    [|by apply error_refused|by eapply hitl_get_internal].
  destruct (is_terminal session); [by apply error_refused|]. rewrite run_do, run_lift. cbn [exec fst snd].
  destruct (session_expired now session) as [[]|e] eqn:Ee; [|destruct (negb _)|by eapply session_expired_internal].
  - rewrite run_do. by apply error_refused.
  - unfold reconcile. rewrite !run_do. by apply error_refused.
  - rewrite nobody. by apply error_refused.
Qed.

Lemma reject_ends_refused now mcp sid w : ends_refused (fst (run now mcp (reject actors sid None) w)).
Proof.
  unfold reject. rewrite run_doE. cbn [exec fst snd]. destruct (hitl_get sid (w_hitl w)) as [[session|]|e] eqn:Eg;
    [|by apply error_refused|by eapply hitl_get_internal].
  destruct (is_terminal session); [by apply error_refused|]. rewrite nobody. by apply error_refused.
Qed.

(** Without an identity nobody decides: the executor ends with an error on every branch
    and calls no tool. *)
Lemma approve_refused sid : leaf refused (approve actors sid None).
Proof.
  cbn. intros [[session|]|e]; cbn; [|by apply error_refused|done].
  destruct (is_terminal session); [by apply error_refused|]. cbn. intros now.
  destruct (session_expired now session) as [[]|]; cbn; [intros _; by apply error_refused| |done].
  destruct (negb _); [cbn; intros _ _ _; by apply error_refused|]. rewrite nobody. by apply error_refused.
Qed.

Lemma approve_calls_nothing sid : dispatches (fun _ => False) (approve actors sid None).
Proof.
  cbn. split; [done|]. intros [[session|]|e]; cbn; try done.
  destruct (is_terminal session); [done|]. cbn. split; [done|]. intros now.
  destruct (session_expired now session) as [[]|]; cbn; [done| |done].
  destruct (negb _); [done|]. by rewrite nobody.
Qed.

Lemma reject_refused sid : leaf refused (reject actors sid None).
Proof.
  cbn. intros [[session|]|e]; cbn; [|by apply error_refused|done].
  destruct (is_terminal session); [by apply error_refused|]. rewrite nobody. by apply error_refused.
Qed.

Lemma reject_calls_nothing sid : dispatches (fun _ => False) (reject actors sid None).
Proof.
  cbn. split; [done|]. intros [[session|]|e]; cbn; try done. destruct (is_terminal session); [done|].
  by rewrite nobody.
Qed.
End approvals.

Section assembled.
Context {R : Type} `{ApprovalActorResolver R} (executor : option R) (app : Application) (recursion_limit : nat).

(** What follows the executor's answer never runs when the answer is an error. *)
Lemma refused_stops {A} (p : prog ApprovalResult) (k : ApprovalResult -> prog A) :
  leaf refused p -> dispatches (fun _ => False) p ->
  leaf (fun _ => False) (do r <- p ;; do_ lift (map_executor_result r) ;; k r) /\
  dispatches (fun _ => False) (do r <- p ;; do_ lift (map_executor_result r) ;; k r).
Proof.
  intros Hl Hd. split.
  - eapply leaf_bind; [exact Hl|]. by intros r (code & _ & detail & ->).
  - eapply dispatches_bind; [exact Hd|exact Hl|]. by intros r (code & _ & detail & ->).
Qed.

Hypothesis nobody : forall r, executor = Some r -> resolve r None = None.

Lemma approve_call_stops env q :
  leaf (fun _ => False) (approve_call executor app env q) /\
  dispatches (fun _ => False) (approve_call executor app env q).
Proof.
  unfold approve_call, approve_endpoint. destruct executor as [actors|]; [|done].
  destruct (aprq_decision q).
  - apply refused_stops; [apply approve_refused|apply approve_calls_nothing]; by apply nobody.
  - apply refused_stops; [apply reject_refused|apply reject_calls_nothing]; by apply nobody.
Qed.

Notation reads := (fun c : ToolCall => is_read_only_tool (tc_name c) = true).

Lemma store_interrupt_calls_nothing Q has_hitl has_grants user sid d :
  dispatches Q (store_interrupt has_hitl has_grants user sid d).
Proof.
  unfold store_interrupt. apply dispatches_bind'; [done|]. intros now.
  apply dispatches_bind'; [destruct has_hitl; [split; [done|]; intros; apply dispatches_lift|done]|]. intros _.
  by apply dispatches_bind'; [destruct has_grants; [split; [done|]; intros; apply dispatches_lift|done]|].
Qed.

Lemma agent_call_reads env sc q : app_registry app = the_registry -> dispatches reads (agent_call app recursion_limit env sc q).
Proof.
  intros Hreg. unfold agent_call, agent_endpoint. destruct (str_in _ _); [done|]. rewrite Hreg.
  apply dispatches_bind'; [done|]. intros now. apply dispatches_bind'; [apply dispatches_lift|]. intros r.
  destruct (ad_decision (fst r)); try done. destruct (_ >? _); [done|].
  apply dispatches_bind'.
  - apply dispatches_catch; [|done]. eapply dispatches_impl; [|apply dispatches_run_agent]. intros c. apply run_call_reads.
  - intros res. destruct (rr_interrupt res) as [[]|]; try done. destruct d; [done|]. apply store_interrupt_calls_nothing.
Qed.

Lemma endpoint_reads env sc e :
  app_registry app = the_registry -> dispatches reads (endpoint_prog executor app recursion_limit env sc e).
Proof.
  intros Hreg.
  assert (Ha : forall q, dispatches reads (approve_call executor app env q)).
  { intros q. eapply dispatches_impl; [|apply approve_call_stops]. done. }
  destruct e; cbn [endpoint_prog]; try done; try (apply dispatches_bind'; [by apply agent_call_reads||apply Ha||apply dispatches_lift|done]).
Qed.

(** An endpoint changes the bank in no way and calls nothing but read-only tools. *)
Lemma run_endpoint_reads env sc e s :
  app_registry app = the_registry ->
  let s' := snd (run_endpoint executor app recursion_limit env sc e s) in
  sv_bank s' = sv_bank s /\
  exists cs, w_calls (sv_world s') = w_calls (sv_world s) ++ cs /\ Forall reads cs.
Proof.
  intros Hreg. unfold run_endpoint. pose proof (endpoint_reads env sc e Hreg) as Hd.
  rewrite run_bank_read_only by done. cbn. split; [done|]. by apply dispatches_run.
Qed.
End assembled.

Section stack.
Context {R : Type} `{ApprovalActorResolver R} `{WebFramework} (executor : option R) (app : Application) (recursion_limit : nat).
Notation endpoint := (run_endpoint executor app recursion_limit).

(** The stack, from the outside in. *)
Lemma stack_middlewares h :
  stack middlewares h =
  cors (rate_middleware 60 60
    (telemetry_middleware {| app_name := "fxfill-agent"; sample_rate := f_of_Z 1 |}
      (auth_middleware false (stack [] h)))).
Proof.
  unfold middlewares.
  change [?a; ?b; ?c; ?d] with (((([] ++ [a]) ++ [b]) ++ [c]) ++ [d]). by rewrite !stack_add.
Qed.

Lemma create_app_ok http : create_app executor app recursion_limit = Ok http ->
  http = stack middlewares (router executor app recursion_limit).
Proof. unfold create_app. by intros (_ & _ & [= <-])%res_bind_ok. Qed.

(** ** What every layer preserves *)

Section preserving.
Context (keeps : Service -> Service -> Prop).
Hypothesis keeps_refl : forall s, keeps s s.
Hypothesis keeps_counters : forall c s s', keeps (set_counters c s) s' -> keeps s s'.

Definition preserving (h : Handler) : Prop := forall env c sc s, keeps s (snd (h env c sc s)).

Lemma auth_preserving mode h : preserving h -> preserving (auth_middleware mode h).
Proof. intros Hh env c sc s. apply Hh. Qed.

Lemma telemetry_preserving mw h : preserving h -> preserving (telemetry_middleware mw h).
Proof.
  intros Hh env c sc s. unfold telemetry_middleware, dispatch. destruct (f_gt _ _); [apply Hh|].
  match goal with |- context [let '(_, _) := h _ _ ?sc' _ in _] => specialize (Hh env c sc' s) end.
  by destruct (h _ _ _ _).
Qed.

Lemma rate_preserving n window h : preserving h -> preserving (rate_middleware n window h).
Proof.
  intros Hh env c sc s. unfold rate_middleware. destruct (rate_dispatch _ _ _ _ _) as [[[]|e] cs].
  - eapply keeps_counters, Hh.
  - apply (keeps_counters cs), keeps_refl.
Qed.

Lemma cors_preserving h : preserving h -> preserving (cors h).
Proof.
  intros Hh env c sc s. destruct (preflight c) eqn:E.
  - destruct (cors_preflight h env c sc s E) as [r ->]. apply keeps_refl.
  - pose proof (cors_passes h env c sc s E) as Hc. specialize (Hh env c sc s).
    destruct (h env c sc s) as [[r|e] s']; [by destruct Hc as (r' & -> & _)|by rewrite Hc].
Qed.

Lemma routes_preserving h : preserving h -> preserving (stack [] h).
Proof.
  intros Hh env c sc s. rewrite stack_routes. specialize (Hh env c sc s).
  destruct (h env c sc s) as [[r|e] s']; [done|]. by destruct e.
Qed.

Lemma router_preserving :
  (forall env sc e s, keeps s (snd (endpoint env sc e s))) -> preserving (router executor app recursion_limit).
Proof. intros He env c sc s. unfold router. destruct (resolve_route routes c); [apply He|apply keeps_refl]. Qed.

(** What the endpoints keep, whatever the counters, every sequence of requests keeps. *)
Lemma serve_all_keeps http calls s :
  (forall s1 s2 s3, keeps s1 s2 -> keeps s2 s3 -> keeps s1 s3) ->
  (forall env sc e s, keeps s (snd (endpoint env sc e s))) ->
  create_app executor app recursion_limit = Ok http -> keeps s (snd (serve_all http calls s)).
Proof.
  intros Htrans He ->%create_app_ok. rewrite stack_middlewares.
  assert (Hall : forall h, h = router executor app recursion_limit -> preserving (cors (rate_middleware 60 60
    (telemetry_middleware {| app_name := "fxfill-agent"; sample_rate := f_of_Z 1 |} (auth_middleware false (stack [] h)))))).
  { intros h ->. by apply cors_preserving, rate_preserving, telemetry_preserving, auth_preserving, routes_preserving, router_preserving. }
  specialize (Hall _ eq_refl). set (h := cors _) in *. clearbody h.
  revert s. induction calls as [|[env c] calls IH]; intros s; [apply keeps_refl|]. cbn. unfold serve.
  specialize (Hall env c empty_scope s). destruct (h env c empty_scope s) as [r s1]. specialize (IH s1).
  destruct (serve_all _ calls s1) as [rs s2]. by eapply Htrans.
Qed.
End preserving.

(** ** What one request amounts to *)

Definition correlation_of (env : Env) (c : HttpCall) : string :=
  default (en_correlation env) (hc_header c "X-Correlation-Id").

(** The scope the endpoint sees: the identity is what the headers say. *)
Definition traced_scope (env : Env) (c : HttpCall) : Scope :=
  {| sc_trace := {| correlation_id := Some (correlation_of env c); span_start := Some (en_t0 env) |};
     sc_identity := Some (resolve_development (hc_header c) (Some (correlation_of env c))) |}.

(** The limiter's verdict on a request. *)
Definition limited (env : Env) (c : HttpCall) (s : Service) : result unit * Counters :=
  rate_dispatch 60 (60 * second) (rate_key (hc_header c "X-Tenant-Id") (hc_path c)) (en_monotonic env) (sv_counters s).

(** The answer [a] of a route reaches the client with the request's correlation id. *)
Definition delivered (env : Env) (c : HttpCall) (a r : Response) : Prop :=
  status_code r = status_code a /\ body r = body a /\ oget (headers r) "X-Correlation-Id" = Some (correlation_of env c).

(** How the route answers the client. *)
Definition answered (env : Env) (c : HttpCall) (o : result Response) (r : Response) : Prop :=
  match o with
  | Ok a => delivered env c a r
  | Raise (HTTPException code detail) => delivered env c (http_error code detail) r
  | Raise _ => status_code r = 500
  end.

Lemma serve_admitted http env c s counters :
  create_app executor app recursion_limit = Ok http -> f_lt (en_draw env) (f_of_Z 1) = true -> preflight c = false ->
  limited env c s = (Ok tt, counters) ->
  let '(r, s') := serve http env c s in
  let '(o, s1) := router executor app recursion_limit env c (traced_scope env c) (set_counters counters s) in
  s' = s1 /\ answered env c o r.
Proof.
  intros ->%create_app_ok Hd Hp Hl. unfold serve. rewrite stack_middlewares.
  set (inner := rate_middleware _ _ _). pose proof (cors_passes inner env c empty_scope s Hp) as Hc.
  assert (Hi : inner env c empty_scope s =
    let '(r, s1) := stack [] (router executor app recursion_limit) env c (traced_scope env c) (set_counters counters s) in
    (res_map (fun a => {| status_code := status_code a;
       headers := oset (oset (headers a) "X-Correlation-Id" (correlation_of env c)) "X-Response-Time-Ms"
         (repr_float (round1 (f_mul (f_sub (en_t1 env) (en_t0 env)) (f_of_Z 1000)))); body := body a |}) r, s1)).
  { subst inner. unfold rate_middleware. unfold limited in Hl. rewrite Hl.
    unfold telemetry_middleware, dispatch, auth_middleware. cbn [sample_rate]. by rewrite sampled. }
  rewrite Hi, stack_routes in Hc.
  assert (Hok : forall a a' s1, cors inner env c empty_scope s = (Ok a', s1) -> status_code a' = status_code a -> body a' = body a ->
    (forall k, startswith k "Access-Control-" = false -> k <> "Vary" -> oget (headers a') k =
       oget (oset (oset (headers a) "X-Correlation-Id" (correlation_of env c)) "X-Response-Time-Ms"
         (repr_float (round1 (f_mul (f_sub (en_t1 env) (en_t0 env)) (f_of_Z 1000))))) k) ->
    delivered env c a (answer (Ok a'))).
  { intros a a' s1 _ Hs Hb Hh. rewrite answer_response. split_and!; [done..|].
    rewrite Hh by done. by rewrite oget_oset_ne, oget_oset_eq. }
  destruct (router _ _ _ _ _ _ _) as [[a|e] s1]; cbn in Hc.
  - destruct Hc as (a' & Ea & Hs & Hb & Hh). rewrite Ea. split; [done|]. by eapply Hok.
  - destruct e; cbn in Hc; try (rewrite Hc; split; [done|]; apply answer_error).
    destruct Hc as (a' & Ea & Hs & Hb & Hh). rewrite Ea. split; [done|]. by eapply Hok.
Qed.

Lemma serve_limited http env c s e counters :
  create_app executor app recursion_limit = Ok http -> preflight c = false -> limited env c s = (Raise e, counters) ->
  let '(r, s') := serve http env c s in status_code r = 500 /\ s' = set_counters counters s.
Proof.
  intros ->%create_app_ok Hp Hl. unfold serve. rewrite stack_middlewares.
  set (inner := rate_middleware _ _ _). pose proof (cors_passes inner env c empty_scope s Hp) as Hc.
  assert (Hi : inner env c empty_scope s = (Raise e, set_counters counters s)).
  { subst inner. unfold rate_middleware. unfold limited in Hl. by rewrite Hl. }
  rewrite Hi in Hc. rewrite Hc. split; [apply answer_error|done].
Qed.

(** The counters after a request are the limiter's, whatever happens behind it. *)
Lemma serve_counters http env c s :
  create_app executor app recursion_limit = Ok http -> f_lt (en_draw env) (f_of_Z 1) = true -> preflight c = false ->
  sv_counters (snd (serve http env c s)) = snd (limited env c s).
Proof.
  intros Hh Hd Hp. destruct (limited env c s) as [[[]|e] counters] eqn:El.
  - pose proof (serve_admitted http env c s counters Hh Hd Hp El) as Hs.
    destruct (serve http env c s) as [r s']. unfold router, run_endpoint in Hs.
    destruct (resolve_route routes c) as [e|d]; [|by destruct Hs as [-> _]].
    destruct (run_bank _ _ _ _ _) as [[o w] b]. by destruct Hs as [-> _].
  - pose proof (serve_limited http env c s e counters Hh Hp El) as Hs.
    destruct (serve http env c s) as [r s']. by destruct Hs as [_ ->].
Qed.
End stack.

(** ** Lemmas: an endpoint never pauses *)

Lemma no_pause_perform {R} (o : op R) : no_pause (perform o).
Proof. done. Qed.

Lemma no_pause_performE {R} (o : op (result R)) : no_pause (performE o).
Proof. intros r. apply no_pause_lift. Qed.

(** Walks down a program without pauses. *)
Ltac walk := repeat first
  [ done
  | apply no_pause_bind; [|intros ?]
  | apply no_pause_lift | apply no_pause_perform | apply no_pause_performE
  | case_match
  | progress unfold checkpoint_event ].

Section no_pause_approval.
Context {R : Type} `{ApprovalActorResolver R} (actors : R).

Lemma no_pause_dispatch_claimed sid session g key : no_pause (dispatch_claimed sid session g key).
Proof. unfold dispatch_claimed. walk. Qed.

Lemma no_pause_after_claim sid session g : no_pause (after_claim sid session g).
Proof. unfold after_claim. walk; apply no_pause_dispatch_claimed. Qed.

Lemma no_pause_approve sid ctx : no_pause (approve actors sid ctx).
Proof. unfold approve, approve_with, reconcile. walk; apply no_pause_after_claim. Qed.

Lemma no_pause_reject sid ctx : no_pause (reject actors sid ctx).
Proof. unfold reject. walk. Qed.
End no_pause_approval.

Lemma endpoint_no_pause {R} `{ApprovalActorResolver R} (executor : option R) app limit env sc e :
  no_pause (endpoint_prog executor app limit env sc e).
Proof.
  assert (Hag : forall q, no_pause (agent_call app limit env sc q)).
  { intros q. unfold agent_call, agent_endpoint, store_interrupt.
    walk; apply no_pause_catch; [apply run_agent_no_pause|done]. }
  assert (Hap : forall q, no_pause (approve_call executor app env q)).
  { intros q. unfold approve_call, approve_endpoint, resume_agent, resume_graph, tools_then.
    walk; first [apply no_pause_approve|apply no_pause_reject|by apply no_pause_on_pause|apply no_pause_graph|apply no_pause_persist|idtac]. }
  destruct e; cbn [endpoint_prog]; walk; auto.
Qed.

(** ** Lemmas: the approval routes *)

Section approval_routes.
Context {R : Type} `{ApprovalActorResolver R} `{WebFramework} (executor : option R) (app : Application) (recursion_limit : nat).
Hypothesis nobody : forall r, executor = Some r -> resolve r None = None.

(** How an approval ends: with one of three statuses, or an exception that becomes a 500. *)
Definition approval_failure (e : exn) : Prop :=
  match e with HTTPException code _ => code ∈ [409; 500; 501] | _ => True end.

Lemma approve_call_fails env q now mcp w :
  exists e w', run now mcp (approve_call executor app env q) w = (Failed e, w') /\ approval_failure e.
Proof.
  assert (Hstop : forall A (p : prog ApprovalResult) (k : ApprovalResult -> prog A), ends_refused (fst (run now mcp p w)) ->
    exists e w', run now mcp (do r <- p ;; do_ lift (map_executor_result r) ;; k r) w = (Failed e, w') /\ approval_failure e).
  { intros A p k Hp. rewrite run_bind. destruct (run now mcp p w) as [[r|e|v] w']; cbn in Hp; [| |done].
    - destruct Hp as (code & Hcode & detail & ->). cbn. eexists _, _. split; [done|]. cbn. set_solver.
    - exists e, w'. split; [done|]. by destruct e. }
  unfold approve_call, approve_endpoint. destruct executor as [actors|].
  - destruct (aprq_decision q); apply Hstop; [apply approve_ends_refused|apply reject_ends_refused]; by apply nobody.
  - cbn. eexists _, _. split; [done|]. cbn. set_solver.
Qed.

Lemma approval_route_fails env c sc q s :
  resolve_route routes c = To (ApproveEndpoint q) \/ resolve_route routes c = To (V1Approve q) ->
  exists o w b, router executor app recursion_limit env c sc s
    = (Raise o, {| sv_counters := sv_counters s; sv_world := w; sv_bank := b |}) /\
    w_calls w = w_calls (sv_world s) /\ forall r, answered env c (Raise o) r -> status_code r ∈ [409; 500; 501].
Proof.
  intros Hq. destruct (approve_call_stops executor app nobody env q) as [_ Hd].
  assert (Hrun : exists e w', run_bank (en_now env) (en_draws env)
      (do r <- approve_call executor app env q ;; Ret (json_response 200 (approval_content r))) (sv_world s) (sv_bank s)
      = (Failed e, w', sv_bank s) /\ w_calls w' = w_calls (sv_world s) /\ approval_failure e).
  { rewrite run_bank_bind, run_bank_read_only by (eapply dispatches_impl; [|exact Hd]; done).
    set (mcp := fun c => fst (call_tool true (en_draws env) c (sv_bank s))).
    destruct (approve_call_fails env q (en_now env) mcp (sv_world s)) as (e & w' & E & He).
    destruct (dispatches_run _ (en_now env) mcp _ (sv_world s) Hd) as (cs & Hcs & Hf).
    rewrite E in *. cbn [fst snd] in *. exists e, w'. split; [done|]. split; [|done]. rewrite Hcs.
    destruct Hf; [by rewrite List.app_nil_r|done]. }
  destruct Hrun as (e & w' & E & Hw & He). exists e, w', (sv_bank s). split_and!; [|done|].
  - unfold router. destruct Hq as [-> | ->]; unfold run_endpoint; cbn [endpoint_prog]; by rewrite E.
  - intros r. destruct e; cbn in *; try (intros ->; set_solver). intros (-> & _). by rewrite http_error_status.
Qed.
End approval_routes.

(** ** Lemmas: rotating the tenant *)

Lemma rate_key_inj t t' path : rate_key (Some t) path = rate_key (Some t') path -> t = t'.
Proof. unfold rate_key. cbn [default]. apply app_inv_tail_str. Qed.

Lemma fresh_key_admitted key now (counters : Counters) :
  counters !! key = None -> rate_dispatch 60 (60 * second) key now counters = (Ok tt, <[key := [now]]> (<[key := []]> counters)).
Proof. intros Hk. unfold rate_dispatch. rewrite Hk. cbn zeta. by rewrite lookup_insert_eq. Qed.

(** The verdicts of the limiter on a sequence of requests as they are served. *)
Fixpoint verdicts `{WebFramework} (http : Handler) (calls : list (Env * HttpCall)) (s : Service) : list bool :=
  match calls with
  | [] => []
  | (env, c) :: calls' => is_ok (fst (limited env c s)) :: verdicts http calls' (snd (serve http env c s))
  end.

(** ** Properties *)

(** C12: What one request amounts to, through the whole stack.  The rate limiter decides
    first, on a tenant the caller wrote in a header: over the limit the client gets a 500,
    not the 429 that was raised, and nothing but the counters changes.  Otherwise the
    resolved endpoint runs with the identity the headers claim, and its answer, or its HTTP error,
    reaches the client unchanged with the correlation id. *)
Theorem request_outcome {R} `{ApprovalActorResolver R} `{WebFramework} (executor : option R) app limit http env c s :
  create_app executor app limit = Ok http -> f_lt (en_draw env) (f_of_Z 1) = true -> preflight c = false ->
  let '(r, s') := serve http env c s in
  match limited env c s with
  | (Raise e, counters) => e = HTTPException 429 "Rate limit exceeded" /\ status_code r = 500 /\ s' = set_counters counters s
  | (Ok _, counters) =>
      match resolve_route routes c with
      | Direct d => delivered env c d r /\ s' = set_counters counters s
      | To e =>
          let '(o, s1) := run_endpoint executor app limit env (traced_scope env c) e (set_counters counters s) in
          s' = s1 /\ answered env c o r
      end
  end.
Proof.
  intros Hh Hd Hp. destruct (limited env c s) as [[[]|e] counters] eqn:El.
  - pose proof (serve_admitted executor app limit http env c s counters Hh Hd Hp El) as Hs.
    destruct (serve http env c s) as [r s']. unfold router in Hs.
    destruct (resolve_route routes c) as [e|d]; [exact Hs|]. by destruct Hs.
  - pose proof (serve_limited executor app limit http env c s e counters Hh Hp El) as Hs.
    destruct (serve http env c s) as [r s']. split; [|exact Hs].
    unfold limited, rate_dispatch in El. destruct (_ >=? _); [|done]. by injection El as <- _.
Qed.

(** C7: Whatever requests the served application answers, in any number and with any headers,
    whatever the models answer and whatever the database held before, the bank stays as it
    was and only read-only tools were called: no approval can be decided over HTTP, because
    the executor is never given the request's identity. *)
Theorem served_application_is_read_only {R} `{ApprovalActorResolver R} `{WebFramework} (executor : option R) b app limit http
    calls s :
  bootstrap_app b = Ok app -> (forall r, executor = Some r -> resolve r None = None) ->
  create_app executor app limit = Ok http ->
  let s' := snd (serve_all http calls s) in
  sv_bank s' = sv_bank s /\
  exists cs, w_calls (sv_world s') = w_calls (sv_world s) ++ cs /\
    Forall (fun c => is_read_only_tool (tc_name c) = true) cs.
Proof.
  intros Hb%bootstrapped_registry Hn Hh.
  apply (serve_all_keeps executor app limit
    (fun s s' => sv_bank s' = sv_bank s /\ exists cs, w_calls (sv_world s') = w_calls (sv_world s) ++ cs /\
       Forall (fun c => is_read_only_tool (tc_name c) = true) cs)); [| |..|exact Hh].
  - intros s1. split; [done|]. exists []. by rewrite List.app_nil_r.
  - done.
  - intros s1 s2 s3 [-> (cs & Hcs & Hr)] [-> (cs' & Hcs' & Hr')]. split; [done|]. exists (cs ++ cs').
    rewrite Hcs', Hcs, (assoc_L (++)). split; [done|]. by apply Forall_app.
  - intros env sc e s1. by apply run_endpoint_reads.
Qed.

(** C14: With a resolver that names no actor when it is given no request context, as the header
    resolver the server is started with is, no approval succeeds over HTTP: for any caller the
    middleware identifies and any session, both versions of the approval endpoint answer 409, 500
    or 501, and no tool is called.  (A resolver with an actor of its own, such as the fixed one
    the tests use, is not concerned: with it the endpoint does approve, and twice,
    [Api.approved_operation_runs_twice].) *)
Theorem http_approval_never_succeeds {R} `{ApprovalActorResolver R} `{WebFramework} (executor : option R) app limit http
    env c s q :
  (forall r, executor = Some r -> resolve r None = None) ->
  create_app executor app limit = Ok http -> f_lt (en_draw env) (f_of_Z 1) = true -> preflight c = false ->
  resolve_route routes c = To (ApproveEndpoint q) \/ resolve_route routes c = To (V1Approve q) ->
  let '(r, s') := serve http env c s in
  status_code r ∈ [409; 500; 501] /\ w_calls (sv_world s') = w_calls (sv_world s).
Proof.
  intros Hn Hh Hd Hp Hq. destruct (limited env c s) as [[[]|e] counters] eqn:El.
  - pose proof (serve_admitted executor app limit http env c s counters Hh Hd Hp El) as Hs.
    destruct (serve http env c s) as [r s'].
    destruct (approval_route_fails executor app limit Hn env c (traced_scope env c) q (set_counters counters s) Hq)
      as (o & w & b & Hr & Hw & Ha).
    rewrite Hr in Hs. destruct Hs as [-> Hans]. split; [by apply Ha|done].
  - pose proof (serve_limited executor app limit http env c s e counters Hh Hp El) as Hs.
    destruct (serve http env c s) as [r s']. destruct Hs as [-> ->]. split; [set_solver|done].
Qed.

(** The limiter does not limit a caller: requests of one user to one path that each name
    a tenant of their own are all let through, however many and however fast, and each
    leaves a counter behind for good. *)
Theorem rotating_tenants_are_never_limited {R} `{ApprovalActorResolver R} `{WebFramework} (executor : option R) app limit
    http calls path tenants s :
  create_app executor app limit = Ok http ->
  Forall2 (fun '(env, c) t => f_lt (en_draw env) (f_of_Z 1) = true /\ preflight c = false /\
             hc_path c = path /\ hc_header c "X-Tenant-Id" = Some t) calls tenants ->
  NoDup tenants -> (forall t, t ∈ tenants -> sv_counters s !! rate_key (Some t) path = None) ->
  verdicts http calls s = map (fun _ => true) calls /\
  size (sv_counters (snd (serve_all http calls s))) = (size (sv_counters s) + length calls)%nat.
Proof.
  intros Hh Hc. revert s. induction Hc as [|[env c] t calls tenants (Hd & Hp & Hpath & Ht) _ IH]; intros s Hnd Hf.
  { split; [done|]. cbn. lia. }
  apply NoDup_cons in Hnd as [Hnin Hnd].
  assert (Hl : limited env c s = (Ok tt, <[rate_key (Some t) path := [en_monotonic env]]> (<[rate_key (Some t) path := []]> (sv_counters s)))).
  { unfold limited. rewrite Hpath, Ht. apply fresh_key_admitted, Hf. by left. }
  pose proof (serve_counters executor app limit http env c s Hh Hd Hp) as Hs. rewrite Hl in Hs. cbn [snd] in Hs.
  cbn [verdicts serve_all map length]. rewrite Hl. destruct (serve http env c s) as [r s1]. cbn [snd fst is_ok] in *.
  assert (Hsz : size (sv_counters s1) = S (size (sv_counters s))).
  { rewrite Hs, insert_insert_eq. apply map_size_insert_None, Hf. by left. }
  destruct (IH s1 Hnd) as [Hv Hn].
  - intros t' Ht'. rewrite Hs. assert (rate_key (Some t) path <> rate_key (Some t') path).
    { intros E%rate_key_inj. by subst. }
    rewrite !lookup_insert_ne by done. apply Hf. by right.
  - rewrite Hv. split; [done|]. destruct (serve_all http calls s1) as [rs s2]. cbn [snd] in *. lia.
Qed.

(** ** Witnesses *)

(** A framework that keeps the laws: routes matched literally, bodies read as JSON. *)
Module Starlette.

Definition http_error (code : Z) (detail : string) : Response :=
  {| status_code := code; headers := []; body := JObj [("detail", JStr detail)] |}.

Definition in_routes (h : Handler) : Handler := fun env c sc s =>
  match h env c sc s with
  | (Raise (HTTPException code detail), s') => (Ok (http_error code detail), s')
  | other => other
  end.

Definition stack (ms : list Middleware) (h : Handler) : Handler := fold_left (fun h m => m h) ms (in_routes h).

Definition answer (r : result Response) : Response :=
  match r with Ok r => r | Raise _ => {| status_code := 500; headers := []; body := JStr "Internal Server Error" |} end.

Definition text_field (d : dict) (k : string) : string := match dget d k with Some (JStr s) => s | _ => "" end.

Definition decode (c : HttpCall) : option Endpoint :=
  let d := match loads (hc_body c) with Ok (JObj d) => d | _ => [] end in
  if String.eqb (hc_path c) "/agent"
  then Some (AgentEndpoint {| aq_message := text_field d "message"; aq_session_id := None |})
  else if String.eqb (hc_path c) "/agent/approve"
  then Some (ApproveEndpoint {| aprq_session_id := text_field d "session_id"; aprq_decision := ChooseApprove |})
  else if String.eqb (hc_path c) "/health" then Some Health
  else None.

#[global] Instance method_eq_dec : EqDecision Method.
Proof. solve_decision. Defined.

Definition resolve_route (rs : list (Method * string * string)) (c : HttpCall) : Resolution :=
  match decode c with
  | Some e => if payload_ok e && bool_decide ((hc_method c, hc_path c, endpoint_name e) ∈ rs)
              then To e else Direct (http_error 404 "Not Found")
  | None => Direct (http_error 404 "Not Found")
  end.

Definition preflight (c : HttpCall) : bool := bool_decide (hc_method c = OPTIONS).

Definition cors : Middleware := fun h env c sc s =>
  if preflight c then (Ok {| status_code := 200; headers := []; body := JNull |}, s)
  else match h env c sc s with
       | (Ok r, s') => (Ok {| status_code := status_code r;
                              headers := headers r ++ [("Access-Control-Allow-Origin", "*")]; body := body r |}, s')
       | other => other
       end.

#[global] Program Instance starlette : WebFramework := {|
  Server.http_error := http_error; Server.stack := stack; Server.answer := answer;
  Server.resolve_route := resolve_route; Server.cors := cors; Server.preflight := preflight |}.
Next Obligation. done. Qed.
Next Obligation. done. Qed.
Next Obligation. intros. unfold stack. by rewrite fold_left_app. Qed.
Next Obligation. done. Qed.
Next Obligation. done. Qed.
Next Obligation.
  intros rs c e. unfold resolve_route. destruct (decode c) as [e'|]; [|done].
  destruct (payload_ok e') eqn:E; [|done]. case_bool_decide; [|done]. cbn. intros [= <-]. eauto.
Qed.
Next Obligation. intros h env c sc s H. unfold cors. rewrite H. eauto. Qed.
Next Obligation.
  intros h env c sc s H. unfold cors. rewrite H. destruct (h env c sc s) as [[r|e] s']; [|done].
  eexists. split; [done|]. cbn. split_and!; [done..|]. intros k Hk _. rewrite oget_app.
  destruct (oget (headers r) k); [done|]. cbn. destruct (String.eqb_spec k "Access-Control-Allow-Origin"); [|done]. by subst.
Qed.

End Starlette.

Definition witness_app : Application :=
  match bootstrap_app witness_boot with
  | Ok a => a
  | Raise _ => {| app_config := default_agent_config; app_durable := false; app_registry := [];
                  app_gateway := {| gw_policy := ReadOnly; gw_decisions := [] |}; app_resolver := None |}
  end.

Definition witness_env (monotonic : Z) : Env :=
  {| en_now := noon_2026; en_monotonic := monotonic; en_draw := dec_to_f64 5 (-1); en_t0 := f_of_Z 1; en_t1 := f_of_Z 2;
     en_correlation := "corr-1"; en_uuid := "run-1"; en_plan_uuid := "plan-1";
     en_llm := fun _ _ => Ok ("{}", []); en_plan_llm := fun _ _ => Raise JSONDecodeError; en_retriever := None;
     en_set_order := fun l => l; en_saved := initial_state "run-1" "hello"; en_earlier := []; en_draws := witness_draws |}.

Definition witness_call (m : Method) (path tenant content : string) : HttpCall :=
  {| hc_method := m; hc_path := path; hc_body := content;
     hc_header := fun h => if String.eqb h "X-Tenant-Id" then Some tenant
                           else if String.eqb h "X-User-Id" then Some "user-alice" else None |}.

Definition witness_service : Service := {| sv_counters := ∅; sv_world := empty_world; sv_bank := witness_repo |}.

Definition witness_http : Handler := stack middlewares (router (Some default_header_resolver) witness_app 1000).

Lemma witness_guard :
  create_app_guard true (app_durable witness_app) (app_durable witness_app)
    (str_true (pc_db_path (ac_persistence (app_config witness_app)))) true = Ok tt.
Proof. vm_compute. reflexivity. Qed.

Lemma witness_created : create_app (Some default_header_resolver) witness_app 1000 = Ok witness_http.
Proof. unfold create_app. cbn [is_some]. by rewrite witness_guard. Qed.

Lemma witness_boots : bootstrap_app witness_boot = Ok witness_app.
Proof. vm_compute. reflexivity. Qed.

Example request_outcome_witness :
  let c := witness_call GET "/health" "default" "" in
  exists r s', serve witness_http (witness_env 5) c witness_service = (r, s') /\
    status_code r = 200 /\ body r = JObj health /\ oget (headers r) "X-Correlation-Id" = Some "corr-1".
Proof.
  intros c.
  pose proof (request_outcome (Some default_header_resolver) witness_app 1000 witness_http (witness_env 5) c witness_service
    witness_created ltac:(vm_compute; reflexivity) eq_refl) as H.
  destruct (serve witness_http (witness_env 5) c witness_service) as [r s']. exists r, s'. split; [reflexivity|].
  assert (Hl : limited (witness_env 5) c witness_service = (Ok tt, <["default:/health" := [5]]> (<["default:/health" := []]> ∅)))
    by (apply fresh_key_admitted; reflexivity).
  rewrite Hl in H. assert (Hr : Starlette.resolve_route routes c = To Health) by reflexivity.
  cbn [Server.resolve_route Starlette.starlette] in H. rewrite Hr in H. exact (proj2 H).
Defined.

Definition agent_body : string := dumps false (JObj [("message", JStr "transfer 50 to bob")]).

Definition approval_body : string := dumps false (JObj [("session_id", JStr "s-1"); ("decision", JStr "approve")]).

Example served_application_is_read_only_witness :
  let calls := [(witness_env 5, witness_call POST "/agent" "default" agent_body);
                (witness_env 6, witness_call POST "/agent/approve" "default" approval_body)] in
  bootstrap_app witness_boot = Ok witness_app /\
  sv_bank (snd (serve_all witness_http calls witness_service)) = witness_repo.
Proof.
  intros calls. split; [exact witness_boots|].
  refine (proj1 (served_application_is_read_only (Some default_header_resolver) witness_boot witness_app 1000 witness_http
    calls witness_service witness_boots _ witness_created)).
  intros r [= <-]. reflexivity.
Defined.

Example http_approval_never_succeeds_witness :
  let '(r, s') := serve witness_http (witness_env 5) (witness_call POST "/agent/approve" "default" approval_body)
                    witness_service in
  status_code r ∈ [409; 500; 501] /\ w_calls (sv_world s') = [].
Proof.
  refine (http_approval_never_succeeds (Some default_header_resolver) witness_app 1000 witness_http (witness_env 5)
    (witness_call POST "/agent/approve" "default" approval_body) witness_service
    {| aprq_session_id := "s-1"; aprq_decision := ChooseApprove |} _ witness_created _ _ _).
  - intros r [= <-]. reflexivity.
  - vm_compute. reflexivity.
  - reflexivity.
  - left. vm_compute. reflexivity.
Defined.

Example rotating_tenants_are_never_limited_witness :
  let calls := [(witness_env 5, witness_call POST "/agent" "t-1" "{}"); (witness_env 5, witness_call POST "/agent" "t-2" "{}")] in
  verdicts witness_http calls witness_service = [true; true] /\
  size (sv_counters (snd (serve_all witness_http calls witness_service))) = 2%nat.
Proof.
  intros calls.
  destruct (rotating_tenants_are_never_limited (Some default_header_resolver) witness_app 1000 witness_http calls "/agent"
    ["t-1"; "t-2"] witness_service witness_created) as [Hv Hn].
  - constructor; [|constructor; [|constructor]]; (split; [vm_compute; reflexivity|split; [reflexivity|split; reflexivity]]).
  - apply (bool_decide_unpack _). vm_compute. reflexivity.
  - intros t _. reflexivity.
  - split; [exact Hv|exact Hn].
Defined.
