(* ===== verification/Benchmark.v ===== *)
(** The benchmark script ([scripts/run_benchmark.py]) with the run configuration and result
    of [evaluation.py]: checks of the pinned benchmark, the profile with the overrides of
    the command line, and the report it writes.

    The script mutates the profile it is given, which is the module's own dictionary, so the
    profiles are part of the state; the other part is the files, by path.  What the lock
    file says, what git answers and the clocks are arguments, and so is the outcome of
    argparse.  Directories are given as [str(Path(...))] shows them. *)
From S2P Require Import Prelude PyStr PyFloat PyTime Json PyRepr Upstream Evaluation.

(** ** Configuration and result *)

Record EvalRunConfig : Type := {
  erc_model : string;
  erc_agent_config_profile : string;
  erc_task_ids : list string;
  erc_max_steps : option Z;
  erc_temperature : f64;
  erc_notes : string;
}.

Record EvalRunResult : Type := {
  err_run_id : string;
  err_config : EvalRunConfig;
  err_total_tasks : Z;
  err_completed_tasks : Z;
  err_total_steps : Z;
  err_total_duration_s : f64;
  err_results_path : string;
  err_timestamp : string;
}.

Definition results_dir : string := "artifacts/eval-results".

(** ** Arguments *)

Record Args : Type := {
  ar_model : string;
  ar_profile : string;
  ar_tasks : list string;
  ar_max_steps : option Z;
  ar_temperature : f64;
  ar_output_dir : option string;
  ar_notes : string;
}.

(** The values of options that are not given. *)
Definition default_args : Args :=
  {| ar_model := "claude-sonnet-4-6"; ar_profile := "default"; ar_tasks := []; ar_max_steps := None;
     ar_temperature := f_zero; ar_output_dir := None; ar_notes := "" |}.

(** Other profiles are refused by the parser. *)
Definition profile_choices : list string := ["default"; "long-reasoning"; "fast"].

(** ** Profiles in place *)

Definition Profiles : Type := list (string * dict).

Definition profile_of (ps : Profiles) (name : string) : result dict :=
  match oget ps name with
  | Some p => Ok p
  | None => Raise (KeyError ("Unknown profile: " +:+ repr_str name +:+ ". Available: "
                    +:+ repr (JArr (map JStr (okeys ps)))))
  end.

(** [profile\["llm"\]\[key\] = v]. *)
Definition set_llm (key : string) (v : json) (p : dict) : result dict :=
  match dget p "llm" with
  | Some (JObj llm) => Ok (dset p "llm" (JObj (dset llm key v)))
  | Some _ => Raise (TypeError "object does not support item assignment")
  | None => Raise (KeyError "llm")
  end.

(** A step limit of zero is no override. *)
Definition override (a : Args) (p : dict) : result dict :=
  let p1 := match ar_max_steps a with
            | Some n => if n =? 0 then p else dset p "max_agent_steps" (JInt n)
            | None => p
            end in
  let* p2 := set_llm "model" (JStr (ar_model a)) p1 in
  set_llm "temperature" (JFloat (ar_temperature a)) p2.

(** The overridden profile is the entry itself. *)
Definition load_profile (a : Args) (ps : Profiles) : result (dict * Profiles) :=
  let* p := profile_of ps (ar_profile a) in
  let* p' := override a p in
  Ok (p', oset ps (ar_profile a) p').

(** ** The run *)

(** [strftime("%Y%m%d-%H%M%S")]. *)
Definition run_id_of (t : Z) : string :=
  let '(y, m, d) := ord2ymd (t / us_per_day + 1) in
  let s := t mod us_per_day / us_per_second in
  pad 4 y +:+ pad 2 m +:+ pad 2 d +:+ "-" +:+ pad 2 (s / 3600) +:+ pad 2 (s / 60 mod 60) +:+ pad 2 (s mod 60).

Definition config_of (a : Args) : EvalRunConfig :=
  {| erc_model := ar_model a; erc_agent_config_profile := ar_profile a; erc_task_ids := ar_tasks a;
     erc_max_steps := ar_max_steps a; erc_temperature := ar_temperature a; erc_notes := ar_notes a |}.

Definition report_json (r : EvalRunResult) : json :=
  let c := err_config r in
  JObj [("run_id", JStr (err_run_id r));
        ("config", JObj [("model", JStr (erc_model c)); ("profile", JStr (erc_agent_config_profile c));
                         ("task_ids", JArr (map JStr (erc_task_ids c)));
                         ("max_steps", match erc_max_steps c with Some n => JInt n | None => JNull end);
                         ("temperature", JFloat (erc_temperature c))]);
        ("total_tasks", JInt (err_total_tasks r)); ("completed_tasks", JInt (err_completed_tasks r));
        ("total_steps", JInt (err_total_steps r)); ("total_duration_s", JFloat (err_total_duration_s r));
        ("timestamp", JStr (err_timestamp r))].

Record Bench : Type := { be_profiles : Profiles; be_files : gmap string string }.

Definition fresh_bench : Bench := {| be_profiles := EVAL_PROFILES; be_files := ∅ |}.

(** What the run finds: the lock file's path and text, the benchmark's directory and its
    HEAD, and the clocks. *)
Record Surroundings : Type := {
  su_lock_path : string;
  su_lock : option string;
  su_upstream : string;
  su_is_dir : bool;
  su_head : result string;
  su_started : Z;
  su_finished : Z;
  su_t0 : f64;
  su_t1 : f64;
}.

Definition report_of (a : Args) (w : Surroundings) : EvalRunResult :=
  let id := run_id_of (su_started w) in
  let out_dir := opt_or (ar_output_dir a) results_dir in
  {| err_run_id := id; err_config := config_of a; err_total_tasks := 0; err_completed_tasks := 0; err_total_steps := 0;
     err_total_duration_s := f_sub (su_t1 w) (su_t0 w); err_results_path := out_dir +:+ "/" +:+ id +:+ ".json";
     err_timestamp := isoformat (su_finished w) |}.

(** [main]: [None] when it stops because the benchmark is not at the pinned commit, else the
    path it wrote. *)
Definition main (a : Args) (w : Surroundings) (s : Bench) : result (option string) * Bench :=
  match (let* lock := from_lock_file (su_lock_path w) (su_lock w) in
         verify_upstream_commit (su_upstream w) (su_is_dir w) (su_head w) lock) with
  | Raise e => (Raise e, s)
  | Ok false => (Ok None, s)
  | Ok true =>
      match load_profile a (be_profiles s) with
      | Raise e => (Raise e, s)
      | Ok (_, ps) =>
          let r := report_of a w in
          (Ok (Some (err_results_path r)),
           {| be_profiles := ps; be_files := <[err_results_path r := dumps_indent 0 (report_json r)]> (be_files s) |})
      end
  end.

(** ** Lemmas *)

Lemma profile_of_names ps name : is_ok (profile_of ps name) = ohas ps name.
Proof. unfold profile_of, ohas. by destruct (oget ps name). Qed.

Lemma stock_profile name p : profile_of EVAL_PROFILES name = Ok p -> exists llm, dget p "llm" = Some (JObj llm).
Proof.
  unfold profile_of. cbn [oget EVAL_PROFILES].
  destruct (String.eqb name "default"); [intros [= <-]; eexists; reflexivity|].
  destruct (String.eqb name "long-reasoning"); [intros [= <-]; eexists; reflexivity|].
  destruct (String.eqb name "fast"); [intros [= <-]; eexists; reflexivity|done].
Qed.

Lemma ascii_text_app a b : ascii_text (a +:+ b) = ascii_text a && ascii_text b.
Proof. induction a as [|c a IH]; [done|]. rewrite app_cons. cbn [ascii_text]. by rewrite IH, andb_assoc. Qed.

Lemma ascii_pad w n : ascii_text (pad w n) = true.
Proof.
  revert n; induction w as [|w IH]; intros n; [done|]. cbn [pad]. rewrite ascii_text_app, IH. cbn [ascii_text].
  rewrite andb_true_r. pose proof (Z.mod_pos_bound n 10 ltac:(lia)). apply Z.ltb_lt. rewrite digit_char_code; lia.
Qed.

Lemma ascii_isoformat t : ascii_text (isoformat t) = true.
Proof.
  unfold isoformat. destruct (ord2ymd _) as [[y m] d]. rewrite !ascii_text_app, !ascii_pad.
  destruct (_ =? 0); [done|]. by rewrite ascii_text_app, ascii_pad.
Qed.

Lemma ascii_run_id t : ascii_text (run_id_of t) = true.
Proof. unfold run_id_of. destruct (ord2ymd _) as [[y m] d]. by rewrite !ascii_text_app, !ascii_pad. Qed.

(** The texts and the number of the command line JSON can carry as they are, and times it can print. *)
Definition args_ok (a : Args) (w : Surroundings) : bool :=
  ascii_text (ar_model a) && ascii_text (ar_profile a) && forallb ascii_text (ar_tasks a) &&
  match ar_max_steps a with Some n => int_ok n | None => true end &&
  float_ok (ar_temperature a) && float_ok (f_sub (su_t1 w) (su_t0 w)).

Lemma report_ok a w : args_ok a w = true -> json_ok (report_json (report_of a w)) = true.
Proof.
  unfold args_ok. rewrite !andb_true_iff. intros [[[[[Hm Hp] Ht] Hn] Hf] Hd]. apply json_ok_spec.
  assert (Hdepth : forall l, fold_right Z.max 0 (map depth (map JStr l)) = 0) by (induction l as [|x l IH]; [done|cbn; by rewrite IH]).
  assert (Hts : forallb json_plain (map JStr (ar_tasks a)) = true).
  { rewrite forallb_forall in *. intros v (t & <- & Hin)%in_map_iff. by apply Ht. }
  unfold report_json, report_of. cbn [err_config erc_model erc_agent_config_profile erc_task_ids erc_max_steps erc_temperature
    config_of err_run_id err_total_tasks err_completed_tasks err_total_steps err_total_duration_s err_timestamp].
  split.
  - cbn [json_plain forallb fst snd map]. rewrite Hts, Hm, Hp, Hf, Hd, ascii_run_id, ascii_isoformat.
    destruct (ar_max_steps a); cbn [json_plain]; [by rewrite Hn|done].
  - cbn [depth map fst snd fold_right]. rewrite Hdepth. destruct (ar_max_steps a); vm_compute; discriminate.
Qed.

(** ** Properties *)

(** What the benchmark run writes is read back: when the benchmark is at the pinned
    commit and the profile exists, exactly one file changes, named after the second the run
    started in, and its JSON is the report, with the arguments as given and no task run;
    otherwise no file and no profile changes. *)
Theorem benchmark_report_reads_back a w s :
  args_ok a w = true ->
  let '(r, s') := main a w s in
  match r with
  | Ok (Some path) =>
      exists lock, from_lock_file (su_lock_path w) (su_lock w) = Ok lock /\
        verify_upstream_commit (su_upstream w) (su_is_dir w) (su_head w) lock = Ok true /\
        path = opt_or (ar_output_dir a) results_dir +:+ "/" +:+ run_id_of (su_started w) +:+ ".json" /\
        (exists text, be_files s' !! path = Some text /\ loads text = Ok (report_json (report_of a w))) /\
        (forall p, p <> path -> be_files s' !! p = be_files s !! p)
  | _ => s' = s
  end.
Proof.
  intros Ha. unfold main. destruct (from_lock_file _ _) as [lock|e] eqn:El; [|done]. cbn [res_bind].
  destruct (verify_upstream_commit _ _ _ lock) as [[]|e] eqn:Ev; [|done|done].
  destruct (load_profile a (be_profiles s)) as [[p ps]|e]; [|done]. exists lock.
  split; [done|]. split; [exact Ev|]. split; [done|]. split.
  - eexists. split; [apply lookup_insert_eq|]. apply loads_dumps_indent. by apply report_ok.
  - intros p' Hne. cbn [be_files]. by rewrite lookup_insert_ne.
Qed.

(** The model and temperature of a profile are never used: whichever profile is chosen,
    the run takes the command line's, which have defaults, and keeps the profile's
    provider; and the change stays in the profile for everyone who asks for it later. *)
Theorem profile_model_never_used a w s path s' name :
  be_profiles s = EVAL_PROFILES -> main a w s = (Ok (Some path), s') ->
  exists p p' llm llm', profile_of EVAL_PROFILES (ar_profile a) = Ok p /\ profile_of (be_profiles s') (ar_profile a) = Ok p' /\
    dget p "llm" = Some (JObj llm) /\ dget p' "llm" = Some (JObj llm') /\
    dget llm' "model" = Some (JStr (ar_model a)) /\ dget llm' "temperature" = Some (JFloat (ar_temperature a)) /\
    dget llm' "provider" = dget llm "provider" /\
    (name <> ar_profile a -> oget (be_profiles s') name = oget EVAL_PROFILES name).
Proof.
  intros Hs. unfold main. destruct (res_bind _ _) as [[]|e]; [|done|done]. rewrite Hs.
  unfold load_profile. destruct (profile_of EVAL_PROFILES (ar_profile a)) as [p|e] eqn:Ep; [|done]. cbn [res_bind].
  destruct (stock_profile _ _ Ep) as [llm Hl]. unfold override. clear Hs. revert Ep. generalize EVAL_PROFILES. intros ps Ep.
  set (p1 := match ar_max_steps a with Some n => _ | None => p end).
  assert (Hl1 : dget p1 "llm" = Some (JObj llm)).
  { subst p1. destruct (ar_max_steps a) as [n|]; [|done]. destruct (n =? 0); [done|]. by rewrite dget_dset_ne. }
  unfold set_llm. rewrite Hl1. cbn [res_bind]. rewrite dget_dset_eq. cbn [res_bind]. intros [= _ <-].
  cbn [be_profiles]. eexists p, _, llm, _. split; [done|]. split.
  { unfold profile_of. by rewrite oget_oset_eq. }
  split; [done|]. split; [apply dget_dset_eq|]. split_and!.
  - by rewrite dget_dset_ne, dget_dset_eq.
  - apply dget_dset_eq.
  - by rewrite !dget_dset_ne.
  - intros Hn. by rewrite oget_oset_ne.
Qed.

(** Every profile of the module runs on the same model when none is named. *)
Lemma default_model_everywhere name p :
  profile_of EVAL_PROFILES name = Ok p ->
  exists p' ps llm, load_profile {| ar_model := ar_model default_args; ar_profile := name; ar_tasks := []; ar_max_steps := None;
      ar_temperature := f_zero; ar_output_dir := None; ar_notes := "" |} EVAL_PROFILES = Ok (p', ps) /\
    dget p' "llm" = Some (JObj llm) /\ dget llm "model" = Some (JStr "claude-sonnet-4-6").
Proof.
  intros Hp. unfold load_profile, override, set_llm. cbn [ar_profile ar_max_steps ar_model ar_temperature default_args]. rewrite Hp.
  destruct (stock_profile _ _ Hp) as [llm Hl]. cbn [res_bind]. rewrite Hl. cbn [res_bind]. rewrite dget_dset_eq. cbn [res_bind].
  eexists _, _, _. split; [reflexivity|]. split; [apply dget_dset_eq|]. by rewrite dget_dset_ne, dget_dset_eq.
Qed.

(** ** Witnesses *)

Definition witness_surroundings : Surroundings :=
  {| su_lock_path := "/repo/UPSTREAM.lock"; su_lock := Some (join NL (map lock_line (fields the_lock)));
     su_upstream := "/repo/upstream"; su_is_dir := true; su_head := Ok (commit the_lock +:+ NL); su_started := noon_2026;
     su_finished := noon_2026 + 1500000; su_t0 := f_of_Z 1; su_t1 := f_of_Z 3 |}.

Definition witness_args : Args :=
  {| ar_model := "claude-sonnet-4-6"; ar_profile := "fast"; ar_tasks := ["t-1"]; ar_max_steps := Some 0;
     ar_temperature := f_zero; ar_output_dir := None; ar_notes := "" |}.

Example benchmark_report_reads_back_witness :
  exists s', main witness_args witness_surroundings fresh_bench
      = (Ok (Some "artifacts/eval-results/20260625-120000.json"), s') /\
    exists text, be_files s' !! "artifacts/eval-results/20260625-120000.json" = Some text /\
      loads text = Ok (report_json (report_of witness_args witness_surroundings)).
Proof.
  pose proof (benchmark_report_reads_back witness_args witness_surroundings fresh_bench ltac:(vm_compute; reflexivity)) as H.
  destruct (main witness_args witness_surroundings fresh_bench) as [r s'] eqn:E.
  assert (Hr : fst (main witness_args witness_surroundings fresh_bench) = Ok (Some "artifacts/eval-results/20260625-120000.json"))
    by (vm_compute; reflexivity).
  rewrite E in Hr. cbn [fst] in Hr. subst r. destruct H as (_ & _ & _ & _ & Ht & _). exists s'. split; [reflexivity|exact Ht].
Defined.

Example profile_model_never_used_witness :
  exists p' llm', profile_of (be_profiles (snd (main witness_args witness_surroundings fresh_bench))) "fast" = Ok p' /\
    dget p' "llm" = Some (JObj llm') /\ dget llm' "model" = Some (JStr "claude-sonnet-4-6").
Proof.
  destruct (main witness_args witness_surroundings fresh_bench) as [r s'] eqn:E.
  assert (Hr : fst (main witness_args witness_surroundings fresh_bench) = Ok (Some "artifacts/eval-results/20260625-120000.json"))
    by (vm_compute; reflexivity).
  rewrite E in Hr. cbn [fst] in Hr. subst r.
  destruct (profile_model_never_used witness_args witness_surroundings fresh_bench _ s' "fast" eq_refl E)
    as (_ & p' & _ & llm' & _ & Hp & _ & Hl & Hm & _).
  exists p', llm'. split; [exact Hp|]. split; [exact Hl|exact Hm].
Defined.
